(* ===== verification/_CoqProject ===== *)
-Q . S2P
Prelude.v
Kernel.v
Monad.v
Refine.v
Kbd.v
KbdSession.v
KbdRuns.v
KbdReaders.v
So2Cdev.v
So2Threads.v
KList.v
ListSync.v
ListSym.v
ListLife.v
Timer.v
TimerRace.v
Memory.v
NonMemory.v
Packet.v
Sockets.v
ListBasic.v
ListFull.v
Alloc.v
SmallMods.v
User.v
Devices.v
Lifetime.v
KbdLife.v
So2Life.v
MemoryLife.v
NonMemoryLife.v
PacketLife.v
TimerLife.v
So2Spec.v
TimerSpec.v
TimerClient.v
PacketClient.v
MemoryClient.v
