(* ===== verification/Prelude.v ===== *)
(** * Device-Drivers: a verification library

    The repository is a collection of Linux kernel modules in C - character
    device drivers under src/Drivers, smaller modules under src/KernelModules -
    and of C++ programs that use three of them.  Every C and C++ function of the
    repository is translated here, with the theorems that say what it does.

    ** The program and its parts

    A driver is loaded by its init function, which acquires device numbers, I/O
    ports, interrupts, timers, memory or sockets.  Then the kernel calls it: the
    handlers of its operation table on behalf of processes, its interrupt, timer,
    work or packet handlers on their own account.  The exit function gives
    everything back.  The parts meet in four places: handlers of one driver share
    its state and interrupt each other; list-sym calls the functions that
    list-sync exports; the user programs reach the drivers through system calls;
    and everything calls the kernel.

    ** How C becomes Rocq

    - [Kernel]: each function of the Linux headers is a constructor of [kcall].
      What a call returns is the answer of an [oracle], a function of the history
      ([trace]) of all earlier calls and answers; a theorem over all oracles
      holds for every behaviour of the kernel.  The answer is the value of the C
      return type, and where the code stores it in an [int] the definition
      converts it ([s32]).  [held t] is what is still owned after the history
      [t]; [disciplined t] says that nothing was released that was not owned, no
      lock was taken twice, and nothing that may sleep was called with a spinlock
      held.
    - [Monad]: [M S A] is a computation over the state [S] of a driver - its
      globals and what they point to - that returns [Done] with a value, a new
      state and a longer history, or [Oops]: a NULL, freed or foreign pointer
      dereferenced, or an index outside an array.  [wp] is its total weakest
      precondition, so that a theorem stated with it also says that the code
      returns; [wpx] has a second postcondition, for the [Oops].
    - Integers are [Z] with an explicit [wrap] or [swrap] of this file wherever C
      wraps or converts.  Pointers are addresses ([Z], [NULL] = 0).  A struct is a
      record, [container_of] is the subtraction of an offset, and out-parameters
      are returned.  The conditions of the code are kept as tests by [decide].
    - Loops are structural: [for_range] counts, and the iteration macros of
      linux/list.h in [KList] have the number of allocated objects as fuel, which
      suffices because the nodes of a well-formed list are different objects; the
      loop of [NonMemory.mmap_pages] has the number of pages that the guard before
      it admits.  Running out of fuel is an [Oops], which every theorem about
      these loops excludes.
    - Concurrency is a step relation whose steps are the critical sections and the
      unprotected accesses of the code, in any interleaving: [Kbd.step] and, for
      any number of readers, [KbdReaders]; the single bytes of [So2Threads]; the
      critical sections of [ListSync]; the monitor ioctl, handlers and work items
      of [Timer]; the handler that runs on during an unload in [TimerRace].  The
      theorems are by induction on runs.
    - The life of a module ([Lifetime]) is a step relation too: loads, opens, calls
      on open files, closes, events and unloads, in any order.  [Managed] says what
      an invariant has to promise for the kernel's reference counts to keep it, or,
      for the two drivers whose operation table names no owner, an administrator
      who closes before unloading ([permitted_run]).  Where a driver ignores or
      mishandles the failure of a call, the invariant is kept [until] an action in
      which that call fails; the failures are named in each theorem.  [ListLife] is the same for the
      two modules of which one uses the symbols of the other.
    - Specifications ([Refine]): an abstract state and the events that change it, with
      their results and what is seen of them; [Refines] says that every call of the
      code is such an event, and then every sequence of calls is a run of them.

    ** Files

    - [Prelude]: machine integers, strings, multisets as lists, notations, hints.
    - [Kernel], [Monad], [Refine]: as above.
    - [KList]: linux/list.h and the slab allocator as the interface [ListOps] with
      the laws [ListLaws], the iteration macros, the representation predicate
      [holds] and the invariant [heap_inv] of the list modules, and [DList], the
      circular doubly linked list of linux/list.h over a map of links, which has
      these laws.
    - [Kbd]: Drivers/kbd/kbd.c.  [KbdSession]: from the I/O port to the user.
      [KbdRuns]: termination of a reader, and where its bytes come from, over all
      interleavings.  [KbdReaders]: any number of readers.
    - [So2Cdev]: Drivers/so2_cdev/kernel/so2_cdev.c.  [So2Threads]: its handlers
      byte by byte, and threads in them.  [So2Spec]: what the device promises, and
      that it keeps it.
    - [Timer]: Drivers/deferredTimer/kernel/timer.c and include/deferred.h.
      [TimerRace]: the loop of its exit function against a running handler.
      [TimerSpec]: what the driver promises, and that it keeps it.
    - [Memory], [NonMemory]: Drivers/memory/kernel/memory.c and
      Drivers/nonConMemory/kernel/nonMemory.c.
    - [Packet]: KernelModules/packet-mod (kernel/packet.c, kernel/print.h,
      include/packet.h).  [Sockets]: KernelModules/tcp-mod and udp-mod.
    - [ListSync], [ListSym]: KernelModules/list-sync-mod and list-sym-mod, and
      [ListLife], both over their lives.  [ListBasic], [ListFull]: kernel-Lists-mod
      and kernel-Lists-full-mod.
    - [Alloc]: kernelMemory-mod and kernelAlloc-mod.  [SmallMods]: deferred-mod,
      sched-spin-mod, proc-info-mod, error-mod, multi-mod, kernel-oops-mod,
      cmd-mod and hello-1, one Module each.
    - [User]: the C++ side - exceptions, system calls as the class [Sys],
      [CharDevice] for how they reach a driver, [std::stoi].  [Devices]: the
      operation tables of the drivers and the dispatch of system calls through
      them, and what packet.c registers.
    - [Lifetime]: module, files and references as the kernel keeps them.
      [KbdLife], [So2Life], [TimerLife], [PacketLife], [MemoryLife],
      [NonMemoryLife]: the drivers over their lives.
    - [TimerClient]: Drivers/deferredTimer/user.  [PacketClient]:
      KernelModules/packet-mod/user.  [MemoryClient]: Drivers/memory/user.  Each
      has the program over any system, then the program with its driver.

    A definition has the name of the C function it translates; a loop body or a
    critical section that had to be named is next to its function.

    ** What the theorems show

    - Keyboard.  In every interleaving of a reader, interrupts and writers the
      buffer stays in its bounds, locks are used correctly, no handler faults and the
      reader can always move ([kbd_interleaving_safe]), returns within a bounded
      number of its own steps ([kbd_read_terminates]), and gets no byte that was
      neither in the buffer nor typed ([kbd_bytes_were_typed]).  [kbd_read] delivers a prefix of the buffer
      ([kbd_read_delivers]), [get_ascii] is a lookup in the key map, and a user who
      keeps up is offered what was typed, in order, and receives it but for the
      characters whose copy faults ([session_delivers]); one who does not loses characters, because presses are stored at the read index
      ([presses_overwrite]).  Any number of readers are as safe as one
      ([readers_safe]), and together they share what is typed, each character once
      ([readers_share]).
    - so2.  With faults anywhere the handlers refine an abstract message slot
      ([so2_refines_slot]); what is written is read back ([so2_write_read]);
      threads interleaved at every byte never leave the buffer and always return
      ([so2_threads_safe]); one file is open at a time ([so2_life]).
    - Lists.  [task_info_add_to_list] refines an update of a finite map, or
      dereferences the NULL that [kmalloc] gave it; expiry removes exactly the expired
      entries; threads interleaved at their critical sections keep the list well
      formed and the memory accounted for, but can insert one pid twice
      ([concurrent_add_duplicates]).  list-sym is verified against an interface that
      list-sync is shown to implement ([list_sync_implements]).  The two, loaded and
      unloaded in any order, go wrong in two ways only: list-sync is unloaded after
      list-sym has emptied the list, or an allocation of a load fails ([lists_life]).
      What the loads of the other list modules record when some allocations fail, what
      they expire, and that they give all back.
    - Timer.  The driver refines a watch: a mode, one alarm and a list of tasks, the
      dead ones among which are let go of when the alarm goes off in monitoring mode;
      the observations of the specification fix the time of the alarm and the tasks
      ([timer_refines_watch]); with the consequence that a death is noticed by the
      alarm of its monitor command or not at all ([unnoticed_deaths]).  Every ioctl on
      every branch, and a state machine of ioctls, timer handlers and work items
      in any order, in which memory and task references stay accounted for up to
      the unload ([driver_load_run_unload]).  A handler that is still running
      during the unload can make it read freed memory ([unload_races_handler]).
    - Memory.  Both drivers map only their own pages and refuse larger areas; load
      and the /proc total.  As long as no file is open at an unload, every frame
      that is ever mapped is, at that moment, a reserved page of memory that the
      driver holds ([memory_life], [nonmemory_life]); else an unload frees pages
      that processes have mapped ([unload_while_mapped]).
    - Packets and sockets.  The filter that an ioctl sets is the one the hook uses,
      and only connections to the address announced last are logged
      ([packet_life]), up to an ioctl whose copy faults; every way in which the loads of the network modules can end.
    - Lives.  Whatever is loaded, opened, called, closed, interrupted and unloaded in
      whatever order, the keyboard, so2, timer and filter modules never crash, no
      file outlives its module, and what is held is what the state of the module
      says ([kbd_life], [so2_life], [timer_life], [packet_life]) - up to the first
      failure of a call that the driver does not handle: [cdev_add] in so2 and the
      timer; a port, [cdev_add] or [request_irq] in the keyboard; a copy of an ioctl or
      [misc_register] in the filter; in the memory drivers an allocation or, but for
      the device number of the kmalloc one, a registration.
    - User programs.  No command line breaks the timer driver
      ([command_line_safe]), and the commands do what their names say; the filter
      program sees only the connection it asks for, on every network
      ([client_filters]); the memory program prints memory that nobody has written
      ([client_prints_stale]).
    - Load and unload.  What is held after each outcome of an init function, and
      that unload gives it back, or what leaks.

    Where the code does something else than it means to, the theorem states what
    it does.

    ** Hypotheses

    What is not under src/ is a parameter.  Its documented behaviour is a class of
    laws, and each has an instance that the witnesses use: [ListLaws] (list.h,
    shown for [DList]), [HeapLaws] ([kmalloc] gives memory not in use),
    [ErrPtrLaws], [IoctlLaws] (different commands have different codes),
    [PageAlignLaws], [LinearMap] ([virt_to_phys]), [VmMap] ([vmalloc_to_page], and
    that the map changes only with [vmalloc] and [vfree]), [So2.MemLaws]
    ([copy_from_user], [strscpy]), [Packet.EnvLaws], [Tasks] (a task list that
    does not change under the caller), [CharDevice], [PacketClient.Network] and
    [MemoryClient.Mapping] (system calls, the packets they send, mapped memory).
    The theorems on lives suppose that a registration returns 0 or a negative error,
    those on list-sync that its head is not at the address [offsetof(list)].  Theorems
    about one course of events - [concurrent_add_duplicates], [unload_while_mapped],
    [client_prints_stale], the load of a single driver - suppose that the calls in it
    succeed, as a hypothesis of the theorem.
    The classes [Layout] hold addresses and sizes that compiler and linker choose.

    ** Not modelled

    - Makefiles, Doxygen files, README files, editor and build databases: no code.
    - src/Drivers/so2_cdev/user/someRandomApp.c, which is empty, and the forward
      declarations and include guards of the headers.
    - [MODULE_LICENSE] and the like, [module_init], [module_exit],
      [module_param]: declarations for the build, which fix the order of calls
      that the theorems on load and unload assume.
    - Weak memory: a step of an interleaving is atomic, which for an access
      outside a critical section supposes an aligned word.
    - The rest of the kernel, beyond the answers of the oracle: no scheduler, page
      tables or device hardware. *)

From stdpp Require Export prelude gmap strings list.
From Stdlib Require Export ZArith Lia.

#[export] Set Default Goal Selector "!".
#[global] Open Scope Z_scope.

Declare Scope cint_scope.
Delimit Scope cint_scope with cint.

(** ** Machine integers

    A C integer of width [w] is a [Z]; arithmetic that the C abstract machine
    performs on unsigned types is followed by an explicit [wrap]. *)

(** Reduction modulo [2^w]: the value an unsigned [w]-bit object holds. *)
Definition wrap (w z : Z) : Z := z mod 2 ^ w.

(** The value a signed [w]-bit object holds after a conversion (two's
    complement, as on every Linux target). *)
Definition swrap (w z : Z) : Z := (z + 2 ^ (w - 1)) mod 2 ^ w - 2 ^ (w - 1).

Abbreviation u8 := (wrap 8) (only parsing).
Abbreviation u32 := (wrap 32) (only parsing).
Abbreviation u64 := (wrap 64) (only parsing).
Abbreviation s32 := (swrap 32) (only parsing).
Abbreviation s64 := (swrap 64) (only parsing).

Notation "x +64 y" := (wrap 64 (x + y)) (at level 50, left associativity) : cint_scope.
Notation "x -64 y" := (wrap 64 (x - y)) (at level 50, left associativity) : cint_scope.

Lemma wrap_bounds w z : 0 <= w -> 0 <= wrap w z < 2 ^ w.
Proof. intros ?. unfold wrap. apply Z.mod_pos_bound. lia. Qed.

Lemma wrap_small w z : 0 <= z < 2 ^ w -> wrap w z = z.
Proof. apply Z.mod_small. Qed.

Lemma wrap_wrap w z : 0 <= w -> wrap w (wrap w z) = wrap w z.
Proof. intros. apply wrap_small, wrap_bounds; lia. Qed.

Lemma swrap_small w z : 0 < w -> - 2 ^ (w - 1) <= z < 2 ^ (w - 1) -> swrap w z = z.
Proof.
  intros Hw Hz. unfold swrap.
  assert (2 ^ w = 2 * 2 ^ (w - 1)) as E.
  { replace w with (1 + (w - 1)) at 1 by lia. rewrite Z.pow_add_r; lia. }
  rewrite Z.mod_small; lia.
Qed.

(** The age [now - then] of a free-running [w]-bit counter is the elapsed
    time, whatever the number of wrap-arounds of the counter itself, as long
    as the elapsed time fits the counter. *)
Lemma wrap_age w a d : 0 <= d < 2 ^ w -> wrap w (wrap w (a + d) - wrap w a) = d.
Proof.
  intros Hd. unfold wrap.
  rewrite <- Zminus_mod. replace (a + d - a) with d by lia.
  by apply Z.mod_small.
Qed.

Create HintDb cint discriminated.
#[export] Hint Resolve wrap_bounds : cint.

(** ** Strings *)

(** The bytes of a string literal, without its terminating NUL. *)
Fixpoint bytes_of_string (s : string) : list Z :=
  match s with
  | EmptyString => []
  | String a s' => Z.of_N (Ascii.N_of_ascii a) :: bytes_of_string s'
  end.

(** A string literal as the array of [char] it denotes. *)
Definition c_string (s : string) : list Z := bytes_of_string s ++ [0].

(** ** Lists *)

(** [drop_one x l] removes the newest occurrence of [x]. *)
Fixpoint drop_one {A} `{EqDecision A} (x : A) (l : list A) : list A :=
  match l with
  | [] => []
  | y :: l' => if decide (x = y) then l' else y :: drop_one x l'
  end.

Section drop_one.
Context {A : Type} `{EqDecision A}.
Implicit Types (x y : A) (l : list A).

Lemma drop_one_cons x l : drop_one x (x :: l) = l.
Proof. simpl. by rewrite decide_True. Qed.

Lemma drop_one_cons_ne x y l : x <> y -> drop_one x (y :: l) = y :: drop_one x l.
Proof. intros. simpl. by rewrite decide_False. Qed.

Lemma drop_one_notin x l : x ∉ l -> drop_one x l = l.
Proof.
  induction l as [|y l IH]; [done|]. intros [??]%not_elem_of_cons.
  rewrite drop_one_cons_ne by done. by rewrite IH.
Qed.

Lemma drop_one_elem x y l : x <> y -> y ∈ drop_one x l <-> y ∈ l.
Proof.
  intros Hne. induction l as [|z l IH]; [done|]. simpl.
  case_decide as E.
  { subst z. split; [by right|]. by intros [->|?]%elem_of_cons. }
  rewrite !elem_of_cons, IH. done.
Qed.

Lemma drop_one_perm x l : x ∈ l -> x :: drop_one x l ≡ₚ l.
Proof.
  induction l as [|y l IH]; [by intros ?%elem_of_nil|]. intros Hin. simpl.
  case_decide as E; [by subst|].
  rewrite Permutation_swap, IH; [done|].
  apply elem_of_cons in Hin as [?|?]; [congruence|done].
Qed.

Lemma drop_one_perm_cons x l l' : l ≡ₚ x :: l' -> drop_one x l ≡ₚ l'.
Proof.
  intros Hp. apply (Permutation_cons_inv (a := x)). rewrite drop_one_perm; [done|].
  rewrite Hp. by left.
Qed.

End drop_one.

(** Replacing one element of a list under [omap]. *)
Lemma omap_insert {A B} (f : A -> option B) (l : list A) i x y :
  l !! i = Some x ->
  option_list (f x) ++ omap f (<[i := y]> l) ≡ₚ option_list (f y) ++ omap f l.
Proof.
  revert i. induction l as [|z l IH]; intros [|i] E; try discriminate E.
  - cbn in E. simplify_eq. cbn. destruct (f x), (f y); cbn; done || apply Permutation_swap.
  - specialize (IH i E). change (<[S i := y]> (z :: l)) with (z :: <[i := y]> l).
    assert (Ec : forall k, omap f (z :: k) = option_list (f z) ++ omap f k).
    { intros k. cbn. by destruct (f z). }
    rewrite !Ec, (Permutation_app_swap_app (option_list (f x))), IH.
    apply Permutation_app_swap_app.
Qed.

(** ** Runs *)

(** What every step of a relation keeps holds after every run. *)
Lemma rtc_keeps {A} (I : A -> Prop) {R : relation A} {x y} :
  rtc R x y -> (forall x y, R x y -> I x -> I y) -> I x -> I y.
Proof. intros Hrun Hstep. induction Hrun as [|x y z Hxy _ IH]; [done|]. eauto. Qed.
