(* ===== verification/Kernel.v ===== *)
(** * The kernel API as the drivers see it

    The functions of the Linux headers are not part of this repository.  A
    call of one of them is a value of [kcall]; what it returns is the answer
    of an [oracle], a function of the history of all earlier calls, which every
    definition of the development takes as its parameter.  A theorem that
    quantifies over the oracle therefore holds for every behaviour of the
    kernel; what a theorem needs of the kernel is one of the named hypotheses
    at the end of this file.

    The file also holds the accounting of resources over a history: what is
    held after it, and whether it is disciplined (nothing released that is not
    held, no lock taken twice, no blocking call in atomic context). *)

From S2P Require Import Prelude.

(** ** Calls *)

Inductive gfp := GFP_KERNEL | GFP_ATOMIC.

(** An argument of a [printk] format string. *)
Inductive karg := KInt (z : Z) | KStr (s : string).

Inductive kcall :=
  (* linux/printk.h: pr_info, pr_debug, printk *)
  | printk (fmt : string) (args : list karg)
  (* linux/fs.h, linux/cdev.h, linux/miscdevice.h, linux/proc_fs.h *)
  | register_chrdev_region (dev count : Z) (name : string)
  | unregister_chrdev_region (dev count : Z)
  | cdev_init (cdev : Z)
  | cdev_add (cdev dev count : Z)
  | cdev_del (cdev : Z)
  | misc_register (name : string)
  | misc_deregister (name : string)
  | proc_create (name : string)
  | remove_proc_entry (name : string)
  | single_open (file : Z)
  (* linux/ioport.h, linux/interrupt.h, asm/io.h *)
  | request_region (port n : Z) (name : string)
  | release_region (port n : Z)
  | request_irq (irq : Z) (name : string) (dev_id : Z)
  | free_irq (irq dev_id : Z)
  | inb (port : Z)
  (* linux/spinlock.h, linux/rwlock.h, linux/rcupdate.h *)
  | spin_lock_init (lock : Z)
  | spin_lock (lock : Z)
  | spin_unlock (lock : Z)
  | spin_lock_irqsave (lock : Z)
  | spin_unlock_irqrestore (lock : Z)
  | spin_lock_bh (lock : Z)
  | spin_unlock_bh (lock : Z)
  | read_lock (lock : Z)
  | read_unlock (lock : Z)
  | write_lock (lock : Z)
  | write_unlock (lock : Z)
  | rcu_read_lock
  | rcu_read_unlock
  (* linux/slab.h, linux/vmalloc.h, linux/mm.h *)
  | kmalloc (size : Z) (flags : gfp)
  | kfree (p : Z)
  | uninitialised (p : Z) (field : string)
  | vmalloc (size : Z)
  | vfree (p : Z)
  | vmalloc_to_pfn (p : Z)
  | vmalloc_to_page (p : Z)
  | virt_to_phys (p : Z)
  | virt_to_page (p : Z)
  | SetPageReserved (page : Z)
  | ClearPageReserved (page : Z)
  | remap_pfn_range (vma addr pfn size prot : Z)
  | mmap_read_lock (mm : Z)
  | mmap_read_unlock (mm : Z)
  | mmput (mm : Z)
  | seq_printf (fmt : string) (args : list karg)
  (* linux/uaccess.h *)
  | put_user (c dst : Z)
  | copy_to_user (dst : Z) (bytes : list Z)
  | copy_from_user (src n : Z)
  (* linux/jiffies.h, linux/timer.h, linux/workqueue.h, linux/sched.h *)
  | read_jiffies
  | timer_setup (timer : Z)
  | mod_timer (timer expires : Z)
  | del_timer (timer : Z)
  | del_timer_sync (timer : Z)
  | INIT_WORK (work : Z)
  | schedule_work (work : Z)
  | cancel_work_sync (work : Z)
  | set_current_state_interruptible
  | schedule_timeout (ticks : Z)
  | schedule_timeout_interruptible (ticks : Z)
  (* linux/sched.h, linux/sched/task.h, linux/sched/signal.h *)
  | current
  | task_parent (task : Z)
  | next_task (task : Z)
  | task_pid (task : Z)
  | task_state (task : Z)
  | task_comm (task : Z)
  | pid_task (pid : Z)
  | get_task_struct (task : Z)
  | put_task_struct (task : Z)
  | get_task_mm (task : Z)
  (* linux/netfilter.h *)
  | nf_register_net_hook (ops : Z)
  | nf_unregister_net_hook (ops : Z)
  (* linux/net.h; [socket_stored] is the socket that a successful call has
     stored through its pointer argument *)
  | sock_create_kern (family type protocol : Z)
  | sock_create_lite (family type protocol : Z)
  | socket_stored
  | sock_bind (sock family port addr : Z)
  | sock_listen (sock backlog : Z)
  | sock_accept (sock new_sock : Z)
  | sock_getname (sock : Z)
  | kernel_sendmsg (sock family port addr : Z) (bytes : list Z)
  | sock_release (sock : Z)
  (* the C++ library, for the user programs: [std::cout << ...] *)
  | cout (args : list karg).

(** One call and its answer ([0] for a call of type [void]). *)
Abbreviation event := (kcall * Z)%type.

(** A history of calls, the newest first. *)
Abbreviation trace := (list event).

(** The kernel: the answer it gives to a call after a history. *)
Abbreviation oracle := (trace -> kcall -> Z).

(** ** Constants of the Linux ABI *)

Definition EPERM := 1.
Definition ESRCH := 3.
Definition EIO := 5.
Definition ENOMEM := 12.
Definition EFAULT := 14.
Definition EBUSY := 16.
Definition EINVAL := 22.
Definition NULL := 0.

(** [MKDEV(major, minor)]: the device number, 20 bits of minor. *)
Definition MKDEV (major minor : Z) : Z := Z.lor (Z.shiftl major 20) minor.

(** linux/err.h: a negative errno carried by a pointer. *)
Class ErrPtr := { ERR_PTR : Z -> Z; IS_ERR : Z -> bool; PTR_ERR : Z -> Z }.

Class ErrPtrLaws `{ErrPtr} : Prop := {
  is_err e : -4095 <= e < 0 -> IS_ERR (ERR_PTR e) = true;
  ptr_err e : -4095 <= e < 0 -> PTR_ERR (ERR_PTR e) = e
}.

(** Build configuration: ticks per second and the size of a page. *)
Class Config := { HZ : Z; PAGE_SHIFT : Z }.
Definition PAGE_SIZE `{Config} : Z := 2 ^ PAGE_SHIFT.

(** linux/mm.h: the least page boundary that is not below an address. *)
Class PageAlign `{Config} := { PAGE_ALIGN : Z -> Z }.

Class PageAlignLaws `{PageAlign} : Prop := {
  page_align_bounds a : a <= PAGE_ALIGN a < a + PAGE_SIZE;
  page_align_divide a : (PAGE_SIZE | PAGE_ALIGN a)
}.

(** ** Resources *)

Inductive resource :=
  | Rchrdev (dev count : Z)
  | Rcdev (cdev : Z)
  | Rmisc (name : string)
  | Rproc (name : string)
  | Rport (port n : Z)
  | Rirq (irq dev_id : Z)
  | Rlock (lock : Z)
  | Rrlock (lock : Z)
  | Rrcu
  | Rmem (p : Z)
  | Rvmem (p : Z)
  | Rpage (page : Z)
  | Rtask (task : Z)
  | Rmm (mm : Z)
  | Rmmlock (mm : Z)
  | Rhook (ops : Z)
  | Rsock (sock : Z).

#[export] Instance resource_eq_dec : EqDecision resource.
Proof. solve_decision. Defined.

#[export] Instance gfp_eq_dec : EqDecision gfp.
Proof. solve_decision. Defined.

#[export] Instance karg_eq_dec : EqDecision karg.
Proof. solve_decision. Defined.

#[export] Instance kcall_eq_dec : EqDecision kcall.
Proof. solve_decision. Defined.

Definition when (b : bool) (r : resource) : option resource :=
  if b then Some r else None.

(** What an event acquires: the documented meaning of its answer. *)
Definition acquires (e : event) : option resource :=
  let '(c, r) := e in
  match c with
  | register_chrdev_region d n _ => when (r =? 0) (Rchrdev d n)
  | cdev_add c _ _ => when (r =? 0) (Rcdev c)
  | misc_register n => when (r =? 0) (Rmisc n)
  | proc_create n => when (negb (r =? 0)) (Rproc n)
  | request_region p n _ => when (negb (r =? 0)) (Rport p n)
  | request_irq i _ d => when (r =? 0) (Rirq i d)
  | spin_lock l | spin_lock_irqsave l | spin_lock_bh l | write_lock l =>
      Some (Rlock l)
  | read_lock l => Some (Rrlock l)
  | rcu_read_lock => Some Rrcu
  | kmalloc _ _ => when (negb (r =? 0)) (Rmem r)
  | vmalloc _ => when (negb (r =? 0)) (Rvmem r)
  | SetPageReserved p => Some (Rpage p)
  | get_task_struct p => Some (Rtask p)
  | get_task_mm _ => when (negb (r =? 0)) (Rmm r)
  | mmap_read_lock m => Some (Rmmlock m)
  | nf_register_net_hook o => when (negb (r <? 0)) (Rhook o)
  | socket_stored => Some (Rsock r)
  | _ => None
  end.

(** What an event releases ([kfree(NULL)] and [vfree(NULL)] do nothing). *)
Definition releases (e : event) : option resource :=
  match fst e with
  | unregister_chrdev_region d n => Some (Rchrdev d n)
  | cdev_del c => Some (Rcdev c)
  | misc_deregister n => Some (Rmisc n)
  | remove_proc_entry n => Some (Rproc n)
  | release_region p n => Some (Rport p n)
  | free_irq i d => Some (Rirq i d)
  | spin_unlock l | spin_unlock_irqrestore l | spin_unlock_bh l
  | write_unlock l => Some (Rlock l)
  | read_unlock l => Some (Rrlock l)
  | rcu_read_unlock => Some Rrcu
  | kfree p => when (negb (p =? 0)) (Rmem p)
  | vfree p => when (negb (p =? 0)) (Rvmem p)
  | ClearPageReserved p => Some (Rpage p)
  | put_task_struct p => Some (Rtask p)
  | mmput m => Some (Rmm m)
  | mmap_read_unlock m => Some (Rmmlock m)
  | nf_unregister_net_hook o => Some (Rhook o)
  | sock_release s => Some (Rsock s)
  | _ => None
  end.

(** Calls that may block: illegal while a spinlock, an rwlock or an RCU
    read-side section is held. *)
Definition may_sleep (c : kcall) : bool :=
  match c with
  | kmalloc _ GFP_KERNEL | vmalloc _ | vfree _
  | put_user _ _ | copy_to_user _ _ | copy_from_user _ _
  | schedule_timeout _ | schedule_timeout_interruptible _
  | cancel_work_sync _ | request_irq _ _ _ | free_irq _ _
  | register_chrdev_region _ _ _ | cdev_add _ _ _ | cdev_del _
  | mmap_read_lock _ | mmput _ | proc_create _ | remove_proc_entry _
  | misc_register _ | misc_deregister _
  | nf_register_net_hook _ | nf_unregister_net_hook _
  | sock_create_kern _ _ _ | sock_create_lite _ _ _ | sock_bind _ _ _ _ | sock_listen _ _
  | sock_accept _ _ | sock_getname _ | kernel_sendmsg _ _ _ _ _ | sock_release _ => true
  | _ => false
  end.

(** Resources whose holder is in atomic context. *)
Definition is_atomic (r : resource) : bool :=
  match r with
  | Rlock _ | Rrlock _ | Rrcu => true
  | _ => false
  end.

(** The resources held after a history, the newest first. *)
Fixpoint held (t : trace) : list resource :=
  match t with
  | [] => []
  | e :: t' =>
      match releases e with
      | Some r => drop_one r (held t')
      | None =>
          match acquires e with
          | Some r => r :: held t'
          | None => held t'
          end
      end
  end.

(** An event is allowed when [h] is held. *)
Definition event_ok (h : list resource) (e : event) : bool :=
  match releases e with
  | Some r => bool_decide (r ∈ h)
  | None =>
      negb (may_sleep (fst e) && existsb is_atomic h) &&
      match acquires e with
      | Some (Rlock l) => bool_decide ((Rlock l ∉ h) /\ (Rrlock l ∉ h))
      | Some (Rrlock l) => bool_decide (Rlock l ∉ h)
      | _ => true
      end
  end.

(** Every event of the history was allowed. *)
Fixpoint disciplined (t : trace) : bool :=
  match t with
  | [] => true
  | e :: t' => disciplined t' && event_ok (held t') e
  end.

(** No spinlock, rwlock or RCU section is held: process context may block. *)
Definition preemptible (t : trace) : bool := negb (existsb is_atomic (held t)).

(** The same for a list of resources. *)
Definition free_context (h : list resource) : Prop := existsb is_atomic h = false.

(** ** What a process has received through [put_user] *)

(** The successful single-byte copies of a history, the oldest first. *)
Fixpoint user_writes (t : trace) : list (Z * Z) :=
  match t with
  | [] => []
  | (put_user c dst, r) :: t' =>
      if decide (r = 0) then user_writes t' ++ [(dst, c)] else user_writes t'
  | _ :: t' => user_writes t'
  end.

(** The bytes that [copy_to_user] has delivered; its answer is the number of
    bytes at the end that it could not copy. *)
Fixpoint copied_out (t : trace) : list Z :=
  match t with
  | [] => []
  | (copy_to_user _ bytes, r) :: t' =>
      copied_out t' ++ take (length bytes - Z.to_nat r) bytes
  | _ :: t' => copied_out t'
  end.

(** The values of [jiffies] that were read, the oldest first. *)
Fixpoint readings (t : trace) : list Z :=
  match t with
  | [] => []
  | (read_jiffies, r) :: t' => readings t' ++ [wrap 64 r]
  | _ :: t' => readings t'
  end.

(** The answers to [kmalloc], the oldest first. *)
Fixpoint allocations (t : trace) : list Z :=
  match t with
  | [] => []
  | (kmalloc _ _, r) :: t' => allocations t' ++ [r]
  | _ :: t' => allocations t'
  end.

(** ** Hypotheses on the kernel *)

(** The allocator does not run out of memory. *)
Definition never_fails (K : oracle) : Prop := forall t n f, K t (kmalloc n f) <> NULL.

(** Memory is not in the range of the error pointers. *)
Definition no_error_pointers `{ErrPtr} (K : oracle) : Prop :=
  forall t n f, IS_ERR (K t (kmalloc n f)) = false.

(** The task list does not change under the caller: [me] is the running task. *)
Class Tasks (K : oracle) (me : Z) (parent next tpid : Z -> Z) : Prop := {
  current_is t : K t current = me;
  parent_is t x : K t (task_parent x) = parent x;
  next_is t x : K t (next_task x) = next x;
  pid_is t x : swrap 32 (K t (task_pid x)) = tpid x
}.

(** ** Facts about histories *)

Lemma held_skip e t : releases e = None -> acquires e = None -> held (e :: t) = held t.
Proof. intros E1 E2. cbn. by rewrite E1, E2. Qed.

Lemma held_acquire e r t :
  releases e = None -> acquires e = Some r -> held (e :: t) = r :: held t.
Proof. intros E1 E2. cbn. by rewrite E1, E2. Qed.

Lemma held_release e r t :
  releases e = Some r -> held (e :: t) = drop_one r (held t).
Proof. intros E1. cbn. by rewrite E1. Qed.

Lemma disciplined_cons e t :
  disciplined (e :: t) = disciplined t && event_ok (held t) e.
Proof. done. Qed.

Lemma preemptible_lock t l : preemptible t -> Rlock l ∉ held t.
Proof.
  unfold preemptible. intros Hp Hin. apply negb_True in Hp. apply Hp.
  apply Is_true_true, existsb_exists. exists (Rlock l). by rewrite <- list_elem_of_In.
Qed.

Lemma preemptible_rlock t l : preemptible t -> Rrlock l ∉ held t.
Proof.
  unfold preemptible. intros Hp Hin. apply negb_True in Hp. apply Hp.
  apply Is_true_true, existsb_exists. exists (Rrlock l). by rewrite <- list_elem_of_In.
Qed.

(** Only what is held counts, not the order in which it was acquired. *)
Lemma existsb_perm (h1 h2 : list resource) :
  h1 ≡ₚ h2 -> existsb is_atomic h1 = existsb is_atomic h2.
Proof.
  induction 1 as [|x h1 h2 _ IH|x y h1|h1 h2 h3 _ IH1 _ IH2]; cbn; try congruence.
  rewrite !orb_assoc. f_equal. apply orb_comm.
Qed.

Lemma preemptible_perm t h : held t ≡ₚ h -> existsb is_atomic h = false -> preemptible t = true.
Proof. intros Hp Hh. unfold preemptible. by rewrite (existsb_perm _ _ Hp), Hh. Qed.

Lemma preemptible_held t t' : held t' = held t -> preemptible t' = preemptible t.
Proof. unfold preemptible. by intros ->. Qed.

(** A call that acquires and releases nothing and cannot block is allowed
    anywhere. *)
Definition quiet (e : event) : bool :=
  match releases e, acquires e with
  | None, None => negb (may_sleep (fst e))
  | _, _ => false
  end.

Lemma quiet_held e t : quiet e = true -> held (e :: t) = held t.
Proof. unfold quiet. cbn. by destruct (releases e), (acquires e). Qed.

Lemma quiet_disciplined e t : quiet e = true -> disciplined (e :: t) = disciplined t.
Proof.
  unfold quiet. intros Hq. rewrite disciplined_cons. unfold event_ok.
  destruct (releases e), (acquires e); try done.
  apply negb_true_iff in Hq. by rewrite Hq, andb_true_r.
Qed.

(** A call that may block is allowed in process context. *)
Lemma blocking_ok e t :
  releases e = None -> acquires e = None -> preemptible t = true ->
  event_ok (held t) e = true.
Proof.
  intros E1 E2 Hp. unfold event_ok. rewrite E1, E2, andb_true_r.
  unfold preemptible in Hp. apply negb_true_iff in Hp. by rewrite Hp, andb_false_r.
Qed.

Lemma lock_ok e l t :
  releases e = None -> acquires e = Some (Rlock l) -> may_sleep (fst e) = false ->
  preemptible t = true -> event_ok (held t) e = true.
Proof.
  intros E1 E2 E3 Hp%Is_true_true. unfold event_ok. rewrite E1, E2, E3. cbn.
  apply bool_decide_eq_true. split; [by apply preemptible_lock|by apply preemptible_rlock].
Qed.

(** What is held, up to the order of acquisition, after a history in which
    every event since [t0] was allowed. *)
Definition balanced (t0 : trace) (h : list resource) (t : trace) : Prop :=
  held t ≡ₚ h /\ disciplined t = disciplined t0.

Lemma balanced_release t0 e r t h :
  releases e = Some r -> balanced t0 (r :: h) t -> balanced t0 h (e :: t).
Proof.
  intros E [Hp Hd]. split; [rewrite (held_release e r) by done; by apply drop_one_perm_cons|].
  rewrite disciplined_cons, Hd. unfold event_ok. rewrite E, bool_decide_true, andb_true_r; [done|].
  rewrite Hp. by left.
Qed.

Lemma balanced_refl t : balanced t (held t) t.
Proof. done. Qed.

Lemma balanced_acquire t0 e r t h :
  releases e = None -> acquires e = Some r -> event_ok (held t) e = true ->
  balanced t0 h t -> balanced t0 (r :: h) (e :: t).
Proof.
  intros E1 E2 E3 [Hp Hd]. split; [by rewrite (held_acquire e r), Hp|].
  by rewrite disciplined_cons, Hd, E3, andb_true_r.
Qed.

Lemma balanced_quiet t0 e t h : quiet e = true -> balanced t0 h t -> balanced t0 h (e :: t).
Proof. intros Hq. unfold balanced. by rewrite quiet_held, quiet_disciplined. Qed.

(** ** Mappings into user space *)

(** Every mapping of the history, of [size] bytes from the frame [pfn] on, had
    the property [P] when it was made. *)
Fixpoint maps_only (P : Z -> Z -> trace -> Prop) (t : trace) : Prop :=
  match t with
  | [] => True
  | (remap_pfn_range _ _ pfn size _, _) :: t' => P pfn size t' /\ maps_only P t'
  | _ :: t' => maps_only P t'
  end.

(** No event of [l] maps anything. *)
Definition no_maps (l : trace) : bool :=
  forallb (fun e => match fst e with remap_pfn_range _ _ _ _ _ => false | _ => true end) l.

Lemma maps_only_app P l t : no_maps l = true -> maps_only P t -> maps_only P (l ++ t).
Proof.
  induction l as [|[c r] l IH]; [done|]. cbn [no_maps forallb]. intros [Hc Hl]%andb_true_iff Ht.
  specialize (IH Hl Ht). by destruct c.
Qed.

(** ** Critical sections *)

(** A critical section with nothing in between. *)
Lemma empty_section_ok e1 e2 l t :
  releases e1 = None -> acquires e1 = Some (Rlock l) -> may_sleep (fst e1) = false ->
  releases e2 = Some (Rlock l) ->
  preemptible t = true -> disciplined t = true ->
  disciplined (e2 :: e1 :: t) = true /\ held (e2 :: e1 :: t) = held t.
Proof.
  intros E1 E2 E3 E4 Hp Hd.
  rewrite (held_release e2 (Rlock l)), (held_acquire e1 (Rlock l)) by done.
  split; [|apply drop_one_cons].
  rewrite !disciplined_cons, Hd, (lock_ok e1 l) by done. cbn [andb].
  unfold event_ok. rewrite E4, (held_acquire e1 (Rlock l)) by done.
  apply bool_decide_eq_true. by left.
Qed.

(** A resource is not in a concrete list of resources. *)
Ltac not_held :=
  let Hin := fresh "Hin" in
  intros Hin; repeat (apply elem_of_cons in Hin as [Hin|Hin]; [discriminate Hin|]);
  by apply elem_of_nil in Hin.

(** ... or it is. *)
Ltac is_held := first [left; reflexivity | right; is_held].

(** Evaluate the accounting of a concrete history: answers a hypothesis decides
    are rewritten, the others are split on. *)
Ltac answer_known :=
  match goal with
  | H : ?x = 0 |- context [?x =? 0] => rewrite (proj2 (Z.eqb_eq x 0) H)
  | H : ?x <> 0 |- context [?x =? 0] => rewrite (proj2 (Z.eqb_neq x 0) H)
  | H : ~ ?x <> 0 |- context [?x =? 0] => apply dec_stable in H
  | |- context [?x =? 0] => destruct (Z.eqb_spec x 0)
  | |- context [if decide ?P then ?x else ?y] =>
      first [ rewrite (decide_True (P := P) x y) by done
            | rewrite (decide_False (P := P) x y) by congruence ]
  | |- context [bool_decide (?x ∈ ?l)] =>
      first [ rewrite (bool_decide_true (x ∈ l)) by is_held
            | rewrite (bool_decide_false (x ∈ l)) by not_held ]
  end.
Ltac trace_simpl := cbn; repeat (answer_known; cbn).

