(* ===== verification/Monad.v ===== *)
(** * The monad the driver code is translated into

    [M S A] is a computation over the driver's own state [S] (its globals and
    the objects it reaches through pointers) that calls the kernel through an
    oracle and extends the history of calls.  A memory error (a NULL, freed or
    foreign pointer dereferenced, a buffer index out of range) is an [Oops].
    [wp] is the total weakest precondition: the computation returns, without
    an [Oops], in a state and with a history that satisfy the postcondition;
    [wpx] has a second postcondition, for the [Oops].  [Grows] is what every
    computation does to the history. *)

From S2P Require Import Prelude Kernel.

Declare Scope prog_scope.
Delimit Scope prog_scope with prog.

Inductive fault :=
  | bad_access (p : Z)
  | bad_index (i : Z)
  | bad_free (p : Z)
  | out_of_fuel.

Inductive outcome (S A : Type) :=
  | Done (a : A) (s : S) (t : trace)
  | Oops (f : fault) (s : S) (t : trace).
Arguments Done {S A} _ _ _.
Arguments Oops {S A} _ _ _.

Definition M (S A : Type) : Type := oracle -> S -> trace -> outcome S A.

#[export] Instance M_ret {S} : MRet (M S) := fun A a K s t => Done a s t.

#[export] Instance M_bind {S} : MBind (M S) := fun A B k m K s t =>
  match m K s t with
  | Done a s' t' => k a K s' t'
  | Oops f s' t' => Oops f s' t'
  end.

Definition oops {S A} (f : fault) : M S A := fun K s t => Oops f s t.

(** A kernel call whose answer the code uses. *)
Definition ask {S} (c : kcall) : M S Z := fun K s t =>
  Done (K t c) s ((c, K t c) :: t).

(** A kernel call of type [void]. *)
Definition tell {S} (c : kcall) : M S unit := fun K s t => Done () s ((c, 0) :: t).

Definition gets {S A} (f : S -> A) : M S A := fun K s t => Done (f s) s t.
Definition modify {S} (f : S -> S) : M S unit := fun K s t => Done () (f s) t.

(** The value of an option, or a fault. *)
Definition unwrap {S A} (f : fault) (o : option A) : M S A :=
  match o with Some a => mret a | None => oops f end.

(** [pr_info], [pr_debug] and [printk]: no driver state changes. *)
Definition pr_info {S} (fmt : string) (args : list karg) : M S unit :=
  tell (printk fmt args).
Definition pr_debug {S} (fmt : string) (args : list karg) : M S unit :=
  tell (printk fmt args).

(** A read of the counter [jiffies], an [unsigned long]. *)
Definition jiffies {S} : M S Z := j ← ask read_jiffies; mret (u64 j).

(** [task->pid], a [pid_t]. *)
Definition pid_of {S} (task : Z) : M S Z := r ← ask (task_pid task); mret (s32 r).

(** ** Objects behind pointers *)

Definition load {V} (p : Z) : M (gmap Z V) V := fun K s t =>
  match s !! p with
  | Some v => Done v s t
  | None => Oops (bad_access p) s t
  end.

Definition store {V} (p : Z) (v : V) : M (gmap Z V) unit := fun K s t =>
  match s !! p with
  | Some _ => Done () (<[p := v]> s) t
  | None => Oops (bad_access p) s t
  end.

(** Read-modify-write of an object. *)
Definition update {V} (p : Z) (f : V -> V) : M (gmap Z V) unit :=
  v ← load p; store p (f v).

(** ** A computation on a part of the state *)

Record lens (S V : Type) := Lens { view : S -> V; upd : V -> S -> S }.
Arguments Lens {S V} _ _.
Arguments view {S V} _ _.
Arguments upd {S V} _ _ _.

Definition zoom {S V A} (l : lens S V) (m : M V A) : M S A := fun K s t =>
  match m K (view l s) t with
  | Done a v t' => Done a (upd l v s) t'
  | Oops f v t' => Oops f (upd l v s) t'
  end.

(** ** Loops *)

(** [for (i = from; i < from + n; i++) body] *)
Fixpoint for_range {S} (from : Z) (n : nat) (body : Z -> M S unit) : M S unit :=
  match n with
  | O => mret ()
  | Datatypes.S n' => body from ;; for_range (from + 1) n' body
  end.

(** ** Total weakest preconditions *)

Definition wp {S A} (m : M S A) (K : oracle) (s : S) (t : trace)
    (Q : A -> S -> trace -> Prop) : Prop :=
  match m K s t with
  | Done a s' t' => Q a s' t'
  | Oops _ _ _ => False
  end.

(** Returned value, final state and history of a run that returns. *)
Definition result {S A} (o : outcome S A) : option A :=
  match o with Done a _ _ => Some a | Oops _ _ _ => None end.
Definition final {S A} (o : outcome S A) : S :=
  match o with Done _ s _ | Oops _ s _ => s end.
Definition history {S A} (o : outcome S A) : trace :=
  match o with Done _ _ t | Oops _ _ t => t end.
Definition oopsed {S A} (o : outcome S A) : bool :=
  match o with Done _ _ _ => false | Oops _ _ _ => true end.

Section wp.
Context {S A : Type}.
Implicit Types (K : oracle) (s : S) (t : trace).

Lemma wp_done (m : M S A) K s t Q :
  wp m K s t Q <-> exists a s' t', m K s t = Done a s' t' /\ Q a s' t'.
Proof.
  unfold wp. destruct (m K s t) as [a s' t'|f s' t'].
  - split; [naive_solver|]. intros (?&?&?&?&?). by simplify_eq.
  - split; [done|]. by intros (?&?&?&?&?).
Qed.

Lemma wp_mono (m : M S A) K s t (Q Q' : A -> S -> trace -> Prop) :
  wp m K s t Q -> (forall a s' t', Q a s' t' -> Q' a s' t') -> wp m K s t Q'.
Proof. unfold wp. destruct (m K s t); auto. Qed.

Lemma wp_eq (m : M S A) K s t a s' t' Q :
  m K s t = Done a s' t' -> wp m K s t Q = Q a s' t'.
Proof. unfold wp. by intros ->. Qed.

Lemma wp_ext (m m' : M S A) K s t Q :
  m K s t = m' K s t -> wp m K s t Q = wp m' K s t Q.
Proof. unfold wp. by intros ->. Qed.

Lemma wp_run_eq (m : M S A) K s t Q a s' t' :
  wp m K s t Q -> m K s t = Done a s' t' -> Q a s' t'.
Proof. unfold wp. by intros HQ E; rewrite E in HQ. Qed.

Lemma wp_conj (m : M S A) K s t (Q Q' : A -> S -> trace -> Prop) :
  wp m K s t Q -> wp m K s t Q' -> wp m K s t (fun a s' t' => Q a s' t' /\ Q' a s' t').
Proof. unfold wp. destruct (m K s t); auto. Qed.

Lemma wp_ret (a : A) K s t Q : wp (mret a) K s t Q = Q a s t.
Proof. done. Qed.

Lemma wp_gets (f : S -> A) K s t Q : wp (gets f) K s t Q = Q (f s) s t.
Proof. done. Qed.

Lemma wp_modify f K s t Q : wp (modify f) K s t Q = Q () (f s) t.
Proof. done. Qed.

Lemma wp_ask c K s t Q : wp (ask c) K s t Q = Q (K t c) s ((c, K t c) :: t).
Proof. done. Qed.

Lemma wp_tell c K s t Q : wp (tell c) K s t Q = Q () s ((c, 0) :: t).
Proof. done. Qed.

Lemma wp_pr_debug fmt args K s t Q :
  wp (pr_debug fmt args) K s t Q = Q () s ((printk fmt args, 0) :: t).
Proof. done. Qed.

Lemma wp_pr_info fmt args K s t Q :
  wp (pr_info fmt args) K s t Q = Q () s ((printk fmt args, 0) :: t).
Proof. done. Qed.

End wp.

Lemma wp_bind {S A B} (m : M S A) (k : A -> M S B) K s t Q :
  wp (m ≫= k) K s t Q = wp m K s t (fun a s' t' => wp (k a) K s' t' Q).
Proof. unfold wp, mbind, M_bind. by destruct (m K s t). Qed.

Lemma wp_zoom {S V A} (l : lens S V) (m : M V A) K s t Q :
  wp (zoom l m) K s t Q = wp m K (view l s) t (fun a v t' => Q a (upd l v s) t').
Proof. unfold wp, zoom. by destruct (m K (view l s) t). Qed.

Lemma wp_load {V} p (v : V) K s t Q : s !! p = Some v -> wp (load p) K s t Q = Q v s t.
Proof. intros E. unfold wp, load. by rewrite E. Qed.

Lemma wp_store {V} p (v : V) K s t Q :
  is_Some (s !! p) -> wp (store p v) K s t Q = Q () (<[p := v]> s) t.
Proof. intros [w E]. unfold wp, store. by rewrite E. Qed.

Lemma wp_update {V} p (v : V) f K s t Q :
  s !! p = Some v -> wp (update p f) K s t Q = Q () (<[p := f v]> s) t.
Proof.
  intros E. unfold update. rewrite wp_bind, (wp_load _ v), wp_store by (rewrite ?E; eauto).
  done.
Qed.

(** ** Both outcomes *)

(** [Q] if the computation returns, [F] if it ends in an [Oops]. *)
Definition wpx {S A} (m : M S A) (K : oracle) (s : S) (t : trace)
    (Q : A -> S -> trace -> Prop) (F : fault -> S -> trace -> Prop) : Prop :=
  match m K s t with
  | Done a s' t' => Q a s' t'
  | Oops f s' t' => F f s' t'
  end.

Section wpx.
Context {S : Type}.
Implicit Types (K : oracle) (s : S) (t : trace) (F : fault -> S -> trace -> Prop).

Lemma wpx_wp {A} (m : M S A) K s t Q F : wp m K s t Q -> wpx m K s t Q F.
Proof. unfold wp, wpx. by destruct (m K s t). Qed.

Lemma wpx_mono {A} (m : M S A) K s t (Q Q' : A -> S -> trace -> Prop) F F' :
  wpx m K s t Q F -> (forall a s' t', Q a s' t' -> Q' a s' t') ->
  (forall f s' t', F f s' t' -> F' f s' t') -> wpx m K s t Q' F'.
Proof. unfold wpx. destruct (m K s t); auto. Qed.

(** The rest of a sequence, a fault having been dealt with. *)
Lemma wpx_then {A} (m : M S A) K s t (Q Q' : A -> S -> trace -> Prop) F :
  wpx m K s t Q F -> (forall a s' t', Q a s' t' -> Q' a s' t') -> wpx m K s t Q' F.
Proof. intros Hw HQ. by eapply wpx_mono. Qed.

Lemma wpx_bind {A B} (m : M S A) (k : A -> M S B) K s t Q F :
  wpx (m ≫= k) K s t Q F = wpx m K s t (fun a s' t' => wpx (k a) K s' t' Q F) F.
Proof. unfold wpx, mbind, M_bind. by destruct (m K s t). Qed.

Lemma wpx_eq {A} (m : M S A) K s t a s' t' Q F :
  m K s t = Done a s' t' -> wpx m K s t Q F = Q a s' t'.
Proof. unfold wpx. by intros ->. Qed.

Lemma wpx_oops {A} (m : M S A) K s t f s' t' Q F :
  m K s t = Oops f s' t' -> wpx m K s t Q F = F f s' t'.
Proof. unfold wpx. by intros ->. Qed.

Lemma wpx_ret {A} (a : A) K s t Q F : wpx (mret a) K s t Q F = Q a s t.
Proof. done. Qed.

Lemma wpx_gets {A} (f : S -> A) K s t Q F : wpx (gets f) K s t Q F = Q (f s) s t.
Proof. done. Qed.

Lemma wpx_modify f K s t Q F : wpx (modify f) K s t Q F = Q () (f s) t.
Proof. done. Qed.

Lemma wpx_ask c K s t Q F : wpx (ask c) K s t Q F = Q (K t c) s ((c, K t c) :: t).
Proof. done. Qed.

Lemma wpx_tell c K s t Q F : wpx (tell c) K s t Q F = Q () s ((c, 0) :: t).
Proof. done. Qed.

End wpx.

(** Loop rule: an invariant indexed by the counter. *)
Lemma wp_for_range {S} (I : Z -> S -> trace -> Prop) (body : Z -> M S unit) K
    from n s t (Q : unit -> S -> trace -> Prop) :
  I from s t ->
  (forall i s t, from <= i < from + Z.of_nat n -> I i s t ->
     wp (body i) K s t (fun _ s' t' => I (i + 1) s' t')) ->
  (forall s t, I (from + Z.of_nat n) s t -> Q () s t) ->
  wp (for_range from n body) K s t Q.
Proof.
  revert from s t. induction n as [|n IH]; intros from s t HI Hbody HQ; simpl.
  { rewrite wp_ret. apply HQ. by replace (from + Z.of_nat 0) with from by lia. }
  rewrite wp_bind. eapply wp_mono; [apply Hbody; [lia|done]|].
  intros [] s' t' HI'. apply IH; [done| |].
  - intros. apply Hbody; [lia|done].
  - intros s'' t'' HI''. apply HQ. by replace (from + Z.of_nat (Datatypes.S n))
      with (from + 1 + Z.of_nat n) by lia.
Qed.

(** ** Histories only grow *)

(** Whatever a computation does, and even if it ends in an [Oops], what has
    happened before it stays in the history. *)
Class Grows {S A} (m : M S A) : Prop := grows K s t : exists l, history (m K s t) = l ++ t.

#[export] Hint Mode Grows - - ! : typeclass_instances.

#[export] Instance grows_bind {S A B} (m : M S A) (k : A -> M S B) :
  Grows m -> (forall a, Grows (k a)) -> Grows (m ≫= k).
Proof.
  intros Hm Hk K s t. destruct (Hm K s t) as [l1 E1]. unfold mbind, M_bind.
  destruct (m K s t) as [a s1 t1|f s1 t1]; cbn [history] in *; [|by exists l1].
  destruct (Hk a K s1 t1) as [l2 E2]. exists (l2 ++ l1). by rewrite E2, E1, app_assoc.
Qed.

#[export] Instance grows_ret {S A} (a : A) : Grows (mret a : M S A).
Proof. intros K s t. by exists []. Qed.
#[export] Instance grows_ask {S} c : Grows (ask (S := S) c).
Proof. intros K s t. by eexists [_]. Qed.
#[export] Instance grows_tell {S} c : Grows (tell (S := S) c).
Proof. intros K s t. by eexists [_]. Qed.
#[export] Instance grows_gets {S A} (f : S -> A) : Grows (gets f).
Proof. intros K s t. by exists []. Qed.
#[export] Instance grows_modify {S} (f : S -> S) : Grows (modify f).
Proof. intros K s t. by exists []. Qed.
#[export] Instance grows_oops {S A} f : Grows (oops (S := S) (A := A) f).
Proof. intros K s t. by exists []. Qed.
#[export] Instance grows_load {V} p : Grows (load (V := V) p).
Proof. intros K s t. exists []. unfold load. by destruct (s !! p). Qed.
#[export] Instance grows_store {V} p (v : V) : Grows (store p v).
Proof. intros K s t. exists []. unfold store. by destruct (s !! p). Qed.

#[export] Instance grows_zoom {S V A} (l : lens S V) (m : M V A) : Grows m -> Grows (zoom l m).
Proof.
  intros Hm K s t. destruct (Hm K (view l s) t) as [h E]. exists h.
  unfold zoom. by destruct (m K (view l s) t).
Qed.

#[export] Instance grows_if {S A} P `{Decision P} (m1 m2 : M S A) :
  Grows m1 -> Grows m2 -> Grows (if decide P then m1 else m2).
Proof. by destruct (decide P). Qed.

#[export] Instance grows_for_range {S} (body : Z -> M S unit) n : forall from,
  (forall i, Grows (body i)) -> Grows (for_range from n body).
Proof. induction n as [|n IH]; intros from Hb; cbn [for_range]; apply _. Qed.

Lemma wpx_grows {S A} (m : M S A) `{!Grows m} K s t Q F :
  wpx m K s t Q F ->
  wpx m K s t (fun a s' t' => Q a s' t' /\ exists l, t' = l ++ t) (fun f s' t' => F f s' t' /\ exists l, t' = l ++ t).
Proof. unfold wpx. pose proof (grows (m := m) K s t). by destruct (m K s t). Qed.

Lemma wp_grows {S A} (m : M S A) `{!Grows m} K s t Q :
  wp m K s t Q -> wp m K s t (fun a s' t' => Q a s' t' /\ exists l, t' = l ++ t).
Proof. unfold wp. pose proof (grows (m := m) K s t). by destruct (m K s t). Qed.

(** An event of the given kind has happened. *)
Abbreviation happened failed t := (existsb (A := event) failed t = true).
Abbreviation never failed t := (existsb (A := event) failed t = false).

Lemma never_before {S A} (m : M S A) `{!Grows m} failed K s t :
  never failed (history (m K s t)) -> never failed t.
Proof.
  destruct (grows (m := m) K s t) as [l ->]. rewrite existsb_app.
  by intros [_ ?]%orb_false_iff.
Qed.

(** ** Running a computation step by step *)

Lemma run_bind {S A B} (m : M S A) (k : A -> M S B) K s t a s' t' :
  m K s t = Done a s' t' -> (m ≫= k) K s t = k a K s' t'.
Proof. intros E. unfold mbind, M_bind. by rewrite E. Qed.

Lemma load_eq {V} p (v : V) K s t : s !! p = Some v -> load p K s t = Done v s t.
Proof. intros E. unfold load. by rewrite E. Qed.

Lemma update_eq {V} p (v : V) f K s t :
  s !! p = Some v -> update p f K s t = Done () (<[p := f v]> s) t.
Proof. intros E. unfold update. erewrite run_bind by by apply load_eq. unfold store. by rewrite E. Qed.

Lemma zoom_eq {S V A} (l : lens S V) (m : M V A) K s t a v t' :
  m K (view l s) t = Done a v t' -> zoom l m K s t = Done a (upd l v s) t'.
Proof. intros E. unfold zoom. by rewrite E. Qed.

Lemma for_range_1 {S} (body : Z -> M S unit) from K s t s' t' :
  body from K s t = Done () s' t' -> for_range from 1 body K s t = Done () s' t'.
Proof. intros E. cbn. by erewrite run_bind. Qed.

Create HintDb run discriminated.
#[export] Hint Resolve load_eq update_eq zoom_eq : run.
#[export] Hint Extern 0 (_ !! _ = Some _) => eassumption : run.
#[export] Hint Extern 1 (_ !! _ = Some _) => apply lookup_insert_eq : run.
#[export] Hint Extern 0 (ask _ _ _ _ = Done _ _ _) => reflexivity : run.
#[export] Hint Extern 0 (tell _ _ _ _ = Done _ _ _) => reflexivity : run.
#[export] Hint Extern 0 (pr_info _ _ _ _ _ = Done _ _ _) => reflexivity : run.
#[export] Hint Extern 0 (pr_debug _ _ _ _ _ = Done _ _ _) => reflexivity : run.
#[export] Hint Extern 0 (gets _ _ _ _ = Done _ _ _) => reflexivity : run.
#[export] Hint Extern 0 (modify _ _ _ _ = Done _ _ _) => reflexivity : run.
#[export] Hint Extern 0 (mret _ _ _ _ = Done _ _ _) => reflexivity : run.

(** Execute the first statement of a sequence. *)
Ltac run_step := erewrite run_bind by (cbv beta; solve [eauto with run]).
Ltac run_all := repeat run_step.

Create Rewrite HintDb wp.
#[export] Hint Rewrite @wp_bind @wp_ret @wp_gets @wp_modify @wp_ask @wp_tell
  @wp_pr_info @wp_pr_debug @wp_zoom
  @wpx_bind @wpx_ret @wpx_gets @wpx_modify @wpx_ask @wpx_tell : wp.

(** Symbolic execution: push [wp] through the straight-line part of a body. *)
Ltac wp_run := repeat (autorewrite with wp; cbn beta iota).
(** A statement whose outcome is known. *)
Ltac wp_by E := rewrite (wp_eq _ _ _ _ _ _ _ _ E); wp_run.
(** ... and case on the tests the code makes. *)
Ltac wp_case :=
  repeat (wp_run; try (case_decide || case_match); simplify_eq/=).
