(* ===== verification/Refine.v ===== *)
(** * Refinement of specifications

    A component is used through a sequence of calls; its user keeps something
    between them - an open file, a timer that runs.  A specification relates an
    abstract state, a call, its result, what can be seen of it from outside and
    the next abstract state.  When every call refines the specification, every
    sequence of calls does. *)

From S2P Require Import Prelude Kernel Monad.

Section refine.
Context {S U E R A O : Type}.
Implicit Types (u : U) (e : E) (r : R) (a : A).

(** A sequence of calls: the results, and what the user has at the end. *)
Fixpoint execs (exec : U -> E -> M S (R * U)) (u : U) (es : list E) : M S (list R * U) :=
  match es with
  | [] => mret ([], u)
  | e :: es' =>
      r ← exec u e;
      rs ← execs exec r.2 es';
      mret (r.1 :: rs.1, rs.2)
  end.

(** The same of a specification. *)
Inductive spec_run (spec : A -> E -> R -> list O -> A -> Prop) :
    A -> list E -> list R -> list O -> A -> Prop :=
  | spec_nil a : spec_run spec a [] [] [] a
  | spec_cons a e es r rs out outs a' a'' :
      spec a e r out a' -> spec_run spec a' es rs outs a'' ->
      spec_run spec a (e :: es) (r :: rs) (out ++ outs) a''.

(** [seen] is what has been seen from outside in a history; [implements] relates
    what the user keeps, the state and the history to an abstract state. *)
Class Refines (exec : U -> E -> M S (R * U)) (spec : A -> E -> R -> list O -> A -> Prop)
    (seen : trace -> list O) (ok : E -> Prop) (implements : U -> S -> trace -> A -> Prop)
    (K : oracle) : Prop :=
  refines_call u s t a e : ok e -> implements u s t a -> exists r u' s' t' out a',
    exec u e K s t = Done (r, u') s' t' /\ seen t' = seen t ++ out /\
    implements u' s' t' a' /\ spec a e r out a'.

Lemma refines_run exec spec seen ok implements K `{RF : !Refines exec spec seen ok implements K}
    u s t a es :
  Forall ok es -> implements u s t a -> exists rs u' s' t' outs a',
    execs exec u es K s t = Done (rs, u') s' t' /\ seen t' = seen t ++ outs /\
    implements u' s' t' a' /\ spec_run spec a es rs outs a'.
Proof.
  intros Hes. revert u s t a. induction Hes as [|e es He _ IH]; intros u s t a Hi.
  { exists [], u, s, t, [], a. rewrite app_nil_r. split_and!; [done..|constructor]. }
  destruct (refines_call u s t a e He Hi) as (r & u1 & s1 & t1 & out & a1 & E1 & Ho & Hi1 & Hs).
  destruct (IH u1 s1 t1 a1 Hi1) as (rs & u2 & s2 & t2 & outs & a2 & E2 & Hos & Hi2 & Hrun).
  exists (r :: rs), u2, s2, t2, (out ++ outs), a2. split.
  { cbn [execs]. rewrite (run_bind _ _ _ _ _ _ _ _ E1). cbn [snd].
    by rewrite (run_bind _ _ _ _ _ _ _ _ E2). }
  split; [by rewrite Hos, Ho, (assoc_L (++))|]. split; [done|by eapply spec_cons].
Qed.

(** What the calls [P] keep, with only [Q] to be seen, a run of them keeps. *)
Lemma spec_run_keeps spec (I : A -> Prop) (P : E -> Prop) (Q : O -> Prop) a es rs outs a' :
  (forall a e r out a', I a -> P e -> spec a e r out a' -> I a' /\ Forall Q out) ->
  I a -> Forall P es -> spec_run spec a es rs outs a' -> I a' /\ Forall Q outs.
Proof.
  intros Hs Ha Hes Hrun. induction Hrun as [a|a e es r rs out outs a1 a2 H1 _ IH]; [done|].
  apply Forall_cons in Hes as [He Hes]. destruct (Hs a e r out a1 Ha He H1) as [Ha1 Ho].
  rewrite Forall_app. destruct (IH Ha1 Hes). by split_and!.
Qed.

End refine.
