(* ===== verification/Kbd.v ===== *)
(** * The i8042 keyboard driver (Drivers/kbd/kbd.c)

    The circular buffer and its two ends, the file operations, the interrupt
    handler with its scancode table, and module load and unload. *)

From S2P Require Import Prelude Kernel Monad.

Module Kbd.

Definition MAJOR_NUMBER := 42.
Definition MINOR_NUMBER := 0.
Definition NUM_MINORS := 1.
Definition MODULE_NAME := "kbd_driver"%string.
Definition BUFF_SIZE := 100.
Definition I8042_KBD_IRQ := 1.
Definition I8042_STATUS_REG := 0x64.
Definition I8042_DATA_REG := 0x60.
Definition SCANCODE_RELEASED_MASK := 0x80.

(** Documented value of [irqreturn_t]'s IRQ_NONE. *)
Definition IRQ_NONE := 0.

(** The software state of a device; [cdev] and [lock] are known by address. *)
Record kbd_dev := KbdDev {
  buff : list Z;
  putIdx : Z;
  getIdx : Z;
  cnt : Z
}.

(** The devices, by address. *)
Abbreviation devices := (gmap Z kbd_dev).

(** Where the linker and the compiler put things; [cdev] is the first member
    of its struct, so that it has the address of the struct. *)
Class Layout := {
  devs : Z;
  sizeof_kbd_dev : Z;
  offsetof_lock : Z
}.
Definition offsetof_cdev := 0.

Definition set_buff (b : list Z) (d : kbd_dev) :=
  KbdDev b (putIdx d) (getIdx d) (cnt d).
Definition set_putIdx (i : Z) (d : kbd_dev) :=
  KbdDev (buff d) i (getIdx d) (cnt d).
Definition set_getIdx (i : Z) (d : kbd_dev) :=
  KbdDev (buff d) (putIdx d) i (cnt d).
Definition set_cnt (n : Z) (d : kbd_dev) :=
  KbdDev (buff d) (putIdx d) (getIdx d) n.

Section code.
Context {LO : Layout}.

Definition dev_addr (i : Z) : Z := devs + i * sizeof_kbd_dev.
Definition cdev_of (dev : Z) : Z := dev + offsetof_cdev.
Definition lock_of (dev : Z) : Z := dev + offsetof_lock.

(** [buff[i]] as an rvalue: an index outside the array is an error. *)
Definition buff_get (b : list Z) (i : Z) : M devices Z :=
  unwrap (bad_index i) (b !! Z.to_nat i).

(** [get_char]: [Some c] is the return value [true] with [*c] assigned. *)
Definition get_char (data : Z) : M devices (option Z) :=
  d ← load data;
  if decide (cnt d > 0) then
    c ← buff_get (buff d) (getIdx d);
    update data (set_getIdx ((getIdx d +64 1)%cint mod BUFF_SIZE)) ;;
    update data (set_cnt (cnt d -64 1)%cint) ;;
    mret (Some c)
  else mret None.

(** The value returned and the new [file->private_data]. *)
Definition kbd_open (i_cdev : Z) : M devices (Z * Z) :=
  let data := i_cdev - offsetof_cdev in
  mret (0, data).

Definition kbd_release (private_data : Z) : M devices Z := mret 0.

(** The body of the loop of [kbd_read] that runs under the lock. *)
Definition read_section (data : Z) : M devices (option Z) :=
  tell (spin_lock_irqsave (lock_of data)) ;;
  more ← get_char data;
  tell (spin_unlock_irqrestore (lock_of data)) ;;
  mret more.

(** [while (size--)]: [n] is the value of [size] before the test. *)
Fixpoint read_loop (data uBuff : Z) (read : Z) (n : nat) : M devices Z :=
  match n with
  | O => mret (s64 read)
  | Datatypes.S n' =>
      more ← read_section data;
      match more with
      | None => mret (s64 read)
      | Some ch =>
          r ← ask (put_user ch uBuff);
          if decide (r <> 0) then mret (- EFAULT)
          else read_loop data (uBuff + 1) (read + 1) n'
      end
  end.

Definition kbd_read (private_data uBuff size : Z) : M devices Z :=
  read_loop private_data uBuff 0 (Z.to_nat size).

Definition reset_buffer (dev : Z) : M devices unit :=
  update dev (set_cnt 0) ;;
  update dev (set_getIdx 0) ;;
  update dev (set_putIdx 0).

Definition kbd_write (private_data uBuff size : Z) : M devices Z :=
  tell (spin_lock_irqsave (lock_of private_data)) ;;
  reset_buffer private_data ;;
  tell (spin_unlock_irqrestore (lock_of private_data)) ;;
  mret (s64 size).

(** [u8 val = inb(...)] *)
Definition i8042_read_data : M devices Z :=
  val ← ask (inb I8042_DATA_REG);
  mret (u8 val).

Definition is_key_press (scancode : Z) : Z :=
  if decide (Z.land scancode SCANCODE_RELEASED_MASK = 0) then 1 else 0.

Definition put_char (data : Z) (ch : Z) : M devices unit :=
  d ← load data;
  buff_get (buff d) (getIdx d) ;;
  update data (set_buff (<[Z.to_nat (getIdx d) := u8 ch]> (buff d))) ;;
  update data (set_putIdx ((putIdx d +64 1)%cint mod BUFF_SIZE)) ;;
  update data (set_cnt (cnt d +64 1)%cint).

Definition row1 := c_string "1234567890".
Definition row2 := c_string "qwertyuiop".
Definition row3 := c_string "asdfghjkl".
Definition row4 := c_string "zxcvbnm".

(** [None] would be a read outside a table. *)
Definition get_ascii (scancode : Z) : option Z :=
  let scancode := Z.land scancode (u32 (Z.lnot SCANCODE_RELEASED_MASK)) in
  if decide (0x02 <= scancode <= 0x0b) then row1 !! Z.to_nat (scancode - 0x02)
  else if decide (0x10 <= scancode <= 0x19) then row2 !! Z.to_nat (scancode - 0x10)
  else if decide (0x1e <= scancode <= 0x26) then row3 !! Z.to_nat (scancode - 0x1e)
  else if decide (0x2c <= scancode <= 0x32) then row4 !! Z.to_nat (scancode - 0x2c)
  else if decide (scancode = 0x39) then Some 32
  else if decide (scancode = 0x1c) then Some 10
  else Some 63.

Definition kbd_irq_handler (irq_no devID : Z) : M devices Z :=
  scancode ← i8042_read_data;
  let pressed := is_key_press scancode in
  ch ← unwrap (bad_index scancode) (get_ascii scancode);
  pr_info "IRQ %d: scancode=0x%x (%u) pressed=%d ch=%c\n"
    [KInt irq_no; KInt scancode; KInt scancode; KInt pressed; KInt ch] ;;
  (if decide (pressed <> 0) then
     tell (spin_lock (lock_of devID)) ;;
     put_char devID ch ;;
     tell (spin_unlock (lock_of devID))
   else mret ()) ;;
  mret IRQ_NONE.

(** The cleanup labels of [kbd_init], each falling through to the next. *)
Definition failedToAlloc (res : Z) : M devices Z := mret res.
Definition releaseDataPort (res : Z) : M devices Z :=
  tell (release_region I8042_DATA_REG 1) ;; failedToAlloc res.
Definition releaseStatusPort (res : Z) : M devices Z :=
  tell (release_region I8042_STATUS_REG 1) ;; releaseDataPort res.

(** [for (...) res = request_irq(...)] keeps the result of the last call. *)
Fixpoint request_irqs (i : Z) (n : nat) (res : Z) : M devices Z :=
  match n with
  | O => mret res
  | Datatypes.S n' =>
      r ← ask (request_irq I8042_KBD_IRQ MODULE_NAME (dev_addr i));
      request_irqs (i + 1) n' r
  end.

Definition kbd_init : M devices Z :=
  pr_info "[LOG] kbd driver intialized\n" [] ;;
  res ← ask (register_chrdev_region (MKDEV MAJOR_NUMBER MINOR_NUMBER) NUM_MINORS MODULE_NAME);
  if decide (res <> 0) then
    pr_debug "[ERROR] failed to allocate char device region\n" [] ;;
    failedToAlloc res
  else
    r ← ask (request_region I8042_DATA_REG 1 MODULE_NAME);
    if decide (r = 0) then releaseDataPort (- EBUSY) else
    r ← ask (request_region I8042_STATUS_REG 1 MODULE_NAME);
    if decide (r = 0) then releaseStatusPort (- EBUSY) else
    for_range 0 (Z.to_nat NUM_MINORS) (fun i =>
      tell (cdev_init (cdev_of (dev_addr i))) ;;
      ask (cdev_add (cdev_of (dev_addr i)) (MKDEV MAJOR_NUMBER MINOR_NUMBER) 1) ;;
      tell (spin_lock_init (lock_of (dev_addr i)))) ;;
    res ← request_irqs 0 (Z.to_nat NUM_MINORS) res;
    releaseStatusPort res.

Definition kbd_exit : M devices unit :=
  pr_info "[LOG] kbd driver exited\n" [] ;;
  for_range 0 (Z.to_nat NUM_MINORS) (fun i =>
    tell (free_irq I8042_KBD_IRQ (cdev_of (dev_addr i)))) ;;
  for_range 0 (Z.to_nat NUM_MINORS) (fun i =>
    tell (cdev_del (cdev_of (dev_addr i)))) ;;
  tell (release_region I8042_STATUS_REG 1) ;;
  tell (release_region I8042_DATA_REG 1) ;;
  tell (unregister_chrdev_region (MKDEV MAJOR_NUMBER MINOR_NUMBER) NUM_MINORS).

(** ** Abstract view of the ring buffer *)

Definition ring_ok (d : kbd_dev) : Prop :=
  length (buff d) = Z.to_nat BUFF_SIZE /\
  0 <= getIdx d < BUFF_SIZE /\ 0 <= putIdx d < BUFF_SIZE /\ 0 <= cnt d < 2 ^ 64.

(** The cell [i] places after the read end. *)
Definition slot (d : kbd_dev) (i : Z) : Z :=
  buff d !!! Z.to_nat ((getIdx d + i) mod BUFF_SIZE).

(** The bytes a reader is going to get, in order. *)
Definition contents (d : kbd_dev) : list Z := slot d <$> seqZ 0 (cnt d).

Definition pop (n : Z) (d : kbd_dev) : kbd_dev :=
  KbdDev (buff d) (putIdx d) ((getIdx d + n) mod BUFF_SIZE) (cnt d - n).

Definition push (ch : Z) (d : kbd_dev) : kbd_dev :=
  KbdDev (<[Z.to_nat (getIdx d) := u8 ch]> (buff d))
    ((putIdx d + 1) mod BUFF_SIZE) (getIdx d) (u64 (cnt d + 1)).

(** ** Specification of the scancode table

    The keys of scancode set 1 the driver translates. *)

Definition keymap : list (Z * Z) :=
  zip (seqZ 0x02 10) (bytes_of_string "1234567890") ++
  zip (seqZ 0x10 10) (bytes_of_string "qwertyuiop") ++
  zip (seqZ 0x1e 9) (bytes_of_string "asdfghjkl") ++
  zip (seqZ 0x2c 7) (bytes_of_string "zxcvbnm") ++
  [(0x39, 32); (0x1c, 10)].

(** The character of a key, [?] for a key outside the map. *)
Definition ascii_of_key (key : Z) : Z :=
  default 63 (snd <$> (head (filter (fun e => e.1 = key) keymap))).

(** ** Sequences of key presses and reads *)

Inductive kbd_op := Press (ch : Z) | Get.

(** The driver's buffer code run on a sequence of operations: what the reads
    returned. *)
Fixpoint drive (data : Z) (ops : list kbd_op) : M devices (list (option Z)) :=
  match ops with
  | [] => mret []
  | Press ch :: ops' => put_char data ch ;; drive data ops'
  | Get :: ops' =>
      r ← get_char data;
      rs ← drive data ops';
      mret (r :: rs)
  end.

(** The queue the buffer is documented to be. *)
Fixpoint fifo (ops : list kbd_op) (q : list Z) : list (option Z) :=
  match ops with
  | [] => []
  | Press ch :: ops' => fifo ops' (q ++ [ch])
  | Get :: ops' => head q :: fifo ops' (tail q)
  end.

(** Every press finds the queue empty. *)
Fixpoint one_at_a_time (ops : list kbd_op) (pending : bool) : bool :=
  match ops with
  | [] => true
  | Press ch :: ops' =>
      negb pending && bool_decide (0 <= ch < 256) && one_at_a_time ops' true
  | Get :: ops' => one_at_a_time ops' false
  end.

(** ** Interleaving of a reader, writers and interrupts *)

(** Where a process is in [kbd_read]. *)
Inductive reader :=
  | Idle
  | InLoop (uBuff read : Z) (n : nat)
  | Copying (ch uBuff read : Z) (n : nat)
  | Returned (r : Z).

Record config := Config { rd : reader; devices_of : devices; trace_of : trace }.

(** One atomic step: the reader's critical sections exclude the interrupt
    handler and the writer, its copies to user space do not. *)
Inductive step (K : oracle) (data : Z) : config -> config -> Prop :=
  | step_call s t uBuff size :
      step K data (Config Idle s t) (Config (InLoop uBuff 0 (Z.to_nat size)) s t)
  | step_done s t uBuff read :
      step K data (Config (InLoop uBuff read 0) s t) (Config (Returned (s64 read)) s t)
  | step_empty s t s' t' uBuff read n :
      read_section data K s t = Done None s' t' ->
      step K data (Config (InLoop uBuff read (Datatypes.S n)) s t)
        (Config (Returned (s64 read)) s' t')
  | step_got s t s' t' uBuff read n ch :
      read_section data K s t = Done (Some ch) s' t' ->
      step K data (Config (InLoop uBuff read (Datatypes.S n)) s t)
        (Config (Copying ch uBuff read n) s' t')
  | step_copied s t uBuff read n ch :
      K t (put_user ch uBuff) = 0 ->
      step K data (Config (Copying ch uBuff read n) s t)
        (Config (InLoop (uBuff + 1) (read + 1) n) s ((put_user ch uBuff, 0) :: t))
  | step_fault s t uBuff read n ch r :
      K t (put_user ch uBuff) = r -> r <> 0 ->
      step K data (Config (Copying ch uBuff read n) s t)
        (Config (Returned (- EFAULT)) s ((put_user ch uBuff, r) :: t))
  | step_irq s t s' t' rd irq r :
      kbd_irq_handler irq data K s t = Done r s' t' ->
      step K data (Config rd s t) (Config rd s' t')
  | step_write s t s' t' rd uBuff size r :
      kbd_write data uBuff size K s t = Done r s' t' ->
      step K data (Config rd s t) (Config rd s' t').

(** A step of the reader alone. *)
Definition reader_step (K : oracle) (data : Z) (c c' : config) : Prop :=
  step K data c c' /\ rd c <> rd c'.

End code.

(** ** The buffer *)

Section ring.
Context {LO : Layout}.
Implicit Types (d : kbd_dev) (s : devices) (K : oracle) (t : trace).

Lemma slot_in_range d i : ring_ok d -> (Z.to_nat ((getIdx d + i) mod BUFF_SIZE) < length (buff d))%nat.
Proof.
  intros (-> & _). pose proof (Z.mod_pos_bound (getIdx d + i) BUFF_SIZE eq_refl).
  unfold BUFF_SIZE in *. lia.
Qed.

Lemma slot_0 d : ring_ok d -> buff d !! Z.to_nat (getIdx d) = Some (slot d 0).
Proof.
  intros Hd. unfold slot. pose proof (slot_in_range d 0 Hd) as Hr.
  rewrite Z.add_0_r, Z.mod_small in * by apply Hd.
  by apply list_lookup_lookup_total_lt.
Qed.

Lemma slot_pop d n i : slot (pop n d) i = slot d (n + i).
Proof.
  unfold slot, pop; cbn. do 2 f_equal.
  rewrite Zplus_mod_idemp_l. f_equal. lia.
Qed.

Lemma pop_pop d n m : pop m (pop n d) = pop (n + m) d.
Proof.
  unfold pop; cbn. f_equal; [|lia].
  rewrite Zplus_mod_idemp_l. f_equal. lia.
Qed.

Lemma pop_0 d : ring_ok d -> pop 0 d = d.
Proof.
  intros (_ & Hg & _). destruct d; unfold pop; cbn in *.
  rewrite Z.add_0_r, Z.mod_small by done. f_equal. lia.
Qed.

Lemma pop_ok n d : 0 <= n <= cnt d -> ring_ok d -> ring_ok (pop n d).
Proof.
  intros Hn (Hl & Hg & Hp & Hc). split; [done|]. split; [by apply Z.mod_pos_bound|].
  split; [done|]. cbn. lia.
Qed.

Lemma push_ok ch d : ring_ok d -> ring_ok (push ch d).
Proof.
  intros (Hl & Hg & Hp & Hc). repeat split; cbn; try lia.
  - by rewrite length_insert.
  - by apply Z.mod_pos_bound.
  - by apply Z.mod_pos_bound.
  - by apply wrap_bounds.
  - by apply wrap_bounds.
Qed.

Lemma idx_succ i : 0 <= i < BUFF_SIZE -> u64 (i + 1) mod BUFF_SIZE = (i + 1) mod BUFF_SIZE.
Proof. intros Hi. unfold BUFF_SIZE in *. by rewrite wrap_small by lia. Qed.

Lemma length_contents d : length (contents d) = Z.to_nat (cnt d).
Proof. unfold contents. by rewrite length_fmap, length_seqZ. Qed.

Lemma contents_cons d :
  0 < cnt d -> contents d = slot d 0 :: contents (pop 1 d).
Proof.
  intros Hc. unfold contents. rewrite seqZ_cons by lia. cbn [fmap list_fmap]. f_equal.
  replace (Z.succ 0) with (1 + 0) by lia. rewrite <- (fmap_add_seqZ 1 0).
  rewrite <- list_fmap_compose. cbn [pop cnt]. replace (Z.pred (cnt d)) with (cnt d - 1) by lia.
  apply list_fmap_ext. intros i x _. cbn. by rewrite slot_pop.
Qed.

(** ** The operations, in closed form *)

Lemma buff_get_eq d K s t :
  ring_ok d -> buff_get (buff d) (getIdx d) K s t = Done (slot d 0) s t.
Proof. intros Hd. unfold buff_get. by rewrite (slot_0 d Hd). Qed.

#[local] Hint Resolve buff_get_eq : run.

Lemma get_char_eq p d K s t :
  s !! p = Some d -> ring_ok d ->
  get_char p K s t =
    if decide (cnt d > 0) then Done (Some (slot d 0)) (<[p := pop 1 d]> s) t
    else Done None s t.
Proof.
  intros Hp Hd. unfold get_char. run_step. case_decide as Hc; [|done].
  run_all. rewrite !insert_insert_eq. unfold set_cnt, set_getIdx, pop; cbn.
  destruct Hd as (_ & Hg & _ & Hcn). by rewrite idx_succ, wrap_small by lia.
Qed.

Lemma put_char_eq p ch d K s t :
  s !! p = Some d -> ring_ok d ->
  put_char p ch K s t = Done () (<[p := push ch d]> s) t.
Proof.
  intros Hp Hd. unfold put_char. run_all.
  erewrite update_eq by apply lookup_insert_eq.
  rewrite !insert_insert_eq. unfold set_cnt, set_buff, set_putIdx, push; cbn.
  destruct Hd as (_ & _ & Hpi & _). by rewrite idx_succ by done.
Qed.

Lemma reset_buffer_eq p d K s t :
  s !! p = Some d ->
  reset_buffer p K s t = Done () (<[p := KbdDev (buff d) 0 0 0]> s) t.
Proof.
  intros Hp. unfold reset_buffer. run_all.
  erewrite update_eq by apply lookup_insert_eq. by rewrite !insert_insert_eq.
Qed.

#[local] Hint Resolve get_char_eq put_char_eq reset_buffer_eq : run.

Lemma read_section_eq p d K s t :
  s !! p = Some d -> ring_ok d ->
  read_section p K s t =
    let t' := (spin_unlock_irqrestore (lock_of p), 0) :: (spin_lock_irqsave (lock_of p), 0) :: t in
    if decide (cnt d > 0) then Done (Some (slot d 0)) (<[p := pop 1 d]> s) t'
    else Done None s t'.
Proof.
  intros Hp Hd. unfold read_section. run_step.
  unfold mbind, M_bind. rewrite (get_char_eq p d) by done. by case_decide.
Qed.

Lemma kbd_write_eq p d u size K s t :
  s !! p = Some d ->
  kbd_write p u size K s t =
    Done (s64 size) (<[p := KbdDev (buff d) 0 0 0]> s)
      ((spin_unlock_irqrestore (lock_of p), 0) :: (spin_lock_irqsave (lock_of p), 0) :: t).
Proof. intros Hp. unfold kbd_write. by run_all. Qed.

(** ** What a press does to the contents *)

Lemma length_push ch d : length (buff (push ch d)) = length (buff d).
Proof. cbn. by rewrite length_insert. Qed.

Lemma slot_push ch d i :
  ring_ok d -> 0 <= i < BUFF_SIZE ->
  slot (push ch d) i = if decide (i = 0) then u8 ch else slot d i.
Proof.
  intros Hd Hi. unfold slot; cbn. pose proof (slot_in_range d i Hd) as Hr.
  destruct Hd as (Hl & Hg & _). unfold BUFF_SIZE in *.
  case_decide as E.
  - subst i. rewrite Z.add_0_r in *. rewrite Z.mod_small in * by lia.
    by rewrite list_lookup_total_insert_eq.
  - rewrite list_lookup_total_insert_ne; [done|]. intros Heq.
    apply Z2Nat.inj in Heq; [|lia|apply Z.mod_pos_bound; lia].
    apply E. Z.to_euclidean_division_equations; lia.
Qed.

Lemma contents_push_empty ch d :
  ring_ok d -> cnt d = 0 -> contents (push ch d) = [u8 ch].
Proof.
  intros Hd Hc. unfold contents. cbn [push cnt]. rewrite Hc.
  change (u64 (0 + 1)) with 1. change (seqZ 0 1) with [0]. cbn [fmap list_fmap].
  by rewrite slot_push by (done || (unfold BUFF_SIZE; lia)).
Qed.

Lemma contents_push ch d :
  ring_ok d -> 0 < cnt d < BUFF_SIZE ->
  contents (push ch d) = u8 ch :: tail (contents d) ++ [slot d (cnt d)].
Proof.
  intros Hd Hc. unfold BUFF_SIZE in Hc. unfold contents. cbn [push cnt].
  rewrite wrap_small by lia.
  rewrite seqZ_cons, (seqZ_cons 0 (cnt d)) by lia. cbn [fmap list_fmap tail].
  rewrite slot_push by (done || (unfold BUFF_SIZE; lia)). f_equal.
  replace (Z.pred (cnt d + 1)) with (Z.pred (cnt d) + 1) by lia.
  rewrite seqZ_app, fmap_app by lia. f_equal.
  - apply list_fmap_ext. intros i x Hx. apply lookup_seqZ in Hx as [-> Hx].
    rewrite slot_push by (done || (unfold BUFF_SIZE; lia)). by rewrite decide_False by lia.
  - replace (Z.succ 0 + Z.pred (cnt d)) with (cnt d) by lia.
    change (seqZ (cnt d) 1) with [cnt d]. cbn [fmap list_fmap].
    rewrite slot_push by (done || (unfold BUFF_SIZE; lia)).
    by rewrite decide_False by lia.
Qed.

Lemma contents_pop d : ring_ok d -> 0 < cnt d -> contents (pop 1 d) = tail (contents d).
Proof. intros Hd Hc. by rewrite (contents_cons d). Qed.

Lemma contents_empty d : contents d = [] <-> cnt d <= 0.
Proof. rewrite <- length_zero_iff_nil, length_contents. lia. Qed.

End ring.

(** ** The scancode table *)

Section table.

Lemma release_mask sc : 0 <= sc < 2 ^ 32 ->
  Z.land sc (u32 (Z.lnot SCANCODE_RELEASED_MASK)) = Z.ldiff sc SCANCODE_RELEASED_MASK.
Proof.
  intros Hsc. apply Z.bits_inj'. intros n Hn.
  unfold wrap. rewrite Z.land_spec, Z.ldiff_spec.
  destruct (decide (n < 32)).
  - rewrite Z.mod_pow2_bits_low by lia. by rewrite Z.lnot_spec.
  - assert (Z.testbit sc n = false) as ->; [|done].
    destruct (decide (sc = 0)) as [->|]; [by rewrite Z.bits_0|].
    apply Z.bits_above_log2; [lia|].
    assert (Z.log2 sc < 32); [by apply Z.log2_lt_pow2; lia|lia].
Qed.

Lemma keymap_range : Forall (fun e => 0 <= e.1 < 0x3a) keymap.
Proof. by apply (bool_decide_unpack _); vm_compute. Qed.

Lemma ascii_of_key_out key : 0x3a <= key -> ascii_of_key key = 63.
Proof.
  intros Hk. unfold ascii_of_key.
  assert (filter (fun e : Z * Z => e.1 = key) keymap = []) as ->; [|done].
  apply elem_of_nil_inv. intros e [He Hin]%list_elem_of_filter.
  pose proof (proj1 (Forall_forall _ _) keymap_range _ Hin). cbn in *; lia.
Qed.

(** The table the code reads, for the 58 scancodes below the end of the map. *)
Lemma get_ascii_low :
  Forall (fun sc => get_ascii sc = Some (ascii_of_key sc)) (seqZ 0 0x3a).
Proof. by apply (bool_decide_unpack _); vm_compute. Qed.

Lemma get_ascii_eq sc :
  0 <= sc < 2 ^ 32 ->
  get_ascii sc = Some (ascii_of_key (Z.ldiff sc SCANCODE_RELEASED_MASK)).
Proof.
  intros Hsc. set (key := Z.ldiff sc SCANCODE_RELEASED_MASK).
  assert (0 <= key < 2 ^ 32) as Hkey.
  { unfold key. split; [apply Z.ldiff_nonneg; lia|].
    apply Z.bounded_iff_bits_nonneg; [lia|apply Z.ldiff_nonneg; lia|].
    intros l Hl. rewrite Z.ldiff_spec.
    by rewrite (proj1 (Z.bounded_iff_bits_nonneg 32 sc ltac:(lia) (proj1 Hsc)) (proj2 Hsc)). }
  assert (get_ascii sc = get_ascii key) as ->.
  { unfold get_ascii. rewrite !release_mask by done. do 2 f_equal.
    unfold key. rewrite Z.ldiff_ldiff_l, Z.lor_diag. done. }
  assert (Z.ldiff key SCANCODE_RELEASED_MASK = key) as Hidem.
  { unfold key. by rewrite Z.ldiff_ldiff_l, Z.lor_diag. }
  clearbody key. destruct (decide (key < 0x3a)) as [Hlow|Hhigh].
  - apply (proj1 (Forall_forall _ _) get_ascii_low). apply elem_of_seqZ. lia.
  - rewrite ascii_of_key_out by lia. unfold get_ascii. rewrite release_mask, Hidem by done.
    by rewrite !decide_False by lia.
Qed.


End table.

(** ** Properties *)

Section runs.
Context {LO : Layout}.
Implicit Types (d : kbd_dev) (s : devices) (K : oracle) (t : trace).

(** The history of a critical section that makes no call. *)
Definition locked_irqsave (p : Z) (t : trace) : trace :=
  (spin_unlock_irqrestore (lock_of p), 0) :: (spin_lock_irqsave (lock_of p), 0) :: t.

Lemma locked_irqsave_ok p t :
  preemptible t = true -> disciplined t = true ->
  disciplined (locked_irqsave p t) = true /\ held (locked_irqsave p t) = held t.
Proof. intros. by apply (empty_section_ok _ _ (lock_of p)). Qed.

Lemma held_locked_irqsave p t : held (locked_irqsave p t) = held t.
Proof. apply drop_one_cons. Qed.

(** Everything [kbd_read] can do, whatever the user's memory does. *)
Lemma read_loop_spec p K n : forall u r d s t,
  s !! p = Some d -> ring_ok d ->
  exists k t',
    user_writes t' = user_writes t ++ zip (seqZ u k) (take (Z.to_nat k) (contents d)) /\
    held t' = held t /\
    (preemptible t = true -> disciplined t = true -> disciplined t' = true) /\
    ((0 <= k /\ k = Z.min (Z.of_nat n) (cnt d) /\
      read_loop p u r n K s t = Done (s64 (r + k)) (<[p := pop k d]> s) t') \/
     (0 <= k < Z.min (Z.of_nat n) (cnt d) /\
      read_loop p u r n K s t = Done (- EFAULT) (<[p := pop (k + 1) d]> s) t')).
Proof.
  induction n as [|n IH]; intros u r d s t Hp Hd; cbn [read_loop].
  { exists 0, t. split; [by rewrite app_nil_r|]. split; [done|]. split; [done|]. left.
    destruct Hd as (?&?&?&?). split; [lia|]. split; [lia|].
    rewrite Z.add_0_r, pop_0, insert_id by done. done. }
  unfold mbind at 1 3, M_bind at 1 3. rewrite (read_section_eq p d) by done. cbv zeta.
  fold (locked_irqsave p t). case_decide as Hc.
  2: { exists 0, (locked_irqsave p t). split; [by rewrite app_nil_r|].
    split; [apply held_locked_irqsave|]. split; [by apply locked_irqsave_ok|]. left.
    pose proof Hd as (?&?&?&?). split; [lia|]. split; [lia|].
    rewrite Z.add_0_r, pop_0, insert_id by done. done. }
  set (t1 := locked_irqsave p t). set (c := slot d 0).
  unfold mbind, M_bind, ask. fold (M_bind (S := devices)).
  assert (Hd1 : ring_ok (pop 1 d)) by (apply pop_ok; [lia|done]).
  destruct (decide (K t1 (put_user c u) <> 0)) as [Hf|Hok].
  { exists 0, ((put_user c u, K t1 (put_user c u)) :: t1).
    split; [cbn; rewrite decide_False by done; by rewrite app_nil_r|].
    split; [apply held_locked_irqsave|]. split.
    { intros Hpre Hdi. destruct (locked_irqsave_ok p t Hpre Hdi) as [Hd' Hh].
      rewrite disciplined_cons. fold t1 in Hd', Hh. rewrite Hd', blocking_ok; try done.
      by rewrite (preemptible_held t). }
    right. split; [lia|]. done. }

  assert (Hok' : K t1 (put_user c u) = 0) by (by apply dec_stable).
  rewrite Hok'. set (t2 := (put_user c u, 0) :: t1).
  destruct (IH (u + 1) (r + 1) (pop 1 d) (<[p := pop 1 d]> s) t2)
    as (k & t' & Hu & Hh & Hdi & Hres); [apply lookup_insert_eq|done|].
  exists (1 + k), t'. rewrite !insert_insert_eq, !pop_pop in Hres.
  assert (0 <= k) as Hk by (destruct Hres as [[? ?]|[[? ?] ?]]; done).
  split; [|split; [|split]].
  - rewrite Hu. cbn [user_writes t2]. rewrite decide_True by done.
    change (user_writes t1) with (user_writes t).
    rewrite <- app_assoc. f_equal. rewrite (seqZ_cons u) by lia.
    rewrite (contents_cons d) by lia.
    replace (Z.to_nat (1 + k)) with (Datatypes.S (Z.to_nat k)) by lia.
    replace (Z.pred (1 + k)) with k by lia. replace (Z.succ u) with (u + 1) by lia. done.
  - rewrite Hh. apply held_locked_irqsave.
  - intros Hpre Hdisc. destruct (locked_irqsave_ok p t Hpre Hdisc) as [Hd' Hh'].
    apply Hdi; [by rewrite (preemptible_held t)|].
    unfold t2. rewrite disciplined_cons. fold t1 in Hd', Hh'. rewrite Hd', blocking_ok; try done.
    by rewrite (preemptible_held t).
  - cbn [cnt pop] in Hres. destruct Hres as [(H0 & Hkn & E)|(Hkn & E)]; [left|right].
    + split; [lia|]. split; [lia|]. rewrite E. by replace (r + 1 + k) with (r + (1 + k)) by lia.
    + split; [lia|]. rewrite E. by replace (1 + (k + 1)) with (1 + k + 1) by lia.
Qed.

(** A key event as the interrupt handler leaves it: the record it logs and,
    for a press, its critical section. *)
Definition irq_trace (K : oracle) (irq p : Z) (t : trace) : trace :=
  let raw := K t (inb I8042_DATA_REG) in
  let sc := u8 raw in
  let log := printk "IRQ %d: scancode=0x%x (%u) pressed=%d ch=%c\n"
    [KInt irq; KInt sc; KInt sc; KInt (is_key_press sc);
     KInt (ascii_of_key (Z.ldiff sc SCANCODE_RELEASED_MASK))] in
  let t1 := (log, 0) :: (inb I8042_DATA_REG, raw) :: t in
  if Z.testbit sc 7 then t1
  else (spin_unlock (lock_of p), 0) :: (spin_lock (lock_of p), 0) :: t1.

Lemma is_key_press_testbit sc :
  is_key_press sc = if Z.testbit sc 7 then 0 else 1.
Proof.
  unfold is_key_press.
  assert (Z.land sc SCANCODE_RELEASED_MASK = Z.b2z (Z.testbit sc 7) * 2 ^ 7) as ->.
  { apply Z.bits_inj'. intros n Hn. rewrite Z.land_spec.
    change SCANCODE_RELEASED_MASK with (2 ^ 7). rewrite Z.pow2_bits_eqb by lia.
    destruct (Z.eqb_spec 7 n) as [<-|Hne].
    - by rewrite andb_true_r, Z.mul_pow2_bits, Z.b2z_bit0 by lia.
    - rewrite andb_false_r. destruct (decide (n < 7)).
      + by rewrite Z.mul_pow2_bits_low by lia.
      + rewrite Z.mul_pow2_bits by lia. destruct (Z.testbit sc 7); cbn [Z.b2z].
        * by rewrite Z.bits_above_log2 by (change (Z.log2 1) with 0; lia).
        * by rewrite Z.bits_0. }
  by destruct (Z.testbit sc 7).
Qed.

Lemma kbd_irq_handler_eq irq p d K s t :
  s !! p = Some d -> ring_ok d ->
  let sc := u8 (K t (inb I8042_DATA_REG)) in
  kbd_irq_handler irq p K s t =
    Done IRQ_NONE
      (if Z.testbit sc 7 then s else <[p := push (ascii_of_key sc) d]> s)
      (irq_trace K irq p t).
Proof.
  intros Hp Hd sc. unfold kbd_irq_handler, i8042_read_data.
  erewrite run_bind by (run_all; reflexivity). fold sc. cbv zeta.
  assert (Hsc : 0 <= sc < 2 ^ 32) by (pose proof (wrap_bounds 8 (K t (inb I8042_DATA_REG))); lia).
  rewrite (get_ascii_eq sc Hsc). cbn [unwrap]. run_all. rewrite is_key_press_testbit.
  unfold irq_trace. fold sc. cbv zeta. rewrite is_key_press_testbit.
  destruct (Z.testbit sc 7) eqn:Eb; cbn [decide_rel].
  { rewrite decide_False by lia. done. }
  rewrite decide_True by lia.
  assert (Z.ldiff sc SCANCODE_RELEASED_MASK = sc) as ->.
  { apply Z.bits_inj'. intros n Hn. rewrite Z.ldiff_spec.
    change SCANCODE_RELEASED_MASK with (2 ^ 7). rewrite Z.pow2_bits_eqb by lia.
    destruct (Z.eqb_spec 7 n) as [<-|Hne]; [by rewrite Eb|]. by rewrite andb_true_r. }
  erewrite run_bind; [|run_all; rewrite !(run_bind _ _ _ _ _ _ _ _ (put_char_eq p _ d _ _ _ Hp Hd)); reflexivity].
  done.
Qed.

(** Presses and reads keep the buffer in its bounds; nothing faults. *)
Lemma drive_ok p ops : forall K d s t,
  s !! p = Some d -> ring_ok d ->
  exists outs d', drive p ops K s t = Done outs (<[p := d']> s) t /\ ring_ok d'.
Proof.
  induction ops as [|[ch|] ops IH]; intros K d s t Hp Hd; cbn [drive].
  - exists [], d. by rewrite insert_id.
  - erewrite run_bind by by apply put_char_eq.
    destruct (IH K (push ch d) (<[p := push ch d]> s) t) as (outs & d' & E & Hd');
      [apply lookup_insert_eq|by apply push_ok|].
    rewrite insert_insert_eq in E. eauto.
  - unfold mbind at 1, M_bind at 1. rewrite (get_char_eq p d) by done. case_decide as Hc.
    + destruct (IH K (pop 1 d) (<[p := pop 1 d]> s) t) as (outs & d' & E & Hd');
        [apply lookup_insert_eq|apply pop_ok; [lia|done]|].
      rewrite insert_insert_eq in E. unfold mbind, M_bind. rewrite E. eauto.
    + destruct (IH K d s t) as (outs & d' & E & Hd'); [done..|].
      unfold mbind, M_bind. rewrite E. eauto.
Qed.

Lemma drive_presses p chs : forall K d s t,
  s !! p = Some d -> ring_ok d ->
  drive p (Press <$> chs) K s t =
    Done [] (<[p := foldl (fun d ch => push ch d) d chs]> s) t.
Proof.
  induction chs as [|ch chs IH]; intros K d s t Hp Hd; cbn.
  - by rewrite insert_id.
  - erewrite run_bind by by apply put_char_eq.
    rewrite (IH K (push ch d)) by (apply lookup_insert_eq || by apply push_ok).
    by rewrite insert_insert_eq.
Qed.

Lemma cnt_presses chs : forall d,
  ring_ok d -> cnt (foldl (fun d ch => push ch d) d chs) = u64 (cnt d + Z.of_nat (length chs)).
Proof.
  induction chs as [|ch chs IH]; intros d Hd; cbn [foldl length].
  - rewrite Z.add_0_r. symmetry. apply wrap_small, Hd.
  - rewrite IH by by apply push_ok. cbn [push cnt]. unfold wrap.
    rewrite Zplus_mod_idemp_l. f_equal. lia.
Qed.

Lemma slot_presses chs : forall d i,
  ring_ok d -> 0 < i < BUFF_SIZE ->
  slot (foldl (fun d ch => push ch d) d chs) i = slot d i.
Proof.
  induction chs as [|ch chs IH]; intros d i Hd Hi; cbn [foldl]; [done|].
  rewrite IH by (by apply push_ok || done).
  by rewrite slot_push, decide_False by (done || lia).
Qed.

Lemma contents_presses chs : forall d ch,
  ring_ok d -> cnt d = 0 -> Z.of_nat (length chs) < BUFF_SIZE ->
  ring_ok (foldl (fun d ch => push ch d) (push ch d) chs) /\
  contents (foldl (fun d ch => push ch d) (push ch d) chs) =
    u8 (default ch (last chs)) :: (slot d <$> seqZ 1 (Z.of_nat (length chs))).
Proof.
  induction chs as [|c chs IH] using rev_ind; intros d ch Hd Hc Hlen.
  { split; [by apply push_ok|]. by apply contents_push_empty. }
  rewrite length_app in Hlen. cbn in Hlen.
  destruct (IH d ch Hd Hc) as [Hok Hct]; [lia|].
  rewrite foldl_app, last_snoc, length_app. cbn [foldl default length].
  set (d1 := foldl _ (push ch d) chs) in *. split; [by apply push_ok|].
  assert (Hcnt : cnt d1 = Z.of_nat (length chs) + 1).
  { assert (Hl := f_equal length Hct). rewrite length_contents in Hl. cbn in Hl.
    rewrite length_fmap, length_seqZ in Hl. destruct Hok as (_ & _ & _ & ?). lia. }
  rewrite contents_push, Hct by (done || lia). cbn [tail app]. do 2 f_equal.
  rewrite Nat2Z.inj_add, seqZ_app, fmap_app by lia. f_equal.
  change (seqZ (1 + Z.of_nat (length chs)) (Z.of_nat 1)) with [1 + Z.of_nat (length chs)].
  cbn [fmap list_fmap]. f_equal.
  rewrite Hcnt. unfold d1. rewrite slot_presses by (by apply push_ok || lia).
  rewrite slot_push, decide_False by (done || lia). f_equal. lia.
Qed.

Lemma read_loop_spec_ok p K n u r d s t :
  (forall t c a, K t (put_user c a) = 0) ->
  s !! p = Some d -> ring_ok d ->
  let k := Z.min (Z.of_nat n) (cnt d) in
  exists t',
    read_loop p u r n K s t = Done (s64 (r + k)) (<[p := pop k d]> s) t' /\
    user_writes t' = user_writes t ++ zip (seqZ u k) (take (Z.to_nat k) (contents d)).
Proof.
  intros HK. revert u r d s t. induction n as [|n IH]; intros u r d s t Hp Hd k.
  - destruct (read_loop_spec p K 0 u r d s t Hp Hd)
      as (k' & t' & Hu & _ & _ & [(Hk & -> & E)|(Hk & E)]); [by eauto|].
    pose proof Hd as (_ & _ & _ & ?). lia.
  - cbn [read_loop]. unfold mbind at 1, M_bind at 1. rewrite (read_section_eq p d) by done.
    cbv zeta. fold (locked_irqsave p t). pose proof Hd as (_ & _ & _ & Hcn).
    case_decide as Hc.
    2: { assert (k = 0) as -> by lia. exists (locked_irqsave p t).
      rewrite Z.add_0_r, pop_0, insert_id by done. split; [done|]. by rewrite app_nil_r. }
    unfold mbind, M_bind, ask. fold (M_bind (S := devices)).
    rewrite HK, decide_False by lia.
    assert (Hd1 : ring_ok (pop 1 d)) by (apply pop_ok; [lia|done]).
    destruct (IH (u + 1) (r + 1) (pop 1 d) (<[p := pop 1 d]> s)
      ((put_user (slot d 0) u, 0) :: locked_irqsave p t)) as (t' & E & Hu);
      [apply lookup_insert_eq|done|].
    exists t'. rewrite insert_insert_eq, pop_pop in E. cbn [cnt pop] in E, Hu.
    assert (1 + Z.of_nat n `min` (cnt d - 1) = k) as Hk by lia. rewrite Hk in E.
    split; [rewrite E; do 2 f_equal; lia|].
    rewrite Hu. cbn [user_writes]. rewrite decide_True by done.
    change (user_writes (locked_irqsave p t)) with (user_writes t).
    rewrite <- app_assoc. f_equal. rewrite (seqZ_cons u k), (contents_cons d) by lia.
    replace (Z.to_nat k) with (Datatypes.S (Z.to_nat (Z.pred k))) by lia.
    replace (Z.of_nat n `min` (cnt d - 1)) with (Z.pred k) by lia.
    by replace (Z.succ u) with (u + 1) by lia.
Qed.

(** Against the queue: the buffer holds at most one character. *)
Lemma drive_fifo_pending p ops : forall K d s t (q : list Z),
  s !! p = Some d -> ring_ok d -> contents d = q -> (length q <= 1)%nat ->
  one_at_a_time ops (bool_decide (q <> [])) = true ->
  exists s', drive p ops K s t = Done (fifo ops q) s' t.
Proof.
  induction ops as [|[ch|] ops IH]; intros K d s t q Hp Hd Hq Hlen Hone; cbn [drive fifo].
  - by exists s.
  - cbn [one_at_a_time] in Hone. apply andb_true_iff in Hone as [Hone Hops].
    apply andb_true_iff in Hone as [Hemp Hch].
    apply negb_true_iff, bool_decide_eq_false in Hemp.
    apply bool_decide_eq_true in Hch. apply dec_stable in Hemp. subst q.
    assert (cnt d = 0) as Hc by (apply contents_empty in Hemp; destruct Hd as (_&_&_&?); lia).
    erewrite run_bind by by apply put_char_eq.
    rewrite Hemp. cbn [app].
    apply IH with (push ch d); [apply lookup_insert_eq|by apply push_ok| |cbn; lia|done].
    by rewrite contents_push_empty, wrap_small by (done || lia).
  - cbn [one_at_a_time] in Hone. unfold mbind at 1, M_bind at 1.
    rewrite (get_char_eq p d) by done. pose proof Hd as (_ & _ & _ & Hcn).
    assert (Htl : tail q = []) by (destruct q as [|? [|]]; cbn in *; [done..|lia]).
    case_decide as Hc.
    + assert (head q = Some (slot d 0)) as Hhd by (subst q; by rewrite contents_cons by lia).
      destruct (IH K (pop 1 d) (<[p := pop 1 d]> s) t []) as (s' & E); [apply lookup_insert_eq| | |cbn; lia|done|].
      * apply pop_ok; [lia|done].
      * rewrite contents_pop by (done || lia). by rewrite Hq.
      * exists s'. unfold mbind, M_bind. rewrite E, Htl, Hhd. done.
    + assert (q = []) as -> by (rewrite <- Hq; apply contents_empty; lia).
      destruct (IH K d s t []) as (s' & E); [done..|].
      exists s'. unfold mbind, M_bind. by rewrite E.
Qed.

Lemma drive_fifo_gen p ops d K s t :
  s !! p = Some d -> ring_ok d -> cnt d = 0 -> one_at_a_time ops false = true ->
  exists s', drive p ops K s t = Done (fifo ops []) s' t.
Proof.
  intros Hp Hd Hc Hone. apply drive_fifo_pending with d; [done..| |cbn; lia|done].
  apply contents_empty. lia.
Qed.

(** ** The interleaving semantics *)

Lemma read_loop_steps p K n : forall u r0 d s t r s' t',
  s !! p = Some d -> ring_ok d ->
  read_loop p u r0 n K s t = Done r s' t' ->
  rtc (reader_step K p) (Config (InLoop u r0 n) s t) (Config (Returned r) s' t').
Proof.
  induction n as [|n IH]; intros u r0 d s t r s' t' Hp Hd E; cbn [read_loop] in E.
  { unfold mret, M_ret in E. simplify_eq. apply rtc_once. by split; [apply step_done|]. }
  unfold mbind at 1, M_bind at 1 in E.
  pose proof (read_section_eq p d K s t Hp Hd) as Hsec. cbv zeta in Hsec.
  rewrite Hsec in E. destruct (decide (cnt d > 0)) as [Hc|Hc].
  2: { unfold mret, M_ret in E. simplify_eq. apply rtc_once. by split; [apply step_empty|]. }
  unfold mbind, M_bind, ask in E. fold (M_bind (S := devices)) in E.
  eapply rtc_l; [split; [apply step_got, Hsec|done]|].
  destruct (decide (K _ _ <> 0)) as [Hf|Hok] in E.
  { unfold mret, M_ret in E. simplify_eq. apply rtc_once.
    split; [by eapply step_fault|done]. }
  apply dec_stable in Hok. rewrite Hok in E.
  eapply rtc_l; [split; [by apply step_copied|]|].
  { cbn. congruence. }
  eapply IH; [apply lookup_insert_eq| |exact E]. apply pop_ok; [lia|done].
Qed.

(** What a reader that has called with [size] may be doing. *)
Definition reader_bounded (size : Z) (r : reader) : Prop :=
  match r with
  | Idle => False
  | InLoop _ read n => 0 <= read /\ read + Z.of_nat n <= size
  | Copying _ _ read n => 0 <= read /\ read + Z.of_nat n < size
  | Returned r => r = - EFAULT \/ 0 <= r <= size
  end.

(** The buffer is in bounds and the locks are as they were in the beginning. *)
Definition locks_ok (p : Z) (t0 : trace) (c : config) : Prop :=
  (exists d, devices_of c !! p = Some d /\ ring_ok d) /\
  disciplined (trace_of c) = true /\ held (trace_of c) = held t0.

Definition config_ok (p size : Z) (t0 : trace) (c : config) : Prop :=
  locks_ok p t0 c /\ reader_bounded size (rd c).

Lemma irq_trace_ok K irq p t :
  preemptible t = true -> disciplined t = true ->
  disciplined (irq_trace K irq p t) = true /\ held (irq_trace K irq p t) = held t.
Proof.
  intros Hpre Hdi. unfold irq_trace. cbv zeta.
  destruct (Z.testbit _ 7); [by rewrite !quiet_disciplined, !quiet_held|].
  edestruct (empty_section_ok (spin_lock (lock_of p), 0) (spin_unlock (lock_of p), 0) (lock_of p))
    as [Hd Hh]; [done..| | |rewrite Hd, Hh].
  - erewrite preemptible_held; [exact Hpre|]. by rewrite !quiet_held.
  - by rewrite !quiet_disciplined.
  - by rewrite !quiet_held.
Qed.

Lemma read_section_ok p K s t x s' t' t0 :
  (exists d, s !! p = Some d /\ ring_ok d) ->
  preemptible t0 = true -> disciplined t = true -> held t = held t0 ->
  read_section p K s t = Done x s' t' ->
  (exists d, s' !! p = Some d /\ ring_ok d) /\ disciplined t' = true /\ held t' = held t0.
Proof.
  intros (d & Hp & Hd) Hpre Hdi Hh E. rewrite (read_section_eq p d) in E by done. cbv zeta in E.
  destruct (locked_irqsave_ok p t) as [Hdi' Hh']; [by rewrite (preemptible_held t0)|done|].
  fold (locked_irqsave p t) in E.
  destruct (decide (cnt d > 0)); simplify_eq; split; try (split; congruence).
  - exists (pop 1 d). split; [apply lookup_insert_eq|]. apply pop_ok; [lia|done].
  - by exists d.
Qed.

Lemma step_locks p t0 (Hpre : preemptible t0 = true) K c c' :
  step K p c c' -> locks_ok p t0 c -> locks_ok p t0 c'.
Proof.
  intros Hs ((d & Hp & Hd) & Hdi & Hh).
  assert (Hput : forall t e, disciplined t = true -> held t = held t0 ->
    releases e = None -> acquires e = None -> disciplined (e :: t) = true /\ held (e :: t) = held t0).
  { intros t e Ht Hht E1 E2. rewrite disciplined_cons, Ht, blocking_ok, held_skip; try done.
    by rewrite (preemptible_held t0). }
  destruct Hs; cbn in *; try done; unfold locks_ok; cbn;
    repeat (match goal with
    | E : read_section _ _ _ _ = Done _ _ _ |- _ =>
        by apply (read_section_ok p K s t _ _ _ t0) in E as (? & ? & ?); [|by eauto..]
    end); try by eauto.
  - destruct (Hput t (put_user ch uBuff, 0)) as [? ?]; by eauto.
  - destruct (Hput t (put_user ch uBuff, r)) as [? ?]; by eauto.
  - rewrite (kbd_irq_handler_eq irq p d) in H by done. simplify_eq.
    destruct (irq_trace_ok K irq p t) as [? ?]; [by rewrite (preemptible_held t0)|done|].
    split; [|split; [done|congruence]]. case_match; [by eauto|]. eexists.
    split; [apply lookup_insert_eq|by apply push_ok].
  - rewrite (kbd_write_eq p d) in H by done. simplify_eq.
    destruct (locked_irqsave_ok p t) as [? Hx]; [by rewrite (preemptible_held t0)|done|].
    split; [|split; [done|by rewrite <- Hh]].
    eexists. split; [apply lookup_insert_eq|]. destruct Hd as (? & ? & ? & ?).
    by repeat split; cbn.
Qed.

Lemma step_bounded p size K c c' :
  size < 2 ^ 63 -> step K p c c' -> reader_bounded size (rd c) -> reader_bounded size (rd c').
Proof.
  intros Hsize Hs Hb.
  destruct Hs; cbn in *; done || lia || (by left) || (right; rewrite swrap_small by lia; lia).
Qed.

Lemma steps_ok p size t0 K c c' :
  preemptible t0 = true -> size < 2 ^ 63 ->
  rtc (step K p) c c' -> config_ok p size t0 c -> config_ok p size t0 c'.
Proof.
  intros Hpre Hsize Hrun. apply (rtc_keeps _ Hrun). intros c1 c2 Hs [Hl Hb].
  split; [by eapply step_locks|by eapply step_bounded].
Qed.

Lemma bounded_busy size r : reader_bounded size r -> r <> Idle.
Proof. by intros Hb ->. Qed.

Lemma reader_progress p t0 K c :
  locks_ok p t0 c -> rd c <> Idle ->
  (exists r, rd c = Returned r) \/ exists c', reader_step K p c c'.
Proof.
  destruct c as [[|u r [|n]|ch u r n|r] s t]; intros ((d & Hp & Hd) & _) Hb; cbn in *.
  - done.
  - right. eexists. by split; [apply step_done|].
  - right. pose proof (read_section_eq p d K s t Hp Hd) as E. cbv zeta in E.
    destruct (decide (cnt d > 0)).
    + eexists. by split; [apply step_got, E|].
    + eexists. by split; [apply step_empty, E|].
  - right. destruct (decide (K t (put_user ch u) = 0)).
    + eexists. by split; [apply step_copied|].
    + eexists. by split; [eapply step_fault|].
  - left. eauto.
Qed.

End runs.

Section properties.
Context {LO : Layout}.
Implicit Types (d : kbd_dev) (s : devices) (K : oracle) (t : trace).

Lemma kbd_read_returns p d u n K s t :
  s !! p = Some d -> ring_ok d -> oopsed (kbd_read p u n K s t) = false.
Proof.
  intros Hp Hd. unfold kbd_read.
  destruct (read_loop_spec p K (Z.to_nat n) u 0 d s t Hp Hd)
    as (k & t' & _ & _ & _ & [(_ & _ & ->)|(_ & ->)]); done.
Qed.

(** C29: for every 32-bit scancode, press or release, [get_ascii] stays inside
    its row tables and returns the character of the key whose code is the
    scancode without the release bit, [?] for the keys outside the map. *)
Theorem get_ascii_correct sc :
  0 <= sc < 2 ^ 32 ->
  get_ascii sc = Some (ascii_of_key (Z.ldiff sc SCANCODE_RELEASED_MASK)).
Proof. apply get_ascii_eq. Qed.

(** C5: when no copy faults, [kbd_read] returns the smaller of the requested
    size and the number of buffered characters, has delivered exactly that
    prefix of the contents to consecutive user addresses, and has consumed it. *)
Theorem kbd_read_delivers p u size d K s t :
  s !! p = Some d -> ring_ok d -> 0 <= size < 2 ^ 63 ->
  (forall t c a, K t (put_user c a) = 0) ->
  let n := Z.min size (cnt d) in
  exists t',
    kbd_read p u size K s t = Done n (<[p := pop n d]> s) t' /\
    user_writes t' = user_writes t ++ zip (seqZ u n) (take (Z.to_nat n) (contents d)).
Proof.
  intros Hp Hd Hsize HK n.
  destruct (read_loop_spec_ok p K (Z.to_nat size) u 0 d s t HK Hp Hd) as (t' & E & Hu).
  unfold kbd_read. rewrite Z2Nat.id in E, Hu by lia. exists t'. fold n in E, Hu.
  pose proof Hd as (_ & _ & _ & ?). rewrite E, Z.add_0_l, swrap_small by (unfold n; lia). done.
Qed.

(** A faulting copy ends [kbd_read] with -EFAULT after exactly one more
    character was consumed than delivered: that character is lost. *)
Theorem kbd_read_fault p u size d K s t s' t' :
  s !! p = Some d -> ring_ok d -> 0 <= size < 2 ^ 63 ->
  kbd_read p u size K s t = Done (- EFAULT) s' t' ->
  exists k, 0 <= k < Z.min size (cnt d) /\
    user_writes t' = user_writes t ++ zip (seqZ u k) (take (Z.to_nat k) (contents d)) /\
    s' = <[p := pop (k + 1) d]> s.
Proof.
  intros Hp Hd Hsize E. unfold kbd_read in E.
  destruct (read_loop_spec p K (Z.to_nat size) u 0 d s t Hp Hd)
    as (k & t'' & Hu & _ & _ & [(Hk & Hkn & E')|(Hk & E')]); rewrite Z2Nat.id in * by lia.
  - assert (Hk' : - EFAULT = s64 (0 + k)) by congruence.
    rewrite swrap_small in Hk' by lia. unfold EFAULT in Hk'. lia.
  - rewrite E in E'. simplify_eq. eauto.
Qed.

(** The interrupt handler returns IRQ_NONE whatever the scancode; a key
    release leaves the devices alone; a key press stores the translated
    character at the read index and advances the write index, under the lock. *)
Theorem kbd_irq_handler_spec irq p d K s t :
  s !! p = Some d -> ring_ok d ->
  let sc := u8 (K t (inb I8042_DATA_REG)) in
  kbd_irq_handler irq p K s t =
    Done IRQ_NONE
      (if Z.testbit sc 7 then s else <[p := push (ascii_of_key sc) d]> s)
      (irq_trace K irq p t).
Proof. apply kbd_irq_handler_eq. Qed.

(** C30: after [n] key presses into an empty buffer ([1 <= n <= BUFF_SIZE]) the
    reader gets the last character pressed followed by [n-1] bytes the buffer
    held before: every earlier press is lost. *)
Theorem presses_overwrite p ch chs d K s t :
  s !! p = Some d -> ring_ok d -> cnt d = 0 -> Z.of_nat (length chs) < BUFF_SIZE ->
  exists d', drive p (Press <$> ch :: chs) K s t = Done [] (<[p := d']> s) t /\
    contents d' =
      u8 (default ch (last chs)) :: (slot d <$> seqZ 1 (Z.of_nat (length chs))).
Proof.
  intros Hp Hd Hc Hl. eexists. split; [by apply drive_presses|].
  by apply contents_presses.
Qed.

(** As long as every press finds the buffer empty, the reads return what
    the documented queue returns. *)
Theorem drive_fifo p ops d K s t :
  s !! p = Some d -> ring_ok d -> cnt d = 0 -> one_at_a_time ops false = true ->
  exists s', drive p ops K s t = Done (fifo ops []) s' t.
Proof. apply drive_fifo_gen. Qed.

(** Presses are never refused: the number of characters the buffer claims
    to hold grows by one with every press, past BUFF_SIZE. *)
Theorem presses_unbounded p chs d K s t :
  s !! p = Some d -> ring_ok d -> cnt d = 0 -> BUFF_SIZE < Z.of_nat (length chs) < 2 ^ 64 ->
  exists d', drive p (Press <$> chs) K s t = Done [] (<[p := d']> s) t /\
    cnt d' = Z.of_nat (length chs) /\ BUFF_SIZE < cnt d'.
Proof.
  intros Hp Hd Hc Hl. eexists. split; [by apply drive_presses|].
  rewrite cnt_presses, Hc, wrap_small by (done || lia). unfold BUFF_SIZE in *. lia.
Qed.

(** [kbd_read] is one of the runs of the reader in the interleaving
    semantics: its steps, in order, with nothing in between. *)
Theorem kbd_read_steps p u size d K s t r s' t' :
  s !! p = Some d -> ring_ok d ->
  kbd_read p u size K s t = Done r s' t' ->
  rtc (reader_step K p) (Config Idle s t) (Config (Returned r) s' t').
Proof.
  intros Hp Hd E. eapply rtc_l; [split; [by apply step_call|done]|].
  by apply read_loop_steps with d.
Qed.

(** C1: in every interleaving of a reader with interrupts and writers, started
    from process context, the indices stay inside the buffer, no lock is
    mishandled, nothing blocks in atomic context, the reader has been given at
    most what it asked for, the next interrupt and the next write are handled
    without a fault, and the reader can move, without a fault, until it has
    returned. *)
Theorem kbd_interleaving_safe p size d K s t c :
  s !! p = Some d -> ring_ok d -> preemptible t = true -> disciplined t = true ->
  0 <= size < 2 ^ 63 ->
  rtc (step K p) (Config (InLoop 0 0 (Z.to_nat size)) s t) c ->
  (exists d', devices_of c !! p = Some d' /\ ring_ok d') /\
  disciplined (trace_of c) = true /\ held (trace_of c) = held t /\
  reader_bounded size (rd c) /\
  (forall irq, oopsed (kbd_irq_handler irq p K (devices_of c) (trace_of c)) = false) /\
  (forall u n, oopsed (kbd_write p u n K (devices_of c) (trace_of c)) = false) /\
  ((exists r, rd c = Returned r) \/ exists c', reader_step K p c c').
Proof.
  intros Hp Hd Hpre Hdi Hsize Hrun.
  assert (config_ok p size t c) as Hok.
  { eapply (steps_ok p size t); [done|lia|exact Hrun|]. split; [by split; [exists d|]|]. cbn. lia. }
  pose proof Hok as [((d' & Hp' & Hd') & Hdi' & Hh) Hb].
  split; [by exists d'|]. split; [done|]. split; [done|]. split; [done|]. split.
  - intros irq. by rewrite (kbd_irq_handler_eq irq p d').
  - split; [intros u n; by rewrite (kbd_write_eq p d')|].
    apply (reader_progress p t); [apply Hok|by eapply bounded_busy].
Qed.

End properties.

(** ** Module load and unload *)

Section load.
Context {LO : Layout}.
Implicit Types (s : devices) (K : oracle) (t : trace).

Abbreviation REGION := (register_chrdev_region (MKDEV MAJOR_NUMBER MINOR_NUMBER) NUM_MINORS MODULE_NAME).
Abbreviation DATA_PORT := (request_region I8042_DATA_REG 1 MODULE_NAME).
Abbreviation STATUS_PORT := (request_region I8042_STATUS_REG 1 MODULE_NAME).

(** The histories [kbd_init] leaves, newest call first, by where it stops. *)
Definition init_t0 t : trace := (printk "[LOG] kbd driver intialized\n" [], 0) :: t.
Definition init_t1 t (r : Z) : trace := (REGION, r) :: init_t0 t.
Definition init_t2 t (r r1 : Z) : trace := (DATA_PORT, r1) :: init_t1 t r.
Definition init_t3 t (r r1 r2 : Z) : trace := (STATUS_PORT, r2) :: init_t2 t r r1.
Definition init_t4 t (r r1 r2 r3 : Z) : trace :=
  (spin_lock_init (lock_of (dev_addr 0)), 0) ::
  (cdev_add (cdev_of (dev_addr 0)) (MKDEV MAJOR_NUMBER MINOR_NUMBER) 1, r3) ::
  (cdev_init (cdev_of (dev_addr 0)), 0) :: init_t3 t r r1 r2.
Abbreviation CDEV_ADD := (cdev_add (cdev_of (dev_addr 0)) (MKDEV MAJOR_NUMBER MINOR_NUMBER) 1).
Abbreviation REQUEST_IRQ := (request_irq I8042_KBD_IRQ MODULE_NAME (dev_addr 0)).
Abbreviation put_data := (release_region I8042_DATA_REG 1, 0).
Abbreviation put_status := (release_region I8042_STATUS_REG 1, 0).

(** [&devs[i]] and [&devs[i].cdev] are the same address. *)
Lemma cdev_of_dev p : cdev_of p = p.
Proof. apply Z.add_0_r. Qed.

Lemma kbd_init_eq K s t :
  kbd_init K s t =
    let r := K (init_t0 t) REGION in
    let r1 := K (init_t1 t r) DATA_PORT in
    let r2 := K (init_t2 t r r1) STATUS_PORT in
    let r3 := K ((cdev_init (cdev_of (dev_addr 0)), 0) :: init_t3 t r r1 r2) CDEV_ADD in
    let r4 := K (init_t4 t r r1 r2 r3) REQUEST_IRQ in
    if decide (r <> 0) then
      Done r s ((printk "[ERROR] failed to allocate char device region\n" [], 0) :: init_t1 t r)
    else if decide (r1 = 0) then Done (- EBUSY) s (put_data :: init_t2 t r r1)
    else if decide (r2 = 0) then Done (- EBUSY) s (put_data :: put_status :: init_t3 t r r1 r2)
    else Done r4 s (put_data :: put_status :: (REQUEST_IRQ, r4) :: init_t4 t r r1 r2 r3).
Proof.
  unfold kbd_init. run_step. fold (init_t0 t). run_step.
  set (r := K (init_t0 t) REGION). fold (init_t1 t r). cbv zeta. case_decide; [by run_all|].
  run_step. set (r1 := K (init_t1 t r) DATA_PORT). fold (init_t2 t r r1). case_decide; [done|].
  run_step. set (r2 := K (init_t2 t r r1) STATUS_PORT). fold (init_t3 t r r1 r2).
  case_decide; done.
Qed.

(** Whatever the kernel answers, the driver owns neither I/O port once
    [kbd_init] has returned: the success path runs into the cleanup labels. *)
Theorem kbd_init_owns_no_port K s :
  exists r t', kbd_init K s [] = Done r s t' /\ forall p n, Rport p n ∉ held t'.
Proof.
  rewrite kbd_init_eq. cbv zeta.
  repeat case_decide; (eexists _, _; split; [done|]); intros p n; trace_simpl; not_held.
Qed.

(** When a port is busy, [kbd_init] fails with -EBUSY, keeps the
    character-device region and releases a port it does not own. *)
Theorem kbd_init_busy_leaks K s :
  K (init_t0 []) REGION = 0 ->
  K (init_t1 [] 0) DATA_PORT = 0 \/
  (K (init_t1 [] 0) DATA_PORT <> 0 /\ K (init_t2 [] 0 (K (init_t1 [] 0) DATA_PORT)) STATUS_PORT = 0) ->
  exists t', kbd_init K s [] = Done (- EBUSY) s t' /\
    held t' = [Rchrdev (MKDEV MAJOR_NUMBER MINOR_NUMBER) NUM_MINORS] /\
    disciplined t' = false.
Proof.
  intros Hr Hbusy. rewrite kbd_init_eq. cbv zeta. rewrite Hr, decide_False by lia.
  destruct Hbusy as [H1|[H1 H2]].
  - rewrite H1, decide_True by done. eexists. by split.
  - rewrite H2, decide_False, decide_True by done. eexists. split; [done|].
    by split; trace_simpl.
Qed.

(** After a fully successful load, unload gives back everything that is
    still held - the interrupt included, although it was requested for
    [&devs[i]] and is freed for [&devs[i].cdev] - and releases the two ports
    a second time. *)
Theorem kbd_exit_after_init K s :
  (forall t, K t REGION = 0) -> (forall t, K t DATA_PORT <> 0) ->
  (forall t, K t STATUS_PORT <> 0) -> (forall t, K t CDEV_ADD = 0) ->
  (forall t, K t REQUEST_IRQ = 0) ->
  exists t1 t2, kbd_init K s [] = Done 0 s t1 /\ kbd_exit K s t1 = Done () s t2 /\
    disciplined t1 = true /\ held t2 = [] /\
    disciplined (drop 3 t2) = true /\ disciplined (drop 2 t2) = false.
Proof.
  intros H0 H1 H2 H3 H4. rewrite kbd_init_eq. cbv zeta.
  rewrite H0, decide_False, decide_False, decide_False by auto.
  rewrite H3, H4. eexists _, _. split; [done|]. split; [done|].
  specialize (H1 (init_t1 [] 0)). specialize (H2 (init_t2 [] 0 (K (init_t1 [] 0) DATA_PORT))).
  unfold init_t4. rewrite !cdev_of_dev. repeat split; by trace_simpl.
Qed.

End load.

(** ** The properties at concrete inputs *)

Definition demo_layout : Layout :=
  {| devs := 4096; sizeof_kbd_dev := 256; offsetof_lock := 128 |}.
Definition demo_dev (n : Z) : kbd_dev := KbdDev (replicate 100 120) n 0 n.
Definition demo_heap (n : Z) : devices := {[ 4096 := demo_dev n ]}.

(** A kernel that grants everything; the keyboard sends the scancode of A. *)
Definition demo_kernel : oracle := fun _ c =>
  match c with
  | request_region _ _ _ => 1
  | inb _ => 0x1e
  | _ => 0
  end.

(** ... one that faults on the second byte copied to user space ... *)
Definition faulting_kernel : oracle := fun t c =>
  match c with
  | put_user _ dst => if decide (dst = 7001) then 1 else 0
  | _ => demo_kernel t c
  end.

(** ... and one whose data port is taken. *)
Definition busy_kernel : oracle := fun t c =>
  match c with
  | request_region _ _ _ => 0
  | _ => demo_kernel t c
  end.

Lemma demo_ring_ok n : 0 <= n < 100 -> ring_ok (demo_dev n).
Proof. intros. unfold ring_ok, BUFF_SIZE; cbn. repeat split; lia. Qed.

Lemma get_ascii_correct_witness :
  0 <= 0x9e < 2 ^ 32 /\ get_ascii 0x9e = Some (ascii_of_key 0x1e).
Proof. split; [lia|]. apply (get_ascii_correct 0x9e). lia. Defined.

Lemma kbd_read_delivers_witness :
  exists t', @kbd_read demo_layout 4096 7000 10 demo_kernel (demo_heap 2) [] =
    Done 2 (<[4096 := pop 2 (demo_dev 2)]> (demo_heap 2)) t' /\
  user_writes t' = [(7000, 120); (7001, 120)].
Proof.
  apply (@kbd_read_delivers demo_layout 4096 7000 10 (demo_dev 2) demo_kernel (demo_heap 2) []);
    [reflexivity|by apply demo_ring_ok|lia|reflexivity].
Defined.

Lemma kbd_read_fault_witness :
  exists s' t', @kbd_read demo_layout 4096 7000 10 faulting_kernel (demo_heap 3) [] =
    Done (- EFAULT) s' t' /\
  exists k, 0 <= k < Z.min 10 3 /\
    user_writes t' = zip (seqZ 7000 k) (take (Z.to_nat k) (contents (demo_dev 3))) /\
    s' = <[4096 := pop (k + 1) (demo_dev 3)]> (demo_heap 3).
Proof.
  eexists _, _. split; [vm_compute; reflexivity|].
  eapply (@kbd_read_fault demo_layout 4096 7000 10 (demo_dev 3) faulting_kernel (demo_heap 3) []);
    [reflexivity|by apply demo_ring_ok|lia|vm_compute; reflexivity].
Defined.

Lemma kbd_irq_handler_spec_witness :
  exists t', @kbd_irq_handler demo_layout 1 4096 demo_kernel (demo_heap 0) [] =
    Done IRQ_NONE (<[4096 := push 97 (demo_dev 0)]> (demo_heap 0)) t'.
Proof.
  eexists.
  apply (@kbd_irq_handler_spec demo_layout 1 4096 (demo_dev 0) demo_kernel (demo_heap 0) []);
    [reflexivity|by apply demo_ring_ok].
Defined.

Lemma presses_overwrite_witness :
  exists d', @drive 4096 [Press 97; Press 98; Press 99] demo_kernel (demo_heap 0) [] =
    Done [] (<[4096 := d']> (demo_heap 0)) [] /\ contents d' = [99; 120; 120].
Proof.
  apply (presses_overwrite 4096 97 [98; 99] (demo_dev 0) demo_kernel (demo_heap 0) []);
    [reflexivity|by apply demo_ring_ok|reflexivity|reflexivity].
Defined.

Lemma drive_fifo_witness :
  exists s', drive 4096 [Press 97; Get; Press 98; Get; Get] demo_kernel (demo_heap 0) [] =
    Done [Some 97; Some 98; None] s' [].
Proof.
  apply (drive_fifo 4096 [Press 97; Get; Press 98; Get; Get] (demo_dev 0));
    [reflexivity|by apply demo_ring_ok|reflexivity|reflexivity].
Defined.

Lemma presses_unbounded_witness :
  exists d', drive 4096 (Press <$> replicate 101 97) demo_kernel (demo_heap 0) [] =
    Done [] (<[4096 := d']> (demo_heap 0)) [] /\ cnt d' = 101 /\ BUFF_SIZE < cnt d'.
Proof.
  apply (presses_unbounded 4096 (replicate 101 97) (demo_dev 0));
    [reflexivity|by apply demo_ring_ok|reflexivity|rewrite length_replicate; unfold BUFF_SIZE; lia].
Defined.

Lemma kbd_read_steps_witness :
  exists s' t', @kbd_read demo_layout 4096 7000 10 demo_kernel (demo_heap 2) [] = Done 2 s' t' /\
  rtc (@reader_step demo_layout demo_kernel 4096) (Config Idle (demo_heap 2) [])
    (Config (Returned 2) s' t').
Proof.
  eexists _, _. split; [vm_compute; reflexivity|].
  eapply (@kbd_read_steps demo_layout 4096 7000 10 (demo_dev 2));
    [reflexivity|by apply demo_ring_ok|vm_compute; reflexivity].
Defined.

Lemma kbd_interleaving_safe_witness :
  let c := Config (InLoop 0 0 10) (demo_heap 2) [] in
  (exists d', devices_of c !! 4096 = Some d' /\ ring_ok d') /\
  disciplined (trace_of c) = true /\ held (trace_of c) = [] /\
  reader_bounded 10 (rd c) /\
  (forall irq, oopsed (@kbd_irq_handler demo_layout irq 4096 demo_kernel
    (devices_of c) (trace_of c)) = false) /\
  (forall u n, oopsed (@kbd_write demo_layout 4096 u n demo_kernel
    (devices_of c) (trace_of c)) = false) /\
  ((exists r, rd c = Returned r) \/ exists c', @reader_step demo_layout demo_kernel 4096 c c').
Proof.
  apply (@kbd_interleaving_safe demo_layout 4096 10 (demo_dev 2) demo_kernel (demo_heap 2) []);
    [reflexivity|by apply demo_ring_ok|reflexivity|reflexivity|lia|apply rtc_refl].
Defined.

Lemma kbd_init_busy_leaks_witness :
  exists t', @kbd_init demo_layout busy_kernel ∅ [] = Done (- EBUSY) ∅ t' /\
    held t' = [Rchrdev (MKDEV 42 0) 1] /\ disciplined t' = false.
Proof. apply (@kbd_init_busy_leaks demo_layout busy_kernel); [reflexivity|left; reflexivity]. Defined.

Lemma kbd_exit_after_init_witness :
  exists t1 t2, @kbd_init demo_layout demo_kernel ∅ [] = Done 0 ∅ t1 /\
    @kbd_exit demo_layout demo_kernel ∅ t1 = Done () ∅ t2 /\
    disciplined t1 = true /\ held t2 = [] /\
    disciplined (drop 3 t2) = true /\ disciplined (drop 2 t2) = false.
Proof. by apply (@kbd_exit_after_init demo_layout demo_kernel ∅). Defined.

End Kbd.
