(* ===== verification/KbdSession.v ===== *)
(** * Keyboard sessions: from the port to the user

    What a user who reads fast enough gets is what was typed.  The statement is
    about whole histories: the scancodes that the controller has answered and
    the bytes that have been copied to user space, for every interleaving of
    the interrupts with any number of calls of [kbd_read]. *)

From S2P Require Import Prelude Kernel Monad Kbd.

Module KbdSession.
Import Kbd.Kbd.

(** The characters the user has received, the first one first. *)
Definition received (t : trace) : list Z := snd <$> user_writes t.

(** The characters that a [put_user] has been called for, the first one first, and
    whether the copy succeeded. *)
Fixpoint offered (t : trace) : list (Z * bool) :=
  match t with
  | [] => []
  | (put_user c _, r) :: t' => offered t' ++ [(c, bool_decide (r = 0))]
  | _ :: t' => offered t'
  end.

(** The characters of the keys pressed: the answers of the data port without
    those for a release. *)
Fixpoint pressed (t : trace) : list Z :=
  match t with
  | [] => []
  | (inb _, raw) :: t' =>
      pressed t' ++ (if Z.testbit (u8 raw) 7 then [] else [ascii_of_key (u8 raw)])
  | _ :: t' => pressed t'
  end.

(** The character a reader has taken from the buffer and not yet copied. *)
Definition in_flight (r : reader) : list Z :=
  match r with Copying ch _ _ _ => [ch] | _ => [] end.

#[local] Arguments received : simpl never.

(** What was received is what was offered, without the copies that faulted. *)
Lemma received_offered t : received t = (filter (fun o => o.2 = true) (offered t)).*1.
Proof.
  unfold received. induction t as [|[c r] t IH]; [done|]. destruct c; try exact IH.
  cbn [user_writes offered]. rewrite filter_app, fmap_app. destruct (decide (r = 0)) as [Hr|Hr].
  - rewrite fmap_app, IH, bool_decide_true by done. done.
  - rewrite IH, bool_decide_false by done. cbn. by rewrite app_nil_r.
Qed.

Lemma received_more t t' new :
  offered t' = offered t ++ new -> received t' = received t ++ (filter (fun o => o.2 = true) new).*1.
Proof. intros E. by rewrite !received_offered, E, filter_app, fmap_app. Qed.
#[local] Arguments irq_trace : simpl never.
#[local] Arguments Z.testbit : simpl never.

Section sessions.
Context {LO : Layout} (K : oracle) (p : Z).
Implicit Types (c : config) (d : kbd_dev) (t : trace).

(** A step of a session in which the user keeps up: no key is pressed before the
    last character has been taken, and the buffer is not cleared before that
    either.  When a call has returned, the user calls again. *)
Inductive session : config -> config -> Prop :=
  | by_reader c c' : reader_step K p c c' -> session c c'
  | by_next_call r s t uBuff size :
      session (Config (Returned r) s t) (Config (InLoop uBuff 0 (Z.to_nat size)) s t)
  | by_release rd s t s' t' irq r :
      Z.testbit (u8 (K t (inb I8042_DATA_REG))) 7 = true ->
      kbd_irq_handler irq p K s t = Done r s' t' ->
      session (Config rd s t) (Config rd s' t')
  | by_press rd s t s' t' irq r d :
      s !! p = Some d -> cnt d = 0 ->
      kbd_irq_handler irq p K s t = Done r s' t' ->
      session (Config rd s t) (Config rd s' t')
  | by_write rd s t s' t' uBuff size r d :
      s !! p = Some d -> cnt d = 0 ->
      kbd_write p uBuff size K s t = Done r s' t' ->
      session (Config rd s t) (Config rd s' t').

(** Since the keys [P] had been pressed and the characters [O] had been offered,
    when [R] were taken or buffered: these and what has been pressed are what has
    been offered, then the character in flight, then the contents of the buffer. *)
Definition conveyed (P : list Z) (O : list (Z * bool)) (R : list Z) c : Prop :=
  exists d new l, devices_of c !! p = Some d /\ ring_ok d /\
    offered (trace_of c) = O ++ new /\ pressed (trace_of c) = P ++ l /\
    new.*1 ++ in_flight (rd c) ++ contents d = R ++ l.

Lemma ascii_of_key_byte key : u8 (ascii_of_key key) = ascii_of_key key.
Proof.
  apply wrap_small. unfold ascii_of_key.
  destruct (filter (fun e : Z * Z => e.1 = key) keymap) as [|e l] eqn:E; [cbn; lia|]. cbn.
  assert (Hin : e ∈ keymap).
  { apply (list_elem_of_filter (fun e : Z * Z => e.1 = key)). rewrite E. by left. }
  assert (Hall : Forall (fun e : Z * Z => 0 <= e.2 < 2 ^ 8) keymap)
    by by apply (bool_decide_unpack _); vm_compute.
  by apply (proj1 (Forall_forall _ _) Hall).
Qed.

Lemma pressed_irq irq t :
  pressed (irq_trace K irq p t) = pressed t ++
    (let sc := u8 (K t (inb I8042_DATA_REG)) in
     if Z.testbit sc 7 then [] else [ascii_of_key sc]).
Proof. unfold irq_trace. cbv zeta. by destruct (Z.testbit _ 7) eqn:E; cbn [pressed]; rewrite E. Qed.

Lemma offered_irq irq t : offered (irq_trace K irq p t) = offered t.
Proof. unfold irq_trace. cbv zeta. by destruct (Z.testbit _ 7). Qed.

(** A press into an empty buffer. *)
Lemma conveyed_press P O R rd irq r s t s' t' d :
  s !! p = Some d -> cnt d = 0 -> kbd_irq_handler irq p K s t = Done r s' t' ->
  conveyed P O R (Config rd s t) -> conveyed P O R (Config rd s' t').
Proof.
  intros Hp Hc E (d0 & new & l & Hp' & Hd & Ho & Hpr & Hre). cbn in *. simplify_eq.
  rewrite (kbd_irq_handler_eq irq p d) in E by done. cbv zeta in E.
  assert (He : contents d = []) by (apply contents_empty; lia).
  destruct (Z.testbit (u8 (K t (inb I8042_DATA_REG))) 7) eqn:Eb; simplify_eq.
  - exists d, new, l. split; [done|]. split; [done|]. cbn. rewrite pressed_irq, offered_irq. cbv zeta.
    by rewrite Eb, app_nil_r.
  - eexists _, new, (l ++ [_]). cbn. split; [apply lookup_insert_eq|]. split; [by apply push_ok|].
    rewrite pressed_irq, offered_irq. cbv zeta. rewrite Eb, Hpr, (assoc_L (++)). split; [done|]. split; [done|].
    rewrite He, app_nil_r in Hre. rewrite contents_push_empty, ascii_of_key_byte by done.
    by rewrite !(assoc_L (++)), Hre.
Qed.

Lemma conveyed_section R s t x s' t' d l (new : list (Z * bool)) :
  s !! p = Some d -> ring_ok d -> new.*1 ++ contents d = R ++ l ->
  read_section p K s t = Done x s' t' ->
  exists d', s' !! p = Some d' /\ ring_ok d' /\ pressed t' = pressed t /\ offered t' = offered t /\
    new.*1 ++ match x with Some ch => [ch] | None => [] end ++ contents d' = R ++ l.
Proof.
  intros Hp Hd Hre E. rewrite (read_section_eq p d) in E by done. cbv zeta in E.
  destruct (decide (cnt d > 0)) as [Hc|Hc]; simplify_eq.
  - exists (pop 1 d). split; [apply lookup_insert_eq|]. split; [apply pop_ok; [lia|done]|].
    split; [done|]. split; [done|]. by rewrite contents_cons in Hre by lia.
  - by exists d.
Qed.

Lemma conveyed_reader P O R c c' : reader_step K p c c' -> conveyed P O R c -> conveyed P O R c'.
Proof.
  intros [Hs Hne] (d & new & l & Hp & Hd & Ho & Hpr & Hre). destruct Hs; cbn in *; try done.
  - by exists d, new, l.
  - by exists d, new, l.
  - destruct (conveyed_section R s t None s' t' d l new) as (d' & ? & ? & E1 & E2 & ?); [done..|].
    exists d', new, l. cbn. by rewrite E1, E2.
  - destruct (conveyed_section R s t (Some ch) s' t' d l new) as (d' & ? & ? & E1 & E2 & ?); [done..|].
    exists d', new, l. cbn. by rewrite E1, E2.
  - exists d, (new ++ [(ch, true)]), l. split; [done|]. split; [done|]. cbn.
    by rewrite Ho, fmap_app, <- !(assoc_L (++)).
  - exists d, (new ++ [(ch, false)]), l. split; [done|]. split; [done|]. cbn.
    by rewrite Ho, fmap_app, bool_decide_false, <- !(assoc_L (++)).
Qed.

Lemma session_conveyed P O R c c' : session c c' -> conveyed P O R c -> conveyed P O R c'.
Proof.
  intros Hs. destruct Hs as [c c' Hs|r s t u size|rd s t s' t' irq r Hb E|rd s t s' t' irq r d Hp Hc E
    |rd s t s' t' u size r d Hp Hc E].
  - by apply conveyed_reader.
  - done.
  - intros (d & new & l & Hp & Hd & Ho & Hpr & Hre). cbn in *.
    rewrite (kbd_irq_handler_eq irq p d) in E by done. cbv zeta in E. rewrite Hb in E. simplify_eq.
    exists d, new, l. split; [done|]. split; [done|]. cbn. rewrite pressed_irq, offered_irq. cbv zeta.
    by rewrite Hb, app_nil_r.
  - by apply (conveyed_press P O R rd irq r s t s' t' d).
  - intros (d0 & new & l & Hp' & Hd & Ho & Hpr & Hre). cbn in *. simplify_eq.
    rewrite (kbd_write_eq p d) in E by done. simplify_eq. eexists _, new, l.
    split; [apply lookup_insert_eq|]. destruct Hd as (? & ? & ? & ?). split; [done|]. split; [done|].
    split; [done|]. assert (He : contents d = []) by (apply contents_empty; lia). by rewrite He in Hre.
Qed.

(** C22: the keyboard delivers what is typed to a user who keeps up.  From an
    empty buffer, through any interleaving of interrupts, releases and calls of
    [kbd_read], with copies faulting anywhere, and in which no key is pressed on top
    of a character that nobody has taken, the characters of the keys pressed are, in
    this order, those offered to the user since, each by one [put_user], then the
    one in flight and the buffered ones: none lost, none twice, none altered.  What
    the user has received are, in order, the characters offered whose copy did not
    fault. *)
Theorem session_delivers d s t c :
  s !! p = Some d -> ring_ok d -> cnt d = 0 ->
  rtc session (Config Idle s t) c ->
  exists d' new, devices_of c !! p = Some d' /\
    offered (trace_of c) = offered t ++ new /\
    pressed (trace_of c) = pressed t ++ new.*1 ++ in_flight (rd c) ++ contents d' /\
    received (trace_of c) = received t ++ (filter (fun o => o.2 = true) new).*1.
Proof.
  intros Hp Hd Hc Hrun.
  enough (conveyed (pressed t) (offered t) [] c) as (d' & new & l & ? & _ & ? & Hpr & Hre).
  { exists d', new. rewrite Hre. split_and!; [done..|by apply received_more]. }
  assert (H0 : conveyed (pressed t) (offered t) [] (Config Idle s t)).
  { exists d, [], []. rewrite !app_nil_r. split_and!; [done..|]. cbn.
    apply contents_empty. lia. }
  apply (rtc_keeps _ Hrun); [|done]. intros c1 c2 Hs Hc1. by apply (session_conveyed _ _ _ c1).
Qed.

End sessions.

(** ** Witness *)

(** A is pressed; the user asks for one byte and gets it. *)
Lemma typed_a_run :
  exists s', rtc (@session demo_layout demo_kernel 4096) (Config Idle (demo_heap 0) [])
    (Config (Returned 1) s' (let t := locked_irqsave (LO := demo_layout) 4096
      (irq_trace (LO := demo_layout) demo_kernel 1 4096 []) in (put_user 97 7000, 0) :: t)).
Proof.
  eexists. eapply rtc_l.
  { eapply (by_press _ _ _ _ _ _ _ 1); [reflexivity|reflexivity|vm_compute; reflexivity]. }
  eapply rtc_l; [apply by_reader; split; [by apply (step_call _ _ _ _ 7000 1)|done]|].
  eapply rtc_l; [apply by_reader; split; [eapply step_got; vm_compute; reflexivity|done]|].
  eapply rtc_l; [apply by_reader; split; [by apply step_copied|done]|].
  eapply rtc_l; [apply by_reader; split; [by apply step_done|done]|]. apply rtc_refl.
Qed.

Lemma session_delivers_witness :
  exists s' t' d' new,
    rtc (@session demo_layout demo_kernel 4096) (Config Idle (demo_heap 0) []) (Config (Returned 1) s' t') /\
    s' !! 4096 = Some d' /\ pressed t' = [97] /\ new = [(97, true)] /\ contents d' = [] /\
    received t' = [97].
Proof.
  destruct typed_a_run as [s' Hrun]. eexists s', _.
  destruct (@session_delivers demo_layout demo_kernel 4096 (demo_dev 0)
    (demo_heap 0) [] _ eq_refl (demo_ring_ok 0 ltac:(lia)) eq_refl Hrun) as (d' & new & H1 & H2 & H3 & H4).
  exists d', new. assert (E : new = [(97, true)]) by exact (eq_sym H2). rewrite E in H3, H4.
  split; [exact Hrun|]. split; [exact H1|]. split; [reflexivity|]. split; [exact E|].
  split; [injection H3 as H3; exact (eq_sym H3)|exact H4].
Defined.

End KbdSession.
