(* ===== verification/KbdRuns.v ===== *)
(** * Runs of the keyboard driver: termination and the origin of its bytes

    Two properties of the interleaving semantics of [Kbd]: a reader finishes
    within a number of its own steps that its argument bounds, however often it
    is interrupted; and however badly the user keeps up, every byte that the
    driver delivers was in its buffer at the start or has been typed. *)

From S2P Require Import Prelude Kernel Monad Kbd KbdSession.

Module KbdRuns.
Import Kbd.Kbd KbdSession.KbdSession.

Section runs.
Context {LO : Layout} (K : oracle) (p : Z).
Implicit Types (c : config) (d : kbd_dev) (t new : trace).

(** A run in which the reader itself makes [n] steps. *)
Inductive run : nat -> config -> config -> Prop :=
  | run_refl c : run 0 c c
  | run_other n c c' c'' : step K p c c' -> rd c' = rd c -> run n c' c'' -> run n c c''
  | run_own n c c' c'' : reader_step K p c c' -> run n c' c'' -> run (S n) c c''.

(** The steps a reader can still make. *)
Definition work (r : reader) : nat :=
  match r with
  | InLoop _ _ n => 2 * n + 1
  | Copying _ _ _ n => 2 * n + 2
  | Idle | Returned _ => 0
  end.

Lemma run_steps n c c' : run n c c' -> rtc (step K p) c c'.
Proof.
  induction 1 as [c|n c c' c'' Hs _ _ IH|n c c' c'' [Hs _] _ IH]; [done| |]; by eapply rtc_l.
Qed.

Lemma own_step_works c c' : reader_step K p c c' -> rd c <> Idle -> rd c' <> Idle /\
  (work (rd c') < work (rd c))%nat.
Proof. intros [Hs Hne] Hi. destruct Hs; cbn in *; done || (split; [done|lia]). Qed.

Lemma run_bounded n c c' :
  run n c c' -> rd c <> Idle -> rd c' <> Idle /\ (n + work (rd c') <= work (rd c))%nat.
Proof.
  induction 1 as [c|n c c' c'' Hs E _ IH|n c c' c'' Hs _ IH]; intros Hi; [by split| |].
  - rewrite <- E in *. by apply IH.
  - destruct (own_step_works c c' Hs Hi) as [Hi' Hw]. destruct (IH Hi') as [? ?]. split; [done|lia].
Qed.

(** C26: [kbd_read] terminates: whatever the interrupts and writers do, a call
    for [size] bytes has returned after at most [2 * size + 1] steps of its own,
    and as long as it has not returned its next step is possible. *)
Theorem kbd_read_terminates size d s t n c :
  s !! p = Some d -> ring_ok d -> preemptible t = true -> disciplined t = true ->
  0 <= size < 2 ^ 63 -> run n (Config (InLoop 0 0 (Z.to_nat size)) s t) c ->
  Z.of_nat n <= 2 * size + 1 /\
  ((exists r, rd c = Returned r) \/ exists c', reader_step K p c c' /\ Z.of_nat n < 2 * size + 1).
Proof.
  intros Hp Hd Hpre Hdi Hsize Hrun. destruct (run_bounded _ _ _ Hrun) as [Hi Hw]; [done|].
  cbn in Hw. split; [lia|].
  assert (config_ok p size t c) as Hok.
  { eapply (steps_ok p size t); [done|lia|by eapply run_steps|].
    split; [by split; [exists d|]|]. cbn. lia. }
  destruct Hok as [Hok Hb].
  destruct (reader_progress p t K c Hok) as [Hr|[c' Hs]]; [by eapply bounded_busy|by left|]. right. exists c'.
  split; [done|]. destruct (own_step_works c c' Hs Hi) as [_ Hw']. lia.
Qed.

(** ** Where the bytes come from *)

(** A byte that the buffer [d0] held at the start, or the character of a key
    pressed in [new]. *)
Definition origin (d0 : kbd_dev) new (ch : Z) : Prop := ch ∈ buff d0 \/ ch ∈ pressed new.

(** Only such bytes are copied to user space. *)
Definition copies (P : Z -> Prop) (e : event) : Prop :=
  match e with (put_user ch _, _) => P ch | _ => True end.

(** Since [t0], when the buffer was that of [d0]: every byte in the buffer, in the
    hands of the reader or copied has such an origin. *)
Definition config_from d0 (t0 : trace) c : Prop :=
  exists d new, devices_of c !! p = Some d /\ ring_ok d /\ trace_of c = new ++ t0 /\
    Forall (origin d0 new) (buff d) /\ Forall (copies (origin d0 new)) new /\
    match rd c with Copying ch _ _ _ => origin d0 new ch | _ => True end.

Lemma pressed_app l t : pressed (l ++ t) = pressed t ++ pressed l.
Proof.
  induction l as [|[c r] l IH]; [by rewrite app_nil_r|]. destruct c; try exact IH.
  cbn [pressed app]. by rewrite IH, app_assoc.
Qed.

Lemma origin_app d0 l new ch : origin d0 new ch -> origin d0 (l ++ new) ch.
Proof.
  intros [?|?]; [by left|right]. rewrite pressed_app. apply elem_of_app. by left.
Qed.

(** What has an origin keeps it as the history goes on. *)
Lemma config_from_more d0 t0 l new d c :
  devices_of c !! p = Some d -> ring_ok d -> trace_of c = (l ++ new) ++ t0 ->
  Forall (origin d0 (l ++ new)) (buff d) ->
  Forall (copies (origin d0 new)) new -> Forall (copies (origin d0 (l ++ new))) l ->
  match rd c with Copying ch _ _ _ => origin d0 (l ++ new) ch | _ => True end ->
  config_from d0 t0 c.
Proof.
  intros Hp Hd Ht Hb Hn Hl Hr. exists d, (l ++ new). do 4 (split; [done|]). split; [|done].
  apply Forall_app. split; [done|]. eapply Forall_impl; [exact Hn|].
  intros [[] r] He; try done. by apply origin_app.
Qed.

Lemma buffer_origin d0 l new d :
  Forall (origin d0 new) (buff d) -> Forall (origin d0 (l ++ new)) (buff d).
Proof. intros Hb. eapply Forall_impl; [exact Hb|]. intros ch. apply origin_app. Qed.

(** A section of the reader takes a byte out of the buffer. *)
Lemma section_from d s t x s' t' :
  s !! p = Some d -> ring_ok d -> read_section p K s t = Done x s' t' ->
  exists d', s' !! p = Some d' /\ ring_ok d' /\ buff d' = buff d /\
    t' = [(spin_unlock_irqrestore (lock_of p), 0); (spin_lock_irqsave (lock_of p), 0)] ++ t /\
    match x with Some ch => ch ∈ buff d | None => True end.
Proof.
  intros Hp Hd E. rewrite (read_section_eq p d) in E by done. cbv zeta in E.
  destruct (decide (cnt d > 0)) as [Hc|Hc]; simplify_eq; [|by exists d].
  exists (pop 1 d). split; [apply lookup_insert_eq|]. split; [apply pop_ok; [lia|done]|].
  split_and!; [done..|]. eapply list_elem_of_lookup_2. by apply slot_0.
Qed.

(** The interrupt handler stores the character of the key that is pressed. *)
Lemma irq_from irq d s t r s' t' :
  s !! p = Some d -> ring_ok d -> kbd_irq_handler irq p K s t = Done r s' t' ->
  exists d' l, s' !! p = Some d' /\ ring_ok d' /\ t' = l ++ t /\
    Forall (fun ch => ch ∈ buff d \/ ch ∈ pressed l) (buff d') /\ Forall (copies (fun _ => False)) l.
Proof.
  intros Hp Hd E. rewrite (kbd_irq_handler_eq irq p d) in E by done.
  unfold irq_trace in E. cbv zeta in E.
  assert (Hall : Forall (fun ch => ch ∈ buff d) (buff d)) by by apply Forall_forall.
  destruct (Z.testbit (u8 (K t (inb I8042_DATA_REG))) 7) eqn:Eb; simplify_eq.
  - eexists d, [_; _]. split; [done|]. split; [done|]. split; [done|].
    split; [|by repeat constructor]. eapply Forall_impl; [exact Hall|]. by left.
  - eexists _, [_; _; _; _]. split; [apply lookup_insert_eq|]. split; [by apply push_ok|].
    split; [done|]. split; [|by repeat constructor]. cbn [buff push]. apply Forall_insert.
    + eapply Forall_impl; [exact Hall|]. by left.
    + right. cbn [pressed]. rewrite Eb, ascii_of_key_byte. by left.
Qed.

Lemma step_from d0 t0 c c' : step K p c c' -> config_from d0 t0 c -> config_from d0 t0 c'.
Proof.
  intros Hs (d & new & Hp & Hd & Ht & Hb & Hn & Hr).
  pose proof (buffer_origin d0) as Hmore.
  assert (Hin : forall l ch, ch ∈ buff d -> origin d0 (l ++ new) ch).
  { intros l ch Hch. apply origin_app. by apply (proj1 (Forall_forall _ _) Hb). }
  assert (Hcopy : forall ch u r, origin d0 new ch ->
    Forall (copies (origin d0 ([(put_user ch u, r)] ++ new))) [(put_user ch u, r)]).
  { intros ch u r Hch. constructor; [|done]. by apply (origin_app d0 [_]). }
  destruct Hs; cbn in *; [by exists d, new|by exists d, new|..].
  - destruct (section_from d s t None s' t') as (d' & ? & ? & Eb & -> & _); [done..|].
    eapply (config_from_more d0 t0 [_; _] new d'); cbn; rewrite ?Eb, ?Ht;
      first [done|by apply (Hmore [_; _])|by repeat constructor].
  - destruct (section_from d s t (Some ch) s' t') as (d' & ? & ? & Eb & -> & ?); [done..|].
    eapply (config_from_more d0 t0 [_; _] new d'); cbn; rewrite ?Eb, ?Ht;
      first [done|by apply (Hmore [_; _])|by apply (Hin [_; _])|by repeat constructor].
  - eapply (config_from_more d0 t0 [_] new d); cbn; rewrite ?Ht;
      first [done|by apply (Hmore [_])|by apply Hcopy].
  - eapply (config_from_more d0 t0 [_] new d); cbn; rewrite ?Ht;
      first [done|by apply (Hmore [_])|by apply Hcopy].
  - destruct (irq_from irq d s t r s' t') as (d' & l & ? & ? & -> & Hb' & Hl); [done..|].
    eapply (config_from_more d0 t0 l new d'); cbn; rewrite ?Ht, ?app_assoc; try done.
    + eapply Forall_impl; [exact Hb'|]. cbn. intros ch [?|?]; [by apply Hin|].
      right. rewrite pressed_app. apply elem_of_app. by right.
    + eapply Forall_impl; [exact Hl|]. by intros [[] ?].
    + by destruct rd0; try done; apply origin_app.
  - rewrite (kbd_write_eq p d) in H by done. simplify_eq. destruct Hd as (? & ? & ? & ?).
    eapply (config_from_more d0 _ [_; _] new); cbn;
      first [by apply lookup_insert_eq|done|by apply (Hmore [_; _])|by repeat constructor].
Qed.

(** C40: the driver makes nothing up.  In every interleaving of a reader with
    interrupts and writers, with copies faulting anywhere, and however many presses
    overwrite one another: every byte that is copied to the user, and every byte
    that the buffer holds in the end, was in the buffer at the start or is the
    character of a key that has been pressed since.  In particular the release of a
    key stores nothing. *)
Theorem kbd_bytes_were_typed s t c d :
  s !! p = Some d -> ring_ok d -> rtc (step K p) (Config Idle s t) c ->
  exists d' new, devices_of c !! p = Some d' /\ trace_of c = new ++ t /\
    Forall (origin d new) (buff d') /\
    (forall ch u r, (put_user ch u, r) ∈ new -> origin d new ch).
Proof.
  intros Hp Hd Hrun. enough (config_from d t c) as (d' & new & ? & _ & ? & ? & Hn & _).
  { exists d', new. split_and!; [done..|]. intros ch u r Hin.
    apply (proj1 (Forall_forall _ _) Hn _ Hin). }
  apply (rtc_keeps _ Hrun).
  - intros c1 c2 Hs. by apply step_from.
  - exists d, []. split_and!; try done. apply Forall_forall. by left.
Qed.

End runs.

(** ** Witnesses *)

Lemma kbd_read_terminates_witness :
  (exists r, rd (Config (InLoop 0 0 10) (demo_heap 2) []) = Returned r) \/
  exists c', @reader_step demo_layout demo_kernel 4096 (Config (InLoop 0 0 10) (demo_heap 2) []) c'.
Proof.
  destruct (@kbd_read_terminates demo_layout demo_kernel 4096 10 (demo_dev 2) (demo_heap 2) [] 0
    (Config (InLoop 0 0 10) (demo_heap 2) [])) as [_ [H|(c' & H & _)]];
    [reflexivity|by apply demo_ring_ok|reflexivity|reflexivity|lia|apply run_refl|by left|].
  right. by exists c'.
Defined.

(** A is pressed, and then the reader takes a character. *)
Lemma press_and_take :
  exists s' t', rtc (@step demo_layout demo_kernel 4096) (Config Idle (demo_heap 0) [])
    (Config (Copying 97 7000 0 0) s' t').
Proof.
  eexists _, _.
  eapply rtc_l; [eapply (step_irq _ _ _ _ _ _ _ 1); vm_compute; reflexivity|].
  eapply rtc_l; [apply (step_call _ _ _ _ 7000 1)|].
  eapply rtc_l; [eapply step_got; vm_compute; reflexivity|]. apply rtc_refl.
Qed.

Lemma kbd_bytes_were_typed_witness :
  exists s' t' d', rtc (@step demo_layout demo_kernel 4096) (Config Idle (demo_heap 0) [])
    (Config (Copying 97 7000 0 0) s' t') /\ s' !! 4096 = Some d' /\
    Forall (fun ch => ch ∈ buff (demo_dev 0) \/ ch ∈ pressed t') (buff d').
Proof.
  destruct press_and_take as (s' & t' & Hrun). exists s', t'.
  destruct (@kbd_bytes_were_typed demo_layout demo_kernel 4096 (demo_heap 0) [] _ (demo_dev 0)
    eq_refl (demo_ring_ok 0 ltac:(lia)) Hrun) as (d' & new & H1 & H2 & H3 & _).
  exists d'. split; [exact Hrun|]. split; [exact H1|].
  change (t' = new ++ []) in H2. rewrite app_nil_r in H2. rewrite H2. exact H3.
Defined.

End KbdRuns.
