(* ===== verification/KbdReaders.v ===== *)
(** * Any number of readers of the keyboard

    The device can be opened many times, and nothing but the lock orders the
    calls of [kbd_read].  Here the runs of [Kbd] and the sessions of [KbdSession]
    are generalised to a list of readers that share the buffer with each other,
    with writers and with the interrupt handler. *)

From S2P Require Import Prelude Kernel Monad Kbd KbdSession.

Module KbdReaders.
Import Kbd.Kbd KbdSession.KbdSession.

#[export] Instance reader_eq_dec : EqDecision reader.
Proof. solve_decision. Defined.

Abbreviation system := (list reader * devices * trace)%type.

(** One of the readers, or something else as [R] has it, makes a step. *)
Inductive readers_step (R : config -> config -> Prop) : system -> system -> Prop :=
  | one_moves i rs r r' s t s' t' :
      rs !! i = Some r -> R (Config r s t) (Config r' s' t') ->
      readers_step R (rs, s, t) (<[i := r']> rs, s', t').

Section readers.
Context {LO : Layout} (K : oracle) (p : Z).
Implicit Types (d : kbd_dev) (s : devices) (t : trace) (rs : list reader).

(** A step of [Kbd], or another call by a process whose call has returned. *)
Inductive free_step : config -> config -> Prop :=
  | free c c' : step K p c c' -> free_step c c'
  | call_again r s t uBuff size :
      free_step (Config (Returned r) s t) (Config (InLoop uBuff 0 (Z.to_nat size)) s t).

(** ** Safety *)

Lemma free_step_locks t0 c c' :
  preemptible t0 = true -> free_step c c' -> locks_ok p t0 c -> locks_ok p t0 c'.
Proof. intros Hpre [? ? Hs|]; [by eapply step_locks|done]. Qed.

Definition shared_ok (t0 : trace) (sys : system) : Prop :=
  locks_ok p t0 (Config Idle sys.1.2 sys.2).

Lemma readers_step_locks t0 sys sys' :
  preemptible t0 = true -> readers_step free_step sys sys' -> shared_ok t0 sys -> shared_ok t0 sys'.
Proof. intros Hpre [i rs r r' s t s' t' _ Hs]. exact (free_step_locks _ _ _ Hpre Hs). Qed.

(** C2: any number of processes read the keyboard at the same time, among
    interrupts and writers, in every interleaving and with copies to user space
    faulting anywhere: the buffer stays in its bounds, locks are used correctly,
    the next interrupt, the next write and the next call of [kbd_read] are handled
    without a fault, and every reader that is in a call has a next step. *)
Theorem readers_safe d rs s t rs' s' t' :
  s !! p = Some d -> ring_ok d -> preemptible t = true -> disciplined t = true ->
  rtc (readers_step free_step) (rs, s, t) (rs', s', t') ->
  (exists d', s' !! p = Some d' /\ ring_ok d') /\
  disciplined t' = true /\ held t' = held t /\
  (forall irq, oopsed (kbd_irq_handler irq p K s' t') = false) /\
  (forall u n, oopsed (kbd_write p u n K s' t') = false) /\
  (forall u n, oopsed (kbd_read p u n K s' t') = false) /\
  forall i r, rs' !! i = Some r ->
    r = Idle \/ (exists n, r = Returned n) \/ exists c, reader_step K p (Config r s' t') c.
Proof.
  intros Hp Hd Hpre Hdi Hrun.
  assert (Hok : shared_ok t (rs', s', t')).
  { apply (rtc_keeps _ Hrun); [|by split; [exists d|]].
    intros x y Hxy. by apply readers_step_locks. }
  pose proof Hok as ((d' & Hp' & Hd') & Hdi' & Hh'). cbn in *.
  split; [by exists d'|]. split; [done|]. split; [done|]. split.
  { intros irq. by rewrite (kbd_irq_handler_eq irq p d'). }
  split; [intros u n; by rewrite (kbd_write_eq p d')|].
  split; [intros u n; by apply (kbd_read_returns p d')|].
  intros i r Hi. destruct (decide (r = Idle)) as [->|Hr]; [by left|]. right.
  destruct (reader_progress p t K (Config r s' t') Hok Hr) as [[n E]|Hs]; [left; by exists n|by right].
Qed.

(** ** Delivery *)

(** The character that a reader has taken and not yet copied. *)
Definition taken (r : reader) : option Z :=
  match r with Copying ch _ _ _ => Some ch | _ => None end.

Lemma in_flight_taken r : in_flight r = option_list (taken r).
Proof. by destruct r. Qed.

(** What a step of one reader adds to what was pressed, it adds to what was
    offered, taken or buffered. *)
Lemma session_delta r s t r' s' t' d :
  s !! p = Some d -> ring_ok d -> session K p (Config r s t) (Config r' s' t') ->
  exists d' new l, s' !! p = Some d' /\ ring_ok d' /\ offered t' = offered t ++ new /\
    pressed t' = pressed t ++ l /\
    new.*1 ++ in_flight r' ++ contents d' = (in_flight r ++ contents d) ++ l.
Proof.
  intros Hp Hd Hs.
  destruct (session_conveyed K p (pressed t) (offered t) (in_flight r ++ contents d) _ _ Hs)
    as (d' & new & l & H); [|by exists d', new, l].
  exists d, [], []. by rewrite !app_nil_r.
Qed.

(** Since the keys [P] had been pressed and the characters [O] had been offered:
    everything pressed since has been offered to a user, or is with a reader or in
    the buffer, once. *)
Definition shared (P : list Z) (O : list (Z * bool)) (sys : system) : Prop :=
  exists d new l, sys.1.2 !! p = Some d /\ ring_ok d /\ offered sys.2 = O ++ new /\
    pressed sys.2 = P ++ l /\ new.*1 ++ omap taken sys.1.1 ++ contents d ≡ₚ l.

(** One reader's part of an account is replaced. *)
Lemma replace_part {A} (a t t' o o' c c' b x l : list A) :
  a ++ t' ++ c' = (b ++ t ++ c) ++ l -> t ++ o' ≡ₚ t' ++ o -> b ++ o ++ c ≡ₚ x ->
  a ++ o' ++ c' ≡ₚ x ++ l.
Proof.
  intros H1 H2 H3. apply (Permutation_app_inv_l t).
  rewrite (Permutation_app_swap_app t a), (app_assoc t o' c'), H2, <- (app_assoc t' o c').
  rewrite (Permutation_app_swap_app t' o), (Permutation_app_swap_app a o), H1, <- H3.
  rewrite <- !app_assoc, (Permutation_app_swap_app o b), (Permutation_app_swap_app t b).
  by rewrite (Permutation_app_swap_app o t).
Qed.

Lemma readers_step_shares P O sys sys' :
  readers_step (session K p) sys sys' -> shared P O sys -> shared P O sys'.
Proof.
  intros [i rs r r' s t s' t' Hi Hs] (d & new & l & Hp & Hd & Ho & Hpr & Hre). cbn [fst snd] in *.
  destruct (session_delta r s t r' s' t' d Hp Hd Hs) as (d' & new' & l' & Hp' & Hd' & Ho' & Hpr' & Hre').
  exists d', (new ++ new'), (l ++ l'). split; [done|]. split; [done|].
  cbn [fst snd]. split; [by rewrite Ho', Ho, app_assoc|]. split; [by rewrite Hpr', Hpr, app_assoc|].
  rewrite !in_flight_taken in Hre'. rewrite fmap_app.
  eapply (replace_part _ (option_list (taken r)) (option_list (taken r')) (omap taken rs) _
    (contents d) _ new.*1); [|apply (omap_insert taken rs i r r' Hi)|exact Hre].
  rewrite <- !app_assoc, Hre'. by rewrite <- !app_assoc.
Qed.

(** C23: several processes that together keep up share what is typed.  From an
    empty buffer and idle readers, through any interleaving of their calls with
    interrupts, with copies faulting anywhere, and in which no key is pressed on top
    of a character that nobody has taken, every character typed is exactly once in
    one of three places: it has been offered to a user, by one [put_user], or is
    with a reader about to do so, or in the buffer.  The users have received, in
    order, those offered whose copy did not fault; a character whose copy did is
    not offered again. *)
Theorem readers_share d n s t rs s' t' :
  s !! p = Some d -> ring_ok d -> cnt d = 0 ->
  rtc (readers_step (session K p)) (replicate n Idle, s, t) (rs, s', t') ->
  exists d' new typed, s' !! p = Some d' /\
    pressed t' = pressed t ++ typed /\ offered t' = offered t ++ new /\
    new.*1 ++ omap taken rs ++ contents d' ≡ₚ typed /\
    received t' = received t ++ (filter (fun o => o.2 = true) new).*1.
Proof.
  intros Hp Hd Hc Hrun.
  destruct (rtc_keeps (shared (pressed t) (offered t)) Hrun) as (d' & new & l & ? & _ & Ho & ? & ?).
  - intros x y Hxy. by apply readers_step_shares.
  - exists d, [], []. rewrite !app_nil_r. cbn [fst snd]. split_and!; [done..|].
    assert (contents d = []) as -> by (apply contents_empty; lia).
    assert (omap taken (replicate n Idle) = []) as -> by (clear; induction n as [|n IH]; [done|exact IH]).
    done.
  - exists d', new, l. split_and!; [done..|]. by apply received_more.
Qed.

End readers.

(** ** Witnesses *)

(** Two readers call; a key is pressed, and the second takes the character. *)
Lemma both_idle_run :
  exists s' t', rtc (readers_step (@session demo_layout demo_kernel 4096))
    ([Idle; Idle], demo_heap 0, []) ([InLoop 7000 0 1; Copying 97 8000 0 0], s', t').
Proof.
  eexists _, _. eapply rtc_l.
  { eapply (one_moves _ 0); [reflexivity|]. apply by_reader. split; [by apply (step_call _ _ _ _ 7000 1)|done]. }
  eapply rtc_l.
  { eapply (one_moves _ 1); [reflexivity|]. apply by_reader. split; [by apply (step_call _ _ _ _ 8000 1)|done]. }
  eapply rtc_l.
  { eapply (one_moves _ 1); [reflexivity|].
    eapply (by_press _ _ _ _ _ _ _ 1); [reflexivity|reflexivity|vm_compute; reflexivity]. }
  eapply rtc_l.
  { eapply (one_moves _ 1); [reflexivity|]. apply by_reader.
    split; [eapply step_got; vm_compute; reflexivity|done]. }
  apply rtc_refl.
Qed.

Lemma readers_share_witness :
  exists s' t' d' new typed,
    rtc (readers_step (@session demo_layout demo_kernel 4096)) ([Idle; Idle], demo_heap 0, [])
      ([InLoop 7000 0 1; Copying 97 8000 0 0], s', t') /\
    s' !! 4096 = Some d' /\ pressed t' = typed /\ offered t' = new /\
    new.*1 ++ [97] ++ contents d' ≡ₚ typed.
Proof.
  destruct both_idle_run as (s' & t' & Hrun). exists s', t'.
  destruct (@readers_share demo_layout demo_kernel 4096 (demo_dev 0) 2
    (demo_heap 0) [] _ s' t' eq_refl (demo_ring_ok 0 ltac:(lia)) eq_refl Hrun)
    as (d' & new & typed & H1 & H2 & H3 & H4 & _).
  exists d', new, typed. exact (conj Hrun (conj H1 (conj H2 (conj H3 H4)))).
Defined.

Lemma readers_safe_witness :
  exists s' t', rtc (readers_step (@free_step demo_layout demo_kernel 4096))
      ([Idle; Idle], demo_heap 0, []) ([InLoop 7000 0 1; Idle], s', t') /\
    disciplined t' = true /\ held t' = [].
Proof.
  assert (Hrun : rtc (readers_step (@free_step demo_layout demo_kernel 4096))
    ([Idle; Idle], demo_heap 0, []) ([InLoop 7000 0 1; Idle], demo_heap 0, [])).
  { apply rtc_once. apply (one_moves _ 0 [Idle; Idle] Idle (InLoop 7000 0 1)); [reflexivity|]. apply free. apply (step_call _ _ _ _ 7000 1). }
  exists (demo_heap 0), []. split; [exact Hrun|].
  destruct (@readers_safe demo_layout demo_kernel 4096 (demo_dev 0) [Idle; Idle] (demo_heap 0) []
    _ _ _ eq_refl (demo_ring_ok 0 ltac:(lia)) eq_refl eq_refl Hrun) as (_ & Hd & Hh & _).
  exact (conj Hd Hh).
Defined.

End KbdReaders.
