(* ===== verification/So2Cdev.v ===== *)
(** * The so2 character device (Drivers/so2_cdev/kernel/so2_cdev.c)

    A message buffer with open, read, write and release; one opener at a time.
    The copies from user space and [strscpy] come from the kernel: they are the
    operations of the class [MemOps], and what the driver relies on is
    [MemLaws]. *)

From S2P Require Import Prelude Kernel Monad.

Module So2.

Definition MAJOR_NUMBER := 42.
Definition MINOR_NUMBER := 0.
Definition NUM_MINORS := 1.
Definition MODULE_NAME := "so2_cdev"%string.
Definition MESSAGE := "the dog is matt"%string.
Definition MSG_MAX := 128.

(** The software state of a device; [cdev] is known by address. *)
Record so2_device_data := So2Data {
  isOpen : Z;
  msg : list Z;
  msg_len : Z
}.

Abbreviation devices := (gmap Z so2_device_data).

Definition set_isOpen (v : Z) (d : so2_device_data) := So2Data v (msg d) (msg_len d).
Definition set_msg (m : list Z) (d : so2_device_data) := So2Data (isOpen d) m (msg_len d).
Definition set_msg_len (n : Z) (d : so2_device_data) := So2Data (isOpen d) (msg d) n.

(** Where the device array is; [cdev] is the first member. *)
Class Layout := { devices_addr : Z; sizeof_so2_device_data : Z }.
Definition offsetof_cdev := 0.

(** Kernel routines that fill memory.  [copied_in src r]: the destination of a
    [copy_from_user] of the bytes [src] that could not copy the last [r];
    [strscpy dst src n]: the destination after the call, [src] without its
    NUL. *)
Class MemOps := {
  copied_in : list Z -> Z -> list Z;
  strscpy : list Z -> list Z -> Z -> list Z
}.

Class MemLaws `{MemOps} : Prop := {
  copied_in_length src r : length (copied_in src r) = length src;
  copied_in_all src : copied_in src 0 = src;
  strscpy_fits dst src n :
    Z.of_nat (length src) < n -> n <= Z.of_nat (length dst) ->
    strscpy dst src n = src ++ 0 :: drop (length src + 1) dst
}.

(** [strlen]: [None] is a scan that leaves the array. *)
Fixpoint strlen (b : list Z) : option Z :=
  match b with
  | [] => None
  | c :: b' => if decide (c = 0) then Some 0 else Z.succ <$> strlen b'
  end.

(** [n] bytes at [b + off], inside the array. *)
Definition bytes_at (b : list Z) (off n : Z) : option (list Z) :=
  if decide (0 <= off /\ off + n <= Z.of_nat (length b))
  then Some (take (Z.to_nat n) (drop (Z.to_nat off) b)) else None.

(** The array [b] with the bytes [new] at its start; they must fit. *)
Definition overwrite (b new : list Z) : option (list Z) :=
  if decide (length new <= length b)%nat then Some (new ++ drop (length new) b) else None.

Section code.
Context {LO : Layout} {MO : MemOps}.

Definition dev_addr (i : Z) : Z := devices_addr + i * sizeof_so2_device_data.
Definition cdev_of (dev : Z) : Z := dev + offsetof_cdev.

(** [atomic_cmpxchg(&data->isOpen, old, new)] and [atomic_set]. *)
Definition atomic_cmpxchg_isOpen (data old new : Z) : M devices Z :=
  d ← load data;
  (if decide (isOpen d = old) then update data (set_isOpen new) else mret ()) ;;
  mret (isOpen d).

(** The value returned and the new [file->private_data]. *)
Definition so2_open (i_cdev : Z) : M devices (Z * Z) :=
  pr_info "%s method 'open' was called!\n" [KStr MODULE_NAME] ;;
  let data := i_cdev - offsetof_cdev in
  old ← atomic_cmpxchg_isOpen data 0 1;
  if decide (old <> 0) then mret (- EBUSY, data) else mret (0, data).

(** The value returned and the new [*offset]. *)
Definition so2_read (private_data uBuff size offset : Z) : M devices (Z * Z) :=
  pr_info "%s method 'read' was called!\n" [KStr MODULE_NAME] ;;
  d ← load private_data;
  lenOfStr ← unwrap (bad_index MSG_MAX) (strlen (msg d));
  if decide (private_data = NULL) then mret (- EINVAL, offset) else
  if decide (u64 offset >= lenOfStr) then mret (0, offset) else
  let available := (lenOfStr -64 u64 offset)%cint in
  let n := if decide (size < available) then size else available in
  src ← unwrap (bad_index offset) (bytes_at (msg d) offset n);
  r ← ask (copy_to_user uBuff src);
  if decide (r <> 0) then mret (- EFAULT, offset) else
  mret (s64 size, s64 (offset +64 n)%cint).

(** [ubytes] is what the caller's buffer at [uBuff] holds. *)
Definition so2_write (private_data uBuff : Z) (ubytes : list Z) (size offset : Z) :
    M devices (Z * Z) :=
  pr_info "%s method 'write' was called!\n" [KStr MODULE_NAME] ;;
  let n := if decide (size < MSG_MAX - 1) then size else MSG_MAX - 1 in
  r ← ask (copy_from_user uBuff n);
  d ← load private_data;
  m ← unwrap (bad_index n) (overwrite (msg d) (copied_in (take (Z.to_nat n) ubytes) r));
  update private_data (set_msg m) ;;
  if decide (r <> 0) then mret (- EFAULT, offset) else
  unwrap (bad_index n) (m !! Z.to_nat n) ;;
  update private_data (set_msg (<[Z.to_nat n := 0]> m)) ;;
  update private_data (set_msg_len n) ;;
  mret (s64 size, 0).

Definition so2_release (private_data : Z) : M devices Z :=
  pr_info "%s method 'close' was called!\n" [KStr MODULE_NAME] ;;
  update private_data (set_isOpen 0) ;;
  mret 0.

Definition so2_cdev_init : M devices Z :=
  result ← ask (register_chrdev_region (MKDEV MAJOR_NUMBER MINOR_NUMBER) NUM_MINORS MODULE_NAME);
  if decide (result <> 0) then
    pr_debug "[ERROR] failed to register device in chrdev region\n" [] ;;
    mret result
  else
    for_range 0 (Z.to_nat NUM_MINORS) (fun i =>
      tell (cdev_init (cdev_of (dev_addr i))) ;;
      ask (cdev_add (cdev_of (dev_addr i)) (MKDEV MAJOR_NUMBER i) 1) ;;
      update (dev_addr i) (fun d => set_msg (strscpy (msg d) (bytes_of_string MESSAGE) MSG_MAX) d)) ;;
    pr_info "[LOG] registered %s char device in memory success\n" [KStr MODULE_NAME] ;;
    mret 0.

Definition so2_cdev_exit : M devices unit :=
  pr_info "[LOG] Unregistered %s from kernel space\n" [KStr MODULE_NAME] ;;
  for_range 0 (Z.to_nat NUM_MINORS) (fun i =>
    tell (cdev_del (cdev_of (dev_addr i)))) ;;
  tell (unregister_chrdev_region (MKDEV MAJOR_NUMBER MINOR_NUMBER) NUM_MINORS).

(** ** What the message is *)

(** The C string a buffer holds. *)
Definition text (d : so2_device_data) : list Z :=
  match strlen (msg d) with Some n => take (Z.to_nat n) (msg d) | None => [] end.

(** The buffer is a string, whatever its other bytes are. *)
Definition msg_ok (d : so2_device_data) : Prop :=
  length (msg d) = Z.to_nat MSG_MAX /\ msg d !! Z.to_nat (MSG_MAX - 1) = Some 0.

(** A client that calls read repeatedly, with the file position the kernel
    keeps for it. *)
Fixpoint read_chunks (private_data uBuff offset : Z) (sizes : list Z) : M devices Z :=
  match sizes with
  | [] => mret offset
  | size :: sizes' =>
      r ← so2_read private_data uBuff size offset;
      read_chunks private_data uBuff r.2 sizes'
  end.

(** ** The device as the virtual file system drives it *)

Record file := File { private_data : Z; f_pos : Z }.

Record vfs := Vfs { files : list file; devs_of : devices; trace_of : trace }.

(** A system call on the device node whose [cdev] is at [p]: a failed open
    leaves no file, and only an open file is read, written or released. *)
Inductive syscall (K : oracle) (p : Z) : vfs -> vfs -> Prop :=
  | sys_open fs s t s' t' data :
      so2_open (cdev_of p) K s t = Done (0, data) s' t' ->
      syscall K p (Vfs fs s t) (Vfs (fs ++ [File data 0]) s' t')
  | sys_open_fails fs s t s' t' r data :
      so2_open (cdev_of p) K s t = Done (r, data) s' t' -> r <> 0 ->
      syscall K p (Vfs fs s t) (Vfs fs s' t')
  | sys_read fs1 f fs2 s t s' t' uBuff size r pos :
      0 <= size < 2 ^ 63 ->
      so2_read (private_data f) uBuff size (f_pos f) K s t = Done (r, pos) s' t' ->
      syscall K p (Vfs (fs1 ++ f :: fs2) s t)
        (Vfs (fs1 ++ File (private_data f) pos :: fs2) s' t')
  | sys_write fs1 f fs2 s t s' t' uBuff ubytes size r pos :
      0 <= size < 2 ^ 63 -> size = Z.of_nat (length ubytes) ->
      so2_write (private_data f) uBuff ubytes size (f_pos f) K s t = Done (r, pos) s' t' ->
      syscall K p (Vfs (fs1 ++ f :: fs2) s t)
        (Vfs (fs1 ++ File (private_data f) pos :: fs2) s' t')
  | sys_close fs1 f fs2 s t s' t' r :
      so2_release (private_data f) K s t = Done r s' t' ->
      syscall K p (Vfs (fs1 ++ f :: fs2) s t) (Vfs (fs1 ++ fs2) s' t').

End code.

(** ** Strings in buffers *)

Section strings.
Implicit Types (b : list Z).

Lemma strlen_Some b n :
  strlen b = Some n ->
  0 <= n < Z.of_nat (length b) /\ b !! Z.to_nat n = Some 0 /\ 0 ∉ take (Z.to_nat n) b.
Proof.
  revert n. induction b as [|c b IH]; intros n E; cbn in E; [done|]. case_decide as Hc.
  - simplify_eq. cbn. split; [lia|]. split; [done|]. apply not_elem_of_nil.
  - destruct (strlen b) as [m|] eqn:Em; [|done]. cbn in E. simplify_eq.
    destruct (IH m eq_refl) as (? & Hm & Hin). cbn [length].
    replace (Z.to_nat (Z.succ m)) with (S (Z.to_nat m)) by lia.
    split; [lia|]. split; [done|]. cbn. rewrite not_elem_of_cons. split; [lia|done].
Qed.

Lemma strlen_intro b1 b2 : 0 ∉ b1 -> strlen (b1 ++ 0 :: b2) = Some (Z.of_nat (length b1)).
Proof.
  induction b1 as [|c b1 IH]; [done|]. intros [Hc Hin]%not_elem_of_cons.
  cbn [strlen app]. rewrite decide_False, IH by done. cbn [fmap option_fmap option_map length].
  f_equal. lia.
Qed.

Lemma strlen_exists b : 0 ∈ b -> is_Some (strlen b).
Proof.
  induction b as [|c b IH]; [by intros ?%elem_of_nil|]. intros Hin. cbn.
  case_decide; [eauto|]. apply elem_of_cons in Hin as [?|Hin]; [congruence|].
  destruct (IH Hin) as [m ->]. eauto.
Qed.

Lemma strlen_take_drop b n off k :
  strlen b = Some n -> 0 <= off -> 0 <= k -> off + k <= n ->
  take (Z.to_nat k) (drop (Z.to_nat off) b) =
  take (Z.to_nat k) (drop (Z.to_nat off) (take (Z.to_nat n) b)).
Proof.
  intros E Hoff Hk Hle. rewrite skipn_firstn_comm, take_take. f_equal. lia.
Qed.

Lemma take_eq_min (l : list Z) k k' :
  Z.min k (Z.of_nat (length l)) = Z.min k' (Z.of_nat (length l)) -> 0 <= k -> 0 <= k' ->
  take (Z.to_nat k) l = take (Z.to_nat k') l.
Proof.
  intros E Hk Hk'. destruct (decide (k = k')) as [->|]; [done|].
  rewrite !take_ge by lia. done.
Qed.

End strings.

(** ** The handlers in closed form *)

Abbreviation log_open t :=
  ((printk "%s method 'open' was called!\n" [KStr MODULE_NAME], 0) :: t).
Abbreviation log_read t :=
  ((printk "%s method 'read' was called!\n" [KStr MODULE_NAME], 0) :: t).
Abbreviation log_write t :=
  ((printk "%s method 'write' was called!\n" [KStr MODULE_NAME], 0) :: t).
Abbreviation log_close t :=
  ((printk "%s method 'close' was called!\n" [KStr MODULE_NAME], 0) :: t).

Section handlers.
Context {LO : Layout} {MO : MemOps} {ML : MemLaws}.
Implicit Types (d : so2_device_data) (s : devices) (K : oracle) (t : trace).


Lemma cdev_container p : cdev_of p - offsetof_cdev = p.
Proof. unfold cdev_of, offsetof_cdev. lia. Qed.

Lemma msg_ok_strlen d : msg_ok d -> exists n, strlen (msg d) = Some n /\ 0 <= n < MSG_MAX.
Proof.
  intros [Hl H0]. destruct (strlen_exists (msg d)) as [n E].
  { by apply list_elem_of_lookup_2 with (Z.to_nat (MSG_MAX - 1)). }
  exists n. split; [done|]. apply strlen_Some in E as (Hn & _).
  rewrite Hl in Hn. unfold MSG_MAX in *. lia.
Qed.

Lemma length_text d n : strlen (msg d) = Some n -> Z.of_nat (length (text d)) = n.
Proof.
  intros E. unfold text. rewrite E, length_take. apply strlen_Some in E as (Hn & _). lia.
Qed.

Lemma text_le d : msg_ok d -> Z.of_nat (length (text d)) < MSG_MAX.
Proof. intros (n & E & Hn)%msg_ok_strlen. rewrite (length_text d n E). lia. Qed.

Lemma so2_open_eq p d K s t :
  s !! p = Some d ->
  so2_open (cdev_of p) K s t =
    if decide (isOpen d = 0) then Done (0, p) (<[p := set_isOpen 1 d]> s) (log_open t)
    else Done (- EBUSY, p) s (log_open t).
Proof.
  intros Hp. unfold so2_open. run_step. rewrite cdev_container. cbv zeta.
  unfold atomic_cmpxchg_isOpen.
  unfold mbind at 2, M_bind at 2. unfold load. unfold mbind at 1, M_bind at 1. rewrite Hp.
  case_decide as Ho.
  - erewrite run_bind by by apply update_eq. unfold mret, M_ret. by rewrite decide_False by lia.
  - unfold mbind, M_bind, mret, M_ret. by rewrite decide_True.
Qed.

Lemma so2_release_eq p d K s t :
  s !! p = Some d ->
  so2_release p K s t = Done 0 (<[p := set_isOpen 0 d]> s) (log_close t).
Proof. intros Hp. unfold so2_release. by run_all. Qed.

Lemma so2_read_eq p u size off d K s t :
  s !! p = Some d -> p <> NULL -> msg_ok d ->
  0 <= size < 2 ^ 63 -> - 2 ^ 63 <= off < 2 ^ 63 ->
  let t1 := log_read t in
  let len := Z.of_nat (length (text d)) in
  let src := take (Z.to_nat size) (drop (Z.to_nat off) (text d)) in
  so2_read p u size off K s t =
    if decide (0 <= off < len) then
      let r := K t1 (copy_to_user u src) in
      let t2 := (copy_to_user u src, r) :: t1 in
      if decide (r <> 0) then Done (- EFAULT, off) s t2
      else Done (size, off + Z.min size (len - off)) s t2
    else Done (0, off) s t1.
Proof.
  intros Hp Hnull Hd Hsize Hoff t1 len src.
  destruct (msg_ok_strlen d Hd) as (n & E & Hn). pose proof (length_text d n E) as Hlen.
  unfold MSG_MAX in Hn. fold len in Hlen.
  unfold so2_read. run_step. run_step. rewrite E. cbn [unwrap]. run_step.
  rewrite decide_False by done. fold t1.
  destruct (decide (0 <= off < len)) as [Hin|Hout].
  2: { rewrite decide_True; [done|]. unfold wrap. destruct (decide (0 <= off)).
    - rewrite Z.mod_small by lia. lia.
    - rewrite <- (Z.mod_add off 1), Z.mod_small by lia. lia. }
  rewrite wrap_small, decide_False by lia. cbv zeta.
  rewrite (wrap_small 64 (n - off)) by lia.
  set (k := if decide (size < n - off) then size else n - off).
  assert (k = Z.min size (len - off)) as Hk by (unfold k; case_decide; lia).
  assert (bytes_at (msg d) off k = Some src) as Hsrc.
  { unfold bytes_at. destruct Hd as [Hl _]. rewrite decide_True.
    2: { rewrite Hl. unfold MSG_MAX. lia. }
    f_equal. rewrite (strlen_take_drop _ n) by (done || lia).
    unfold src, text. rewrite E. rewrite Hk.
    apply take_eq_min; [|lia..].
    rewrite length_drop, length_take, Hl. unfold MSG_MAX. lia. }
  rewrite Hsrc. cbn [unwrap]. run_all. fold t1. cbv zeta. case_decide; [done|].
  unfold mret, M_ret. rewrite swrap_small by lia. rewrite wrap_small, swrap_small by lia.
  by rewrite Hk.
Qed.

(** The buffer once [n] bytes have been copied into it, [r] of them in vain. *)
Definition filled d (ubytes : list Z) (n r : Z) : list Z :=
  copied_in (take (Z.to_nat n) ubytes) r ++ drop (Z.to_nat n) (msg d).

Lemma filled_ok d ubytes n r :
  msg_ok d -> 0 <= n < MSG_MAX -> n <= Z.of_nat (length ubytes) ->
  length (filled d ubytes n r) = Z.to_nat MSG_MAX /\
  filled d ubytes n r !! Z.to_nat (MSG_MAX - 1) = Some 0.
Proof.
  intros [Hl H0] Hn Hle. unfold filled.
  assert (length (copied_in (take (Z.to_nat n) ubytes) r) = Z.to_nat n) as Hc.
  { rewrite copied_in_length, length_take. lia. }
  split; [rewrite length_app, Hc, length_drop, Hl; unfold MSG_MAX in *; lia|].
  rewrite lookup_app_r by (rewrite Hc; lia). rewrite Hc, lookup_drop.
  rewrite <- H0. f_equal. lia.
Qed.

Lemma so2_write_eq p u ubytes size off d K s t :
  s !! p = Some d -> msg_ok d -> 0 <= size < 2 ^ 63 -> size = Z.of_nat (length ubytes) ->
  let t1 := log_write t in
  let n := Z.min size (MSG_MAX - 1) in
  let r := K t1 (copy_from_user u n) in
  so2_write p u ubytes size off K s t =
    if decide (r <> 0) then
      Done (- EFAULT, off) (<[p := set_msg (filled d ubytes n r) d]> s)
        ((copy_from_user u n, r) :: t1)
    else
      Done (size, 0)
        (<[p := So2Data (isOpen d) (<[Z.to_nat n := 0]> (filled d ubytes n 0)) n]> s)
        ((copy_from_user u n, r) :: t1).
Proof.
  intros Hp Hd Hsize Hlen t1 n r.
  assert (Hn : (if decide (size < MSG_MAX - 1) then size else MSG_MAX - 1) = n).
  { unfold n, MSG_MAX. case_decide; lia. }
  assert (0 <= n < MSG_MAX /\ n <= Z.of_nat (length ubytes)) as [Hn1 Hn2]
    by (unfold n, MSG_MAX; lia).
  unfold so2_write. run_step. rewrite Hn. cbv zeta. run_step. fold t1. fold r. run_step.
  destruct (filled_ok d ubytes n r Hd Hn1 Hn2) as [Hf _].
  assert (overwrite (msg d) (copied_in (take (Z.to_nat n) ubytes) r) = Some (filled d ubytes n r)) as ->.
  { unfold overwrite, filled. rewrite copied_in_length, length_take.
    destruct Hd as [Hl _]. rewrite Hl, decide_True by (unfold MSG_MAX in *; lia).
    do 3 f_equal. lia. }
  cbn [unwrap]. run_all. fold t1. fold r.
  destruct (decide (r <> 0)) as [Hr|Hr]; [done|]. apply dec_stable in Hr.
  clearbody r. subst r. destruct (lookup_lt_is_Some_2 (filled d ubytes n 0) (Z.to_nat n)) as [x Hx].
  { rewrite Hf. unfold MSG_MAX in *. lia. }
  rewrite Hx. cbn [unwrap]. run_all. unfold mret, M_ret.
  rewrite !insert_insert_eq. rewrite swrap_small by lia. done.
Qed.

Lemma written_ok d ubytes n l o :
  msg_ok d -> 0 <= n < MSG_MAX -> n <= Z.of_nat (length ubytes) ->
  msg_ok (So2Data o (<[Z.to_nat n := 0]> (filled d ubytes n 0)) l).
Proof.
  intros Hd Hn Hle. destruct (filled_ok d ubytes n 0 Hd Hn Hle) as [Hl H0].
  split; cbn; [by rewrite length_insert|].
  destruct (decide (n = MSG_MAX - 1)) as [->|Hne].
  - rewrite list_lookup_insert_eq; [done|]. rewrite Hl. unfold MSG_MAX. lia.
  - rewrite list_lookup_insert_ne; [done|lia].
Qed.

Lemma text_written d ubytes n o l :
  msg_ok d -> 0 <= n < MSG_MAX -> n <= Z.of_nat (length ubytes) ->
  0 ∉ take (Z.to_nat n) ubytes ->
  text (So2Data o (<[Z.to_nat n := 0]> (filled d ubytes n 0)) l) = take (Z.to_nat n) ubytes.
Proof.
  intros [Hl H0] Hn Hle Hin. unfold text, filled; cbn. rewrite copied_in_all.
  set (w := take (Z.to_nat n) ubytes) in *.
  assert (Hw : length w = Z.to_nat n) by (unfold w; rewrite length_take; lia).
  destruct (drop (Z.to_nat n) (msg d)) as [|x rest] eqn:Ed.
  { assert (Hx := f_equal length Ed). rewrite length_drop, Hl in Hx. cbn in Hx.
    unfold MSG_MAX in *. lia. }
  replace (Z.to_nat n) with (length w + 0)%nat by lia.
  rewrite insert_app_r. cbn. rewrite strlen_intro by done.
  rewrite Nat2Z.id, take_app_length. done.
Qed.

(** ** The invariant of the device under system calls *)

Definition file_ok (p : Z) (f : file) : Prop :=
  private_data f = p /\ 0 <= f_pos f < MSG_MAX.

Definition vfs_ok (p : Z) (v : vfs) : Prop :=
  exists d, devs_of v !! p = Some d /\ msg_ok d /\
    isOpen d = Z.of_nat (length (files v)) /\ (length (files v) <= 1)%nat /\
    Forall (file_ok p) (files v).

Lemma single_file fs1 f fs2 p :
  (length (fs1 ++ f :: fs2) <= 1)%nat -> Forall (file_ok p) (fs1 ++ f :: fs2) ->
  fs1 = [] /\ fs2 = [] /\ file_ok p f.
Proof.
  rewrite length_app. cbn. intros Hl. destruct fs1, fs2; cbn in *; try lia.
  rewrite Forall_singleton. done.
Qed.

Lemma vfs_ok_write p f s t d s' t' u ub size r pos K :
  s !! p = Some d -> msg_ok d -> file_ok p f -> isOpen d = 1 ->
  0 <= size < 2 ^ 63 -> size = Z.of_nat (length ub) ->
  so2_write (private_data f) u ub size (f_pos f) K s t = Done (r, pos) s' t' ->
  vfs_ok p (Vfs [File (private_data f) pos] s' t').
Proof.
  intros Hp Hd [Hf Hpos] Ho Hsize Hlen E. rewrite Hf in *.
  rewrite (so2_write_eq p u ub size _ d) in E by done. cbv zeta in E.
  assert (0 <= Z.min size (MSG_MAX - 1) < MSG_MAX) by (unfold MSG_MAX in *; lia).
  case_decide; simplify_eq; eexists; (split; [apply lookup_insert_eq|]); cbn.
  - split; [split; apply filled_ok; (done || lia)|]. split; [done|]. split; [done|].
    by apply Forall_singleton.
  - split; [apply written_ok; (done || lia)|]. split; [done|]. split; [lia|].
    apply Forall_singleton. split; [done|]. cbn. unfold MSG_MAX. lia.
Qed.

Lemma vfs_ok_read p f s t d s' t' u size r pos K :
  p <> NULL -> s !! p = Some d -> msg_ok d -> file_ok p f -> isOpen d = 1 ->
  0 <= size < 2 ^ 63 ->
  so2_read (private_data f) u size (f_pos f) K s t = Done (r, pos) s' t' ->
  vfs_ok p (Vfs [File (private_data f) pos] s' t').
Proof.
  intros Hnull Hp Hd [Hf Hpos] Ho Hsize E. rewrite Hf in *. pose proof (text_le d Hd).
  unfold MSG_MAX in *. rewrite (so2_read_eq p u size _ d) in E by (done || lia).
  cbv zeta in E. exists d. repeat case_decide; simplify_eq; cbn;
    (split; [done|]; split; [done|]; split; [done|]; split; [lia|]; apply Forall_singleton;
     split; [done|]; cbn; unfold MSG_MAX; lia).
Qed.

Lemma syscall_ok K p v v' :
  p <> NULL -> syscall K p v v' -> vfs_ok p v -> vfs_ok p v'.
Proof.
  intros Hnull Hs (d & Hp & Hd & Ho & Hl & Hfs). destruct Hs as
    [fs s t s' t' data E|fs s t s' t' r data E Hr|fs1 f fs2 s t s' t' u size r pos Hsz E
    |fs1 f fs2 s t s' t' u ub size r pos Hsz Hlen E|fs1 f fs2 s t s' t' r E]; cbn in *.
  - rewrite (so2_open_eq p d) in E by done. destruct (decide (isOpen d = 0)) as [H0|H0]; [|done].
    simplify_eq. assert (fs = []) as -> by (destruct fs; cbn in *; [done|lia]).
    eexists. split; [apply lookup_insert_eq|]. split; [done|]. split; [done|]. split; [done|].
    apply Forall_singleton. by split.
  - rewrite (so2_open_eq p d) in E by done. case_decide; simplify_eq. by exists d.
  - destruct (single_file fs1 f fs2 p) as (-> & -> & Hf); [done..|]. cbn in Ho.
    by eapply vfs_ok_read.
  - destruct (single_file fs1 f fs2 p) as (-> & -> & Hf); [done..|]. cbn in Ho.
    by eapply vfs_ok_write.
  - destruct (single_file fs1 f fs2 p) as (-> & -> & [Hf Hpos]); [done..|].
    rewrite Hf, (so2_release_eq p d) in E by done. simplify_eq.
    eexists. split; [apply lookup_insert_eq|]. split; [done|]. by split; [|split; [cbn; lia|]].
Qed.

Lemma syscalls_ok K p v v' :
  p <> NULL -> rtc (syscall K p) v v' -> vfs_ok p v -> vfs_ok p v'.
Proof. intros Hnull Hrun. apply (rtc_keeps _ Hrun). intros. by eapply syscall_ok. Qed.

(** ** Reading in pieces *)

Definition sum_sizes (sizes : list Z) : Z := foldr Z.add 0 sizes.

Lemma sum_sizes_nonneg sizes : Forall (fun z => 0 <= z < 2 ^ 63) sizes -> 0 <= sum_sizes sizes.
Proof. induction 1; cbn; [done|]. unfold sum_sizes in *. lia. Qed.

Lemma read_chunks_eq p d K s sizes : forall u off t,
  (forall t dst b, K t (copy_to_user dst b) = 0) ->
  s !! p = Some d -> p <> NULL -> msg_ok d ->
  Forall (fun z => 0 <= z < 2 ^ 63) sizes ->
  let len := Z.of_nat (length (text d)) in
  0 <= off <= len ->
  exists t', read_chunks p u off sizes K s t = Done (Z.min (off + sum_sizes sizes) len) s t' /\
    copied_out t' = copied_out t ++
      take (Z.to_nat (sum_sizes sizes)) (drop (Z.to_nat off) (text d)).
Proof.
  induction sizes as [|size sizes IH]; intros u off t HK Hp Hnull Hd Hszs len Hoff.
  { exists t. cbn. rewrite app_nil_r. split; [|done]. unfold mret, M_ret. f_equal. lia. }
  apply Forall_cons in Hszs as [Hsz Hszs]. pose proof (sum_sizes_nonneg _ Hszs) as Hpos.
  change (sum_sizes (size :: sizes)) with (size + sum_sizes sizes).
  cbn [read_chunks]. pose proof (text_le d Hd) as Hle. fold len in Hle. unfold MSG_MAX in Hle.
  unfold mbind, M_bind. rewrite (so2_read_eq p u size off d) by (done || lia).
  fold len. cbv zeta. rewrite HK.
  destruct (decide (0 <= off < len)) as [Hin|Hout].
  - rewrite decide_False by lia. cbn [snd].
    edestruct (IH u (off + size `min` (len - off))) as (t' & E & Hc); [done..|lia|].
    exists t'. fold len in E. rewrite E. split; [f_equal; lia|].
    rewrite Hc. cbn [copied_out]. rewrite Nat.sub_0_r, firstn_all, <- app_assoc. f_equal.
    rewrite (Z2Nat.inj_add size) by lia. rewrite <- take_take_drop. f_equal.
    rewrite drop_drop. destruct (decide (size <= len - off)).
    + do 2 f_equal. lia.
    + rewrite !drop_ge by lia. by rewrite !take_nil.
  - assert (off = len) as -> by lia. cbn [snd].
    edestruct (IH u len) as (t' & E & Hc); [done..|lia|].
    exists t'. fold len in E. rewrite E. split; [f_equal; lia|].
    rewrite Hc. cbn [copied_out]. rewrite !drop_ge by lia. by rewrite !take_nil.
Qed.

End handlers.
(** ** Properties *)

Section properties.
Context {LO : Layout} {MO : MemOps} {ML : MemLaws}.
Implicit Types (d : so2_device_data) (s : devices) (K : oracle) (t : trace).

(** In every history of opens, reads, writes and closes - with any copy to
    or from user space faulting anywhere - at most one file is open, the open
    flag says whether one is, the message stays a NUL-terminated string of the
    buffer, and the next read or write of an open file returns. *)
Theorem so2_single_opener p d K s t v :
  p <> NULL -> s !! p = Some d -> msg_ok d -> isOpen d = 0 ->
  rtc (syscall K p) (Vfs [] s t) v ->
  exists d', devs_of v !! p = Some d' /\ msg_ok d' /\
    isOpen d' = Z.of_nat (length (files v)) /\ (length (files v) <= 1)%nat /\
    forall f u size, f ∈ files v -> 0 <= size < 2 ^ 63 ->
      oopsed (so2_read (private_data f) u size (f_pos f) K (devs_of v) (trace_of v)) = false /\
      forall ub, size = Z.of_nat (length ub) ->
      oopsed (so2_write (private_data f) u ub size (f_pos f) K (devs_of v) (trace_of v)) = false.
Proof.
  intros Hnull Hp Hd Ho Hrun.
  destruct (syscalls_ok K p _ _ Hnull Hrun) as (d' & Hp' & Hd' & Ho' & Hl & Hfs).
  { exists d. do 2 (split; [done|]). split; [done|]. split; [cbn; lia|]. by apply Forall_nil. }
  exists d'. do 4 (split; [done|]). intros f u size Hf Hsz.
  destruct (proj1 (Forall_forall _ _) Hfs f Hf) as [-> Hpos]. unfold MSG_MAX in Hpos.
  rewrite (so2_read_eq p u size _ d') by (done || lia). cbv zeta.
  split; [by repeat case_decide|]. intros ub Hlen.
  rewrite (so2_write_eq p u ub size _ d') by done. cbv zeta. by case_decide.
Qed.

(** [so2_read], on every branch: at or past the end of the message, or at a
    negative offset, it returns 0; a faulting copy gives -EFAULT and leaves the
    offset; otherwise the user gets the next bytes of the message, the offset
    advances by their number, and the value returned is the size asked for. *)
Theorem so2_read_spec p u size off d K s t :
  s !! p = Some d -> p <> NULL -> msg_ok d ->
  0 <= size < 2 ^ 63 -> - 2 ^ 63 <= off < 2 ^ 63 ->
  let t1 := log_read t in
  let len := Z.of_nat (length (text d)) in
  let src := take (Z.to_nat size) (drop (Z.to_nat off) (text d)) in
  so2_read p u size off K s t =
    if decide (0 <= off < len) then
      let r := K t1 (copy_to_user u src) in
      let t2 := (copy_to_user u src, r) :: t1 in
      if decide (r <> 0) then Done (- EFAULT, off) s t2
      else Done (size, off + Z.min size (len - off)) s t2
    else Done (0, off) s t1.
Proof. apply so2_read_eq. Qed.

(** C15: what a process writes - at most MSG_MAX - 1 bytes, no NUL among them -
    is what a read from the start then delivers, up to the size asked for. *)
Theorem so2_write_read p u ub size off d K s t :
  s !! p = Some d -> p <> NULL -> msg_ok d ->
  (forall t dst b, K t (copy_to_user dst b) = 0) ->
  (forall t src n, K t (copy_from_user src n) = 0) ->
  0 ∉ ub -> Z.of_nat (length ub) < MSG_MAX -> 0 <= size < 2 ^ 63 ->
  exists s1 t1 r,
    so2_write p u ub (Z.of_nat (length ub)) off K s t = Done (Z.of_nat (length ub), 0) s1 t1 /\
    so2_read p u size 0 K s1 t1 = Done (r, Z.min size (Z.of_nat (length ub))) s1
      (history (so2_read p u size 0 K s1 t1)) /\
    copied_out (history (so2_read p u size 0 K s1 t1)) = copied_out t ++ take (Z.to_nat size) ub.
Proof.
  intros Hp Hnull Hd Hto Hfrom Hin Hlen Hsize. unfold MSG_MAX in Hlen.
  set (n := Z.of_nat (length ub)) in *.
  assert (Hn : Z.min n (MSG_MAX - 1) = n) by (unfold MSG_MAX; lia).
  rewrite (so2_write_eq p u ub n off d) by (done || lia). cbv zeta.
  rewrite Hfrom, decide_False by lia. rewrite Hn.
  assert (Htake : take (Z.to_nat n) ub = ub) by (apply take_ge; lia).
  eexists _, _. set (d1 := So2Data _ _ n). set (t1 := _ :: log_write t).
  assert (Hd1 : msg_ok d1) by (apply written_ok; (done || unfold MSG_MAX; lia)).
  assert (Ht1 : text d1 = ub).
  { unfold d1. rewrite text_written; [done|done|unfold MSG_MAX; lia|lia|by rewrite Htake]. }
  exists (if decide (0 < n) then size else 0).
  rewrite (so2_read_eq p u size 0 d1) by (done || lia || apply lookup_insert_eq).
  cbv zeta. rewrite Ht1, Hto. fold n. split; [done|].
  destruct (decide (0 <= 0 < n)) as [H0|H0].
  - rewrite (decide_True (P := 0 < n)) by lia. rewrite (decide_False (P := 0 <> 0)) by lia.
    split; [by rewrite Z.sub_0_r|].
    cbn. by rewrite Nat.sub_0_r, firstn_all.
  - rewrite (decide_False (P := 0 < n)) by lia. replace (size `min` n) with 0 by lia. split; [done|]. cbn.
    destruct ub; [|cbn in n; lia]. by rewrite take_nil, app_nil_r.
Qed.

(** Reading the device in pieces of any sizes delivers, in all, the prefix
    of the message of their total size, and leaves the offset at its end. *)
Theorem so2_read_chunks p u sizes d K s t :
  s !! p = Some d -> p <> NULL -> msg_ok d ->
  (forall t dst b, K t (copy_to_user dst b) = 0) ->
  Forall (fun z => 0 <= z < 2 ^ 63) sizes ->
  exists t', read_chunks p u 0 sizes K s t =
      Done (Z.min (sum_sizes sizes) (Z.of_nat (length (text d)))) s t' /\
    copied_out t' = copied_out t ++ take (Z.to_nat (sum_sizes sizes)) (text d).
Proof.
  intros Hp Hnull Hd HK Hsz. by apply (read_chunks_eq p d K s sizes u 0 t); [..|lia].
Qed.

(** A read that reaches the end of the message reports more bytes than it
    delivers: the value returned is the size asked for, the user gets less. *)
Theorem so2_read_overreports p u size off d K s t :
  s !! p = Some d -> p <> NULL -> msg_ok d ->
  (forall t dst b, K t (copy_to_user dst b) = 0) ->
  0 <= off < Z.of_nat (length (text d)) ->
  Z.of_nat (length (text d)) - off < size < 2 ^ 63 ->
  exists r pos t', so2_read p u size off K s t = Done (r, pos) s t' /\
    Z.of_nat (length (copied_out t')) - Z.of_nat (length (copied_out t)) < r.
Proof.
  intros Hp Hnull Hd HK Hoff Hsize. pose proof (text_le d Hd). unfold MSG_MAX in *.
  rewrite (so2_read_eq p u size off d) by (done || lia). cbv zeta.
  rewrite decide_True, HK, decide_False by lia. eexists _, _, _. split; [done|].
  cbn [copied_out]. rewrite Nat.sub_0_r, firstn_all, length_app, length_take, length_drop. lia.
Qed.

(** A write larger than the buffer stores the first MSG_MAX - 1 bytes and
    reports that everything was written. *)
Theorem so2_write_truncates p u ub off d K s t :
  s !! p = Some d -> msg_ok d -> 0 ∉ ub ->
  (forall t src n, K t (copy_from_user src n) = 0) ->
  MSG_MAX <= Z.of_nat (length ub) < 2 ^ 63 ->
  exists s' t' d', so2_write p u ub (Z.of_nat (length ub)) off K s t =
      Done (Z.of_nat (length ub), 0) s' t' /\
    s' !! p = Some d' /\ text d' = take (Z.to_nat (MSG_MAX - 1)) ub /\
    msg_len d' = MSG_MAX - 1.
Proof.
  intros Hp Hd Hin HK Hlen. rewrite (so2_write_eq p u ub _ off d) by (done || lia). cbv zeta.
  rewrite HK, decide_False by lia.
  replace (Z.of_nat (length ub) `min` (MSG_MAX - 1)) with (MSG_MAX - 1) by lia.
  eexists _, _, _. split; [done|]. split; [apply lookup_insert_eq|]. split; [|done].
  apply text_written; [done|unfold MSG_MAX; lia|lia|].
  intros Hx. apply Hin. by apply elem_of_take in Hx as (i & Hx%list_elem_of_lookup_2 & _).
Qed.

(** A successful load publishes the device with the default message, a
    failed one keeps nothing; unload after load gives back every resource. *)
Theorem so2_load_unload d K s :
  s !! dev_addr 0 = Some d -> length (msg d) = Z.to_nat MSG_MAX -> msg d !! 127%nat = Some 0 ->
  (forall t n, K t (cdev_add (cdev_of (dev_addr 0)) n 1) = 0) ->
  exists r s1 t1, so2_cdev_init K s [] = Done r s1 t1 /\
    (r = 0 ->
      (exists d', s1 !! dev_addr 0 = Some d' /\ msg_ok d' /\ text d' = bytes_of_string MESSAGE) /\
      exists t2, so2_cdev_exit K s1 t1 = Done () s1 t2 /\ held t2 = [] /\ disciplined t2 = true) /\
    (r <> 0 -> s1 = s /\ held t1 = []).
Proof.
  intros Hp Hl H0 Hadd. unfold so2_cdev_init. run_step.
  set (c := register_chrdev_region _ _ _). set (r0 := K [] c).
  destruct (decide (r0 <> 0)) as [Hr0|Hr0].
  { eexists r0, s, _. split; [by run_all|]. split; [done|]. intros _. split; [done|].
    by trace_simpl. }
  apply dec_stable in Hr0. rewrite Hr0. eexists 0, _, _. split.
  { erewrite run_bind; [by run_all|]. apply for_range_1. run_step. run_step. by apply update_eq. }
  split; [|done]. intros _. rewrite Hadd.
  set (m := strscpy (msg d) (bytes_of_string MESSAGE) MSG_MAX).
  assert (Hm : m = bytes_of_string MESSAGE ++ 0 :: drop 16 (msg d)).
  { unfold m. rewrite strscpy_fits; [done|done|]. by rewrite Hl. }
  split; [|eexists; split; [reflexivity|]; split; by trace_simpl].
  eexists. split; [apply lookup_insert_eq|]. split; [split|]; cbn; fold m.
  - rewrite Hm, length_app. cbn. by rewrite length_drop, Hl.
  - rewrite Hm. change (((bytes_of_string MESSAGE ++ [0]) ++ drop 16 (msg d)) !! 127%nat = Some 0).
    rewrite lookup_app_r by (vm_compute; lia). by rewrite lookup_drop.
  - unfold text; cbn. fold m. by rewrite Hm.
Qed.

End properties.
(** ** The properties at concrete inputs *)

Definition demo_layout : Layout := {| devices_addr := 4096; sizeof_so2_device_data := 256 |}.

(** The documented behaviour: the tail that could not be copied is zeroed;
    [strscpy] copies and terminates. *)
Definition demo_mem : MemOps := {|
  copied_in := fun src r =>
    let k := Nat.min (Z.to_nat r) (length src) in
    take (length src - k) src ++ replicate k 0;
  strscpy := fun dst src n =>
    let b := take (Z.to_nat (n - 1)) src in b ++ 0 :: drop (length b + 1) dst
|}.

Lemma demo_laws : @MemLaws demo_mem.
Proof.
  split; cbn.
  - intros src r. rewrite length_app, length_take, length_replicate. lia.
  - intros src. by rewrite Nat.sub_0_r, firstn_all, app_nil_r.
  - intros dst src n Hs Hd. by rewrite take_ge by lia.
Defined.

Definition demo_dev : so2_device_data :=
  So2Data 0 (bytes_of_string MESSAGE ++ replicate 113 0) 0.
Definition demo_heap : devices := {[ 4096 := demo_dev ]}.

(** A kernel in which every call succeeds. *)
Definition demo_kernel : oracle := fun _ _ => 0.

Lemma demo_ok : msg_ok demo_dev.
Proof. by split. Defined.

Lemma so2_single_opener_witness :
  exists v, rtc (@syscall demo_mem demo_kernel 4096) (Vfs [] demo_heap []) v /\
    length (files v) = 1%nat /\
  exists d', devs_of v !! 4096 = Some d' /\ msg_ok d' /\
    isOpen d' = Z.of_nat (length (files v)) /\ (length (files v) <= 1)%nat /\
    forall f u size, f ∈ files v -> 0 <= size < 2 ^ 63 ->
      oopsed (so2_read (private_data f) u size (f_pos f) demo_kernel (devs_of v) (trace_of v)) = false /\
      forall ub, size = Z.of_nat (length ub) ->
      oopsed (@so2_write demo_mem (private_data f) u ub size (f_pos f) demo_kernel (devs_of v) (trace_of v)) = false.
Proof.
  assert (Hrun : exists s' t', rtc (@syscall demo_mem demo_kernel 4096)
    (Vfs [] demo_heap []) (Vfs [File 4096 0] s' t')).
  { eexists _, _. apply rtc_once. apply (sys_open demo_kernel 4096 []). vm_compute. reflexivity. }
  destruct Hrun as (s' & t' & Hrun). eexists. split; [exact Hrun|]. split; [reflexivity|].
  eapply (@so2_single_opener demo_mem demo_laws 4096 demo_dev demo_kernel demo_heap []);
    [discriminate|reflexivity|apply demo_ok|reflexivity|exact Hrun].
Defined.

Lemma so2_read_spec_witness :
  exists t', so2_read 4096 7000 100 4 demo_kernel demo_heap [] = Done (100, 15) demo_heap t'.
Proof.
  eexists. apply (so2_read_spec 4096 7000 100 4 demo_dev demo_kernel demo_heap []);
    [reflexivity|discriminate|apply demo_ok|lia|lia].
Defined.

Lemma so2_write_read_witness :
  exists s1 t1 r, @so2_write demo_mem 4096 7000 [104; 105] 2 5 demo_kernel demo_heap [] =
    Done (2, 0) s1 t1 /\
  so2_read 4096 7000 10 0 demo_kernel s1 t1 = Done (r, 2) s1
    (history (so2_read 4096 7000 10 0 demo_kernel s1 t1)) /\
  copied_out (history (so2_read 4096 7000 10 0 demo_kernel s1 t1)) = [104; 105].
Proof.
  destruct (@so2_write_read demo_mem demo_laws 4096 7000 [104; 105] 10 5 demo_dev demo_kernel
    demo_heap []) as (s1 & t1 & r & E1 & E2 & E3);
    [reflexivity|discriminate|apply demo_ok|reflexivity|reflexivity|
     apply (bool_decide_unpack _); reflexivity|reflexivity|lia|].
  exists s1, t1, r. split; [exact E1|]. split; [exact E2|exact E3].
Defined.

Lemma so2_read_chunks_witness :
  exists t', read_chunks 4096 7000 0 [4; 4; 100; 1] demo_kernel demo_heap [] = Done 15 demo_heap t' /\
    copied_out t' = bytes_of_string MESSAGE.
Proof.
  apply (so2_read_chunks 4096 7000 [4; 4; 100; 1] demo_dev demo_kernel demo_heap []);
    [reflexivity|discriminate|apply demo_ok|reflexivity|].
  repeat (apply Forall_cons; split; [lia|]). apply Forall_nil. exact I.
Defined.

Lemma so2_read_overreports_witness :
  exists r pos t', so2_read 4096 7000 100 0 demo_kernel demo_heap [] = Done (r, pos) demo_heap t' /\
    Z.of_nat (length (copied_out t')) - 0 < r.
Proof.
  apply (so2_read_overreports 4096 7000 100 0 demo_dev demo_kernel demo_heap []);
    [reflexivity|discriminate|apply demo_ok|reflexivity|vm_compute; split; (discriminate || reflexivity)
    |vm_compute; split; reflexivity].
Defined.

Lemma so2_write_truncates_witness :
  exists s' t' d', @so2_write demo_mem 4096 7000 (replicate 200 65) 200 0 demo_kernel demo_heap [] =
      Done (200, 0) s' t' /\
    s' !! 4096 = Some d' /\ text d' = replicate 127 65 /\ msg_len d' = 127.
Proof.
  apply (@so2_write_truncates demo_mem demo_laws 4096 7000 (replicate 200 65) 0 demo_dev demo_kernel
    demo_heap []); [reflexivity|apply demo_ok|apply (bool_decide_unpack _); reflexivity|reflexivity
    |vm_compute; split; (discriminate || reflexivity)].
Defined.

Lemma so2_load_unload_witness :
  exists r s1 t1, @so2_cdev_init demo_layout demo_mem demo_kernel demo_heap [] = Done r s1 t1 /\
    (r = 0 ->
      (exists d', s1 !! 4096 = Some d' /\ msg_ok d' /\ text d' = bytes_of_string MESSAGE) /\
      exists t2, @so2_cdev_exit demo_layout demo_kernel s1 t1 = Done () s1 t2 /\ held t2 = [] /\
        disciplined t2 = true) /\
    (r <> 0 -> s1 = demo_heap /\ held t1 = []).
Proof.
  apply (@so2_load_unload demo_layout demo_mem demo_laws demo_dev demo_kernel demo_heap); reflexivity.
Defined.

End So2.
