(* ===== verification/So2Threads.v ===== *)
(** * Threads in the handlers of the so2 device

    At most one file of the device is open, but the threads of a process share
    it, and nothing orders their calls: the device has no lock.  Here the
    handlers [so2_read] and [so2_write] are cut into their accesses to single
    bytes of the buffer - the scan of [strlen], the copies, the terminator - and
    any number of threads is interleaved at them.  The steps of a thread that
    runs alone are the handlers of [So2Cdev]. *)

From S2P Require Import Prelude Kernel Monad So2Cdev.

Module So2Threads.
Import So2Cdev.So2.

(** Where a thread is, with the local variables of the handler.  A system call
    works on its own copy of the file position. *)
Inductive pc :=
  | Idle
  | Scan (uBuff size offset i : Z)
  | Gather (uBuff size offset n : Z) (acc : list Z)
  | Fill (size offset n r : Z) (src : list Z) (k : nat)
  | Terminate (size n : Z)
  | SetLen (size n : Z)
  | Returned (r offset : Z).

#[export] Instance pc_eq_dec : EqDecision pc.
Proof. solve_decision. Defined.

Section steps.
Context {MO : MemOps} (K : oracle) (p : Z).
Implicit Types (d : so2_device_data) (s : devices) (t : trace) (c : pc).

Abbreviation local := (pc * devices * trace)%type.

(** The number of bytes a read copies, and a write. *)
Definition read_count (size offset len : Z) : Z :=
  let available := (len -64 u64 offset)%cint in
  if decide (size < available) then size else available.
Definition write_count (size : Z) : Z :=
  if decide (size < MSG_MAX - 1) then size else MSG_MAX - 1.

(** One step of a thread.  A thread that is in a call and has no step would
    access a byte outside the buffer. *)
Inductive step : local -> local -> Prop :=
  | call_read u size off s t :
      0 <= size < 2 ^ 63 -> - 2 ^ 63 <= off < 2 ^ 63 ->
      step (Idle, s, t) (Scan u size off 0, s, log_read t)
  | scan_char u size off i s t d b :
      s !! p = Some d -> msg d !! Z.to_nat i = Some b -> b <> 0 ->
      step (Scan u size off i, s, t) (Scan u size off (i + 1), s, t)
  | scan_end u size off i s t d :
      s !! p = Some d -> msg d !! Z.to_nat i = Some 0 ->
      step (Scan u size off i, s, t)
        (if decide (u64 off >= i) then Returned 0 off
         else Gather u size off (read_count size off i) [], s, t)
  | gather_char u size off n acc s t d b :
      s !! p = Some d -> Z.of_nat (length acc) < n ->
      msg d !! (Z.to_nat off + length acc)%nat = Some b ->
      step (Gather u size off n acc, s, t) (Gather u size off n (acc ++ [b]), s, t)
  | gather_end u size off n acc s t :
      Z.of_nat (length acc) = n ->
      let r := K t (copy_to_user u acc) in
      step (Gather u size off n acc, s, t)
        (if decide (r <> 0) then Returned (- EFAULT) off
         else Returned (s64 size) (s64 (off +64 n)%cint), s, (copy_to_user u acc, r) :: t)
  | call_write u ub off s t :
      Z.of_nat (length ub) < 2 ^ 63 ->
      let size := Z.of_nat (length ub) in
      let n := write_count size in
      let r := K (log_write t) (copy_from_user u n) in
      step (Idle, s, t)
        (Fill size off n r (copied_in (take (Z.to_nat n) ub) r) 0, s,
         (copy_from_user u n, r) :: log_write t)
  | fill_char size off n r src k s t d b :
      s !! p = Some d -> src !! k = Some b -> (k < length (msg d))%nat ->
      step (Fill size off n r src k, s, t)
        (Fill size off n r src (S k), <[p := set_msg (<[k := b]> (msg d)) d]> s, t)
  | fill_end size off n r src s t :
      step (Fill size off n r src (length src), s, t)
        (if decide (r <> 0) then Returned (- EFAULT) off else Terminate size n, s, t)
  | terminate size n s t d :
      s !! p = Some d -> (Z.to_nat n < length (msg d))%nat ->
      step (Terminate size n, s, t)
        (SetLen size n, <[p := set_msg (<[Z.to_nat n := 0]> (msg d)) d]> s, t)
  | set_len size n s t d :
      s !! p = Some d ->
      step (SetLen size n, s, t) (Returned (s64 size) 0, <[p := set_msg_len n d]> s, t)
  | call_again r off s t : step (Returned r off, s, t) (Idle, s, t).

(** Any thread makes a step. *)
Inductive run_step : list pc * devices * trace -> list pc * devices * trace -> Prop :=
  | thread_steps i cs c c' s t s' t' :
      cs !! i = Some c -> step (c, s, t) (c', s', t') ->
      run_step (cs, s, t) (<[i := c']> cs, s', t').

(** ** The invariant *)

Definition pc_ok c : Prop :=
  match c with
  | Idle | Returned _ _ => True
  | Scan _ size off i => 0 <= size < 2 ^ 63 /\ - 2 ^ 63 <= off < 2 ^ 63 /\ 0 <= i < MSG_MAX
  | Gather _ _ off n acc => 0 <= off /\ 0 <= n /\ off + n < MSG_MAX /\ Z.of_nat (length acc) <= n
  | Fill _ _ n _ src k => 0 <= n < MSG_MAX /\ Z.of_nat (length src) = n /\ (k <= length src)%nat
  | Terminate _ n | SetLen _ n => 0 <= n < MSG_MAX
  end.

Definition device_ok s : Prop := exists d, s !! p = Some d /\ msg_ok d.

Definition system_ok (sys : list pc * devices * trace) : Prop :=
  Forall pc_ok sys.1.1 /\ device_ok sys.1.2.

Lemma read_count_min size off len :
  0 <= off < len /\ len < 2 ^ 63 -> read_count size off len = size `min` (len - off).
Proof.
  intros H. unfold read_count. rewrite (wrap_small 64 off), wrap_small by lia.
  case_decide; lia.
Qed.

Lemma read_count_ok size off len :
  0 <= size -> - 2 ^ 63 <= off < 2 ^ 63 -> 0 <= len < MSG_MAX -> ~ u64 off >= len ->
  0 <= off /\ 0 <= read_count size off len /\ off + read_count size off len <= len.
Proof.
  intros Hsize Hoff Hlen Hlt. unfold MSG_MAX in Hlen.
  assert (H0 : 0 <= off).
  { destruct (decide (0 <= off)); [done|]. exfalso. apply Hlt. unfold wrap.
    rewrite <- (Z.mod_add off 1), Z.mod_small by lia. lia. }
  rewrite wrap_small in Hlt by lia. rewrite read_count_min by lia. lia.
Qed.

Lemma write_count_ok size :
  0 <= size -> 0 <= write_count size < MSG_MAX /\ write_count size <= size.
Proof. intros Hs. unfold write_count, MSG_MAX. case_decide; lia. Qed.

(** A store below the last byte, or of a terminator. *)
Lemma store_ok d k b :
  msg_ok d -> (k < Z.to_nat (MSG_MAX - 1))%nat \/ b = 0 -> msg_ok (set_msg (<[k := b]> (msg d)) d).
Proof.
  intros [Hl H0] Hk. split; cbn; [by rewrite length_insert|].
  destruct (decide (k = Z.to_nat (MSG_MAX - 1))) as [->|Hne].
  - destruct Hk as [Hk | ->]; [lia|]. apply list_lookup_insert_eq. rewrite Hl. unfold MSG_MAX. lia.
  - by rewrite list_lookup_insert_ne.
Qed.

(** An index that is looked up is in range. *)
Ltac index_bound :=
  match goal with H : _ !! ?k = Some _ |- context [?k] => apply lookup_lt_Some in H end.

Lemma step_ok c s t c' s' t' `{ML : !MemLaws} :
  step (c, s, t) (c', s', t') -> pc_ok c -> device_ok s -> pc_ok c' /\ device_ok s'.
Proof.
  intros Hs Hc (d & Hp & Hd). pose proof Hd as [Hl H0].
  inversion Hs; subst; cbn [pc_ok] in *; repeat match goal with
    | H1 : s !! p = Some ?a, H2 : s !! p = Some ?b |- _ =>
        assert (b = a) by congruence; subst b; clear H2 end.
  - split; [unfold MSG_MAX; lia|by exists d].
  - split; [|by exists d]. destruct Hc as (? & ? & Hi). split; [done|]. split; [done|].
    destruct (decide (i = MSG_MAX - 1)) as [->|]; [congruence|lia].
  - split; [|by exists d]. destruct Hc as (? & ? & Hi). case_decide; [done|].
    destruct (read_count_ok size off i) as (? & ? & ?); [lia..|done|]. cbn. split_and!; lia.
  - split; [|by exists d]. rewrite length_app. cbn. lia.
  - split; [|by exists d]. by case_decide.
  - split; [|by exists d]. destruct (write_count_ok (Z.of_nat (length ub))) as [Hn Hle]; [lia|].
    fold size n in Hn, Hle. rewrite copied_in_length, length_take. split_and!; lia.
  - split; [index_bound; lia|]. eexists. split; [apply lookup_insert_eq|].
    apply store_ok; [done|]. left. index_bound. lia.
  - split; [|by exists d]. case_decide; [done|apply Hc].
  - split; [done|]. eexists. split; [apply lookup_insert_eq|]. apply store_ok; auto.
  - split; [done|]. eexists. split; [apply lookup_insert_eq|done].
  - split; [done|by exists d].
Qed.

(** ** Progress *)

(** A thread in a call can always make its next step: the byte it is about to
    access is inside the buffer. *)
Lemma pc_progress c s t :
  pc_ok c -> device_ok s -> c <> Idle -> exists c' s' t', step (c, s, t) (c', s', t').
Proof.
  intros Hc (d & Hp & [Hl H0]) Hi.
  assert (Hin : forall k, (k < Z.to_nat MSG_MAX)%nat -> is_Some (msg d !! k))
    by (intros k Hk; apply lookup_lt_is_Some_2; by rewrite Hl).
  destruct c as [|u size off i|u size off n acc|size off n r src k|size n|size n|r off];
    cbn [pc_ok] in Hc; [done|..].
  - destruct (Hin (Z.to_nat i)) as [b Hb]; [lia|]. destruct (decide (b = 0)) as [->|Hb0].
    + eexists _, _, _. by eapply scan_end.
    + eexists _, _, _. by eapply scan_char.
  - destruct (decide (Z.of_nat (length acc) < n)).
    + destruct (Hin (Z.to_nat off + length acc)%nat) as [b Hb]; [lia|].
      eexists _, _, _. by eapply gather_char.
    + eexists _, _, _. apply gather_end. lia.
  - destruct (decide (k = length src)) as [->|].
    + eexists _, _, _. apply fill_end.
    + destruct (lookup_lt_is_Some_2 src k) as [b Hb]; [lia|].
      eexists _, _, _. eapply fill_char; [done|done|]. rewrite Hl. lia.
  - eexists _, _, _. eapply terminate; [done|]. rewrite Hl. lia.
  - eexists _, _, _. by eapply set_len.
  - eexists _, _, _. apply call_again.
Qed.

(** The steps a call can still make. *)
Definition work c : nat :=
  match c with
  | Idle | Returned _ _ => 0
  | Scan _ _ _ i => Z.to_nat (2 * MSG_MAX - i) + 2
  | Gather _ _ _ n acc => Z.to_nat n - length acc + 1
  | Fill _ _ _ _ src k => length src - k + 3
  | Terminate _ _ => 2
  | SetLen _ _ => 1
  end.

Lemma work_decreases c s t c' s' t' `{ML : !MemLaws} :
  step (c, s, t) (c', s', t') -> pc_ok c -> device_ok s ->
  (forall r off, c <> Returned r off) -> c <> Idle -> (work c' < work c)%nat.
Proof.
  intros Hs Hc Hd Hr Hi. destruct (step_ok _ _ _ _ _ _ Hs Hc Hd) as [Hc' _].
  inversion Hs; subst; cbn [pc_ok] in *; try done; try (exfalso; by eapply Hr).
  - cbn. lia.
  - case_decide; cbn [pc_ok work length] in *; lia.
  - cbn. rewrite length_app. cbn. lia.
  - case_decide; cbn; lia.
  - cbn. index_bound. lia.
  - case_decide; cbn; lia.
  - cbn. lia.
  - cbn. lia.
Qed.

(** ** A thread alone *)

Lemma scan_run u size off n s t d :
  s !! p = Some d -> strlen (msg d) = Some n ->
  rtc step (Scan u size off 0, s, t) (Scan u size off n, s, t).
Proof.
  intros Hp E. apply strlen_Some in E as (Hn & _ & Hz).
  assert (Hk : forall k, Z.of_nat k <= n ->
    rtc step (Scan u size off 0, s, t) (Scan u size off (Z.of_nat k), s, t)).
  { induction k as [|k IH]; intros Hle; [done|]. eapply rtc_r; [apply IH; lia|].
    destruct (lookup_lt_is_Some_2 (msg d) k) as [b Hb]; [lia|].
    replace (Z.of_nat (S k)) with (Z.of_nat k + 1) by lia.
    eapply scan_char; [done|by rewrite Nat2Z.id|]. intros ->. apply Hz.
    apply elem_of_take. exists k. split; [done|lia]. }
  specialize (Hk (Z.to_nat n)). rewrite Z2Nat.id in Hk by lia. by apply Hk.
Qed.

Lemma gather_run u size off n s t d :
  s !! p = Some d -> 0 <= n -> (Z.to_nat off + Z.to_nat n <= length (msg d))%nat ->
  rtc step (Gather u size off n [], s, t)
    (Gather u size off n (take (Z.to_nat n) (drop (Z.to_nat off) (msg d))), s, t).
Proof.
  intros Hp Hn Hl.
  assert (Hk : forall k, (k <= Z.to_nat n)%nat -> rtc step (Gather u size off n [], s, t)
    (Gather u size off n (take k (drop (Z.to_nat off) (msg d))), s, t)); [|by apply Hk].
  induction k as [|k IH]; intros Hle; [done|]. eapply rtc_r; [apply IH; lia|].
  destruct (lookup_lt_is_Some_2 (drop (Z.to_nat off) (msg d)) k) as [b Hb];
    [rewrite length_drop; lia|].
  rewrite (take_S_r _ _ b Hb). assert (Hlen : length (take k (drop (Z.to_nat off) (msg d))) = k)
    by (rewrite length_take, length_drop; lia).
  eapply gather_char; [done|by rewrite Hlen; lia|]. rewrite Hlen. by rewrite <- lookup_drop.
Qed.

Lemma fill_run size off n r src s t d :
  s !! p = Some d -> (length src <= length (msg d))%nat ->
  rtc step (Fill size off n r src 0, s, t)
    (Fill size off n r src (length src),
     <[p := set_msg (src ++ drop (length src) (msg d)) d]> s, t).
Proof.
  intros Hp Hl. assert (Hk : forall k, (k <= length src)%nat ->
    rtc step (Fill size off n r src 0, s, t)
      (Fill size off n r src k, <[p := set_msg (take k src ++ drop k (msg d)) d]> s, t)).
  2: { specialize (Hk (length src)). rewrite firstn_all in Hk. by apply Hk. }
  induction k as [|k IH]; intros Hle.
  { cbn. rewrite insert_id; [done|]. rewrite Hp. by destruct d. }
  eapply rtc_r; [apply IH; lia|].
  destruct (lookup_lt_is_Some_2 src k) as [b Hb]; [lia|].
  destruct (lookup_lt_is_Some_2 (msg d) k) as [x Hx]; [lia|].
  set (m := take k src ++ drop k (msg d)). set (d1 := set_msg m d).
  assert (Hw : length (take k src) = k) by (rewrite length_take; lia).
  assert (E : <[p := set_msg (take (S k) src ++ drop (S k) (msg d)) d]> s =
    <[p := set_msg (<[k := b]> (msg d1)) d1]> (<[p := d1]> s)).
  { rewrite insert_insert_eq. f_equal. unfold d1, m, set_msg; cbn. f_equal.
    rewrite (drop_S _ x k) by done. rewrite (take_S_r _ _ b Hb), <- (assoc_L (++)).
    rewrite (insert_app_r_alt _ _ k) by lia. by rewrite Hw, Nat.sub_diag. }
  rewrite E. apply fill_char; [apply lookup_insert_eq|done|].
  cbn [msg set_msg d1]. unfold m. rewrite length_app, Hw, length_drop. lia.
Qed.

(** The steps of a thread that nobody interrupts are [so2_read]. *)
Lemma read_alone `{ML : !MemLaws} u size off d s t :
  s !! p = Some d -> p <> NULL -> msg_ok d -> 0 <= size < 2 ^ 63 -> - 2 ^ 63 <= off < 2 ^ 63 ->
  exists r pos t', so2_read p u size off K s t = Done (r, pos) s t' /\
    rtc step (Idle, s, t) (Returned r pos, s, t').
Proof.
  intros Hp Hnull Hd Hsize Hoff. rewrite (so2_read_eq p u size off d) by done. cbv zeta.
  destruct (msg_ok_strlen d Hd) as (n & E & Hn). pose proof (length_text d n E) as Hlen.
  rewrite Hlen. pose proof E as (Hbn & Hz & _)%strlen_Some.
  assert (Hscan : rtc step (Idle, s, t) (Scan u size off n, s, log_read t)).
  { eapply rtc_l; [by apply call_read|]. by apply scan_run with d. }
  pose proof (scan_end u size off n s (log_read t) d Hp Hz) as Hend.
  destruct (decide (0 <= off < n)) as [Hin|Hout].
  - rewrite decide_False in Hend.
    2: { rewrite wrap_small by lia. lia. }
    assert (Ec : read_count size off n = size `min` (n - off)).
    { apply read_count_min. unfold MSG_MAX in *. lia. }
    assert (Eb : take (Z.to_nat (read_count size off n)) (drop (Z.to_nat off) (msg d)) =
      take (Z.to_nat size) (drop (Z.to_nat off) (text d))).
    { rewrite Ec. rewrite (strlen_take_drop _ n) by (done || lia). unfold text. rewrite E.
      apply take_eq_min; [|lia..]. rewrite length_drop, length_take. lia. }
    pose proof (gather_run u size off (read_count size off n) s (log_read t) d Hp) as Hg.
    rewrite Eb in Hg. set (src := take (Z.to_nat size) (drop (Z.to_nat off) (text d))) in *.
    assert (Hsrc : Z.of_nat (length src) = read_count size off n).
    { unfold src. rewrite length_take, length_drop. lia. }
    pose proof (gather_end u size off _ src s (log_read t) Hsrc) as He. cbv zeta in He.
    assert (Hgather : rtc step (Idle, s, t)
      (Gather u size off (read_count size off n) src, s, log_read t)).
    { etrans; [exact Hscan|]. eapply rtc_l; [exact Hend|]. apply Hg; lia. }
    case_decide; (eexists _, _, _; split; [reflexivity|]; eapply rtc_r; [exact Hgather|]);
      [exact He|]. rewrite Ec in He at 2. unfold MSG_MAX in *.
    rewrite swrap_small, wrap_small, swrap_small in He by lia. exact He.
  - rewrite decide_True in Hend.
    + eexists _, _, _. split; [reflexivity|]. eapply rtc_r; [exact Hscan|exact Hend].
    + unfold wrap. unfold MSG_MAX in *. destruct (decide (0 <= off)).
      * rewrite Z.mod_small; lia.
      * rewrite <- (Z.mod_add off 1), Z.mod_small by lia. lia.
Qed.

(** ... and [so2_write]. *)
Lemma write_alone `{ML : !MemLaws} u ub off d s t :
  s !! p = Some d -> msg_ok d -> Z.of_nat (length ub) < 2 ^ 63 ->
  exists r pos s' t', so2_write p u ub (Z.of_nat (length ub)) off K s t = Done (r, pos) s' t' /\
    rtc step (Idle, s, t) (Returned r pos, s', t').
Proof.
  intros Hp Hd Hsize. rewrite (so2_write_eq p u ub _ off d) by (done || lia). cbv zeta.
  pose proof (call_write u ub off s t Hsize) as Hc. cbv zeta in Hc.
  assert (En : write_count (Z.of_nat (length ub)) = Z.of_nat (length ub) `min` (MSG_MAX - 1))
    by (unfold write_count; case_decide; lia).
  rewrite En in Hc. set (n := Z.of_nat (length ub) `min` (MSG_MAX - 1)) in *.
  set (r := K (log_write t) (copy_from_user u n)) in *.
  set (src := copied_in (take (Z.to_nat n) ub) r) in *. pose proof Hd as [Hl _].
  assert (Hn : 0 <= n < MSG_MAX /\ n <= Z.of_nat (length ub)) by (unfold n, MSG_MAX; lia).
  assert (Hsrc : length src = Z.to_nat n)
    by (unfold src; rewrite copied_in_length, length_take; lia).
  pose proof (fill_run (Z.of_nat (length ub)) off n r src s ((copy_from_user u n, r) :: log_write t)
    d Hp) as Hf. rewrite Hl in Hf. specialize (Hf ltac:(unfold MSG_MAX in *; lia)).
  assert (Ef : src ++ drop (length src) (msg d) = filled d ub n r) by (unfold filled; by rewrite Hsrc).
  rewrite Ef in Hf. set (d1 := set_msg (filled d ub n r) d) in *.
  pose proof (fill_end (Z.of_nat (length ub)) off n r src (<[p:=d1]> s)
    ((copy_from_user u n, r) :: log_write t)) as He.
  assert (Hfill : rtc step (Idle, s, t) (if decide (r <> 0) then Returned (- EFAULT) off
    else Terminate (Z.of_nat (length ub)) n, <[p:=d1]> s, (copy_from_user u n, r) :: log_write t)).
  { eapply rtc_l; [exact Hc|]. eapply rtc_r; [exact Hf|exact He]. }
  destruct (decide (r <> 0)) as [Hr|Hr]; [by eexists _, _, _, _|].
  apply dec_stable in Hr. eexists _, _, _, _. split; [reflexivity|].
  etrans; [exact Hfill|].
  assert (Hl1 : length (filled d ub n r) = Z.to_nat MSG_MAX) by (apply filled_ok; (done || lia)).
  eapply rtc_l.
  { eapply terminate; [apply lookup_insert_eq|]. cbn [msg set_msg d1]. rewrite Hl1. lia. }
  eapply rtc_l; [eapply set_len, lookup_insert_eq|]. rewrite !insert_insert_eq, swrap_small by lia.
  unfold d1, set_msg, set_msg_len; cbn. by rewrite Hr.
Qed.

(** ** Any number of threads *)

Lemma run_step_ok `{ML : !MemLaws} sys sys' : run_step sys sys' -> system_ok sys -> system_ok sys'.
Proof.
  intros [i cs c c' s t s' t' Hi Hs] [Hc Hd]. cbn in *.
  destruct (step_ok _ _ _ _ _ _ Hs) as [Hc' Hd']; [by eapply Forall_lookup_1|done|].
  split; [|done]. by apply Forall_insert.
Qed.

Lemma run_ok `{ML : !MemLaws} sys sys' : rtc run_step sys sys' -> system_ok sys -> system_ok sys'.
Proof. intros Hrun. apply (rtc_keeps _ Hrun), run_step_ok. Qed.

(** What a thread can do: it is between calls, or it has a next step, every one
    of which brings the end of its call closer. *)
Definition advances (i : nat) c cs s t : Prop :=
  c = Idle \/ (exists r off, c = Returned r off) \/
  (exists c' s' t', run_step (cs, s, t) (<[i := c']> cs, s', t')) /\
  (work c <= Z.to_nat (2 * MSG_MAX) + 2)%nat /\
  forall c' s' t', step (c, s, t) (c', s', t') -> (work c' < work c)%nat.

(** C12: the buffer of the device needs no lock to stay a string.  However the
    byte accesses of any number of threads in [so2_read] and [so2_write] are
    interleaved, and whatever copies fail, the last byte of the buffer is a NUL
    between any two of them: no scan and no copy leaves the buffer, a thread in a
    call can always go on, and it returns after at most 258 steps of its own. *)
Theorem so2_threads_safe `{ML : !MemLaws} n d s t cs s' t' :
  s !! p = Some d -> msg_ok d ->
  rtc run_step (replicate n Idle, s, t) (cs, s', t') ->
  (exists d', s' !! p = Some d' /\ msg_ok d') /\
  forall i c, cs !! i = Some c -> advances i c cs s' t'.
Proof.
  intros Hp Hd Hrun. destruct (run_ok _ _ Hrun) as [Hcs Hdev].
  { split; [by apply Forall_replicate|by exists d]. }
  split; [exact Hdev|]. intros i c Hi. cbn in *.
  assert (Hc : pc_ok c) by by eapply Forall_lookup_1.
  destruct (decide (c = Idle)) as [->|Hidle]; [by left|right].
  assert (Hr : (exists r off, c = Returned r off) \/ forall r off, c <> Returned r off)
    by (destruct c; eauto; by right).
  destruct Hr as [Hr|Hr]; [by left|right].
  split; [|split].
  - destruct (pc_progress c s' t' Hc Hdev Hidle) as (c' & s2 & t2 & Hs).
    exists c', s2, t2. by eapply thread_steps.
  - unfold MSG_MAX in *. destruct c; cbn [work pc_ok] in *; unfold MSG_MAX in *; try lia.
  - intros c' s2 t2 Hs. by eapply work_decreases.
Qed.

End steps.

(** ** Witness *)

(** One thread has begun to write, another one scans. *)
Lemma demo_threads :
  exists cs s t, rtc (@run_step demo_mem demo_kernel 4096) (replicate 2 Idle, demo_heap, []) (cs, s, t) /\
    cs = [Fill 2 0 2 0 [104; 105] 1; Scan 8000 10 0 1].
Proof.
  eexists _, _, _. split; [|reflexivity].
  eapply rtc_l; [eapply (thread_steps _ _ 0); [reflexivity|by apply (call_write _ _ 7000 [104; 105] 0)]|].
  eapply rtc_l; [eapply (thread_steps _ _ 1); [reflexivity|by apply (call_read _ _ 8000 10 0)]|].
  eapply rtc_l; [eapply (thread_steps _ _ 1); [reflexivity|]|].
  { eapply scan_char; [reflexivity|reflexivity|done]. }
  eapply rtc_l; [eapply (thread_steps _ _ 0); [reflexivity|]|].
  { eapply fill_char; [reflexivity|reflexivity|cbn; lia]. }
  cbn. apply rtc_refl.
Qed.

Lemma so2_threads_safe_witness :
  exists cs s t, rtc (@run_step demo_mem demo_kernel 4096) (replicate 2 Idle, demo_heap, []) (cs, s, t) /\
    cs = [Fill 2 0 2 0 [104; 105] 1; Scan 8000 10 0 1] /\
    (exists d', s !! 4096 = Some d' /\ msg_ok d') /\
    forall i c, cs !! i = Some c -> @advances demo_mem demo_kernel 4096 i c cs s t.
Proof.
  destruct demo_threads as (cs & s & t & Hrun & E). exists cs, s, t.
  split; [exact Hrun|]. split; [exact E|].
  apply (@so2_threads_safe demo_mem demo_kernel 4096 demo_laws 2 demo_dev demo_heap [] cs s t);
    [reflexivity|exact demo_ok|exact Hrun].
Defined.

End So2Threads.
