(* ===== verification/KList.v ===== *)
(** * Kernel lists and heap objects (the interface of linux/list.h and slab)

    [struct list_head] is intrusive: a node is a member of an allocated object,
    [off] bytes into it.  What the list modules of the repository use of
    linux/list.h is the class [ListOps] and what they rely on is [ListLaws],
    whose [chain h ns l] reads "in the link memory [l] the head at [h] starts
    a well-formed list of the nodes [ns]".  Every operation also touches the
    objects that hold the nodes it writes, so that following a link into freed
    memory is an [Oops].  The loops are the expansions of the iteration macros,
    and [holds] is the representation predicate the list modules share. *)

From S2P Require Import Prelude Kernel Monad.

Class ListOps (L : Type) := {
  INIT_LIST_HEAD : Z -> L -> L;
  list_insert : Z -> Z -> L -> L;
  list_remove : Z -> L -> L;
  list_next : Z -> L -> Z;
  list_prev : Z -> L -> Z
}.

Class ListLaws (L : Type) `{ListOps L} (chain : Z -> list Z -> L -> Prop) : Prop := {
  chain_init h l : chain h [] (INIT_LIST_HEAD h l);
  chain_init_other h ns n l :
    chain h ns l -> n ∉ h :: ns -> chain h ns (INIT_LIST_HEAD n l);
  chain_nodup h ns l : chain h ns l -> NoDup (h :: ns);
  chain_insert h n ns l :
    chain h ns l -> n ∉ h :: ns -> chain h (n :: ns) (list_insert n h l);
  chain_remove h ns1 n ns2 l :
    chain h (ns1 ++ n :: ns2) l -> chain h (ns1 ++ ns2) (list_remove n l);
  chain_next h ns l i n :
    chain h ns l -> (h :: ns) !! i = Some n -> list_next n l = default h (ns !! i);
  chain_prev h ns l i n :
    chain h ns l -> (ns ++ [h]) !! i = Some n ->
    list_prev n l = default h ((h :: ns) !! i)
}.

(** Allocated objects, by address, and the link memory. *)
Record lstate (L V : Type) := LState { cells : gmap Z V; links : L }.
Arguments LState {L V} _ _.
Arguments cells {L V} _.
Arguments links {L V} _.

Definition set_links {L V} (f : L -> L) (s : lstate L V) : lstate L V :=
  LState (cells s) (f (links s)).

Definition objs {L V} : lens (lstate L V) (gmap Z V) :=
  Lens cells (fun c s => LState c (links s)).

Section code.
Context {L V : Type} `{ListOps L}.
Abbreviation MV := (M (lstate L V)).

(** Accesses to an allocated object. *)
Definition obj_load (p : Z) : MV V := zoom objs (load p).
Definition obj_update (p : Z) (f : V -> V) : MV unit := zoom objs (update p f).

(** [kmalloc] of one object, whose fields hold [garbage]; NULL on failure. *)
Definition kmalloc_obj (size : Z) (flags : gfp) (garbage : Z -> MV V) : MV Z :=
  p ← ask (kmalloc size flags);
  if decide (p = NULL) then mret NULL else
  v ← garbage p;
  modify (fun s => LState (<[p := v]> (cells s)) (links s)) ;;
  mret p.

Definition kfree_obj (p : Z) : MV unit :=
  if decide (p = NULL) then tell (kfree p) else
  (fun K s t => match cells s !! p with Some _ => Done () s t | None => Oops (bad_free p) s t end) ;;
  modify (fun s => LState (delete p (cells s)) (links s)) ;;
  tell (kfree p).

(** [list_entry(n, type, member)] *)
Definition list_entry (off n : Z) : Z := n - off.

(** An access to the node at [n]: the head [h] or a member of an object. *)
Definition touch (off h n : Z) : MV unit :=
  if decide (n = h) then mret () else obj_load (list_entry off n) ;; mret ().

(** [n->next] *)
Definition node_next (off h n : Z) : MV Z :=
  touch off h n ;; gets (fun s => list_next n (links s)).

(** [INIT_LIST_HEAD(n)] for the node of an object. *)
Definition init_node (off h n : Z) : MV unit :=
  touch off h n ;; modify (set_links (INIT_LIST_HEAD n)).

(** [list_add(n, h)] writes [n], [h] and the former first node. *)
Definition list_add (off n h : Z) : MV unit :=
  touch off h n ;;
  first ← gets (fun s => list_next h (links s));
  touch off h first ;;
  modify (set_links (list_insert n h)).

(** [list_del(n)] writes [n] and both its neighbours. *)
Definition list_del (off h n : Z) : MV unit :=
  touch off h n ;;
  prev ← gets (fun s => list_prev n (links s));
  next ← gets (fun s => list_next n (links s));
  touch off h prev ;; touch off h next ;;
  modify (set_links (list_remove n)).

(** [list_for_each(p, h) body]; [Some r] from the body is a [return r]. *)
Fixpoint for_each_from {R} (fuel : nat) (off h p : Z) (body : Z -> MV (option R)) : MV (option R) :=
  if decide (p = h) then mret None else
  match fuel with
  | O => oops out_of_fuel
  | Datatypes.S fuel' =>
      r ← body p;
      match r with
      | Some r => mret (Some r)
      | None => q ← node_next off h p; for_each_from fuel' off h q body
      end
  end.

(** [list_for_each_safe(p, q, h) body]: the successor is read before the body. *)
Fixpoint for_each_safe_from {R} (fuel : nat) (off h p : Z) (body : Z -> MV (option R)) :
    MV (option R) :=
  if decide (p = h) then mret None else
  match fuel with
  | O => oops out_of_fuel
  | Datatypes.S fuel' =>
      q ← node_next off h p;
      r ← body p;
      match r with
      | Some r => mret (Some r)
      | None => for_each_safe_from fuel' off h q body
      end
  end.

(** A list has at most as many nodes as there are objects. *)
Definition list_for_each {R} (off h : Z) (body : Z -> MV (option R)) : MV (option R) :=
  n ← gets (fun s => size (cells s));
  p ← node_next off h h;
  for_each_from n off h p body.

Definition list_for_each_safe {R} (off h : Z) (body : Z -> MV (option R)) : MV (option R) :=
  n ← gets (fun s => size (cells s));
  p ← node_next off h h;
  for_each_safe_from n off h p body.

End code.

(** The histories of all these only grow. *)
Section grows.
Context {L V : Type} `{ListOps L}.

#[export] Instance grows_obj_load p : Grows (obj_load (L := L) (V := V) p).
Proof. unfold obj_load. apply _. Qed.
#[export] Instance grows_obj_update p (f : V -> V) : Grows (obj_update (L := L) p f).
Proof. unfold obj_update, update. apply _. Qed.
#[export] Instance grows_kmalloc_obj size flags (garbage : Z -> M (lstate L V) V) :
  (forall p, Grows (garbage p)) -> Grows (kmalloc_obj size flags garbage).
Proof. unfold kmalloc_obj. apply _. Qed.

#[export] Instance grows_kfree_obj p : Grows (kfree_obj (L := L) (V := V) p).
Proof.
  unfold kfree_obj. apply grows_if; [apply _|]. apply grows_bind; [|apply _].
  intros K s t. exists []. by destruct (cells s !! p).
Qed.

#[export] Instance grows_touch off h n : Grows (touch (L := L) (V := V) off h n).
Proof. unfold touch. apply _. Qed.
#[export] Instance grows_node_next off h n : Grows (node_next (L := L) (V := V) off h n).
Proof. unfold node_next. apply _. Qed.
#[export] Instance grows_list_add off h n : Grows (list_add (L := L) (V := V) off h n).
Proof. unfold list_add. apply _. Qed.
#[export] Instance grows_list_del off h n : Grows (list_del (L := L) (V := V) off h n).
Proof. unfold list_del. apply _. Qed.

Lemma grows_for_each_from {R} off h (body : Z -> M (lstate L V) (option R)) fuel : forall p,
  (forall p, Grows (body p)) -> Grows (for_each_from fuel off h p body).
Proof.
  induction fuel as [|fuel IH]; intros p Hb; cbn [for_each_from]; apply grows_if; try apply _.
  apply grows_bind; [apply _|]. intros [r|]; apply _.
Qed.

Lemma grows_for_each_safe_from {R} off h (body : Z -> M (lstate L V) (option R)) fuel : forall p,
  (forall p, Grows (body p)) -> Grows (for_each_safe_from fuel off h p body).
Proof.
  induction fuel as [|fuel IH]; intros p Hb; cbn [for_each_safe_from]; apply grows_if; try apply _.
  apply grows_bind; [apply _|]. intros q. apply grows_bind; [apply _|]. intros [r|]; apply _.
Qed.

#[export] Instance grows_for_each {R} off h (body : Z -> M (lstate L V) (option R)) :
  (forall p, Grows (body p)) -> Grows (list_for_each off h body).
Proof.
  intros Hb. unfold list_for_each. apply grows_bind; [apply _|]. intros n.
  apply grows_bind; [apply _|]. intros p. by apply grows_for_each_from.
Qed.

#[export] Instance grows_for_each_safe {R} off h (body : Z -> M (lstate L V) (option R)) :
  (forall p, Grows (body p)) -> Grows (list_for_each_safe off h body).
Proof.
  intros Hb. unfold list_for_each_safe. apply grows_bind; [apply _|]. intros n.
  apply grows_bind; [apply _|]. intros p. by apply grows_for_each_safe_from.
Qed.

End grows.

(** The history [t] goes on from [t0]. *)
Definition since (t0 t : trace) : Prop := exists new, t = new ++ t0.

Lemma since_refl t : since t t.
Proof. by exists []. Qed.
Lemma since_cons t0 e t : since t0 t -> since t0 (e :: t).
Proof. intros [new ->]. by exists (e :: new). Qed.

(** An allocation has failed between the histories [t] and [t']. *)
Definition no_memory (t t' : trace) : Prop :=
  exists new, t' = new ++ t /\ exists size flags, (kmalloc size flags, NULL) ∈ new.

Lemma no_memory_later t l t' : no_memory (l ++ t) t' -> no_memory t t'.
Proof.
  intros (new & -> & size & flags & Hin). exists (new ++ l). rewrite <- app_assoc.
  split; [done|]. exists size, flags. apply elem_of_app. by left.
Qed.

Lemma entry_of off p : list_entry off (p + off) = p.
Proof. unfold list_entry. lia. Qed.

(** ** The representation predicate *)

Section holds.
Context {L V : Type} `{LL : ListLaws L chain}.
Implicit Types (s : lstate L V) (l : list (Z * V)).

(** The head at [h] links the objects [l], in order; [extra] are the allocated
    objects that are on no list. *)
Definition holds (off h : Z) (extra l : list (Z * V)) s : Prop :=
  chain h ((fun o => o.1 + off) <$> l) (links s) /\
  cells s = list_to_map (extra ++ l) /\ NoDup (extra ++ l).*1.

(** The address of the first node of [l], the head's if there is none. *)
Definition first_node (off h : Z) (l : list (Z * V)) : Z :=
  match l with [] => h | o :: _ => o.1 + off end.

Lemma holds_lookup off h extra l s p v :
  holds off h extra l s -> (p, v) ∈ l -> cells s !! p = Some v.
Proof.
  intros (_ & -> & Hnd) Hin. apply elem_of_list_to_map_1; [done|].
  apply elem_of_app. by right.
Qed.

Lemma holds_lookup_extra off h extra l s p v :
  holds off h extra l s -> (p, v) ∈ extra -> cells s !! p = Some v.
Proof.
  intros (_ & -> & Hnd) Hin. apply elem_of_list_to_map_1; [done|].
  apply elem_of_app. by left.
Qed.

Lemma holds_size off h extra l s :
  holds off h extra l s -> size (cells s) = (length extra + length l)%nat.
Proof.
  intros (_ & -> & Hnd). rewrite map_size_list_to_map by done. apply length_app.
Qed.

Lemma holds_not_head off h extra l s o : holds off h extra l s -> o ∈ l -> o.1 + off <> h.
Proof.
  intros (Hc & _ & _) Hin E. apply chain_nodup in Hc. apply NoDup_cons in Hc as [Hh _].
  apply Hh. apply list_elem_of_fmap. by exists o.
Qed.

Lemma holds_next_head off h extra l s :
  holds off h extra l s -> list_next h (links s) = first_node off h l.
Proof.
  intros (Hc & _ & _). rewrite (chain_next h _ _ 0 h Hc) by done. by destruct l.
Qed.

Lemma holds_next off h extra l1 o l2 s :
  holds off h extra (l1 ++ o :: l2) s ->
  list_next (o.1 + off) (links s) = first_node off h l2.
Proof.
  intros (Hc & _ & _).
  rewrite (chain_next h _ _ (S (length l1)) (o.1 + off) Hc).
  - rewrite fmap_app, lookup_app_r by (rewrite length_fmap; lia).
    rewrite length_fmap. replace (S (length l1) - length l1)%nat with 1%nat by lia. by destruct l2.
  - rewrite lookup_cons, fmap_app, lookup_app_r by (rewrite length_fmap; lia).
    by rewrite length_fmap, Nat.sub_diag.
Qed.

(** The address of the last node of [l], the head's if there is none. *)
Definition last_node (off h : Z) (l : list (Z * V)) : Z :=
  match last l with None => h | Some o => o.1 + off end.

Lemma holds_prev off h extra l1 o l2 s :
  holds off h extra (l1 ++ o :: l2) s ->
  list_prev (o.1 + off) (links s) = last_node off h l1.
Proof.
  intros (Hc & _ & _). rewrite (chain_prev h _ _ (length l1) (o.1 + off) Hc).
  - unfold last_node. destruct l1 as [|o' l1 _] using rev_ind; [done|].
    rewrite last_snoc, length_app, Nat.add_1_r, lookup_cons, !fmap_app.
    rewrite lookup_app_l by (rewrite length_app, length_fmap; cbn; lia).
    rewrite lookup_app_r by (rewrite length_fmap; lia).
    by rewrite length_fmap, Nat.sub_diag.
  - rewrite fmap_app, <- app_assoc, lookup_app_r by (rewrite length_fmap; lia).
    by rewrite length_fmap, Nat.sub_diag.
Qed.

Lemma holds_prev_head off h extra l s :
  holds off h extra l s -> list_prev h (links s) = last_node off h l.
Proof.
  intros (Hc & _ & _). rewrite (chain_prev h _ _ (length l) h Hc).
  - unfold last_node. destruct l as [|o l _] using rev_ind; [done|].
    rewrite last_snoc, length_app, Nat.add_1_r, lookup_cons, fmap_app.
    rewrite lookup_app_r by (rewrite length_fmap; lia). by rewrite length_fmap, Nat.sub_diag.
  - rewrite lookup_app_r by (rewrite length_fmap; lia). by rewrite length_fmap, Nat.sub_diag.
Qed.

(** Moving an object between the list and the unlinked ones changes neither
    the heap nor the absence of duplicates. *)
Lemma heap_perm (l l' : list (Z * V)) :
  NoDup l.*1 -> l ≡ₚ l' -> NoDup l'.*1 /\ (list_to_map l : gmap Z V) = list_to_map l'.
Proof.
  intros Hnd Hp. split; [by rewrite <- Hp|]. by apply list_to_map_proper.
Qed.

Lemma holds_perm off h extra extra' l s :
  extra ≡ₚ extra' -> holds off h extra l s -> holds off h extra' l s.
Proof.
  intros Hp (Hc & Hm & Hnd). destruct (heap_perm _ (extra' ++ l) Hnd) as [Hnd' E].
  { by rewrite Hp. }
  split; [done|]. split; [by rewrite <- E|done].
Qed.

(** ** The operations on a represented list *)

Lemma touch_head off h K s t : touch off h h K s t = Done () s t.
Proof. unfold touch. by rewrite decide_True. Qed.

Lemma touch_obj off h (o : Z * V) K s t :
  is_Some (cells s !! o.1) -> touch off h (o.1 + off) K s t = Done () s t.
Proof.
  intros [v Hv]. unfold touch, list_entry. case_decide; [done|].
  replace (o.1 + off - off) with (o.1) by lia.
  unfold obj_load. erewrite run_bind; [|eapply zoom_eq, load_eq, Hv]. by destruct s.
Qed.

Lemma touch_first off h extra l K s t :
  holds off h extra l s -> touch off h (first_node off h l) K s t = Done () s t.
Proof.
  intros Hh. destruct l as [|[p v] l]; [apply touch_head|].
  apply touch_obj. exists v. eapply holds_lookup; [done|]. by left.
Qed.

Lemma touch_last off h extra l1 l2 K s t :
  holds off h extra (l1 ++ l2) s -> touch off h (last_node off h l1) K s t = Done () s t.
Proof.
  intros Hh. unfold last_node. destruct (last l1) as [[p v]|] eqn:E; [|apply touch_head].
  apply touch_obj. exists v. eapply holds_lookup; [done|]. apply elem_of_app. left.
  apply last_Some in E as [l1' ->]. apply elem_of_app. right. by left.
Qed.

Lemma first_node_next off h extra l1 o l2 K s t :
  holds off h extra (l1 ++ o :: l2) s ->
  node_next off h (o.1 + off) K s t = Done (first_node off h l2) s t.
Proof.
  intros Hh. unfold node_next. erewrite run_bind.
  2: { apply touch_obj. destruct o as [p v]. exists v. eapply holds_lookup; [done|].
    apply elem_of_app. right. by left. }
  unfold gets. by rewrite (holds_next off h extra l1 o l2).
Qed.

Lemma head_next off h extra l K s t :
  holds off h extra l s -> node_next off h h K s t = Done (first_node off h l) s t.
Proof.
  intros Hh. unfold node_next. rewrite (run_bind _ _ _ _ _ _ _ _ (touch_head off h K s t)).
  unfold gets. by rewrite (holds_next_head off h extra l).
Qed.

Lemma init_holds off h (l0 : L) :
  holds off h [] [] (LState ∅ (INIT_LIST_HEAD h l0)).
Proof. split; [apply chain_init|]. split; [done|]. apply NoDup_nil_2. Qed.

Lemma list_add_spec off h (o : Z * V) extra l K s t :
  holds off h (o :: extra) l s -> o.1 + off <> h ->
  exists s', list_add off (o.1 + off) h K s t = Done () s' t /\
    holds off h extra (o :: l) s' /\ cells s' = cells s.
Proof.
  intros Hh Hne. pose proof Hh as (Hc & Hm & Hnd).
  exists (set_links (list_insert (o.1 + off) h) s). split; [|split; [|done]].
  - unfold list_add. erewrite run_bind.
    2: { apply touch_obj. destruct o as [p v]. exists v.
      eapply holds_lookup_extra; [done|]. by left. }
    erewrite run_bind by reflexivity. rewrite (holds_next_head off h (o :: extra) l) by done.
    by rewrite (run_bind _ _ _ _ _ _ _ _ (touch_first off h _ l K s t Hh)).
  - split.
    + cbn. apply chain_insert; [done|]. apply not_elem_of_cons. split; [done|].
      intros (o' & E & Hin)%list_elem_of_fmap. cbn in Hnd. apply NoDup_cons in Hnd as [Hnd _].
      apply Hnd. apply list_elem_of_fmap. exists o'. split; [lia|]. apply elem_of_app. by right.
    + cbn [cells set_links]. rewrite Hm.
      destruct (heap_perm _ (extra ++ o :: l) Hnd) as [Hnd' E]; [|done].
      by rewrite <- Permutation_middle.
Qed.

Lemma list_del_spec off h extra l1 o l2 K s t :
  holds off h extra (l1 ++ o :: l2) s ->
  exists s', list_del off h (o.1 + off) K s t = Done () s' t /\
    holds off h (o :: extra) (l1 ++ l2) s' /\ cells s' = cells s.
Proof.
  intros Hh. pose proof Hh as (Hc & Hm & Hnd).
  exists (set_links (list_remove (o.1 + off)) s). split; [|split; [|done]].
  - unfold list_del. erewrite run_bind.
    2: { apply touch_obj. destruct o as [p v]. exists v. eapply holds_lookup; [done|].
      apply elem_of_app. right. by left. }
    erewrite run_bind by reflexivity. rewrite (holds_prev off h extra l1 o l2) by done.
    erewrite run_bind by reflexivity. rewrite (holds_next off h extra l1 o l2) by done.
    rewrite (run_bind _ _ _ _ _ _ _ _ (touch_last off h extra l1 (o :: l2) K s t Hh)).
    erewrite run_bind; [done|]. destruct l2 as [|[p v] l2]; [apply touch_head|].
    apply touch_obj. exists v. eapply holds_lookup; [done|].
    apply elem_of_app. right. right. by left.
  - split; [|cbn [cells set_links]; rewrite Hm].
    + cbn. rewrite fmap_app. apply chain_remove. by rewrite fmap_app in Hc.
    + destruct (heap_perm _ ((o :: extra) ++ l1 ++ l2) Hnd) as [Hnd' E]; [|done].
      rewrite app_assoc, <- Permutation_middle, <- app_assoc. done.
Qed.

Lemma kfree_obj_spec off h p v extra l K s t :
  holds off h ((p, v) :: extra) l s -> p <> NULL ->
  exists s', kfree_obj p K s t = Done () s' ((kfree p, 0) :: t) /\ holds off h extra l s'.
Proof.
  intros Hh Hp. pose proof Hh as (Hc & Hm & Hnd).
  exists (LState (delete p (cells s)) (links s)). split.
  - unfold kfree_obj. rewrite decide_False by done.
    assert (Hv : cells s !! p = Some v) by (eapply holds_lookup_extra; [done|by left]).
    erewrite run_bind; [done|]. cbn. by rewrite Hv.
  - cbn in Hnd. apply NoDup_cons in Hnd as [Hp' Hnd]. split; [done|]. split; [|done].
    cbn. rewrite Hm. cbn. apply delete_insert_id. by apply not_elem_of_list_to_map_1.
Qed.

Lemma obj_load_eq p v K s t :
  cells s !! p = Some v -> obj_load p K s t = Done v s t.
Proof. intros Hv. unfold obj_load. erewrite zoom_eq by by apply load_eq. by destruct s. Qed.

Lemma obj_update_list off h extra l1 p v l2 f K s t :
  holds off h extra (l1 ++ (p, v) :: l2) s ->
  exists s', obj_update p f K s t = Done () s' t /\ holds off h extra (l1 ++ (p, f v) :: l2) s'.
Proof.
  intros Hh. pose proof Hh as (Hc & Hm & Hnd).
  eexists. split.
  - unfold obj_update. eapply zoom_eq, update_eq. eapply holds_lookup; [done|].
    apply elem_of_app. right. by left.
  - destruct (heap_perm _ ((p, v) :: extra ++ l1 ++ l2) Hnd) as [Hnd1 E1].
    { by rewrite <- Permutation_middle, <- Permutation_middle. }
    split; [by rewrite fmap_app in *|]. cbn in *.
    destruct (heap_perm ((p, f v) :: extra ++ l1 ++ l2) (extra ++ l1 ++ (p, f v) :: l2)) as [Hnd2 E2].
    { by cbn. }
    { by rewrite <- Permutation_middle, <- Permutation_middle. }
    split; [|done]. rewrite Hm, E1, <- E2. cbn. by rewrite insert_insert_eq.
Qed.

Lemma obj_update_extra off h p v extra l f K s t :
  holds off h ((p, v) :: extra) l s ->
  exists s', obj_update p f K s t = Done () s' t /\ holds off h ((p, f v) :: extra) l s'.
Proof.
  intros Hh. pose proof Hh as (Hc & Hm & Hnd).
  eexists. split.
  - unfold obj_update. eapply zoom_eq, update_eq. eapply holds_lookup_extra; [done|]. by left.
  - split; [done|]. split; [|done]. cbn. rewrite Hm. cbn. by rewrite insert_insert_eq.
Qed.

(** [kmalloc_obj] under the hypothesis that the allocator returns memory that
    is not in use (and is no list head). *)
Lemma kmalloc_obj_spec off h size flags garbage v extra l K s t :
  let p := K t (kmalloc size flags) in
  let t1 := (kmalloc size flags, p) :: t in
  holds off h extra l s -> p <> NULL -> p ∉ (extra ++ l).*1 ->
  (exists t2, garbage p K s t1 = Done v s t2) ->
  exists s', kmalloc_obj size flags garbage K s t =
      Done p s' (history (garbage p K s t1)) /\
    holds off h ((p, v) :: extra) l s'.
Proof.
  intros p t1 Hh Hp Hfresh [t2 Hg]. pose proof Hh as (Hc & Hm & Hnd).
  exists (LState (<[p := v]> (cells s)) (links s)). split.
  - unfold kmalloc_obj. erewrite run_bind by reflexivity. fold p. rewrite decide_False by done.
    fold t1. erewrite run_bind by exact Hg. by rewrite Hg.
  - split; [done|]. cbn. rewrite Hm. split; [done|]. by apply NoDup_cons.
Qed.

(** ** Iteration *)

Section loops.
Context {R : Type} (off h : Z) (extra : list (Z * V)) (K : oracle).
Context (body : Z -> M (lstate L V) (option R)).

(** The body of a safe loop may unlink and free the current entry, update it
    in place, or return.  [I kept todo t] is the loop invariant. *)
Lemma wp_for_each_safe_from (I : list (Z * V) -> list (Z * V) -> trace -> Prop)
    (Qr : R -> lstate L V -> trace -> Prop) :
  (forall l1 o l2 s t,
     holds off h extra (l1 ++ o :: l2) s -> I l1 (o :: l2) t ->
     wp (body (o.1 + off)) K s t (fun r s' t' =>
       match r with
       | Some x => Qr x s' t'
       | None => exists l1', holds off h extra (l1' ++ l2) s' /\ I l1' l2 t'
       end)) ->
  forall l2 l1 n s t,
  holds off h extra (l1 ++ l2) s -> I l1 l2 t -> (length l2 <= n)%nat ->
  wp (for_each_safe_from n off h (first_node off h l2) body) K s t (fun r s' t' =>
    match r with
    | Some x => Qr x s' t'
    | None => exists l', holds off h extra l' s' /\ I l' [] t'
    end).
Proof.
  intros Hbody l2. induction l2 as [|o l2 IH]; intros l1 n s t Hh HI Hn.
  { destruct n; cbn; rewrite decide_True by done; rewrite wp_ret;
      exists l1; by rewrite app_nil_r in Hh. }
  destruct n as [|n]; cbn [length] in Hn; [lia|]. cbn [for_each_safe_from first_node].
  rewrite decide_False.
  2: { apply (holds_not_head off h extra (l1 ++ o :: l2) s); [done|]. apply elem_of_app. right. by left. }
  unfold wp. rewrite (run_bind _ _ _ _ _ _ _ _ (first_node_next off h extra l1 o l2 K s t Hh)).
  fold (wp (r ← body (o.1 + off);
    match r with Some r => mret (Some r)
    | None => for_each_safe_from n off h (first_node off h l2) body end) K s t
    (fun r s' t' => match r with Some x => Qr x s' t'
     | None => exists l', holds off h extra l' s' /\ I l' [] t' end)).
  rewrite wp_bind. eapply wp_mono; [by apply (Hbody l1 o l2)|].
  intros [x|] s' t'; cbn; [done|]. intros (l1' & Hh' & HI'). apply IH with l1'; [done..|lia].
Qed.

Lemma wp_list_for_each_safe (I : list (Z * V) -> list (Z * V) -> trace -> Prop)
    (Qr : R -> lstate L V -> trace -> Prop) l s t :
  holds off h extra l s -> I [] l t ->
  (forall l1 o l2 s t,
     holds off h extra (l1 ++ o :: l2) s -> I l1 (o :: l2) t ->
     wp (body (o.1 + off)) K s t (fun r s' t' =>
       match r with
       | Some x => Qr x s' t'
       | None => exists l1', holds off h extra (l1' ++ l2) s' /\ I l1' l2 t'
       end)) ->
  wp (list_for_each_safe off h body) K s t (fun r s' t' =>
    match r with
    | Some x => Qr x s' t'
    | None => exists l', holds off h extra l' s' /\ I l' [] t'
    end).
Proof.
  intros Hh HI Hbody. unfold list_for_each_safe. rewrite wp_bind, wp_gets.
  unfold wp. rewrite (run_bind _ _ _ _ _ _ _ _ (head_next off h extra l K s t Hh)).
  apply (wp_for_each_safe_from I Qr Hbody l [] _ s t); [done..|].
  rewrite (holds_size off h extra l s Hh). lia.
Qed.

(** The body of an ordinary loop may update the current entry or return. *)
Lemma wp_for_each_from (I : list (Z * V) -> list (Z * V) -> trace -> Prop)
    (Qr : R -> lstate L V -> trace -> Prop) :
  (forall l1 o l2 s t,
     holds off h extra (l1 ++ o :: l2) s -> I l1 (o :: l2) t ->
     wp (body (o.1 + off)) K s t (fun r s' t' =>
       match r with
       | Some x => Qr x s' t'
       | None => exists v, holds off h extra (l1 ++ (o.1, v) :: l2) s' /\ I (l1 ++ [(o.1, v)]) l2 t'
       end)) ->
  forall l2 l1 n s t,
  holds off h extra (l1 ++ l2) s -> I l1 l2 t -> (length l2 <= n)%nat ->
  wp (for_each_from n off h (first_node off h l2) body) K s t (fun r s' t' =>
    match r with
    | Some x => Qr x s' t'
    | None => exists l', holds off h extra l' s' /\ I l' [] t'
    end).
Proof.
  intros Hbody l2. induction l2 as [|o l2 IH]; intros l1 n s t Hh HI Hn.
  { destruct n; cbn; rewrite decide_True by done; rewrite wp_ret;
      exists l1; by rewrite app_nil_r in Hh. }
  destruct n as [|n]; cbn [length] in Hn; [lia|]. cbn [for_each_from first_node].
  rewrite decide_False.
  2: { apply (holds_not_head off h extra (l1 ++ o :: l2) s); [done|]. apply elem_of_app. right. by left. }
  rewrite wp_bind. eapply wp_mono; [by apply (Hbody l1 o l2)|].
  intros [x|] s' t'; cbn; [done|]. intros (v & Hh' & HI').
  unfold wp. rewrite (run_bind _ _ _ _ _ _ _ _ (first_node_next off h extra l1 (o.1, v) l2 K s' t' Hh')).
  apply (IH (l1 ++ [(o.1, v)])); [by rewrite <- app_assoc|done|lia].
Qed.

Lemma wp_list_for_each (I : list (Z * V) -> list (Z * V) -> trace -> Prop)
    (Qr : R -> lstate L V -> trace -> Prop) l s t :
  holds off h extra l s -> I [] l t ->
  (forall l1 o l2 s t,
     holds off h extra (l1 ++ o :: l2) s -> I l1 (o :: l2) t ->
     wp (body (o.1 + off)) K s t (fun r s' t' =>
       match r with
       | Some x => Qr x s' t'
       | None => exists v, holds off h extra (l1 ++ (o.1, v) :: l2) s' /\ I (l1 ++ [(o.1, v)]) l2 t'
       end)) ->
  wp (list_for_each off h body) K s t (fun r s' t' =>
    match r with
    | Some x => Qr x s' t'
    | None => exists l', holds off h extra l' s' /\ I l' [] t'
    end).
Proof.
  intros Hh HI Hbody. unfold list_for_each. rewrite wp_bind, wp_gets.
  unfold wp. rewrite (run_bind _ _ _ _ _ _ _ _ (head_next off h extra l K s t Hh)).
  apply (wp_for_each_from I Qr Hbody l [] _ s t); [done..|].
  rewrite (holds_size off h extra l s Hh). lia.
Qed.

End loops.
End holds.

(** ** The invariant of a list module

    The list and its heap are represented, every object is known to the
    allocator, and nothing else is held but [h0]. *)

(** The documented contract of [kmalloc]: memory that is not in use, and no
    static list head. *)
Class HeapLaws (K : oracle) (off h : Z) : Prop := {
  kmalloc_fresh t n f : K t (kmalloc n f) <> NULL -> Rmem (K t (kmalloc n f)) ∉ held t;
  kmalloc_not_head t n f : K t (kmalloc n f) <> NULL -> K t (kmalloc n f) + off <> h
}.

Arguments holds {L V} chain _ _ _ _ _.

Section inv.
Context {L V : Type} `{LL : ListLaws L chain} (off h : Z).
Implicit Types (s : lstate L V) (l extra : list (Z * V)) (K : oracle) (t : trace).

Definition account (h0 : list resource) (l : list (Z * V)) t : Prop :=
  held t ≡ₚ (Rmem <$> l.*1) ++ h0.

Record heap_inv (h0 : list resource) (extra l : list (Z * V)) s t : Prop := {
  inv_holds : holds chain off h extra l s;
  inv_account : account h0 (extra ++ l) t;
  inv_disciplined : disciplined t = true;
  inv_nodes : Forall (fun o => o.1 <> NULL /\ o.1 + off <> h) (extra ++ l)
}.

Lemma account_atomic h0 l t :
  account h0 l t -> existsb is_atomic (held t) = existsb is_atomic h0.
Proof.
  unfold account. intros Hp. rewrite (existsb_perm _ _ Hp), existsb_app.
  assert (existsb is_atomic (Rmem <$> l.*1) = false) as ->; [|done].
  clear Hp. by induction l.
Qed.

Lemma account_preemptible h0 l t :
  account h0 l t -> existsb is_atomic h0 = false -> preemptible t = true.
Proof. unfold preemptible. intros Ha H0. by rewrite (account_atomic h0 l), H0. Qed.

(** Events that change nothing. *)
Lemma inv_quiet h0 extra l s t e :
  quiet e = true -> heap_inv h0 extra l s t -> heap_inv h0 extra l s (e :: t).
Proof.
  intros Hq [? ? ? ?]. split; [done| | |done].
  - unfold account. by rewrite quiet_held.
  - by rewrite quiet_disciplined.
Qed.

(** What is held besides the memory is a multiset. *)
Lemma inv_rest_perm h0 h1 extra l s t :
  h0 ≡ₚ h1 -> heap_inv h0 extra l s t -> heap_inv h1 extra l s t.
Proof. intros Hp [? Ha ? ?]. split; [done| |done..]. unfold account in *. by rewrite <- Hp. Qed.

(** Acquiring and releasing anything else. *)
Lemma inv_acquire h0 extra l s t e r :
  releases e = None -> acquires e = Some r -> event_ok (held t) e = true ->
  heap_inv h0 extra l s t -> heap_inv (r :: h0) extra l s (e :: t).
Proof.
  intros E1 E2 E3 [? Ha Hd ?]. split; [done| | |done].
  - unfold account in *. by rewrite (held_acquire e r), Ha, Permutation_middle.
  - by rewrite disciplined_cons, Hd, E3.
Qed.

Lemma inv_release h0 extra l s t e r :
  releases e = Some r -> heap_inv (r :: h0) extra l s t -> heap_inv h0 extra l s (e :: t).
Proof.
  intros E1 [? Ha Hd ?]. split; [done| | |done].
  - unfold account in *. rewrite (held_release e r) by done. apply drop_one_perm_cons.
    by rewrite Ha, <- Permutation_middle.
  - rewrite disciplined_cons, Hd. unfold event_ok. rewrite E1. cbn.
    apply bool_decide_eq_true. unfold account in Ha. rewrite Ha. apply elem_of_app. right. by left.
Qed.

(** A call that may block, in process context. *)
Lemma inv_blocking h0 extra l s t e :
  releases e = None -> acquires e = None -> free_context h0 ->
  heap_inv h0 extra l s t -> heap_inv h0 extra l s (e :: t).
Proof.
  intros E1 E2 H0 [? Ha Hd ?]. split; [done| | |done].
  - unfold account in *. by rewrite held_skip.
  - rewrite disciplined_cons, Hd. cbn. apply blocking_ok; [done..|].
    by eapply account_preemptible.
Qed.

(** Taking and giving back a lock. *)
Lemma inv_lock h0 extra l s t e lk :
  releases e = None -> acquires e = Some (Rlock lk) -> may_sleep (fst e) = false ->
  existsb is_atomic h0 = false ->
  heap_inv h0 extra l s t -> heap_inv (Rlock lk :: h0) extra l s (e :: t).
Proof.
  intros E1 E2 E3 H0 [? Ha ? ?]. split; [done| | |done].
  - unfold account in *. by rewrite (held_acquire e (Rlock lk)), Ha, Permutation_middle.
  - rewrite disciplined_cons, inv_disciplined0. cbn. eapply lock_ok; [done..|].
    by eapply account_preemptible.
Qed.

Lemma inv_read_lock h0 extra l s t lk :
  existsb is_atomic h0 = false ->
  heap_inv h0 extra l s t -> heap_inv (Rrlock lk :: h0) extra l s ((read_lock lk, 0) :: t).
Proof.
  intros H0 [? Ha Hd ?]. split; [done| | |done].
  - unfold account in *. cbn. by rewrite Ha, Permutation_middle.
  - rewrite disciplined_cons, Hd. cbn. apply bool_decide_eq_true, preemptible_lock.
    apply Is_true_true. by eapply account_preemptible.
Qed.

Lemma inv_unlock h0 extra l s t e r :
  releases e = Some r -> is_atomic r = true ->
  heap_inv (r :: h0) extra l s t -> heap_inv h0 extra l s (e :: t).
Proof. intros E1 _. by apply inv_release. Qed.

(** Linking and unlinking. *)
Lemma inv_init_node h0 o extra l K s t :
  heap_inv h0 (o :: extra) l s t ->
  exists s', init_node off h (o.1 + off) K s t = Done () s' t /\
    heap_inv h0 (o :: extra) l s' t.
Proof.
  intros [Hh Ha Hd Hn]. pose proof Hh as (Hc & Hm & Hnd).
  pose proof Hn as [[_ Hne] _]%Forall_cons.
  eexists. split.
  - unfold init_node. erewrite run_bind; [done|]. apply touch_obj.
    destruct o as [p v]. exists v. eapply holds_lookup_extra; [done|]. by left.
  - split; [|done..]. split; [|done]. cbn. apply chain_init_other; [done|].
    apply not_elem_of_cons. split; [done|]. intros (o' & E & Hin)%list_elem_of_fmap.
    cbn in Hnd. apply NoDup_cons in Hnd as [Hnd _]. apply Hnd. apply list_elem_of_fmap.
    exists o'. split; [lia|]. apply elem_of_app. by right.
Qed.

Lemma inv_list_add h0 o extra l K s t :
  heap_inv h0 (o :: extra) l s t ->
  exists s', list_add off (o.1 + off) h K s t = Done () s' t /\
    heap_inv h0 extra (o :: l) s' t /\ cells s' = cells s.
Proof.
  intros [Hh Ha Hd Hn]. pose proof Hn as [[? Hne] _]%Forall_cons.
  destruct (list_add_spec off h o extra l K s t Hh Hne) as (s' & E & Hh' & Hc).
  exists s'. split; [done|]. split; [|done]. split; [done| |done|].
  - unfold account in *. by rewrite <- Permutation_middle.
  - by rewrite <- Permutation_middle.
Qed.

Lemma inv_list_del h0 extra l1 o l2 K s t :
  heap_inv h0 extra (l1 ++ o :: l2) s t ->
  exists s', list_del off h (o.1 + off) K s t = Done () s' t /\
    heap_inv h0 (o :: extra) (l1 ++ l2) s' t /\ cells s' = cells s.
Proof.
  intros [Hh Ha Hd Hn].
  destruct (list_del_spec off h extra l1 o l2 K s t Hh) as (s' & E & Hh' & Hc).
  assert (Hp : (o :: extra) ++ l1 ++ l2 ≡ₚ extra ++ l1 ++ o :: l2).
  { cbn. by rewrite <- Permutation_middle, <- Permutation_middle. }
  exists s'. split; [done|]. split; [|done]. split; [done| |done|].
  - unfold account in *. by rewrite Hp.
  - by rewrite Hp.
Qed.

(** Allocation and release of an object. *)
Lemma inv_kfree h0 p v extra l K s t :
  heap_inv h0 ((p, v) :: extra) l s t ->
  exists s', kfree_obj p K s t = Done () s' ((kfree p, 0) :: t) /\
    heap_inv h0 extra l s' ((kfree p, 0) :: t).
Proof.
  intros [Hh Ha Hd Hn]. pose proof Hn as [[Hp _] Hn']%Forall_cons. cbn in Hp.
  destruct (kfree_obj_spec off h p v extra l K s t Hh Hp) as (s' & E & Hh').
  assert (Er : releases (kfree p, 0) = Some (Rmem p)).
  { cbn. apply Z.eqb_neq in Hp. unfold NULL in Hp. by rewrite Hp. }
  exists s'. split; [done|]. split; [done| | |done].
  - unfold account in *. rewrite (held_release _ (Rmem p)) by done. by apply drop_one_perm_cons.
  - rewrite disciplined_cons, Hd. unfold event_ok. rewrite Er. cbn.
    apply bool_decide_eq_true. unfold account in Ha. rewrite Ha. by left.
Qed.

Lemma inv_kmalloc h0 extra l K `{HK : !HeapLaws K off h} size flags garbage v s t t2 :
  let p := K t (kmalloc size flags) in
  let t1 := (kmalloc size flags, p) :: t in
  heap_inv h0 extra l s t -> p <> NULL ->
  flags = GFP_ATOMIC \/ existsb is_atomic h0 = false ->
  garbage p K s t1 = Done v s t2 -> held t2 = held t1 -> disciplined t2 = disciplined t1 ->
  exists s', kmalloc_obj size flags garbage K s t = Done p s' t2 /\
    heap_inv h0 ((p, v) :: extra) l s' t2.
Proof.
  intros p t1 [Hh Ha Hd Hn] Hp Hfl Hg Ht2 Hd2.
  assert (Hfresh : p ∉ (extra ++ l).*1).
  { intros Hin. apply (kmalloc_fresh (K := K) t size flags Hp). unfold account in Ha.
    rewrite Ha. apply elem_of_app. left. by apply list_elem_of_fmap_2. }
  destruct (kmalloc_obj_spec off h size flags garbage v extra l K s t Hh Hp Hfresh) as (s' & E & Hh').
  { eauto. }
  fold p t1 in E. rewrite Hg in E. exists s'. split; [done|].
  assert (Eq : acquires (kmalloc size flags, p) = Some (Rmem p)).
  { cbn. apply Z.eqb_neq in Hp. unfold NULL in Hp. by rewrite Hp. }
  split; [done| | |].
  - unfold account in *. rewrite Ht2. subst t1. rewrite (held_acquire _ (Rmem p)) by done.
    cbn. by rewrite Ha.
  - rewrite Hd2. subst t1. rewrite disciplined_cons, Hd. unfold event_ok. rewrite Eq.
    cbn. rewrite andb_true_r, (account_atomic h0 _ t Ha).
    destruct Hfl as [->| ->]; [done|by rewrite andb_false_r].
  - cbn. apply Forall_cons. split; [|done]. split; [done|]. by apply (kmalloc_not_head (K := K)).
Qed.

Lemma inv_kmalloc_fails h0 extra l K size flags garbage s t :
  K t (kmalloc size flags) = NULL -> heap_inv h0 extra l s t ->
  flags = GFP_ATOMIC \/ existsb is_atomic h0 = false ->
  kmalloc_obj size flags garbage K s t = Done NULL s ((kmalloc size flags, NULL) :: t) /\
  heap_inv h0 extra l s ((kmalloc size flags, NULL) :: t).
Proof.
  intros E [Hh Ha Hd Hn] Hfl. split.
  { unfold kmalloc_obj. erewrite run_bind by reflexivity. by rewrite E. }
  split; [done..| |done]. rewrite disciplined_cons, Hd. cbn.
  rewrite andb_true_r, (account_atomic h0 _ t Ha).
  destruct Hfl as [->| ->]; [done|by rewrite andb_false_r].
Qed.

(** A computation that reads what the allocator left behind. *)
Definition silent {S A} (m : M S A) : Prop := forall K (s : S) t, exists a t',
  m K s t = Done a s t' /\
  held t' = held t /\ disciplined t' = disciplined t /\ readings t' = readings t /\
  allocations t' = allocations t.

Lemma wp_kmalloc h0 extra l K `{HK : !HeapLaws K off h} size flags garbage s t :
  heap_inv h0 extra l s t -> flags = GFP_ATOMIC \/ free_context h0 ->
  (forall p, silent (garbage p)) ->
  wp (kmalloc_obj size flags garbage) K s t (fun p s' t' =>
    p = K t (kmalloc size flags) /\ readings t' = readings t /\
    allocations t' = allocations t ++ [p] /\
    if decide (p = NULL) then s' = s /\ heap_inv h0 extra l s t' /\ t' = (kmalloc size flags, NULL) :: t
    else exists v, heap_inv h0 ((p, v) :: extra) l s' t').
Proof.
  intros Hi Hfl Hg. unfold wp. destruct (decide (K t (kmalloc size flags) = NULL)) as [E|E].
  - destruct (inv_kmalloc_fails _ _ _ _ _ _ garbage _ _ E Hi Hfl) as [-> Hi'].
    by rewrite E, decide_True.
  - destruct (Hg (K t (kmalloc size flags)) K s ((kmalloc size flags, K t (kmalloc size flags)) :: t))
      as (v & t2 & Eg & Hh & Hd & Hr & Hal).
    destruct (inv_kmalloc _ _ _ K size flags garbage v s t t2 Hi E Hfl Eg Hh Hd) as (s' & -> & Hi').
    rewrite decide_False by done. split_and!; [done..|by exists v].
Qed.

(** In-place updates. *)
Lemma inv_update_list h0 extra l1 p v l2 f K s t :
  heap_inv h0 extra (l1 ++ (p, v) :: l2) s t ->
  exists s', obj_update p f K s t = Done () s' t /\
    heap_inv h0 extra (l1 ++ (p, f v) :: l2) s' t.
Proof.
  intros [Hh Ha Hd Hn].
  destruct (obj_update_list off h extra l1 p v l2 f K s t Hh) as (s' & E & Hh').
  exists s'. split; [done|]. split; [done| |done|].
  - unfold account in *. by rewrite !fmap_app in *.
  - rewrite !Forall_app, !Forall_cons in *. cbn in *. tauto.
Qed.

Lemma inv_update_extra h0 p v extra l f K s t :
  heap_inv h0 ((p, v) :: extra) l s t ->
  exists s', obj_update p f K s t = Done () s' t /\
    heap_inv h0 ((p, f v) :: extra) l s' t.
Proof.
  intros [Hh Ha Hd Hn].
  destruct (obj_update_extra off h p v extra l f K s t Hh) as (s' & E & Hh').
  exists s'. split; [done|]. split; [done|done|done|].
  cbn in *. rewrite Forall_cons in *. done.
Qed.

Lemma inv_load_list h0 extra l p v K s t :
  heap_inv h0 extra l s t -> (p, v) ∈ l -> obj_load p K s t = Done v s t.
Proof. intros [Hh _ _ _] Hin. apply obj_load_eq. by eapply holds_lookup. Qed.

Lemma inv_cells h0 extra l s t p v :
  heap_inv h0 extra l s t -> (p, v) ∈ l -> cells s !! p = Some v.
Proof. intros [Hh _ _ _] Hin. by eapply holds_lookup. Qed.

Lemma inv_null h0 extra l s t : heap_inv h0 extra l s t -> cells s !! NULL = None.
Proof.
  intros [(_ & -> & _) _ _ Hn]. apply not_elem_of_list_to_map_1.
  intros (o & E & Hin)%list_elem_of_fmap. rewrite Forall_forall in Hn.
  by apply Hn in Hin as [? _].
Qed.

Lemma inv_nodup h0 extra l s t : heap_inv h0 extra l s t -> NoDup l.*1.
Proof.
  intros [(_ & _ & Hnd) _ _ _]. rewrite fmap_app in Hnd. by apply NoDup_app in Hnd as (_ & _ & ?).
Qed.

Lemma inv_perm h0 extra extra' l s t :
  extra ≡ₚ extra' -> heap_inv h0 extra l s t -> heap_inv h0 extra' l s t.
Proof.
  intros Hp [? Ha ? Hn]. split; [by eapply holds_perm| |done|].
  - unfold account in *. by rewrite <- Hp.
  - by rewrite <- Hp.
Qed.

(** An unlinked object can be brought to the front. *)
Lemma inv_front h0 extra l s t p :
  p ∈ extra.*1 -> heap_inv h0 extra l s t ->
  exists v extra', extra ≡ₚ (p, v) :: extra' /\ heap_inv h0 ((p, v) :: extra') l s t.
Proof.
  intros Hin Hi. apply list_elem_of_fmap in Hin as ([p' v] & -> & Hin). cbn in *.
  apply elem_of_Permutation in Hin as [extra' Hp]. exists v, extra'. split; [done|].
  by eapply inv_perm.
Qed.

(** The invariant of the loops: the part of [heap_inv] on the history. *)
Definition loop_inv (hf : list (Z * V) -> list resource) extra (I : list (Z * V) -> list (Z * V) -> trace -> Prop)
    (l1 l2 : list (Z * V)) t : Prop :=
  (account (hf (l1 ++ l2)) (extra ++ l1 ++ l2) t /\ disciplined t = true /\
   Forall (fun o => o.1 <> NULL /\ o.1 + off <> h) (extra ++ l1 ++ l2)) /\ I l1 l2 t.

Lemma loop_inv_split hf extra I l1 l2 s t :
  holds chain off h extra (l1 ++ l2) s -> loop_inv hf extra I l1 l2 t ->
  heap_inv (hf (l1 ++ l2)) extra (l1 ++ l2) s t /\ I l1 l2 t.
Proof. intros Hh ((? & ? & ?) & HI). done. Qed.

Lemma loop_inv_join hf extra (I : list (Z * V) -> list (Z * V) -> trace -> Prop) l1 l2 s t :
  heap_inv (hf (l1 ++ l2)) extra (l1 ++ l2) s t -> I l1 l2 t ->
  holds chain off h extra (l1 ++ l2) s /\ loop_inv hf extra I l1 l2 t.
Proof. intros [? ? ? ?] HI. done. Qed.

Section loop_rules.
Context {R : Type} (K : oracle) (h0 : list resource) (extra : list (Z * V)).
Context (body : Z -> M (lstate L V) (option R)).
Context (I : list (Z * V) -> list (Z * V) -> trace -> Prop).
Context (Qr : R -> lstate L V -> trace -> Prop).

(** What is held besides the memory may depend on the list. *)
Lemma inv_for_each_safe (hf : list (Z * V) -> list resource) l s t :
  heap_inv (hf l) extra l s t -> I [] l t ->
  (forall l1 o l2 s t,
     heap_inv (hf (l1 ++ o :: l2)) extra (l1 ++ o :: l2) s t -> I l1 (o :: l2) t ->
     wp (body (o.1 + off)) K s t (fun r s' t' =>
       match r with
       | Some x => Qr x s' t'
       | None => exists l1', heap_inv (hf (l1' ++ l2)) extra (l1' ++ l2) s' t' /\ I l1' l2 t'
       end)) ->
  wp (list_for_each_safe off h body) K s t (fun r s' t' =>
    match r with
    | Some x => Qr x s' t'
    | None => exists l', heap_inv (hf l') extra l' s' t' /\ I l' [] t'
    end).
Proof.
  intros Hinv HI Hbody. destruct (loop_inv_join hf _ I [] l s t Hinv HI) as [Hh HL].
  eapply wp_mono; [eapply (wp_list_for_each_safe off h extra K body (loop_inv hf extra I) Qr l s t Hh HL)|].
  - intros l1 o l2 s1 t1 Hh1 HL1. destruct (loop_inv_split _ _ _ _ _ _ _ Hh1 HL1) as [Hi1 HI1].
    eapply wp_mono; [by apply (Hbody l1 o l2)|]. intros [x|] s2 t2; [done|].
    intros (l1' & Hi2 & HI2). exists l1'. by apply loop_inv_join.
  - intros [x|] s2 t2; [done|]. intros (l' & Hh2 & HL2). exists l'.
    rewrite <- (app_nil_r l') in Hh2.
    destruct (loop_inv_split _ _ _ _ _ _ _ Hh2 HL2) as [Hi2 HI2]. by rewrite app_nil_r in Hi2.
Qed.

Lemma inv_for_each l s t :
  heap_inv h0 extra l s t -> I [] l t ->
  (forall l1 o l2 s t,
     heap_inv h0 extra (l1 ++ o :: l2) s t -> I l1 (o :: l2) t ->
     wp (body (o.1 + off)) K s t (fun r s' t' =>
       match r with
       | Some x => Qr x s' t'
       | None => exists v, heap_inv h0 extra (l1 ++ (o.1, v) :: l2) s' t' /\
           I (l1 ++ [(o.1, v)]) l2 t'
       end)) ->
  wp (list_for_each off h body) K s t (fun r s' t' =>
    match r with
    | Some x => Qr x s' t'
    | None => exists l', heap_inv h0 extra l' s' t' /\ I l' [] t'
    end).
Proof.
  intros Hinv HI Hbody. destruct (loop_inv_join (fun _ => h0) _ I [] l s t Hinv HI) as [Hh HL].
  eapply wp_mono; [eapply (wp_list_for_each off h extra K body (loop_inv (fun _ => h0) extra I) Qr l s t Hh HL)|].
  - intros l1 o l2 s1 t1 Hh1 HL1. destruct (loop_inv_split _ _ _ _ _ _ _ Hh1 HL1) as [Hi1 HI1].
    eapply wp_mono; [by apply (Hbody l1 o l2)|]. intros [x|] s2 t2; [done|].
    intros (v & Hi2 & HI2). exists v.
    rewrite cons_middle, app_assoc in Hi2 |- *. by apply loop_inv_join.
  - intros [x|] s2 t2; [done|]. intros (l' & Hh2 & HL2). exists l'.
    rewrite <- (app_nil_r l') in Hh2.
    destruct (loop_inv_split _ _ _ _ _ _ _ Hh2 HL2) as [Hi2 HI2]. by rewrite app_nil_r in Hi2.
Qed.

(** A loop that only reads the entries visits them in order, in both forms. *)
Definition reads l s : Prop := forall l1 p v l2 t,
  heap_inv h0 extra l s t -> l = l1 ++ (p, v) :: l2 -> I l1 ((p, v) :: l2) t ->
  exists r t', body (p + off) K s t = Done r s t' /\
    match r with
    | Some x => Qr x s t'
    | None => heap_inv h0 extra l s t' /\ I (l1 ++ [(p, v)]) l2 t'
    end.

Definition read_post l s (r : option R) (s' : lstate L V) t' : Prop := s' = s /\
  match r with
  | Some x => Qr x s t'
  | None => heap_inv h0 extra l s t' /\ I l [] t'
  end.

Lemma read_loop l s : reads l s -> forall l2 l1 n t,
  l = l1 ++ l2 -> (length l2 <= n)%nat -> heap_inv h0 extra l s t -> I l1 l2 t ->
  wp (for_each_from n off h (first_node off h l2) body) K s t (read_post l s) /\
  wp (for_each_safe_from n off h (first_node off h l2) body) K s t (read_post l s).
Proof.
  intros Hbody l2. induction l2 as [|[p v] l2 IH]; intros l1 n t El Hn Hi HI.
  { rewrite app_nil_r in El. subst l1. destruct n; cbn; rewrite !decide_True by done; by split. }
  destruct n as [|n]; cbn [length] in Hn; [lia|].
  cbn [for_each_from for_each_safe_from first_node fst].
  pose proof (inv_holds _ _ _ _ _ Hi) as Hh.
  rewrite !decide_False.
  2, 3: apply (holds_not_head off h extra l s (p, v)); [done|]; rewrite El;
    apply elem_of_app; right; by left.
  destruct (Hbody l1 p v l2 t Hi El HI) as (r & t2 & E & HQ). rewrite El in Hh.
  assert (En : forall t3, node_next off h (p + off) K s t3 = Done (first_node off h l2) s t3).
  { intros t3. by apply (first_node_next off h extra l1 (p, v) l2). }
  unfold wp. rewrite (run_bind _ _ _ _ _ _ _ _ E), (run_bind _ _ _ _ _ _ _ _ (En t)).
  rewrite (run_bind _ _ _ _ _ _ _ _ E). destruct r as [x|]; [done|]. destruct HQ as [Hi2 HI2].
  rewrite (run_bind _ _ _ _ _ _ _ _ (En t2)).
  apply (IH (l1 ++ [(p, v)])); [by rewrite <- app_assoc|lia|done|done].
Qed.

Lemma inv_for_each_read l s t :
  heap_inv h0 extra l s t -> I [] l t -> reads l s ->
  wp (list_for_each off h body) K s t (read_post l s).
Proof.
  intros Hinv HI Hbody. pose proof (inv_holds _ _ _ _ _ Hinv) as Hh.
  unfold list_for_each. rewrite wp_bind, wp_gets. unfold wp.
  rewrite (run_bind _ _ _ _ _ _ _ _ (head_next off h extra l K s t Hh)).
  eapply (read_loop l s Hbody l []); [done| |done..]. rewrite (holds_size off h extra l s Hh). lia.
Qed.

Lemma inv_for_each_safe_read l s t :
  heap_inv h0 extra l s t -> I [] l t -> reads l s ->
  wp (list_for_each_safe off h body) K s t (read_post l s).
Proof.
  intros Hinv HI Hbody. pose proof (inv_holds _ _ _ _ _ Hinv) as Hh.
  unfold list_for_each_safe. rewrite wp_bind, wp_gets. unfold wp.
  rewrite (run_bind _ _ _ _ _ _ _ _ (head_next off h extra l K s t Hh)).
  eapply (read_loop l s Hbody l []); [done| |done..]. rewrite (holds_size off h extra l s Hh). lia.
Qed.

End loop_rules.

(** Emptying a list. *)
Lemma inv_purge K h0 extra l s t :
  heap_inv h0 extra l s t ->
  wp (list_for_each_safe (R := unit) off h (fun p =>
        list_del off h p ;; kfree_obj (list_entry off p) ;; mret None)) K s t
    (fun _ s' t' => heap_inv h0 extra [] s' t' /\ exists later, t' = later ++ t).
Proof.
  intros Hi. eapply wp_mono.
  { apply (inv_for_each_safe K extra _ (fun kept _ t' => kept = [] /\ exists later, t' = later ++ t)
      (fun _ _ _ => False) (fun _ => h0) l); [done|by split; [|exists []]|].
    intros l1 [p v] l2 s1 t1 Hi1 [-> [later ->]]. cbn [fst]. rewrite entry_of.
    destruct (inv_list_del _ _ _ _ _ K _ _ Hi1) as (s2 & E2 & Hi2 & _).
    destruct (inv_kfree _ _ _ _ _ K _ _ Hi2) as (s3 & E3 & Hi3).
    cbn in E2. wp_run. wp_by E2. wp_by E3. exists []. split; [done|]. split; [done|].
    by exists ((kfree p, 0) :: later). }
  intros [[]|] s1 t1; [done|]. by intros (l' & Hi1 & -> & Hl).
Qed.
End inv.

(** ** A kernel that satisfies the hypotheses

    Its allocator answers with the first address above everything allocated. *)

Module SampleKernel.

Definition address (r : resource) : Z := match r with Rmem p => p | _ => 0 end.
Definition fresh (t : trace) : Z := 4096 + foldr Z.max 0 (address <$> held t).

Definition kernel : oracle := fun t c =>
  match c with
  | kmalloc _ _ => fresh t
  | read_jiffies => Z.of_nat (length t)
  | current => 7
  | task_parent x => x + 1
  | next_task x => x + 2
  | task_pid x => x
  | _ => 0
  end.

Lemma fresh_above t p : Rmem p ∈ held t -> p < fresh t.
Proof.
  unfold fresh. induction (held t) as [|r h IH]; [by intros ?%elem_of_nil|].
  intros [<-|Hin]%elem_of_cons; cbn; [lia|]. specialize (IH Hin). lia.
Qed.

Lemma fresh_large t : 4096 <= fresh t.
Proof. unfold fresh. induction (held t); cbn; lia. Qed.

Lemma heap_laws off h : 0 <= off -> h < 4096 -> HeapLaws kernel off h.
Proof.
  intros Hoff Hh. split; cbn; intros t n f _.
  - intros Hin%fresh_above. lia.
  - pose proof (fresh_large t). lia.
Qed.

Lemma never_fails : never_fails kernel.
Proof. intros t n f. cbn. pose proof (fresh_large t). unfold NULL. lia. Qed.

Lemma tasks : Tasks kernel 7 (fun x => x + 1) (fun x => x + 2) (swrap 32).
Proof. done. Qed.

End SampleKernel.

(** ** A pointer-level implementation of the interface

    Each node and head is a pair of pointers, next and previous, as in
    linux/list.h; a removed node is poisoned. *)

Module DList.

Abbreviation mem := (gmap Z (Z * Z)).

Definition POISON := 0xdead.

Definition next (n : Z) (l : mem) : Z := fst (l !!! n).
Definition prev (n : Z) (l : mem) : Z := snd (l !!! n).
Definition set_next (n v : Z) (l : mem) : mem := <[n := (v, prev n l)]> l.
Definition set_prev (n v : Z) (l : mem) : mem := <[n := (next n l, v)]> l.

Definition init (h : Z) (l : mem) : mem := <[h := (h, h)]> l.

Definition insert_after (n h : Z) (l : mem) : mem :=
  let first := next h l in
  set_next h n (set_prev n h (set_next n first (set_prev first n l))).

Definition remove (n : Z) (l : mem) : mem :=
  let p := prev n l in
  let q := next n l in
  <[n := (POISON, POISON)]> (set_next p q (set_prev q p l)).

#[global] Instance dlist_ops : ListOps mem := {|
  INIT_LIST_HEAD := init;
  list_insert := insert_after;
  list_remove := remove;
  list_next := next;
  list_prev := prev
|}.

(** Consecutive nodes of [a :: ns ++ [b]] point at each other. *)
Fixpoint segment (a : Z) (ns : list Z) (b : Z) (l : mem) : Prop :=
  match ns with
  | [] => next a l = b /\ prev b l = a
  | n :: ns' => next a l = n /\ prev n l = a /\ segment n ns' b l
  end.

(** A circular list. *)
Definition chain (h : Z) (ns : list Z) (l : mem) : Prop :=
  NoDup (h :: ns) /\ segment h ns h l.

Section laws.
Implicit Types (l : mem) (ns : list Z).

Lemma next_set_next n v m l : next m (set_next n v l) = if decide (n = m) then v else next m l.
Proof.
  unfold next, set_next. case_decide as E; [subst; by rewrite lookup_total_insert_eq|].
  by rewrite lookup_total_insert_ne.
Qed.

Lemma prev_set_next n v m l : prev m (set_next n v l) = prev m l.
Proof.
  unfold prev, set_next. destruct (decide (n = m)) as [->|]; [by rewrite lookup_total_insert_eq|].
  by rewrite lookup_total_insert_ne.
Qed.

Lemma next_set_prev n v m l : next m (set_prev n v l) = next m l.
Proof.
  unfold next, set_prev. destruct (decide (n = m)) as [->|]; [by rewrite lookup_total_insert_eq|].
  by rewrite lookup_total_insert_ne.
Qed.

Lemma prev_set_prev n v m l : prev m (set_prev n v l) = if decide (n = m) then v else prev m l.
Proof.
  unfold prev, set_prev. case_decide as E; [subst; by rewrite lookup_total_insert_eq|].
  by rewrite lookup_total_insert_ne.
Qed.

Lemma next_poison n m l : n <> m -> next m (<[n := (POISON, POISON)]> l) = next m l.
Proof. intros. unfold next. by rewrite lookup_total_insert_ne. Qed.

Lemma prev_poison n m l : n <> m -> prev m (<[n := (POISON, POISON)]> l) = prev m l.
Proof. intros. unfold prev. by rewrite lookup_total_insert_ne. Qed.

Lemma next_insert_after n h m l :
  next m (insert_after n h l) =
    if decide (h = m) then n else if decide (n = m) then next h l else next m l.
Proof.
  unfold insert_after. rewrite next_set_next, next_set_prev, next_set_next, next_set_prev. done.
Qed.

Lemma prev_insert_after n h m l :
  prev m (insert_after n h l) =
    if decide (n = m) then h else if decide (next h l = m) then n else prev m l.
Proof.
  unfold insert_after. rewrite prev_set_next, prev_set_prev, prev_set_next, prev_set_prev. done.
Qed.

Lemma next_remove n m l : n <> m ->
  next m (remove n l) = if decide (prev n l = m) then next n l else next m l.
Proof. intros. unfold remove. by rewrite next_poison, next_set_next, next_set_prev. Qed.

Lemma prev_remove n m l : n <> m ->
  prev m (remove n l) = if decide (next n l = m) then prev n l else prev m l.
Proof. intros. unfold remove. by rewrite prev_poison, prev_set_next, prev_set_prev. Qed.

(** A segment depends on the next pointers of its start and nodes and the
    previous pointers of its nodes and end. *)
Lemma segment_ext l l' ns : forall a b,
  segment a ns b l ->
  (forall m, m ∈ a :: ns -> next m l' = next m l) ->
  (forall m, m ∈ ns ++ [b] -> prev m l' = prev m l) ->
  segment a ns b l'.
Proof.
  induction ns as [|n ns IH]; intros a b Hs Hn Hp; cbn in *.
  - rewrite Hn, Hp by (by left). done.
  - destruct Hs as (E1 & E2 & Hs). rewrite Hn, Hp by (by left). split; [done|]. split; [done|].
    apply IH; [done| |]; intros m Hm; [apply Hn|apply Hp]; by right.
Qed.

Lemma segment_prev_in l n ns2 b ns1 : forall a,
  segment a (ns1 ++ n :: ns2) b l -> prev n l ∈ a :: ns1.
Proof.
  induction ns1 as [|m ns1 IH]; intros a Hs; cbn in *.
  - destruct Hs as (_ & -> & _). by left.
  - destruct Hs as (_ & _ & Hs). right. by apply IH.
Qed.

Lemma segment_next_in l n ns2 b ns1 : forall a,
  segment a (ns1 ++ n :: ns2) b l -> next n l ∈ ns2 ++ [b].
Proof.
  induction ns1 as [|m ns1 IH]; intros a Hs; cbn in *.
  - destruct Hs as (_ & _ & Hs). destruct ns2; cbn in *; destruct Hs as [-> _]; by left.
  - destruct Hs as (_ & _ & Hs). by apply IH with m.
Qed.

Lemma segment_next l b ns : forall a i n,
  segment a ns b l -> (a :: ns) !! i = Some n -> next n l = default b (ns !! i).
Proof.
  induction ns as [|m ns IH]; intros a [|i] n Hs Hi; rewrite ?lookup_cons in Hi; simplify_eq.
  - by destruct Hs.
  - by destruct Hs.
  - destruct Hs as (_ & _ & Hs). rewrite lookup_cons. by apply (IH m).
Qed.

Lemma segment_prev l b ns : forall a i n,
  segment a ns b l -> (ns ++ [b]) !! i = Some n -> prev n l = default b ((a :: ns) !! i).
Proof.
  induction ns as [|m ns IH]; intros a [|i] n Hs Hi; cbn [app] in Hi;
    rewrite ?lookup_cons in Hi; simplify_eq.
  - by destruct Hs.
  - by destruct Hs as (_ & -> & _).
  - destruct Hs as (_ & _ & Hs). rewrite lookup_cons. by apply (IH m).
Qed.

Lemma chain_insert_after h n ns l :
  chain h ns l -> n ∉ h :: ns -> chain h (n :: ns) (insert_after n h l).
Proof.
  intros [Hnd Hs] [Hnh Hn]%not_elem_of_cons.
  apply NoDup_cons in Hnd as [Hh Hnd]. split.
  { apply NoDup_cons. split; [by apply not_elem_of_cons|by apply NoDup_cons]. }
  cbn [segment]. rewrite next_insert_after, prev_insert_after, !decide_True by done.
  split; [done|]. split; [done|].
  destruct ns as [|m ns]; cbn [segment] in *.
  - rewrite next_insert_after, prev_insert_after. destruct Hs as [E _]. rewrite E.
    rewrite (decide_False (P := h = n)), !decide_True, decide_False, ?decide_True by done. done.
  - destruct Hs as (E1 & E2 & Hs). apply not_elem_of_cons in Hh as [Hhm Hh].
    apply not_elem_of_cons in Hn as [Hnm Hn]. apply NoDup_cons in Hnd as [Hm Hnd].
    rewrite next_insert_after, prev_insert_after, E1.
    rewrite (decide_False (P := h = n)), (decide_False (P := n = m)), !decide_True by done.
    split; [done|]. split; [done|]. eapply segment_ext; [exact Hs| |].
    + intros x Hx. rewrite next_insert_after, !decide_False; [done| |];
        intros ->; apply elem_of_cons in Hx as [->|Hx]; by eauto.
    + intros x Hx. rewrite prev_insert_after, E1, !decide_False; [done| |]; intros ->;
        apply elem_of_app in Hx as [Hx|Hx%list_elem_of_singleton]; by eauto.
Qed.

Lemma segment_remove l n ns2 b ns1 : forall a,
  NoDup (a :: ns1 ++ n :: ns2) -> b ∉ ns1 ++ n :: ns2 ->
  segment a (ns1 ++ n :: ns2) b l -> segment a (ns1 ++ ns2) b (remove n l).
Proof.
  induction ns1 as [|c ns1 IH]; intros a Hnd Hb Hs; cbn [app] in *.
  - destruct Hs as (E1 & E2 & Hs). apply NoDup_cons in Hnd as [Ha Hnd].
    apply NoDup_cons in Hnd as [Hn Hnd]. apply not_elem_of_cons in Ha as [Han Ha].
    apply not_elem_of_cons in Hb as [Hbn Hb].
    destruct ns2 as [|m ns2]; cbn [segment] in *.
    { destruct Hs as [E3 E4]. rewrite next_remove, prev_remove, E2, E3, !decide_True by done. done. }
    destruct Hs as (E3 & E4 & Hs). apply not_elem_of_cons in Ha as [Ham Ha].
    apply not_elem_of_cons in Hn as [Hnm Hn]. apply not_elem_of_cons in Hb as [Hbm Hb].
    apply NoDup_cons in Hnd as [Hm Hnd].
    rewrite next_remove, prev_remove, E2, E3, !decide_True by done.
    split; [done|]. split; [done|]. eapply segment_ext; [exact Hs| |]; intros x Hx.
    + assert (n <> x /\ a <> x) as [? ?].
      { split; intros ->; apply elem_of_cons in Hx as [->|Hx]; by eauto. }
      by rewrite next_remove, E2, decide_False.
    + assert (n <> x /\ m <> x) as [? ?].
      { split; intros ->; apply elem_of_app in Hx as [Hx|Hx%list_elem_of_singleton]; by eauto. }
      by rewrite prev_remove, E3, decide_False.
  - destruct Hs as (E1 & E2 & Hs). apply NoDup_cons in Hnd as [Ha Hnd].
    apply not_elem_of_cons in Hb as [Hbc Hb]. apply not_elem_of_cons in Ha as [Hac Ha].
    pose proof (segment_prev_in l n ns2 b ns1 c Hs) as Hp.
    pose proof (segment_next_in l n ns2 b ns1 c Hs) as Hq.
    pose proof Hnd as [Hc _]%NoDup_cons.
    rewrite not_elem_of_app, not_elem_of_cons in Ha, Hc.
    destruct Ha as (Ha1 & Han & Ha2), Hc as (Hc1 & Hcn & Hc2).
    cbn [segment]. rewrite next_remove, prev_remove by done.
    rewrite !decide_False.
    + split; [done|]. split; [done|]. by apply IH.
    + intros <-. apply elem_of_app in Hq as [Hq|Hq%list_elem_of_singleton]; by eauto.
    + intros <-. apply elem_of_cons in Hp as [Hp|Hp]; by eauto.
Qed.

#[global] Instance dlist_laws : ListLaws mem chain.
Proof.
  split; cbn.
  - intros h l. split; [apply NoDup_singleton|]. cbn.
    unfold next, prev, init. by rewrite lookup_total_insert_eq.
  - intros h ns n l [Hnd Hs] Hn. split; [done|]. unfold init.
    apply segment_ext with l; [done| |]; intros m Hm; unfold next, prev;
      rewrite lookup_total_insert_ne; [done| |done|]; intros <-; apply Hn; [done|].
    apply elem_of_app in Hm as [Hm|Hm%list_elem_of_singleton]; [by right|subst; by left].
  - by intros h ns l [Hnd _].
  - intros. by apply chain_insert_after.
  - intros h ns1 n ns2 l [Hnd Hs]. split.
    + apply NoDup_cons in Hnd as [Hh Hnd]. apply NoDup_cons.
      rewrite not_elem_of_app, not_elem_of_cons in Hh. destruct Hh as (? & ? & ?).
      split; [by apply not_elem_of_app|]. apply NoDup_app in Hnd as (? & Hd & Hnd).
      apply NoDup_cons in Hnd as [? ?]. apply NoDup_app. split; [done|]. split; [|done].
      intros x Hx Hx2. apply (Hd x Hx). by right.
    + apply segment_remove; [done| |done]. by apply NoDup_cons in Hnd as [? _].
  - intros h ns l i n [_ Hs]. by apply segment_next.
  - intros h ns l i n [_ Hs]. by apply segment_prev.
Qed.

End laws.
End DList.
