(* ===== verification/ListSync.v ===== *)
(** * The synchronised task list (KernelModules/list-sync-mod/list-sync.c)

    A list of [task_info] objects, one per pid, under an rwlock.  The module's
    functions are translated over [KList]; [heap_inv] is its representation
    invariant and [snapshot] its abstract state, a finite map from pids to a
    timestamp and a counter.  The last part interleaves threads that run
    [task_info_add_to_list] and [task_info_remove_expired] critical section by
    critical section. *)

From S2P Require Import Prelude Kernel Monad KList.

Module ListSync.

(** [struct task_info]; the member [list] is the node of [KList]. *)
Record task_info := TaskInfo { pid : Z; timestamp : Z; count : Z }.

#[export] Instance task_info_eq_dec : EqDecision task_info.
Proof. solve_decision. Defined.

Definition set_pid (v : Z) (ti : task_info) := TaskInfo v (timestamp ti) (count ti).
Definition set_timestamp (v : Z) (ti : task_info) := TaskInfo (pid ti) v (count ti).
Definition atomic_set (v : Z) (ti : task_info) := TaskInfo (pid ti) (timestamp ti) v.
Definition atomic_inc (ti : task_info) := atomic_set (s32 (count ti + 1)) ti.

(** Addresses of the module's globals and layout of its structure. *)
Class Layout := {
  head : Z;
  lock : Z;
  offsetof_list : Z;
  sizeof_task_info : Z
}.

Section code.
Context {L : Type} `{LO : ListOps L} `{Lay : Layout} `{Cfg : Config}.
Abbreviation MT := (M (lstate L task_info)).

(** The contents of memory fresh from [kmalloc]. *)
Definition garbage (p : Z) : MT task_info :=
  a ← ask (uninitialised p "pid");
  b ← ask (uninitialised p "timestamp");
  c ← ask (uninitialised p "count");
  mret (TaskInfo (s32 a) (u64 b) (s32 c)).

Definition task_info_alloc (pid : Z) : MT Z :=
  ti ← kmalloc_obj sizeof_task_info GFP_KERNEL garbage;
  if decide (ti = NULL) then mret NULL else
  obj_update ti (set_pid pid) ;;
  j ← jiffies;
  obj_update ti (set_timestamp j) ;;
  obj_update ti (atomic_set 0) ;;
  mret ti.

Definition task_info_find_pid (n : Z) : MT Z :=
  r ← list_for_each offsetof_list head (fun p =>
    let ti := list_entry offsetof_list p in
    v ← obj_load ti;
    mret (if decide (pid v = n) then Some ti else None));
  mret (default NULL r).

(** The first critical section of [task_info_add_to_list]: [true] when the
    function returns there. *)
Definition update_section (n : Z) : MT bool :=
  tell (write_lock lock) ;;
  ti ← task_info_find_pid n;
  if decide (ti <> NULL) then
    j ← jiffies;
    obj_update ti (set_timestamp j) ;;
    obj_update ti atomic_inc ;;
    tell (write_unlock lock) ;;
    mret true
  else
    tell (write_unlock lock) ;;
    mret false.

(** The second one. *)
Definition link_section (ti : Z) : MT unit :=
  tell (write_lock lock) ;;
  list_add offsetof_list (ti + offsetof_list) head ;;
  tell (write_unlock lock).

Definition task_info_add_to_list (n : Z) : MT unit :=
  updated ← update_section n;
  if (updated : bool) then mret () else
  ti ← task_info_alloc n;
  link_section ti.

Definition task_info_add_for_current : MT unit :=
  c ← ask current; n ← pid_of c; task_info_add_to_list n ;;
  c ← ask current; p ← ask (task_parent c); n ← pid_of p; task_info_add_to_list n ;;
  c ← ask current; q ← ask (next_task c); n ← pid_of q; task_info_add_to_list n ;;
  c ← ask current; q ← ask (next_task c); q' ← ask (next_task q); n ← pid_of q';
  task_info_add_to_list n.

Definition entry_line (ti : task_info) : kcall :=
  printk "(%d, %lu) " [KInt (pid ti); KInt (timestamp ti)].

Definition task_info_print_list (msg : string) : MT unit :=
  pr_info "%s: [ " [KStr msg] ;;
  tell (read_lock lock) ;;
  list_for_each (R := unit) offsetof_list head (fun p =>
    let ti := list_entry offsetof_list p in
    v ← obj_load ti;
    tell (entry_line v) ;;
    mret None) ;;
  tell (read_unlock lock) ;;
  pr_info "]\n" [].

(** The test of [task_info_remove_expired] at the reading [j] of [jiffies]. *)
Definition expired (j : Z) (ti : task_info) : bool :=
  (u64 (3 * HZ) <? (j -64 timestamp ti)%cint) && (count ti <? 5).

Definition task_info_remove_expired : MT unit :=
  tell (write_lock lock) ;;
  list_for_each_safe (R := unit) offsetof_list head (fun p =>
    let ti := list_entry offsetof_list p in
    v ← obj_load ti;
    j ← jiffies;
    if expired j v then
      list_del offsetof_list head p ;;
      kfree_obj ti ;;
      mret None
    else mret None) ;;
  tell (write_unlock lock).

Definition task_info_purge_list : MT unit :=
  tell (write_lock lock) ;;
  list_for_each_safe (R := unit) offsetof_list head (fun p =>
    let ti := list_entry offsetof_list p in
    list_del offsetof_list head p ;;
    kfree_obj ti ;;
    mret None) ;;
  tell (write_unlock lock).

Definition list_sync_init : MT Z :=
  modify (set_links (INIT_LIST_HEAD head)) ;;
  task_info_add_for_current ;;
  task_info_print_list "after first add" ;;
  tell set_current_state_interruptible ;;
  ask (schedule_timeout (5 * HZ)) ;;
  mret 0.

Definition list_sync_exit : MT unit :=
  last ← gets (fun s => list_prev head (links s));
  let ti := list_entry offsetof_list last in
  obj_update ti (atomic_set 10) ;;
  task_info_remove_expired ;;
  task_info_print_list "after removing expired" ;;
  task_info_purge_list.

End code.

(** ** The abstract state *)

Abbreviation obj := (Z * task_info)%type.

(** The pids of a list of objects. *)
Definition pids (l : list obj) : list Z := (fun o => pid o.2) <$> l.

(** What the module tracks: the timestamp and counter of each pid. *)
Definition snapshot (l : list obj) : gmap Z (Z * Z) :=
  list_to_map ((fun o => (pid o.2, (timestamp o.2, count o.2))) <$> l).

(** Tracking a pid at time [j]. *)
Definition track (j : Z) (e : option (Z * Z)) : option (Z * Z) :=
  Some (match e with Some (_, c) => (j, s32 (c + 1)) | None => (j, 0) end).

(** An entry is stale at the time [j] when it is more than three seconds old, on a
    clock of 64 bits, and has been counted less than five times. *)
Definition stale `{Config} (j : Z) (ti : task_info) : Prop :=
  (3 * HZ) mod 2 ^ 64 < (j - timestamp ti) mod 2 ^ 64 /\ count ti < 5.
#[export] Instance stale_dec `{Config} j ti : Decision (stale j ti).
Proof. unfold stale. apply _. Defined.

Lemma expired_stale `{Config} j ti : expired j ti = bool_decide (stale j ti).
Proof.
  unfold expired, wrap. case_bool_decide as Hs; unfold stale in Hs.
  - by rewrite (proj2 (Z.ltb_lt _ _) (proj1 Hs)), (proj2 (Z.ltb_lt _ _) (proj2 Hs)).
  - apply andb_false_iff. rewrite !Z.ltb_ge. lia.
Qed.

(** The objects that survive [task_info_remove_expired], given the readings of
    [jiffies] it makes, one per entry. *)
Fixpoint survivors `{Config} (js : list Z) (l : list obj) : list obj :=
  match js, l with
  | j :: js', o :: l' => if decide (stale j o.2) then survivors js' l' else o :: survivors js' l'
  | _, _ => l
  end.

(** ** The operations preserve the representation *)

Section proofs.
Context {L : Type} `{LO : ListOps L} {chain : Z -> list Z -> L -> Prop} `{LL : !ListLaws L chain}.
Context `{Lay : Layout} `{Cfg : Config}.
Context (K : oracle) `{HK : !HeapLaws K offsetof_list head}.
Implicit Types (s : lstate L task_info) (l extra : list obj) (t : trace).

Abbreviation INV := (heap_inv (chain := chain) offsetof_list head).

Lemma find_pid_spec h0 extra l n s t :
  INV h0 extra l s t ->
  wp (task_info_find_pid n) K s t (fun ti s' t' => s' = s /\ t' = t /\
    ((ti = NULL /\ n ∉ pids l) \/
     (ti <> NULL /\ exists l1 v l2, l = l1 ++ (ti, v) :: l2 /\ (n ∉ pids l1) /\ pid v = n))).
Proof.
  intros Hi. unfold task_info_find_pid. rewrite wp_bind. eapply wp_mono.
  { apply (inv_for_each_read offsetof_list head K h0 extra _
      (fun l1 _ t' => t' = t /\ n ∉ pids l1)
      (fun ti s' t' => t' = t /\ ti <> NULL /\
         exists l1 v l2, l = l1 ++ (ti, v) :: l2 /\ (n ∉ pids l1) /\ pid v = n) l); [done| |].
    { split; [done|]. apply not_elem_of_nil. }
    intros l1 p v l2 t1 Hi1 El [-> Hn].
    assert (Hin : (p, v) ∈ l) by (rewrite El; apply elem_of_app; right; by left).
    rewrite entry_of. erewrite run_bind by by eapply inv_load_list.
    case_decide as E; eexists _, _; (split; [reflexivity|]); cbn.
    - split; [done|]. split; [|by exists l1, v, l2].
      pose proof (inv_nodes _ _ _ _ _ _ _ Hi) as Hf. rewrite Forall_forall in Hf.
      apply (Hf (p, v)). apply elem_of_app. by right.
    - split; [done|]. split; [done|]. unfold pids. rewrite fmap_app, not_elem_of_app.
      split; [done|]. cbn. by apply not_elem_of_cons; split; [|apply not_elem_of_nil]. }
  intros [ti|] s' t' [-> HQ]; rewrite wp_ret; cbn.
  - destruct HQ as (-> & ? & ?). split_and!; [done..|]. by right.
  - destruct HQ as (_ & -> & ?). split_and!; [done..|]. by left.
Qed.

Lemma update_section_spec h0 extra l n s t :
  INV h0 extra l s t -> free_context h0 ->
  wp (update_section n) K s t (fun b s' t' =>
    if b then exists l1 p v l2 j, l = l1 ++ (p, v) :: l2 /\ (n ∉ pids l1) /\ pid v = n /\
      INV h0 extra (l1 ++ (p, atomic_inc (set_timestamp j v)) :: l2) s' t' /\
      readings t' = readings t ++ [j]
    else (n ∉ pids l) /\ s' = s /\ INV h0 extra l s t' /\ readings t' = readings t).
Proof.
  intros Hi H0. unfold update_section. rewrite wp_bind, wp_tell, wp_bind.
  assert (Hi1 : INV (Rlock lock :: h0) extra l s ((write_lock lock, 0) :: t)).
  { by apply inv_lock. }
  eapply wp_mono; [by eapply find_pid_spec|].
  intros ti s1 t1 (-> & -> & [[-> Hn]|(Hne & l1 & v & l2 & El & Hn & Hv)]).
  - rewrite decide_False by (intros ?; congruence). wp_run. split; [done|]. split; [done|].
    split; [|done]. by eapply inv_unlock.
  - rewrite decide_True by done. unfold jiffies. wp_run.
    set (t2 := (read_jiffies, _) :: _).
    assert (Hi2 : INV (Rlock lock :: h0) extra (l1 ++ (ti, v) :: l2) s t2).
    { rewrite <- El. by apply inv_quiet. }
    set (j := u64 _).
    destruct (inv_update_list offsetof_list head _ _ _ _ _ _ (set_timestamp j) K s t2 Hi2)
      as (s2 & E2 & Hi3).
    destruct (inv_update_list offsetof_list head _ _ _ _ _ _ atomic_inc K s2 t2 Hi3)
      as (s3 & E3 & Hi4).
    wp_by E2. wp_by E3. exists l1, ti, v, l2, j. split_and!; [done..| |done].
    by eapply inv_unlock.
Qed.

Lemma garbage_silent p : silent (garbage (L := L) p).
Proof. intros K' s t. eexists _, _. split; [reflexivity|].
  split; [done|]. split; [|done]. by rewrite !quiet_disciplined. Qed.

Lemma task_info_alloc_spec h0 extra l n s t :
  INV h0 extra l s t -> free_context h0 ->
  wp (task_info_alloc n) K s t (fun ti s' t' =>
    ti = K t (kmalloc sizeof_task_info GFP_KERNEL) /\
    if decide (ti = NULL) then s' = s /\ INV h0 extra l s t' /\
      t' = (kmalloc sizeof_task_info GFP_KERNEL, NULL) :: t else
    exists j, INV h0 ((ti, TaskInfo n j 0) :: extra) l s' t' /\ readings t' = readings t ++ [j]).
Proof.
  intros Hi H0. unfold task_info_alloc. rewrite wp_bind.
  eapply wp_mono; [apply (wp_kmalloc (chain := chain) offsetof_list head h0 extra l K); [done|by right|apply garbage_silent]|].
  intros p s1 t1 (-> & Hr & _ & HQ). set (p := K t _) in *.
  destruct (decide (p = NULL)) as [E|E]; [rewrite wp_ret; by rewrite decide_True|].
  destruct HQ as [v Hi1].
  destruct (inv_update_extra offsetof_list head _ _ _ _ _ (set_pid n) K _ _ Hi1) as (s2 & E2 & Hi2).
  unfold jiffies. wp_run. wp_by E2.
  set (t2 := (read_jiffies, _) :: _). set (j := u64 _).
  assert (Hi3 := inv_quiet offsetof_list head _ _ _ _ _ (read_jiffies, K t1 read_jiffies) eq_refl Hi2).
  fold t2 in Hi3.
  destruct (inv_update_extra offsetof_list head _ _ _ _ _ (set_timestamp j) K _ _ Hi3) as (s3 & E3 & Hi4).
  destruct (inv_update_extra offsetof_list head _ _ _ _ _ (atomic_set 0) K _ _ Hi4) as (s4 & E4 & Hi5).
  wp_by E3. wp_by E4. split; [done|]. rewrite decide_False by done.
  exists j. split; [done|]. cbn. by rewrite Hr.
Qed.

(** Histories only grow. *)
#[export] Instance grows_update_section n : Grows (update_section (L := L) n).
Proof.
  unfold update_section, task_info_find_pid. apply grows_bind; [apply _|]. intros _.
  apply grows_bind; [apply _|]. unfold jiffies. intros ti. apply _.
Qed.
#[export] Instance grows_task_info_alloc n : Grows (task_info_alloc (L := L) n).
Proof. unfold task_info_alloc, garbage, jiffies. apply _. Qed.
#[export] Instance grows_link_section ti : Grows (link_section (L := L) ti).
Proof. unfold link_section. apply _. Qed.
#[export] Instance grows_add_to_list n : Grows (task_info_add_to_list (L := L) n).
Proof.
  unfold task_info_add_to_list. apply grows_bind; [apply _|]. intros [|]; apply _.
Qed.
#[export] Instance grows_remove_expired : Grows (task_info_remove_expired (L := L)).
Proof.
  unfold task_info_remove_expired. apply grows_bind; [apply _|]. intros _.
  apply grows_bind; [|apply _]. apply grows_for_each_safe. intros p.
  apply grows_bind; [apply _|]. intros v. apply grows_bind; [unfold jiffies; apply _|].
  intros j. destruct (expired j v); apply _.
Qed.

Lemma link_section_spec h0 extra l ti v s t :
  INV h0 ((ti, v) :: extra) l s t -> free_context h0 ->
  wp (link_section ti) K s t (fun _ s' t' =>
    INV h0 extra ((ti, v) :: l) s' t' /\ readings t' = readings t).
Proof.
  intros Hi H0. unfold link_section. wp_run.
  assert (Hi1 : INV (Rlock lock :: h0) ((ti, v) :: extra) l s ((write_lock lock, 0) :: t)).
  { by apply inv_lock. }
  destruct (inv_list_add offsetof_list head _ _ _ _ K _ _ Hi1) as (s2 & E2 & Hi2 & _).
  cbn in E2. wp_by E2. split; [|done]. by eapply inv_unlock.
Qed.

(** Linking the NULL of a failed allocation. *)
Lemma link_null h0 extra l s t :
  INV h0 extra l s t -> offsetof_list <> head ->
  link_section NULL K s t = Oops (bad_access NULL) s ((write_lock lock, 0) :: t).
Proof.
  intros Hi Hne. unfold link_section, list_add. erewrite run_bind by done.
  unfold mbind, M_bind, touch at 1. rewrite decide_False by done.
  unfold mbind, M_bind, obj_load, zoom. rewrite entry_of. unfold load.
  cbn [view objs]. rewrite (inv_null _ _ _ _ _ _ _ Hi). by destruct s.
Qed.

(** ** The abstract operations *)

Lemma snapshot_update l1 p v l2 n j :
  n ∉ pids l1 -> pid v = n ->
  snapshot (l1 ++ (p, atomic_inc (set_timestamp j v)) :: l2) =
  partial_alter (track j) n (snapshot (l1 ++ (p, v) :: l2)).
Proof.
  intros Hn Hv. induction l1 as [|o l1 IH].
  - unfold snapshot. cbn. rewrite Hv. apply map_eq. intros i.
    destruct (decide (n = i)) as [<-|Hne].
    + by rewrite lookup_partial_alter_eq, !lookup_insert_eq.
    + by rewrite lookup_partial_alter_ne, !lookup_insert_ne.
  - apply not_elem_of_cons in Hn as [Ho Hn]. unfold snapshot in *. cbn.
    rewrite (IH Hn). apply map_eq. intros i.
    destruct (decide (n = i)) as [<-|Hne].
    + by rewrite lookup_partial_alter_eq, !lookup_insert_ne, lookup_partial_alter_eq.
    + rewrite (lookup_partial_alter_ne _ _ n i) by done.
      destruct (decide (pid o.2 = i)) as [<-|]; [by rewrite !lookup_insert_eq|].
      by rewrite !lookup_insert_ne, lookup_partial_alter_ne.
Qed.

Lemma snapshot_none l n : n ∉ pids l -> snapshot l !! n = None.
Proof.
  intros Hn. apply not_elem_of_list_to_map_1. by rewrite <- list_fmap_compose.
Qed.

Lemma snapshot_add l p n j :
  n ∉ pids l ->
  snapshot ((p, TaskInfo n j 0) :: l) = partial_alter (track j) n (snapshot l).
Proof.
  intros Hn. apply map_eq. intros i.
  change (snapshot ((p, TaskInfo n j 0) :: l)) with (<[n := (j, 0)]> (snapshot l)).
  destruct (decide (n = i)) as [<-|].
  - rewrite lookup_insert_eq. by rewrite lookup_partial_alter_eq, snapshot_none.
  - rewrite lookup_insert_ne by done. by rewrite lookup_partial_alter_ne.
Qed.

Lemma pids_update (l1 : list obj) p v l2 j :
  pids (l1 ++ (p, atomic_inc (set_timestamp j v)) :: l2) = pids (l1 ++ (p, v) :: l2).
Proof. unfold pids. by rewrite !fmap_app. Qed.

(** [task_info_add_to_list] with other threads' unlinked objects around.  For a new
    pid and without memory it ends in the Oops that linking NULL is, with the write
    lock held. *)
Lemma add_to_list_spec h0 extra l n s t :
  INV h0 extra l s t -> free_context h0 -> offsetof_list <> head ->
  wpx (task_info_add_to_list n) K s t (fun _ s' t' => exists j l',
    INV h0 extra l' s' t' /\ readings t' = readings t ++ [j] /\
    pids l' = (if decide (n ∈ pids l) then pids l else n :: pids l) /\
    snapshot l' = partial_alter (track j) n (snapshot l))
  (fun f s' t' => f = bad_access NULL /\ s' = s /\ (n ∉ pids l) /\ no_memory t t' /\
    Rlock lock ∈ held t').
Proof.
  intros Hi H0 Hne. unfold task_info_add_to_list. rewrite wpx_bind.
  eapply wpx_then; [apply wpx_wp, wp_grows; [apply _|]; by eapply update_section_spec|].
  intros [] s1 t1 [HQ [new1 Hnew1]].
  - destruct HQ as (l1 & p & v & l2 & j & -> & Hn & Hv & Hi1 & Hr). rewrite wpx_ret.
    eexists j, _. split; [done|]. split; [done|]. split.
    + rewrite decide_True, pids_update; [done|]. subst n. unfold pids.
      rewrite fmap_app. apply elem_of_app. right. by left.
    + by apply snapshot_update.
  - destruct HQ as (Hn & -> & Hi1 & Hr). rewrite wpx_bind.
    eapply wpx_then; [eapply wpx_wp; by eapply task_info_alloc_spec|]. cbn.
    intros ti s2 t2 [_ HQ]. destruct (decide (ti = NULL)) as [->|Hti].
    { destruct HQ as (-> & Hi2 & ->). erewrite wpx_oops by by eapply link_null.
      split_and!; [done..| |by left]. exists ([(write_lock lock, 0); (kmalloc sizeof_task_info GFP_KERNEL, NULL)] ++ new1).
      split; [by rewrite Hnew1|].
      exists sizeof_task_info, GFP_KERNEL. right. by left. }
    destruct HQ as (j & Hi2 & Hr2).
    eapply wpx_then; [eapply wpx_wp; by eapply link_section_spec|]. cbn. intros _ s3 t3 [Hi3 Hr3].
    eexists j, _. split; [done|]. split; [congruence|]. split.
    + by rewrite decide_False.
    + by apply snapshot_add.
Qed.

(** ** Expiry, printing, purging *)

Lemma survivors_snoc js j l o :
  length js = length l ->
  survivors (js ++ [j]) (l ++ [o]) = survivors js l ++ (if decide (stale j o.2) then [] else [o]).
Proof.
  revert js. induction l as [|o' l IH]; intros [|j' js] E; cbn in *; try lia; [done|].
  rewrite IH by lia. by destruct (decide (stale j' o'.2)).
Qed.

(** A value that a reading of [jiffies] can have. *)
Definition now (j : Z) : Prop := exists t, j = u64 (K t read_jiffies).

Lemma remove_expired_spec h0 extra l s t :
  INV h0 extra l s t -> free_context h0 ->
  wp task_info_remove_expired K s t (fun _ s' t' => exists js,
    length js = length l /\ readings t' = readings t ++ js /\
    INV h0 extra (survivors js l) s' t' /\ Forall now js).
Proof.
  intros Hi H0. unfold task_info_remove_expired. wp_run.
  eapply wp_mono.
  { apply (inv_for_each_safe offsetof_list head K extra _
      (fun kept todo t' => exists seen js, l = seen ++ todo /\ length js = length seen /\
         readings t' = readings t ++ js /\ kept = survivors js seen /\ Forall now js) (fun _ _ _ => False) (fun _ => Rlock lock :: h0) l).
    { by apply inv_lock. }
    { exists [], []. by rewrite app_nil_r. }
    intros l1 [p v] l2 s1 t1 Hi1 (seen & js & El & Hl & Hr & Hk & Hf). cbn [fst].
    rewrite entry_of, wp_bind.
    assert (Ev : obj_load p K s1 t1 = Done v s1 t1).
    { eapply inv_load_list; [done|]. apply elem_of_app. right. by left. }
    wp_by Ev. unfold jiffies. wp_run. set (t2 := (read_jiffies, _) :: t1). set (j := u64 _).
    assert (Hi2 : INV (Rlock lock :: h0) extra (l1 ++ (p, v) :: l2) s1 t2) by by apply inv_quiet.
    assert (HI : forall t3 k, readings t3 = readings t2 ->
      k = l1 ++ (if decide (stale j v) then [] else [(p, v)]) -> exists seen' js',
      l = seen' ++ l2 /\ length js' = length seen' /\ readings t3 = readings t ++ js' /\
      k = survivors js' seen' /\ Forall now js').
    { intros t3 k -> ->. exists (seen ++ [(p, v)]), (js ++ [j]). rewrite <- app_assoc, !length_app, Hl.
      split; [done|]. split; [done|]. split; [cbn; rewrite Hr; by rewrite app_assoc|].
      rewrite survivors_snoc, Hk by done. split; [done|]. apply Forall_app. split; [done|].
      apply Forall_singleton. by exists t1. }
    destruct (expired j v) eqn:Ee; rewrite expired_stale in Ee.
    - destruct (inv_list_del offsetof_list head _ _ _ _ _ K _ _ Hi2) as (s2 & E2 & Hi3 & _).
      destruct (inv_kfree offsetof_list head _ _ _ _ _ K _ _ Hi3) as (s3 & E3 & Hi4).
      cbn in E2. wp_run. wp_by E2. wp_by E3. exists l1. split; [done|].
      apply HI; [done|]. rewrite decide_True by by apply bool_decide_eq_true in Ee. by rewrite app_nil_r.
    - apply bool_decide_eq_false in Ee. rewrite wp_ret. exists (l1 ++ [(p, v)]). rewrite <- app_assoc. split; [done|].
      apply HI; [done|]. by rewrite decide_False. }
  intros [[]|] s1 t1; [done|]. intros (l' & Hi1 & seen & js & El & Hl & Hr & -> & Hf).
  rewrite app_nil_r in El. subst seen. wp_run. exists js. split; [done|]. split; [done|].
  split; [by eapply inv_unlock|done].
Qed.

Lemma purge_list_spec h0 extra l s t :
  INV h0 extra l s t -> free_context h0 ->
  wp task_info_purge_list K s t (fun _ s' t' =>
    INV h0 extra [] s' t' /\ exists later, t' = later ++ t).
Proof.
  intros Hi H0. unfold task_info_purge_list. wp_run. eapply wp_mono.
  { apply (inv_purge offsetof_list head K (Rlock lock :: h0) extra l). by apply inv_lock. }
  intros r s1 t1 (Hi1 & later & ->). wp_run. split; [by eapply inv_unlock|].
  exists ((write_unlock lock, 0) :: later ++ [(write_lock lock, 0)]). cbn. by rewrite <- app_assoc.
Qed.

(** The history of [task_info_print_list]. *)
Definition print_trace (msg : string) (l : list obj) t : trace :=
  (printk "]\n" [], 0) :: (read_unlock lock, 0) ::
  rev ((fun o => (entry_line o.2, 0)) <$> l) ++
  (read_lock lock, 0) :: (printk "%s: [ " [KStr msg], 0) :: t.

Lemma print_list_spec h0 extra l msg s t :
  INV h0 extra l s t -> free_context h0 ->
  task_info_print_list msg K s t = Done () s (print_trace msg l t) /\
  INV h0 extra l s (print_trace msg l t).
Proof.
  intros Hi H0. set (t1 := (read_lock lock, 0) :: (printk "%s: [ " [KStr msg], 0) :: t).
  assert (Hi1 : INV (Rrlock lock :: h0) extra l s t1).
  { apply inv_read_lock; [done|]. by apply inv_quiet. }
  enough (wp (task_info_print_list msg) K s t (fun _ s' t' =>
    s' = s /\ t' = print_trace msg l t /\ INV h0 extra l s t')) as Hwp.
  { apply wp_done in Hwp as ([] & s' & t' & -> & -> & -> & ?). done. }
  unfold task_info_print_list. wp_run. eapply wp_mono.
  { apply (inv_for_each_read offsetof_list head K (Rrlock lock :: h0) extra _
      (fun seen _ t' => t' = rev ((fun o => (entry_line o.2, 0)) <$> seen) ++ t1)
      (fun _ _ _ => False) l); [done|done|].
    intros l1 p v l2 t2 Hi2 El ->. rewrite entry_of.
    erewrite run_bind by (eapply inv_load_list; [done|]; rewrite El; apply elem_of_app; right; by left).
    eexists _, _. split; [reflexivity|]. cbn. split; [by apply inv_quiet|].
    by rewrite fmap_app, rev_app_distr. }
  intros [[]|] s2 t2 [-> HQ]; [done|]. destruct HQ as [Hi2 ->]. wp_run.
  split; [done|]. split; [done|]. apply inv_quiet; [done|]. by eapply inv_unlock.
Qed.

(** ** Interleaving *)

(** Threads in the module, between two critical sections. *)
Inductive thread :=
  | Adding (n : Z)
  | Allocating (n : Z)
  | Linking (n ti : Z)
  | Expiring
  | Finished.

Inductive thread_step : thread -> lstate L task_info -> trace ->
    thread -> lstate L task_info -> trace -> Prop :=
  | step_update n s t b s' t' :
      update_section n K s t = Done b s' t' ->
      thread_step (Adding n) s t (if b then Finished else Allocating n) s' t'
  | step_alloc n s t ti s' t' :
      task_info_alloc n K s t = Done ti s' t' ->
      thread_step (Allocating n) s t (Linking n ti) s' t'
  | step_link n ti s t u s' t' :
      link_section ti K s t = Done u s' t' ->
      thread_step (Linking n ti) s t Finished s' t'
  | step_expire s t u s' t' :
      task_info_remove_expired K s t = Done u s' t' ->
      thread_step Expiring s t Finished s' t'.

Abbreviation system := (list thread * lstate L task_info * trace)%type.

Inductive step : system -> system -> Prop :=
  | step_thread i th th' ths s t s' t' :
      ths !! i = Some th -> thread_step th s t th' s' t' ->
      step (ths, s, t) (<[i := th']> ths, s', t').

(** The object a thread holds and has not linked yet. *)
Definition holding (th : thread) : option Z :=
  match th with Linking _ ti => if decide (ti = NULL) then None else Some ti | _ => None end.

(** A thread that holds NULL has got it from an allocation that failed. *)
Definition starving (t : trace) (th : thread) : Prop :=
  forall n, th = Linking n NULL -> (kmalloc sizeof_task_info GFP_KERNEL, NULL) ∈ t.

Definition sys_inv h0 (sys : system) : Prop :=
  let '(ths, s, t) := sys in Forall (starving t) ths /\
  exists extra l, INV h0 extra l s t /\ extra.*1 ≡ₚ omap holding ths.

(** Every step of a thread extends the history. *)
Lemma thread_step_grows th s t th' s' t' : thread_step th s t th' s' t' -> exists new, t' = new ++ t.
Proof.
  intros [n s0 t0 b s1 t1 E|n s0 t0 ti s1 t1 E|n ti s0 t0 u s1 t1 E|s0 t0 u s1 t1 E];
    [pose proof (grows (m := update_section n) K s0 t0) as Hg
    |pose proof (grows (m := task_info_alloc n) K s0 t0) as Hg
    |pose proof (grows (m := link_section ti) K s0 t0) as Hg
    |pose proof (grows (m := task_info_remove_expired) K s0 t0) as Hg]; by rewrite E in Hg.
Qed.

Lemma starving_step ths i th th' s t s' t' :
  thread_step th s t th' s' t' -> Forall (starving t) ths -> starving t' th' ->
  Forall (starving t') (<[i := th']> ths).
Proof.
  intros Hst Hf Hth. destruct (thread_step_grows _ _ _ _ _ _ Hst) as [new ->].
  apply Forall_insert; [|done]. eapply Forall_impl; [exact Hf|].
  intros th2 Hs n Eth. apply elem_of_app. right. by apply (Hs n).
Qed.

Lemma holding_step h0 extra extra' l' ths i th th' s t s' t' :
  ths !! i = Some th -> thread_step th s t th' s' t' -> Forall (starving t) ths -> starving t' th' ->
  extra.*1 ≡ₚ omap holding ths ->
  option_list (holding th) ++ extra'.*1 ≡ₚ option_list (holding th') ++ extra.*1 ->
  INV h0 extra' l' s' t' -> sys_inv h0 (<[i := th']> ths, s', t').
Proof.
  intros Ei Hst Hf Hth He Hp Hi. split; [by eapply starving_step|]. exists extra', l'. split; [done|].
  apply (Permutation_app_inv_l (option_list (holding th))).
  by rewrite (omap_insert holding ths i th th'), Hp, He.
Qed.

Lemma holding_same h0 extra l' ths i th th' s t s' t' :
  ths !! i = Some th -> thread_step th s t th' s' t' -> Forall (starving t) ths -> starving t' th' ->
  extra.*1 ≡ₚ omap holding ths -> holding th = None -> holding th' = None ->
  INV h0 extra l' s' t' -> sys_inv h0 (<[i := th']> ths, s', t').
Proof.
  intros Ei Hst Hf Hth He E1 E2 Hi. eapply holding_step; [done..| |done]. by rewrite E1, E2.
Qed.

(** The object of a linking thread can be brought to the front. *)
Lemma holding_front h0 extra l s t ths i n ti :
  ths !! i = Some (Linking n ti) -> ti <> NULL -> extra.*1 ≡ₚ omap holding ths -> INV h0 extra l s t ->
  exists v extra', extra ≡ₚ (ti, v) :: extra' /\ INV h0 ((ti, v) :: extra') l s t.
Proof.
  intros Ei Hti He Hi. assert (Hin : ti ∈ extra.*1).
  { rewrite He. apply list_elem_of_omap. exists (Linking n ti).
    split; [by eapply list_elem_of_lookup_2|]. cbn. by rewrite decide_False. }
  by apply (inv_front offsetof_list head h0 extra l s t).
Qed.

Lemma step_preserves h0 sys sys' :
  free_context h0 -> offsetof_list <> head -> sys_inv h0 sys -> step sys sys' -> sys_inv h0 sys'.
Proof.
  intros H0 Hne Hinv Hst. destruct Hst as [i th th' ths s t s' t' Ei Hth].
  destruct Hinv as (Hf & extra & l & Hi & He). pose proof Hth as Hth0.
  destruct Hth as [n s t b s' t' E|n s t ti s' t' E|n ti s t u s' t' E|s t u s' t' E].
  - pose proof (wp_run_eq _ _ _ _ _ _ _ _ (update_section_spec h0 extra l n s t Hi H0) E) as HQ.
    destruct b.
    + destruct HQ as (l1 & p & v & l2 & j & _ & _ & _ & Hi' & _).
      by eapply (holding_same h0 extra).
    + destruct HQ as (_ & -> & Hi' & _). by eapply (holding_same h0 extra).
  - pose proof (wp_run_eq _ _ _ _ _ _ _ _
      (task_info_alloc_spec h0 extra l n s t Hi H0) E) as [_ HQ].
    destruct (decide (ti = NULL)) as [->|Hti].
    + destruct HQ as (-> & Hi' & ->). eapply (holding_same h0 extra); try done. intros n' _. by left.
    + destruct HQ as (j & Hi' & _). eapply (holding_step h0 extra); try done.
      * intros n' E'. by simplify_eq.
      * cbn. by rewrite decide_False.
  - destruct (decide (ti = NULL)) as [->|Hti]; [by rewrite (link_null h0 extra l) in E|].
    destruct (holding_front _ _ _ _ _ _ _ _ _ Ei Hti He Hi) as (v & extra' & Hp & Hi1).
    pose proof (wp_run_eq _ _ _ _ _ _ _ _ (link_section_spec h0 extra' l ti v s t Hi1 H0) E)
      as [Hi' _].
    eapply (holding_step h0 extra); try done. cbn. by rewrite decide_False, Hp.
  - pose proof (wp_run_eq _ _ _ _ _ _ _ _ (remove_expired_spec h0 extra l s t Hi H0) E)
      as (js & _ & _ & Hi' & _).
    by eapply (holding_same h0 extra).
Qed.

(** The next step of a thread, or the Oops of one whose allocation has failed. *)
Lemma thread_progress h0 ths s t i th :
  free_context h0 -> offsetof_list <> head -> sys_inv h0 (ths, s, t) -> ths !! i = Some th ->
  th <> Finished ->
  (exists th' s' t', thread_step th s t th' s' t') \/
  (exists n, th = Linking n NULL /\ (kmalloc sizeof_task_info GFP_KERNEL, NULL) ∈ t /\
    link_section NULL K s t = Oops (bad_access NULL) s ((write_lock lock, 0) :: t)).
Proof.
  intros H0 Hne (Hf & extra & l & Hi & He) Ei Hth. destruct th as [n|n|n ti| |].
  - pose proof (update_section_spec h0 extra l n s t Hi H0) as Hwp.
    apply wp_done in Hwp as (b & s' & t' & E & _). left. eexists _, _, _. by apply step_update.
  - pose proof (task_info_alloc_spec h0 extra l n s t Hi H0) as Hwp.
    apply wp_done in Hwp as (ti & s' & t' & E & _). left. eexists _, _, _. by apply step_alloc.
  - destruct (decide (ti = NULL)) as [->|Hti].
    { right. exists n. split; [done|]. split; [|by eapply link_null].
      by apply (Forall_lookup_1 _ _ _ _ Hf Ei n). }
    destruct (holding_front _ _ _ _ _ _ _ _ _ Ei Hti He Hi) as (v & extra' & Hp & Hi1).
    pose proof (link_section_spec h0 extra' l ti v s t Hi1 H0) as Hwp.
    apply wp_done in Hwp as (u & s' & t' & E & _). left. eexists _, _, _. by eapply step_link.
  - pose proof (remove_expired_spec h0 extra l s t Hi H0) as Hwp.
    apply wp_done in Hwp as (u & s' & t' & E & _). left. eexists _, _, _. by eapply step_expire.
  - done.
Qed.

(** ** Loading and unloading *)

(** Tracking several pids, one reading of [jiffies] each. *)
Definition track_all (ns js : list Z) (m : gmap Z (Z * Z)) : gmap Z (Z * Z) :=
  foldl (fun m '(n, j) => partial_alter (track j) n m) m (zip ns js).

(** The Oops of an addition that has run out of memory since [t0]. *)
Definition oom (t0 : trace) (f : fault) (s' : lstate L task_info) (t' : trace) : Prop :=
  f = bad_access NULL /\ no_memory t0 t' /\ Rlock lock ∈ held t'.

(** An addition as one of several since [t0]. *)
Lemma add_to_list_since t0 h0 extra l n s t :
  INV h0 extra l s t -> since t0 t -> free_context h0 -> offsetof_list <> head ->
  wpx (task_info_add_to_list n) K s t (fun _ s' t' => since t0 t' /\ exists j l',
    INV h0 extra l' s' t' /\ readings t' = readings t ++ [j] /\
    pids l' = (if decide (n ∈ pids l) then pids l else n :: pids l) /\
    snapshot l' = partial_alter (track j) n (snapshot l)) (oom t0).
Proof.
  intros Hi [new ->] H0 Hne.
  eapply wpx_mono; [apply wpx_grows; [apply _|by apply (add_to_list_spec h0 extra l)]|..].
  - intros _ s' t' [HQ [new' ->]]. split; [|done]. exists (new' ++ new). by rewrite <- app_assoc.
  - intros f s' t' [(-> & _ & _ & Hm & Hl) _]. split; [done|]. split; [|done].
    by eapply no_memory_later.
Qed.

Lemma add_for_current_spec h0 extra l s t me parent next tpid :
  INV h0 extra l s t -> free_context h0 -> offsetof_list <> head -> Tasks K me parent next tpid ->
  wpx task_info_add_for_current K s t (fun _ s' t' => exists j1 j2 j3 j4 l',
    INV h0 extra l' s' t' /\ readings t' = readings t ++ [j1; j2; j3; j4] /\
    (NoDup (pids l) -> NoDup (pids l')) /\ l' <> [] /\
    snapshot l' = track_all
      [tpid me; tpid (parent me); tpid (next me); tpid (next (next me))] [j1; j2; j3; j4]
      (snapshot l)) (oom t).
Proof.
  intros Hi H0 Hne [Hc Hp Hn Ht].
  assert (Hnd : forall l n, NoDup (pids l) ->
    NoDup (if decide (n ∈ pids l) then pids l else n :: pids l)).
  { intros l' n Hl. case_decide; [done|]. by apply NoDup_cons. }
  pose proof (since_refl t) as Hg0.
  assert (Hadd : forall l n s1 t1, INV h0 extra l s1 t1 -> since t t1 -> _)
    by (intros l1 n s1 t1 Hi1 Hg1; exact (add_to_list_since t h0 extra l1 n s1 t1 Hi1 Hg1 H0 Hne)).
  unfold task_info_add_for_current, pid_of. wp_run. rewrite !Hc, Ht.
  eapply wpx_then; [apply (Hadd l); [by repeat (apply inv_quiet; [done|])|by repeat apply since_cons]|].
  intros _ s1 t1 (Hg1 & j1 & l1 & Hi1 & Hr1 & Hl1 & Hs1). wp_run. rewrite !Hc, Hp, Ht.
  eapply wpx_then; [apply (Hadd l1); [by repeat (apply inv_quiet; [done|])|by repeat apply since_cons]|].
  intros _ s2 t2 (Hg2 & j2 & l2 & Hi2 & Hr2 & Hl2 & Hs2). wp_run. rewrite !Hc, Hn, Ht.
  eapply wpx_then; [apply (Hadd l2); [by repeat (apply inv_quiet; [done|])|by repeat apply since_cons]|].
  intros _ s3 t3 (Hg3 & j3 & l3 & Hi3 & Hr3 & Hl3 & Hs3). wp_run. rewrite !Hc, !Hn, Ht.
  eapply wpx_then; [apply (Hadd l3); [by repeat (apply inv_quiet; [done|])|by repeat apply since_cons]|].
  intros _ s4 t4 (_ & j4 & l4 & Hi4 & Hr4 & Hl4 & Hs4).
  exists j1, j2, j3, j4, l4. split; [done|]. split.
  { rewrite Hr4. cbn [readings]. rewrite Hr3. cbn [readings]. rewrite Hr2. cbn [readings].
    rewrite Hr1. cbn [readings]. by rewrite <- !app_assoc. }
  split.
  { intros Hl. rewrite Hl4. apply Hnd. rewrite Hl3. apply Hnd. rewrite Hl2. apply Hnd.
    rewrite Hl1. by apply Hnd. }
  split; [|by rewrite Hs4, Hs3, Hs2, Hs1].
  intros ->. cbn in Hl4. case_decide as Hd; [|done]. rewrite <- Hl4 in Hd. by apply elem_of_nil in Hd.
Qed.

Lemma fresh_list_inv h0 (l0 : L) t :
  held t = h0 -> disciplined t = true ->
  INV h0 [] [] (LState (V := task_info) ∅ (INIT_LIST_HEAD head l0)) t.
Proof.
  intros Hh Hd. split; [apply init_holds| |done|].
  - unfold account. by rewrite Hh.
  - apply Forall_nil_2.
Qed.

(** ** Claims *)


(** When a new pid is added and the allocation fails, the NULL is used: the
    call dereferences a NULL [struct task_info], with the write lock held. *)
Theorem add_to_list_out_of_memory h0 l n s t :
  INV h0 [] l s t -> free_context h0 -> offsetof_list <> head -> n ∉ pids l ->
  (forall t', K t' (kmalloc sizeof_task_info GFP_KERNEL) = NULL) ->
  exists t', task_info_add_to_list n K s t = Oops (bad_access NULL) s t' /\
    Rlock lock ∈ held t'.
Proof.
  intros Hi H0 Hne Hn Hk. unfold task_info_add_to_list.
  pose proof (update_section_spec h0 [] l n s t Hi H0) as Hwp.
  apply wp_done in Hwp as ([] & s1 & t1 & E1 & HQ).
  { destruct HQ as (l1 & p & v & l2 & j & -> & _ & <- & _). contradict Hn.
    unfold pids. rewrite fmap_app. apply elem_of_app. right. by left. }
  destruct HQ as (_ & -> & Hi1 & _). erewrite run_bind by done.
  pose proof (task_info_alloc_spec h0 [] l n s t1 Hi1 H0) as Hwp.
  apply wp_done in Hwp as (ti & s2 & t2 & E2 & -> & HQ).
  rewrite decide_True in HQ by apply Hk. destruct HQ as (-> & Hi2 & _).
  erewrite run_bind by done. rewrite Hk. eexists. split; [by eapply link_null|]. by left.
Qed.

(** C21: [task_info_remove_expired] reads [jiffies] once per entry, in list
    order, and leaves exactly the entries that are not, at their reading, more than
    three seconds old with a count below five, in their order; the others are
    unlinked and freed (the memory held is again that of the list), all under the
    write lock. *)
Theorem remove_expired_keeps_survivors h0 l s t :
  INV h0 [] l s t -> free_context h0 ->
  wp task_info_remove_expired K s t (fun _ s' t' => exists js,
    length js = length l /\ readings t' = readings t ++ js /\
    INV h0 [] (survivors js l) s' t').
Proof.
  intros. eapply wp_mono; [by apply (remove_expired_spec h0 [] l)|].
  intros _ s' t' (js & ? & ? & ? & _). by exists js.
Qed.

(** The printed list: between the opening and the closing line exactly one
    line per entry, with its pid and timestamp, in list order, written under
    the read lock; the list and the locks are as before. *)
Theorem print_list_output h0 l msg s t :
  INV h0 [] l s t -> free_context h0 ->
  task_info_print_list msg K s t = Done () s (print_trace msg l t) /\
  INV h0 [] l s (print_trace msg l t).
Proof. apply print_list_spec. Qed.

(** Loading the module returns 0 with one entry per pid of the current
    process, its parent and the next two tasks: the abstract state is the
    empty map in which those four pids have been tracked in that order.  Without
    memory it ends in an Oops. *)
Theorem list_sync_load h0 (l0 : L) t me parent next tpid :
  held t = h0 -> disciplined t = true -> free_context h0 -> offsetof_list <> head ->
  Tasks K me parent next tpid ->
  wpx list_sync_init K (LState ∅ l0) t (fun r s' t' => r = 0 /\ exists js l,
    length js = 4%nat /\ readings t' = readings t ++ js /\
    INV h0 [] l s' t' /\ NoDup (pids l) /\
    snapshot l =
      track_all [tpid me; tpid (parent me); tpid (next me); tpid (next (next me))] js ∅) (oom t).
Proof.
  intros Hh Hd H0 Hne HT. unfold list_sync_init. wp_run. unfold set_links. cbn [cells links].
  eapply wpx_then; [by apply (add_for_current_spec h0 [] [] _ t me parent next tpid); [apply fresh_list_inv|..]|].
  intros _ s1 t1 (j1 & j2 & j3 & j4 & l & Hi1 & Hr1 & Hnd & _ & Hs).
  destruct (print_list_spec h0 [] l "after first add" s1 t1 Hi1 H0) as [E2 Hi2].
  wp_run. rewrite (wpx_eq _ _ _ _ _ _ _ _ _ E2). wp_run.
  split; [done|]. exists [j1; j2; j3; j4], l. split; [done|]. split.
  { rewrite <- Hr1. unfold print_trace. cbn. clear. induction l as [|o l IH] using rev_ind; [done|].
    by rewrite fmap_app, rev_app_distr. }
  split; [|split; [apply Hnd, NoDup_nil_2|done]].
  apply (inv_quiet _ _ _ _ _ _ _ (set_current_state_interruptible, 0)) in Hi2; [|done].
  destruct Hi2 as [Hh2 Ha2 Hd2 Hn2]. split; [done|done| |done].
  rewrite disciplined_cons, Hd2. apply blocking_ok; [done..|].
  by eapply account_preemptible.
Qed.

(** The entry that the exit function protects. *)
Definition mark_last (l : list obj) : list obj :=
  match last l with
  | Some (p, v) => removelast l ++ [(p, atomic_set 10 v)]
  | None => []
  end.

(** Unloading with a non-empty list: the last entry is given the counter 10
    and therefore survives the expiry that follows, the survivors are printed,
    and then everything is freed: nothing is left on the list and the only
    resources held are those held before the module allocated anything. *)
Theorem list_sync_unload h0 l o s t :
  INV h0 [] (l ++ [o]) s t -> free_context h0 ->
  wp list_sync_exit K s t (fun _ s' t' =>
    INV h0 [] [] s' t' /\ held t' ≡ₚ h0 /\ exists js before after,
    length js = S (length l) /\
    t' = after ++
      print_trace "after removing expired" (survivors js (mark_last (l ++ [o]))) before /\
    (o.1, atomic_set 10 o.2) ∈ survivors js (mark_last (l ++ [o]))).
Proof.
  intros Hi H0. unfold list_sync_exit. wp_run.
  rewrite (holds_prev_head offsetof_list head [] (l ++ [o]) s) by by apply Hi.
  unfold last_node. rewrite last_snoc, entry_of. destruct o as [p v]. cbn [fst snd].
  destruct (inv_update_list offsetof_list head h0 [] l p v [] (atomic_set 10) K s t Hi)
    as (s1 & E1 & Hi1). wp_by E1.
  assert (Em : mark_last (l ++ [(p, v)]) = l ++ [(p, atomic_set 10 v)]).
  { unfold mark_last. by rewrite last_snoc, removelast_last. }
  rewrite Em. eapply wp_mono; [by apply (remove_expired_spec h0 [] (l ++ [(p, atomic_set 10 v)]) s1 t)|].
  intros _ s2 t2 (js & Hl & Hr & Hi2 & _).
  set (l2 := survivors js _) in *.
  destruct (print_list_spec h0 [] l2 "after removing expired" s2 t2 Hi2 H0) as [E3 Hi3].
  wp_run. wp_by E3. eapply wp_mono; [by apply (purge_list_spec h0 [] l2 s2)|].
  intros _ s4 t4 (Hi4 & later & ->). split; [done|]. split; [apply Hi4|].
  rewrite length_app, Nat.add_1_r in Hl. exists js, t2, later. split; [done|]. split; [done|].
  destruct js as [|j js _] using rev_ind; [done|]. rewrite length_app, Nat.add_1_r in Hl.
  subst l2. rewrite survivors_snoc by congruence. apply elem_of_app. right.
  rewrite decide_False by (unfold stale; cbn [snd atomic_set count]; lia). by left.
Qed.

(** Unloading when the list has become empty is a memory error: the exit
    function takes the entry of the list head itself, which is no object. *)
Theorem list_sync_unload_empty h0 s t :
  INV h0 [] [] s t ->
  list_sync_exit K s t = Oops (bad_access (list_entry offsetof_list head)) s t.
Proof.
  intros Hi. pose proof (inv_holds _ _ _ _ _ _ _ Hi) as Hh. pose proof Hh as (_ & Hc & _).
  unfold list_sync_exit. erewrite run_bind by done.
  rewrite (holds_prev_head offsetof_list head [] [] s Hh). unfold last_node. cbn [last].
  unfold mbind, M_bind, obj_update, zoom, update, load. cbn [view objs]. rewrite Hc.
  unfold mbind, M_bind. cbn. rewrite lookup_empty. destruct s; cbn in *. by subst.
Qed.

(** C4: in every interleaving of any number of threads that add pids and expire
    entries, critical section by critical section, the list stays well formed,
    the memory held is that of the list and of the objects in the threads'
    hands, and the locks are used correctly, whatever the kernel answers; and a
    thread that has not finished can make its next step without a fault, unless
    its [kmalloc] has returned NULL, in which case linking it is a NULL dereference
    under the write lock.  (The list head is not at the address [offsetof(list)].) *)
Theorem interleaving_safe h0 l s t ths ths' s' t' :
  INV h0 [] l s t -> free_context h0 -> offsetof_list <> head ->
  (forall n ti, Linking n ti ∉ ths) ->
  rtc step (ths, s, t) (ths', s', t') ->
  (exists extra l', INV h0 extra l' s' t' /\ extra.*1 ≡ₚ omap holding ths') /\
  (forall i th, ths' !! i = Some th -> th <> Finished ->
     (exists th2 s2 t2, thread_step th s' t' th2 s2 t2) \/
     (exists n, th = Linking n NULL /\ (kmalloc sizeof_task_info GFP_KERNEL, NULL) ∈ t' /\
        link_section NULL K s' t' = Oops (bad_access NULL) s' ((write_lock lock, 0) :: t'))).
Proof.
  intros Hi H0 Hne Hn Hst.
  assert (Hinv : sys_inv h0 (ths', s', t')).
  { assert (H1 : sys_inv h0 (ths, s, t)).
    { split.
      - apply Forall_forall. intros th Hth n ->. by destruct (Hn n NULL).
      - exists [], l. split; [done|]. clear -Hn. induction ths as [|th ths IH]; [done|].
        cbn. destruct th as [n|n|n ti| |]; cbn;
          try (apply IH; intros n' ti' Hin; apply (Hn n' ti'); by right).
        destruct (Hn n ti). by left. }
    apply (rtc_keeps _ Hst); [|done]. intros x y Hxy Hx. by eapply step_preserves. }
  split; [apply Hinv|]. intros i th Hth Hfin. by eapply thread_progress.
Qed.

(** A call of [task_info_add_to_list] that returns is a run of one thread
    from its first critical section to its end. *)
Theorem add_to_list_steps n s t s' t' ths i :
  task_info_add_to_list n K s t = Done () s' t' -> ths !! i = Some (Adding n) ->
  rtc step (ths, s, t) (<[i := Finished]> ths, s', t').
Proof.
  intros E Ei. unfold task_info_add_to_list, mbind, M_bind in E.
  assert (Hl : (i < length ths)%nat) by by eapply lookup_lt_Some.
  destruct (update_section n K s t) as [b s1 t1|] eqn:E1; [|done].
  eapply rtc_l; [by eapply step_thread; [done|apply step_update]|]. destruct b.
  { cbv in E. simplify_eq. apply rtc_refl. }
  destruct (task_info_alloc n K s1 t1) as [ti s2 t2|] eqn:E2; [|done].
  eapply rtc_l.
  { eapply (step_thread i); [by rewrite list_lookup_insert_eq|by apply step_alloc]. }
  rewrite list_insert_insert_eq. apply rtc_once. rewrite <- (list_insert_insert_eq ths i Finished (Linking n ti)).
  eapply (step_thread i); [rewrite list_lookup_insert_eq; [done|done]|]. by eapply step_link.
Qed.

(** C31: the lock is dropped between the search and the insertion, so two
    threads that add the same new pid can both insert it: from any list
    without [n] there is an interleaving of two calls after which [n] is on
    the list twice. *)
Theorem concurrent_add_duplicates h0 l n s t :
  INV h0 [] l s t -> free_context h0 -> never_fails K -> n ∉ pids l ->
  exists s' t' l', rtc step ([Adding n; Adding n], s, t) ([Finished; Finished], s', t') /\
    INV h0 [] l' s' t' /\ pids l' = n :: n :: pids l.
Proof.
  intros Hi H0 Ha Hn.
  assert (Hup : forall t, INV h0 [] l s t -> exists t', update_section n K s t = Done false s t' /\
    INV h0 [] l s t').
  { intros t1 Hi1. pose proof (update_section_spec h0 [] l n s t1 Hi1 H0) as Hwp.
    apply wp_done in Hwp as ([] & s1 & t2 & E1 & HQ).
    - destruct HQ as (l1 & p & v & l2 & j & -> & _ & <- & _). contradict Hn.
      unfold pids. rewrite fmap_app. apply elem_of_app. right. by left.
    - destruct HQ as (_ & -> & Hi2 & _). by eauto. }
  destruct (Hup t Hi) as (t1 & E1 & Hi1). destruct (Hup t1 Hi1) as (t2 & E2 & Hi2).
  assert (Hadd : forall l s t, INV h0 [] l s t -> exists ti s1 t1 s2 t2 j,
    task_info_alloc n K s t = Done ti s1 t1 /\ link_section ti K s1 t1 = Done () s2 t2 /\
    INV h0 [] ((ti, TaskInfo n j 0) :: l) s2 t2).
  { intros l1 s1 t3 Hi3. pose proof (task_info_alloc_spec h0 [] l1 n s1 t3 Hi3 H0) as Hwp.
    apply wp_done in Hwp as (ti & s4 & t4 & E4 & -> & HQ).
    rewrite decide_False in HQ by apply Ha. destruct HQ as (j & Hi4 & _).
    pose proof (link_section_spec h0 [] l1 _ _ s4 t4 Hi4 H0) as Hwp.
    apply wp_done in Hwp as ([] & s5 & t5 & E5 & Hi5 & _). by eauto 10. }
  destruct (Hadd l s t2 Hi2) as (p & s3 & t3 & s4 & t4 & j & E3 & E4 & Hi4).
  destruct (Hadd _ s4 t4 Hi4) as (q & s5 & t5 & s6 & t6 & j' & E5 & E6 & Hi6).
  eexists s6, t6, _. split; [|split; [exact Hi6|done]].
  eapply rtc_l; [eapply (step_thread 0); [done|by eapply step_update]|cbn].
  eapply rtc_l; [eapply (step_thread 1); [done|by eapply step_update]|cbn].
  eapply rtc_l; [eapply (step_thread 0); [done|by eapply step_alloc]|cbn].
  eapply rtc_l; [eapply (step_thread 0); [done|by eapply step_link]|cbn].
  eapply rtc_l; [eapply (step_thread 1); [done|by eapply step_alloc]|cbn].
  eapply rtc_l; [eapply (step_thread 1); [done|by eapply step_link]|cbn]. apply rtc_refl.
Qed.

End proofs.

(** ** Witnesses *)

(** Expiry measures the age of an entry modulo 2^64 and so is right across
    a wrap-around of [jiffies]: an entry stamped at tick [a] and examined [d]
    ticks later is expired exactly when [d] exceeds three seconds and its
    counter is below 5. *)
Theorem expired_across_wrap `{Config} a d n c :
  0 <= d < 2 ^ 64 -> 0 <= 3 * HZ < 2 ^ 64 ->
  expired (u64 (a + d)) (TaskInfo n (u64 a) c) = (3 * HZ <? d) && (c <? 5).
Proof. intros Hd Hz. unfold expired. cbn. by rewrite wrap_age, (wrap_small 64 (3 * HZ)). Qed.


Lemma expired_across_wrap_witness :
  @expired (Build_Config 250 12) (u64 (2 ^ 64 - 5 + 751)) (TaskInfo 1 (u64 (2 ^ 64 - 5)) 0) =
    true.
Proof.
  etransitivity; [|exact (eq_refl true)].
  apply (@expired_across_wrap (Build_Config 250 12) (2 ^ 64 - 5) 751 1 0); cbn; lia.
Defined.

(** A loaded module with two entries, over the pointer-level lists. *)
Module Sample.

#[export] Instance layout : Layout := Build_Layout 8 16 24 40.
#[export] Instance config : Config := Build_Config 250 12.
#[export] Instance heap : HeapLaws SampleKernel.kernel offsetof_list head.
Proof. apply SampleKernel.heap_laws; cbn; lia. Defined.

Abbreviation K := SampleKernel.kernel.
Abbreviation INV := (heap_inv (chain := DList.chain) offsetof_list head).

Definition entries : list obj := [(8192, TaskInfo 6 20 7); (4096, TaskInfo 5 10 0)].
Definition state : lstate DList.mem task_info :=
  LState (list_to_map entries) (list_insert 8216 8 (list_insert 4120 8 (INIT_LIST_HEAD 8 ∅))).
Definition past : trace := [(kmalloc 40 GFP_KERNEL, 8192); (kmalloc 40 GFP_KERNEL, 4096)].
Definition empty_state : lstate DList.mem task_info := LState ∅ (INIT_LIST_HEAD 8 ∅).

Lemma ne_by_compute {A} `{EqDecision A} (x : A) (l : list A) : bool_decide (x ∉ l) = true -> x ∉ l.
Proof. apply bool_decide_eq_true_1. Qed.

Lemma inv : INV [] [] entries state past.
Proof.
  split.
  - split; [|split; [done|]].
    + apply (chain_insert (chain := DList.chain)).
      * apply (chain_insert (chain := DList.chain)); [apply (chain_init (chain := DList.chain))|].
        by apply ne_by_compute.
      * by apply ne_by_compute.
    + by apply (bool_decide_unpack _).
  - unfold account. cbn. reflexivity.
  - reflexivity.
  - by apply (bool_decide_unpack _).
Qed.

Lemma empty_inv : INV [] [] [] empty_state [].
Proof. exact (fresh_list_inv (chain := DList.chain) [] ∅ [] eq_refl eq_refl). Qed.

Lemma distinct : NoDup (pids entries).
Proof. by apply (bool_decide_unpack _). Qed.

Lemma new_pid : 9 ∉ pids entries.
Proof. by apply ne_by_compute. Qed.

(** The same kernel without memory. *)
Definition starved : oracle := fun t c =>
  match c with kmalloc _ _ => NULL | _ => K t c end.

#[export] Instance starved_heap : HeapLaws starved offsetof_list head.
Proof. by split. Defined.

End Sample.
Import Sample.

Lemma head_far : offsetof_list <> head.
Proof. discriminate. Qed.


Lemma add_to_list_out_of_memory_witness :
  exists t', task_info_add_to_list 9 starved state past = Oops (bad_access NULL) state t' /\
    Rlock lock ∈ held t'.
Proof.
  by apply (add_to_list_out_of_memory starved [] entries 9 state past);
    [exact inv|..|exact new_pid|].
Defined.

Lemma remove_expired_keeps_survivors_witness :
  wp task_info_remove_expired K state past (fun _ s' t' => exists js,
    length js = 2%nat /\ readings t' = readings past ++ js /\
    INV [] [] (survivors js entries) s' t').
Proof. apply (remove_expired_keeps_survivors K [] entries); [exact inv|done]. Defined.

Lemma print_list_output_witness :
  task_info_print_list "x" K state past = Done () state (print_trace "x" entries past) /\
  INV [] [] entries state (print_trace "x" entries past).
Proof. apply (print_list_output K []); [exact inv|done]. Defined.

Lemma list_sync_load_witness :
  wpx list_sync_init K (LState ∅ (∅ : DList.mem)) [] (fun r s' t' => r = 0 /\ exists js l,
    length js = 4%nat /\ readings t' = [] ++ js /\ INV [] [] l s' t' /\ NoDup (pids l) /\
    snapshot l = track_all [s32 7; s32 8; s32 9; s32 11] js ∅) (oom []).
Proof.
  apply (list_sync_load (chain := DList.chain) K [] ∅ [] 7 (fun x => x + 1) (fun x => x + 2)
    (swrap 32)); [done..|exact SampleKernel.tasks].
Defined.

Lemma list_sync_unload_witness :
  wp list_sync_exit K state past (fun _ s' t' =>
    INV [] [] [] s' t' /\ held t' ≡ₚ [] /\ exists js before after, length js = 2%nat /\
    t' = after ++ print_trace "after removing expired" (survivors js (mark_last entries)) before /\
    (4096, TaskInfo 5 10 10) ∈ survivors js (mark_last entries)).
Proof.
  apply (list_sync_unload K [] [(8192, TaskInfo 6 20 7)] (4096, TaskInfo 5 10 0));
    [exact inv|done].
Defined.

Lemma list_sync_unload_empty_witness :
  list_sync_exit K empty_state [] =
    Oops (bad_access (list_entry offsetof_list head)) empty_state [].
Proof. exact (list_sync_unload_empty (chain := DList.chain) K [] empty_state [] empty_inv). Defined.

Lemma interleaving_safe_witness :
  (exists extra l', INV [] extra l' state past /\ extra.*1 ≡ₚ omap holding [Adding 9; Expiring]) /\
  (forall i th, [Adding 9; Expiring] !! i = Some th -> th <> Finished ->
     (exists th2 s2 t2, thread_step K th state past th2 s2 t2) \/
     (exists n, th = Linking n NULL /\ (kmalloc sizeof_task_info GFP_KERNEL, NULL) ∈ past /\
        link_section NULL K state past = Oops (bad_access NULL) state ((write_lock lock, 0) :: past))).
Proof.
  apply (interleaving_safe K [] entries state past [Adding 9; Expiring]);
    [exact inv|done|exact head_far| |apply rtc_refl].
  intros n ti [E|[E|Hin%elem_of_nil]%elem_of_cons]%elem_of_cons; [discriminate E|discriminate E|exact Hin].
Defined.

Lemma add_to_list_steps_witness :
  let o := task_info_add_to_list 9 K state past in
  rtc (step K) ([Adding 9], state, past) ([Finished], final o, history o).
Proof.
  apply (add_to_list_steps K 9 state past _ _ [Adding 9] 0); [vm_compute; reflexivity|done].
Defined.

Lemma concurrent_add_duplicates_witness :
  exists s' t' l', rtc (step K) ([Adding 9; Adding 9], state, past) ([Finished; Finished], s', t') /\
    INV [] [] l' s' t' /\ pids l' = [9; 9; 6; 5].
Proof.
  apply (concurrent_add_duplicates K [] entries 9 state past);
    [exact inv|done|exact SampleKernel.never_fails|exact new_pid].
Defined.

End ListSync.
