(* ===== verification/ListSym.v ===== *)
(** * The client of the task list (KernelModules/list-sym-mod/list-sym.c)

    list-sym uses the three symbols that list-sync exports.  [TaskList] is that
    interface, [TaskListLaws] what it promises about an abstract state (a map
    from pids to timestamp and counter) and that an addition faults only when an
    allocation has failed, and list-sym is verified against it.
    [list_sync_implements] shows that list-sync keeps the promise; the last
    theorem runs both modules together. *)

From S2P Require Import Prelude Kernel Monad KList ListSync.

Module ListSym.

(** The [extern] declarations of list-sym.c. *)
Class TaskList (S : Type) := {
  task_info_add_for_current : M S unit;
  task_info_print_list : string -> M S unit;
  task_info_remove_expired : M S unit
}.

Class TaskListLaws (S : Type) `{TaskList S} (K : oracle)
    (tracked : gmap Z (Z * Z) -> S -> trace -> Prop) : Prop := {
  add_tracks me parent next tpid m s t :
    Tasks K me parent next tpid -> tracked m s t ->
    wpx task_info_add_for_current K s t (fun _ s' t' => exists m', tracked m' s' t' /\
      dom m' = {[tpid me; tpid (parent me); tpid (next me); tpid (next (next me))]} ∪ dom m)
      (fun _ _ t' => no_memory t t');
  print_keeps msg m s t : tracked m s t ->
    wp (task_info_print_list msg) K s t (fun _ s' t' => tracked m s' t');
  remove_keeps m s t : tracked m s t ->
    wp task_info_remove_expired K s t (fun _ s' t' => exists m', tracked m' s' t' /\ m' ⊆ m /\
      forall p ts c, m !! p = Some (ts, c) -> 5 <= c -> m' !! p = Some (ts, c))
}.

Section code.
Context {S : Type} `{TL : TaskList S}.

Definition list_test_init : M S Z :=
  task_info_add_for_current ;;
  task_info_print_list "after new addition" ;;
  mret 0.

Definition list_test_exit : M S unit :=
  task_info_remove_expired ;;
  task_info_print_list "after removing expired".

End code.

Section client.
Context {S : Type} `{TLL : TaskListLaws S K tracked}.
Implicit Types (m : gmap Z (Z * Z)) (s : S) (t : trace).

(** Against the interface: loading list-sym returns 0, and the tracked pids
    are those tracked before, the current process, its parent and the next two
    tasks; or it faults, an allocation having failed. *)
Theorem list_sym_load me parent next tpid m s t :
  Tasks K me parent next tpid -> tracked m s t ->
  wpx list_test_init K s t (fun r s' t' => r = 0 /\ exists m', tracked m' s' t' /\
    dom m' = {[tpid me; tpid (parent me); tpid (next me); tpid (next (next me))]} ∪ dom m)
    (fun _ _ t' => no_memory t t').
Proof.
  intros HT Hm. unfold list_test_init. wp_run.
  eapply wpx_then; [by apply (add_tracks me parent next tpid m)|].
  intros _ s1 t1 (m' & Hm' & Hd). wp_run.
  eapply wpx_then; [by apply wpx_wp, (print_keeps _ m')|]. intros [] s2 t2 Hm2. wp_run. eauto.
Qed.

(** Against the interface: unloading list-sym only removes pids, changes no
    entry that stays, and keeps every entry whose counter is at least 5. *)
Theorem list_sym_unload m s t :
  tracked m s t ->
  wp list_test_exit K s t (fun _ s' t' => exists m', tracked m' s' t' /\ m' ⊆ m /\
    forall p ts c, m !! p = Some (ts, c) -> 5 <= c -> m' !! p = Some (ts, c)).
Proof.
  intros Hm. unfold list_test_exit. wp_run.
  eapply wp_mono; [by apply (remove_keeps m)|]. intros _ s1 t1 (m' & Hm' & Hs & Hk).
  eapply wp_mono; [by apply (print_keeps _ m')|]. intros [] s2 t2 Hm2. eauto.
Qed.

End client.

(** ** list-sync implements the interface *)

Section implementation.
Import ListSync.
Context {L : Type} `{LO : ListOps L} {chain : Z -> list Z -> L -> Prop} `{LL : !ListLaws L chain}.
Context `{Lay : Layout} `{Cfg : Config}.
Context (K : oracle) `{HK : !HeapLaws K offsetof_list head}.

Abbreviation INV := (heap_inv (chain := chain) offsetof_list head).

#[export] Instance list_sync_exports : TaskList (lstate L task_info) := {|
  ListSym.task_info_add_for_current := ListSync.task_info_add_for_current;
  ListSym.task_info_print_list := ListSync.task_info_print_list;
  ListSym.task_info_remove_expired := ListSync.task_info_remove_expired
|}.

(** The abstract state of list-sync. *)
Definition tracked (h0 : list resource) (m : gmap Z (Z * Z)) (s : lstate L task_info)
    (t : trace) : Prop :=
  exists l, INV h0 [] l s t /\ NoDup (pids l) /\ snapshot l = m.

Lemma track_all_dom ns : forall js m, length js = length ns ->
  dom (track_all ns js m) = list_to_set ns ∪ dom m.
Proof.
  induction ns as [|n ns IH]; intros [|j js] m E; try discriminate E.
  { cbn. by rewrite union_empty_l_L. }
  change (track_all (n :: ns) (j :: js) m) with (track_all ns js (partial_alter (track j) n m)).
  rewrite IH by by injection E. cbn. apply set_eq. intros i.
  rewrite !elem_of_union, elem_of_singleton, !elem_of_dom.
  destruct (decide (n = i)) as [<-|Hne].
  - rewrite lookup_partial_alter_eq. unfold track. split; [by left; left|by eauto].
  - rewrite lookup_partial_alter_ne by done. clear -Hne. intuition congruence.
Qed.

Lemma survivors_sublist l : forall js, sublist (survivors js l) l.
Proof.
  induction l as [|o l IH]; intros [|j js]; cbn; try done.
  destruct (decide (stale j o.2)); [by apply sublist_cons|by apply sublist_skip].
Qed.

Lemma survivors_busy l o : forall js, o ∈ l -> 5 <= count o.2 -> o ∈ survivors js l.
Proof.
  induction l as [|o' l IH]; intros [|j js] Hin Hc; try done.
  cbn. apply elem_of_cons in Hin as [<-|Hin].
  - rewrite decide_False by (unfold stale; lia). by left.
  - destruct (decide (stale j o'.2)); [by apply IH|right; by apply IH].
Qed.

Lemma snapshot_lookup l n e : NoDup (pids l) ->
  snapshot l !! n = Some e <-> exists o, o ∈ l /\ pid o.2 = n /\ (timestamp o.2, count o.2) = e.
Proof.
  intros Hnd. unfold snapshot. rewrite <- elem_of_list_to_map.
  - rewrite list_elem_of_fmap. split.
    + intros (o & E & Ho). exists o. by simplify_eq.
    + intros (o & Ho & <- & <-). by exists o.
  - by rewrite <- list_fmap_compose.
Qed.

Lemma sync_add_tracks h0 me parent next tpid m s t :
  free_context h0 -> offsetof_list <> head -> Tasks K me parent next tpid -> tracked h0 m s t ->
  wpx ListSync.task_info_add_for_current K s t (fun _ s' t' => exists m', tracked h0 m' s' t' /\
    dom m' = {[tpid me; tpid (parent me); tpid (next me); tpid (next (next me))]} ∪ dom m)
    (fun _ _ t' => no_memory t t').
Proof.
  intros H0 Hne HT (l & Hi & Hnd & <-).
  eapply wpx_mono; [by apply (add_for_current_spec K h0 [] l s t me parent next tpid)|..].
  2: { by intros f s' t' (_ & ? & _). }
  intros _ s' t' (j1 & j2 & j3 & j4 & l' & Hi' & _ & Hnd' & _ & Hs).
  exists (snapshot l'). split; [exists l'; by auto|]. rewrite Hs, track_all_dom by done.
  cbn. by rewrite union_empty_r_L, !(assoc_L (∪)).
Qed.

Lemma sync_print_keeps h0 msg m s t :
  free_context h0 -> tracked h0 m s t ->
  wp (ListSync.task_info_print_list msg) K s t (fun _ s' t' => tracked h0 m s' t').
Proof.
  intros H0 (l & Hi & Hnd & <-).
  destruct (print_list_spec K h0 [] l msg s t Hi H0) as [E Hi']. wp_by E. by exists l.
Qed.

Lemma sync_remove_keeps h0 m s t :
  free_context h0 -> tracked h0 m s t ->
  wp ListSync.task_info_remove_expired K s t (fun _ s' t' => exists m',
    tracked h0 m' s' t' /\ m' ⊆ m /\
    forall p ts c, m !! p = Some (ts, c) -> 5 <= c -> m' !! p = Some (ts, c)).
Proof.
  intros H0 (l & Hi & Hnd & <-).
  eapply wp_mono; [by apply (remove_expired_spec K h0 [] l)|].
  intros _ s' t' (js & Hl & _ & Hi' & _).
  assert (Hnd' : NoDup (pids (survivors js l))).
  { eapply sublist_NoDup; [done|]. apply fmap_sublist, survivors_sublist. }
  exists (snapshot (survivors js l)). split; [by exists (survivors js l)|]. split.
  - apply map_subseteq_spec. intros n e. rewrite !snapshot_lookup by done.
    intros (o & Hin & Ho). exists o. split; [|done].
    eapply sublist_subseteq; [|done]. apply survivors_sublist.
  - intros p ts c. rewrite !snapshot_lookup by done. intros (o & Hin & Hp & He) Hc.
    exists o. split; [|done]. simplify_eq. by apply survivors_busy.
Qed.

(** C32: list-sync keeps the promises of the interface it exports, whatever the
    kernel answers, when it is called in process context: an addition tracks the
    four pids, or faults after a [kmalloc] of the call has returned NULL; printing
    changes nothing; removing only removes, and no busy entry.  (The list head is
    not at the address [offsetof(list)].) *)
Theorem list_sync_implements h0 :
  free_context h0 -> offsetof_list <> head -> TaskListLaws (lstate L task_info) K (tracked h0).
Proof.
  intros H0 Hne. split; cbn; intros.
  - by apply sync_add_tracks.
  - by apply sync_print_keeps.
  - by apply sync_remove_keeps.
Qed.

Lemma survivors_all_expired l : forall js,
  length js = length l -> (forall j o, j ∈ js -> o ∈ l -> stale j o.2) ->
  survivors js l = [].
Proof.
  induction l as [|o l IH]; intros [|j js] E Hf; try discriminate E; [done|].
  cbn. rewrite decide_True by (apply Hf; by left). apply IH; [by injection E|].
  intros j' o' Hj Ho. apply Hf; by right.
Qed.

(** Unloading list-sym more than three seconds after the last addition
    empties the list, and unloading list-sync after that is a memory error: if
    every entry is expired at every reading of [jiffies], the exit functions of
    the two modules, run one after the other, end in an access through the
    list head. *)
Theorem unload_after_expiry_faults h0 l s t :
  INV h0 [] l s t -> free_context h0 ->
  (forall t o, o ∈ l -> expired (u64 (K t read_jiffies)) o.2 = true) ->
  exists s1 t1, (list_test_exit ;; list_sync_exit) K s t =
    Oops (bad_access (list_entry offsetof_list head)) s1 t1.
Proof.
  intros Hi H0 Hex. unfold list_test_exit, mbind, M_bind. cbn.
  pose proof (remove_expired_spec K h0 [] l s t Hi H0) as Hwp.
  apply wp_done in Hwp as ([] & s1 & t1 & -> & js & Hl & _ & Hi1 & Hf).
  rewrite survivors_all_expired in Hi1; [|done|].
  2: { intros j o Hj Ho. rewrite Forall_forall in Hf. destruct (Hf j Hj) as [t' ->].
    apply (bool_decide_eq_true_1 (stale _ _)). rewrite <- expired_stale. by apply Hex. }
  destruct (print_list_spec K h0 [] [] "after removing expired" s1 t1 Hi1 H0) as [-> Hi2].
  eexists _, _. by apply (list_sync_unload_empty (chain := chain) K h0).
Qed.

End implementation.

(** ** Witnesses *)

Import ListSync ListSync.Sample.

Abbreviation sample := (lstate DList.mem task_info).

Lemma list_sync_implements_witness :
  TaskListLaws sample K (tracked (chain := DList.chain) []).
Proof.
  apply (list_sync_implements (chain := DList.chain) K []); [done|exact head_far].
Defined.

#[local] Instance sample_laws : TaskListLaws sample K (tracked (chain := DList.chain) []).
Proof.
  split; intros; [apply (sync_add_tracks K)|apply (sync_print_keeps K)|apply (sync_remove_keeps K)];
    try done; exact head_far.
Qed.

Lemma sample_tracked : tracked (chain := DList.chain) [] (snapshot entries) state past.
Proof. exists entries. split; [exact inv|]. split; [exact distinct|done]. Qed.

Lemma list_sym_load_witness :
  wpx list_test_init K state past (fun r s' t' => r = 0 /\ exists m',
    tracked (chain := DList.chain) [] m' s' t' /\
    dom m' = {[s32 7; s32 8; s32 9; s32 11]} ∪ dom (snapshot entries)) (fun _ _ t' => no_memory past t').
Proof.
  apply (list_sym_load 7 (fun x => x + 1) (fun x => x + 2) (swrap 32) (snapshot entries));
    [exact SampleKernel.tasks|exact sample_tracked].
Defined.

Lemma list_sym_unload_witness :
  wp list_test_exit K state past (fun _ s' t' => exists m',
    tracked (chain := DList.chain) [] m' s' t' /\ m' ⊆ snapshot entries /\
    forall p ts c, snapshot entries !! p = Some (ts, c) -> 5 <= c -> m' !! p = Some (ts, c)).
Proof. apply (list_sym_unload (snapshot entries)). exact sample_tracked. Defined.

(** Two idle entries and a kernel an hour later. *)
Definition late : oracle := fun t c => match c with read_jiffies => 900000 | _ => K t c end.

#[local] Instance late_heap : HeapLaws late offsetof_list head.
Proof.
  split; intros t n f _; cbn.
  - intros Hin%SampleKernel.fresh_above. lia.
  - pose proof (SampleKernel.fresh_large t). lia.
Qed.

Definition idle : list obj := [(4096, TaskInfo 5 10 0)].
Definition idle_state : sample :=
  LState (list_to_map idle) (list_insert 4120 8 (INIT_LIST_HEAD 8 ∅)).
Definition idle_past : trace := [(kmalloc 40 GFP_KERNEL, 4096)].

Lemma idle_inv : INV [] [] idle idle_state idle_past.
Proof.
  split.
  - split; [|split; [done|]].
    + apply (chain_insert (chain := DList.chain)); [apply (chain_init (chain := DList.chain))|].
      by apply ne_by_compute.
    + by apply (bool_decide_unpack _).
  - unfold account. cbn. reflexivity.
  - reflexivity.
  - by apply (bool_decide_unpack _).
Qed.

Lemma unload_after_expiry_faults_witness :
  exists s1 t1, (list_test_exit ;; list_sync_exit) late idle_state idle_past =
    Oops (bad_access (list_entry offsetof_list head)) s1 t1.
Proof.
  apply (unload_after_expiry_faults (chain := DList.chain) late [] idle);
    [exact idle_inv|done|].
  intros t o Ho. apply list_elem_of_singleton in Ho as ->. reflexivity.
Defined.

End ListSym.
