(* ===== verification/ListLife.v ===== *)
(** * list-sync and list-sym over their lives

    The two modules are loaded and unloaded in any order that the kernel allows:
    list-sym needs the symbols of list-sync, which therefore stays as long as
    list-sym does.  Tasks come and go between the calls.  The theorem says exactly
    when this goes wrong. *)

From S2P Require Import Prelude Kernel Monad KList ListSync ListSym.

Module ListLife.
Import ListSym ListSync.

Inductive action := LoadSync | LoadSym | UnloadSym | UnloadSync.

#[export] Instance action_eq_dec : EqDecision action.
Proof. solve_decision. Defined.

(** Which modules are loaded, and the state of list-sync. *)
Record modules (L : Type) := Modules {
  sync : bool;
  sym : bool;
  lists : lstate L task_info;
  log : trace
}.
Arguments Modules {L} _ _ _ _.
Arguments sync {L} _.
Arguments sym {L} _.
Arguments lists {L} _.
Arguments log {L} _.

Section code.
Context {L : Type} `{LO : ListOps L} `{Lay : Layout} `{Cfg : Config} (l0 : L) (K : oracle).
Implicit Types (m : modules L).

(** The outcome of an init function that returns 0, or of an exit function. *)
Definition outcome_of {A} (sync sym : bool) (o : outcome (lstate L task_info) A) : option (modules L) :=
  match o with Done _ s t => Some (Modules sync sym s t) | Oops _ _ _ => None end.

(** [None] is a crash; what the kernel refuses changes nothing.  Every load starts
    from a fresh copy of the module's data. *)
Definition act (a : action) m : option (modules L) :=
  match a with
  | LoadSync =>
      if sync m then Some m
      else outcome_of true (sym m) (list_sync_init K (LState ∅ l0) (log m))
  | LoadSym =>
      if sync m && negb (sym m)
      then outcome_of true true (list_test_init K (lists m) (log m)) else Some m
  | UnloadSym =>
      if sym m then outcome_of (sync m) false (list_test_exit K (lists m) (log m)) else Some m
  | UnloadSync =>
      if sync m && negb (sym m)
      then outcome_of false false (list_sync_exit K (lists m) (log m)) else Some m
  end.

Fixpoint run (acts : list action) m : option (modules L) :=
  match acts with
  | [] => Some m
  | a :: acts' => m' ← act a m; run acts' m'
  end.

Definition none_loaded : modules L := Modules false false (LState ∅ l0) [].

Lemma run_snoc acts a m : run (acts ++ [a]) m = m' ← run acts m; act a m'.
Proof.
  revert m. induction acts as [|b acts IH]; intros m; cbn.
  - by destruct (act a m).
  - destruct (act b m) as [m'|]; [apply IH|done].
Qed.

End code.

Section proofs.
Context {L : Type} `{LO : ListOps L} {chain : Z -> list Z -> L -> Prop} `{LL : !ListLaws L chain}.
Context `{Lay : Layout} `{Cfg : Config} (l0 : L).
Context (K : oracle) `{HK : !HeapLaws K offsetof_list head} (Hne : offsetof_list <> head).
Implicit Types (l : list obj) (s : lstate L task_info) (t : trace) (m : modules L).

Abbreviation INV := (heap_inv (chain := chain) offsetof_list head []).

(** ** The functions, whatever the tasks are *)

(** A list of entries with different pids. *)
Definition listed l s t : Prop := INV [] l s t /\ NoDup (pids l).

Lemma nothing_held : free_context [].
Proof. done. Qed.

Lemma listed_quiet l s e t : quiet e = true -> listed l s t -> listed l s (e :: t).
Proof. intros Hq [Hi Hn]. split; [by apply inv_quiet|done]. Qed.

Lemma add_listed t0 n l s t :
  listed l s t /\ since t0 t ->
  wpx (task_info_add_to_list n) K s t
    (fun _ s' t' => exists l', (listed l' s' t' /\ since t0 t') /\ l' <> []) (oom t0).
Proof.
  intros [[Hi Hn] Hg].
  eapply wpx_then; [exact (add_to_list_since K t0 [] [] l n s t Hi Hg nothing_held Hne)|].
  intros _ s' t' (Hg' & j & l' & Hi' & _ & Hp & _). exists l'. split; [split; [split; [done|]|done]|].
  - rewrite Hp. case_decide; [done|]. by apply NoDup_cons.
  - intros ->. cbn in Hp. case_decide as Hd; [|done]. rewrite <- Hp in Hd. by apply elem_of_nil in Hd.
Qed.

Lemma listed_since t0 l s e t :
  quiet e = true -> listed l s t /\ since t0 t -> listed l s (e :: t) /\ since t0 (e :: t).
Proof. intros Hq [Hl Hg]. split; [by apply listed_quiet|by apply since_cons]. Qed.

Lemma add_for_current_listed l s t :
  listed l s t ->
  wpx task_info_add_for_current K s t (fun _ s' t' => exists l', listed l' s' t' /\ l' <> []) (oom t).
Proof.
  intros Hl. assert (H0 : listed l s t /\ since t t) by (split; [done|apply since_refl]).
  unfold task_info_add_for_current, pid_of. wp_run.
  eapply wpx_then; [eapply add_listed; by repeat (apply listed_since; [done|])|].
  intros _ s1 t1 (l1 & H1 & _). wp_run.
  eapply wpx_then; [eapply add_listed; by repeat (apply listed_since; [done|])|].
  intros _ s2 t2 (l2 & H2 & _). wp_run.
  eapply wpx_then; [eapply add_listed; by repeat (apply listed_since; [done|])|].
  intros _ s3 t3 (l3 & H3 & _). wp_run.
  eapply wpx_then; [eapply add_listed; by repeat (apply listed_since; [done|])|].
  intros _ s4 t4 (l4 & [H4 _] & Hl4). by exists l4.
Qed.

Lemma print_listed msg l s t :
  listed l s t -> wp (task_info_print_list msg) K s t (fun _ s' t' => s' = s /\ listed l s' t').
Proof.
  intros [Hi Hn]. destruct (print_list_spec K [] [] l msg s t Hi nothing_held) as [E Hi'].
  by wp_by E.
Qed.

Lemma expire_listed l s t :
  listed l s t -> wp task_info_remove_expired K s t (fun _ s' t' => exists l', listed l' s' t').
Proof.
  intros [Hi Hn]. eapply wp_mono; [by apply (remove_expired_spec K [] [] l s t Hi nothing_held)|].
  intros _ s' t' (js & _ & _ & Hi' & _). exists (survivors js l). split; [done|].
  eapply sublist_NoDup; [done|]. apply fmap_sublist, survivors_sublist.
Qed.

Lemma sync_init_listed t :
  held t = [] -> disciplined t = true ->
  wpx list_sync_init K (LState ∅ l0) t (fun _ s' t' => exists l, listed l s' t' /\ l <> []) (oom t).
Proof.
  intros Hh Hd. unfold list_sync_init. wp_run. unfold set_links. cbn [cells links].
  eapply wpx_then.
  { apply (add_for_current_listed []). split; [by apply fresh_list_inv|by apply NoDup_nil_2]. }
  intros _ s1 t1 (l & Hl & Hl0). wp_run.
  eapply wpx_then; [by apply wpx_wp, (print_listed _ l)|]. intros _ s2 t2 [-> Hl2]. wp_run.
  exists l. split; [|done]. apply (listed_quiet _ _ (set_current_state_interruptible, 0)) in Hl2 as [Hi Hn]; [|done].
  split; [|done]. by apply inv_blocking.
Qed.

Lemma sym_init_listed l s t :
  listed l s t ->
  wpx list_test_init K s t (fun _ s' t' => exists l', listed l' s' t' /\ l' <> []) (oom t).
Proof.
  intros Hl. unfold list_test_init. wp_run.
  eapply wpx_then; [by apply (add_for_current_listed l)|]. intros _ s1 t1 (l1 & H1 & Hl1). wp_run.
  eapply wpx_then; [by apply wpx_wp, (print_listed _ l1)|]. intros _ s2 t2 [-> H2]. wp_run. by exists l1.
Qed.

Lemma sym_exit_listed l s t :
  listed l s t -> wp list_test_exit K s t (fun _ s' t' => exists l', listed l' s' t').
Proof.
  intros Hl. unfold list_test_exit. wp_run.
  eapply wp_mono; [by apply (expire_listed l)|]. intros _ s1 t1 (l1 & H1).
  eapply wp_mono; [by apply (print_listed _ l1)|]. intros _ s2 t2 [-> H2]. by exists l1.
Qed.

(** ** Lives *)

(** After [acts]: list-sync has a list, which only list-sym's exit function can
    have emptied; or nothing is held. *)
Definition modules_ok (acts : list action) m : Prop :=
  if sync m then exists l, listed l (lists m) (log m) /\ (l = [] -> UnloadSym ∈ acts)
  else sym m = false /\ held (log m) = [] /\ disciplined (log m) = true.

(** list-sync is unloaded with an empty list. *)
Definition crashes (acts : list action) : Prop := exists before rest m,
  acts = before ++ UnloadSync :: rest /\ run l0 K before (none_loaded l0) = Some m /\
  sync m = true /\ sym m = false /\ listed [] (lists m) (log m) /\ UnloadSym ∈ before /\
  list_sync_exit K (lists m) (log m) =
    Oops (bad_access (list_entry offsetof_list head)) (lists m) (log m).

(** A module is loaded, and while its init function runs a [kmalloc] returns NULL. *)
Definition starves (acts : list action) : Prop := exists before a rest m s' t',
  acts = before ++ a :: rest /\ run l0 K before (none_loaded l0) = Some m /\
  (if sync m then a = LoadSym /\ sym m = false /\
     list_test_init K (lists m) (log m) = Oops (bad_access NULL) s' t'
   else a = LoadSync /\ list_sync_init K (LState ∅ l0) (log m) = Oops (bad_access NULL) s' t') /\
  exists new size flags, t' = new ++ log m /\ (kmalloc size flags, NULL) ∈ new.

Lemma outcome_wpx {A} b1 b2 (c : M (lstate L task_info) A) s t Q (P : modules L -> Prop) :
  wpx c K s t Q (oom t) -> (forall a s' t', Q a s' t' -> P (Modules b1 b2 s' t')) ->
  (exists m, outcome_of b1 b2 (c K s t) = Some m /\ P m) \/
  (outcome_of b1 b2 (c K s t) = None /\
   exists s' t', c K s t = Oops (bad_access NULL) s' t' /\ no_memory t t').
Proof.
  unfold wpx. intros Hw HP. destruct (c K s t) as [a s' t'|f s' t'].
  - left. exists (Modules b1 b2 s' t'). split; [done|by eapply HP].
  - right. split; [done|]. destruct Hw as (-> & ? & _). by exists s', t'.
Qed.

Lemma outcome_wp {A} b1 b2 (c : M (lstate L task_info) A) s t Q (P : modules L -> Prop) :
  wp c K s t Q -> (forall a s' t', Q a s' t' -> P (Modules b1 b2 s' t')) ->
  exists m, outcome_of b1 b2 (c K s t) = Some m /\ P m.
Proof.
  intros Hw HP. apply wp_done in Hw as (a & s' & t' & E & HQ). rewrite E.
  exists (Modules b1 b2 s' t'). split; [done|by eapply HP].
Qed.

Lemma act_ok acts a m :
  modules_ok acts m ->
  (exists m', act l0 K a m = Some m' /\ modules_ok (acts ++ [a]) m') \/
  (a = UnloadSync /\ sync m = true /\ sym m = false /\ listed [] (lists m) (log m) /\ UnloadSym ∈ acts) \/
  (act l0 K a m = None /\ exists s' t', no_memory (log m) t' /\
    if sync m then a = LoadSym /\ sym m = false /\
      list_test_init K (lists m) (log m) = Oops (bad_access NULL) s' t'
    else a = LoadSync /\ list_sync_init K (LState ∅ l0) (log m) = Oops (bad_access NULL) s' t').
Proof.
  intros Hm. assert (Hstay : modules_ok (acts ++ [a]) m).
  { unfold modules_ok in *. destruct (sync m); [|done]. destruct Hm as (l & Hl & He).
    exists l. split; [done|]. intros E. apply elem_of_app. left. by apply He. }
  unfold modules_ok in Hm. destruct a; cbn [act].
  - destruct (sync m) eqn:Es; [by left; exists m|]. destruct Hm as (_ & Hh & Hd).
    destruct (outcome_wpx true (sym m) _ _ _ _ (modules_ok (acts ++ [LoadSync]))
      (sync_init_listed (log m) Hh Hd)) as [?|(E & s' & t' & E' & Hno)]; [|by left|].
    + intros _ s' t' (l & Hl & Hl0). by exists l.
    + right. right. split; [done|]. by exists s', t'.
  - destruct (sync m) eqn:Es; cbn [andb]; [|by left; exists m].
    destruct (sym m) eqn:Ey; [by left; exists m|]. destruct Hm as (l & Hl & _).
    destruct (outcome_wpx true true _ _ _ _ (modules_ok (acts ++ [LoadSym]))
      (sym_init_listed l (lists m) (log m) Hl)) as [?|(E & s' & t' & E' & Hno)]; [|by left|].
    + intros _ s' t' (l' & Hl' & Hl0). by exists l'.
    + right. right. split; [done|]. by exists s', t'.
  - left. destruct (sym m) eqn:Ey; [|by exists m].
    destruct (sync m) eqn:Es; [|by destruct Hm as [? _]]. destruct Hm as (l & Hl & _).
    eapply outcome_wp; [by apply (sym_exit_listed l)|]. intros _ s' t' (l' & Hl'). exists l'.
    split; [done|]. intros _. apply elem_of_app. right. by left.
  - destruct (sync m) eqn:Es; cbn [andb]; [|by left; exists m]. destruct (sym m); [by left; exists m|].
    destruct Hm as (l & Hl & He).
    destruct l as [|o l _] using rev_ind; [right; left; split_and!; [done..|by apply He]|left].
    destruct Hl as [Hi Hn].
    eapply outcome_wp; [by apply (list_sync_unload K [] l o)|].
    intros _ s' t' (Hi' & Hh & _). split; [done|]. split; [by apply Permutation_nil_r|apply Hi'].
Qed.

(** C14: the lives of list-sync and list-sym, loaded and unloaded in any order that
    the kernel allows, with any tasks and whatever the kernel answers.  Either
    all goes well: then list-sync, when it is loaded, has a well-formed list of
    entries with different pids, which own all the memory that is held, and when
    it is not, nothing is held.  Or list-sync has been unloaded after the exit
    function of list-sym has emptied the list, and its exit function has run
    through the list head.  Or one of the two has been loaded, a [kmalloc] of its
    init function has returned NULL, and the function has dereferenced it.  Nothing
    else can go wrong.  (The list head is not at the address [offsetof(list)].) *)
Theorem lists_life acts :
  (exists m, run l0 K acts (none_loaded l0) = Some m /\
    (sync m = true -> exists l, listed l (lists m) (log m) /\ held (log m) ≡ₚ Rmem <$> l.*1) /\
    (sync m = false -> sym m = false /\ held (log m) = []) /\ disciplined (log m) = true) \/
  (run l0 K acts (none_loaded l0) = None /\ (crashes acts \/ starves acts)).
Proof.
  assert (H : (exists m, run l0 K acts (none_loaded l0) = Some m /\ modules_ok acts m) \/
    (run l0 K acts (none_loaded l0) = None /\ (crashes acts \/ starves acts))).
  { induction acts as [|a acts IH] using rev_ind; [left; by exists (none_loaded l0)|].
    rewrite run_snoc. destruct IH as [(m & E & Hm)|(-> & [(before & rest & m & -> & Hc)
      |(before & b & rest & m & s' & t' & -> & Hc)])].
    - rewrite E. destruct (act_ok acts a m Hm) as [(m' & E' & Hm')|[(-> & Es & Ey & Hl & Hin)
        |(E' & s' & t' & (new & -> & size & flags & Hin) & Hf)]].
      + left. by exists m'.
      + right. pose proof (list_sync_unload_empty K [] (lists m) (log m) (proj1 Hl)) as Ex.
        cbn [mbind option_bind act]. rewrite Es, Ey. cbn [andb negb]. rewrite Ex. split; [done|].
        left. by exists acts, [], m.
      + right. split; [exact E'|]. right. exists acts, a, [], m, s', (new ++ log m).
        split; [done|]. split; [done|]. split; [done|]. by exists new, size, flags.
    - right. split; [done|]. left. exists before, (rest ++ [a]), m. by rewrite <- app_assoc.
    - right. split; [done|]. right. exists before, b, (rest ++ [a]), m, s', t'. by rewrite <- app_assoc. }
  destruct H as [(m & E & Hm)|Hc]; [left|by right].
  exists m. split; [done|]. unfold modules_ok in Hm. destruct (sync m).
  - destruct Hm as (l & Hl & _). split; [|split; [done|apply Hl]]. intros _. exists l.
    split; [done|]. rewrite <- (app_nil_r (Rmem <$> l.*1)). apply Hl.
  - by destruct Hm as (? & ? & ?).
Qed.

End proofs.

(** ** Witness *)

Import ListSync.Sample.

(** A clock that runs on with every event. *)
Definition ticking : oracle := fun t c =>
  match c with read_jiffies => 100 * Z.of_nat (length t) | _ => SampleKernel.kernel t c end.

#[local] Instance ticking_heap : HeapLaws ticking offsetof_list head.
Proof.
  split; intros t n f _; cbn.
  - intros Hin%SampleKernel.fresh_above. lia.
  - pose proof (SampleKernel.fresh_large t). lia.
Qed.

Definition demo_life : list action := [LoadSym; LoadSync; UnloadSync; LoadSync; LoadSym; UnloadSync; UnloadSym].

(** All is well until list-sync is unloaded after list-sym; and without memory the
    first load goes wrong. *)
Lemma lists_life_witness :
  (exists m, run (∅ : DList.mem) ticking demo_life (none_loaded (∅ : DList.mem)) = Some m /\ sync m = true) /\
  (crashes (chain := DList.chain) (∅ : DList.mem) ticking (demo_life ++ [UnloadSync; LoadSync]) \/
   starves (∅ : DList.mem) ticking (demo_life ++ [UnloadSync; LoadSync])) /\
  starves (∅ : DList.mem) starved [LoadSync].
Proof.
  split; [|split].
  - destruct (lists_life (chain := DList.chain) (∅ : DList.mem) ticking head_far demo_life)
      as [(m & E & _)|[E _]].
    + exists m. split; [exact E|].
      assert (Ev : sync <$> run (∅ : DList.mem) ticking demo_life (none_loaded (∅ : DList.mem)) = Some true)
        by (vm_compute; reflexivity).
      rewrite E in Ev. by injection Ev.
    + assert (Ev : sync <$> run (∅ : DList.mem) ticking demo_life (none_loaded (∅ : DList.mem)) = Some true)
        by (vm_compute; reflexivity).
      rewrite E in Ev. discriminate Ev.
  - destruct (lists_life (chain := DList.chain) (∅ : DList.mem) ticking head_far
      (demo_life ++ [UnloadSync; LoadSync])) as [(m & E & _)|[_ Hc]]; [|exact Hc].
    assert (Ev : sync <$> run (∅ : DList.mem) ticking (demo_life ++ [UnloadSync; LoadSync])
      (none_loaded (∅ : DList.mem)) = None) by (vm_compute; reflexivity).
    rewrite E in Ev. discriminate Ev.
  - destruct (lists_life (chain := DList.chain) (∅ : DList.mem) starved head_far [LoadSync])
      as [(m & E & _)|[_ [([|x before] & rest & m & E & _)|Hs]]]; [|discriminate E| |exact Hs].
    + assert (Ev : sync <$> run (∅ : DList.mem) starved [LoadSync] (none_loaded (∅ : DList.mem)) = None)
        by (vm_compute; reflexivity).
      rewrite E in Ev. discriminate Ev.
    + destruct before; discriminate E.
Defined.

End ListLife.
