(* ===== verification/Timer.v ===== *)
(** * The timer driver (Drivers/deferredTimer/kernel/timer.c)

    One device with a kernel timer, a work item and a list of monitored
    processes.  An ioctl arms the timer or adds a process to the list; the timer
    handler schedules the work item or removes the processes that have died.
    Each entry of the list owns its memory and a reference to its task, and
    [owned] is that account.  The last part is the state machine of a loaded
    driver: ioctls, in the steps in which a firing timer can interrupt them,
    timer handlers and work items in any order. *)

From S2P Require Import Prelude Kernel Monad KList.

Module Timer.

Definition MAJOR_NUMBER := 42.
Definition MINOR_NUMBER := 0.
Definition NUM_MINORS := 1.
Definition MODULE_NAME := "timerDriver"%string.

Definition TIMER_TYPE_NONE := -1.
Definition TIMER_TYPE_SET := 0.
Definition TIMER_TYPE_ALLOC := 1.
Definition TIMER_TYPE_MONITOR := 2.

(** linux/sched.h *)
Definition TASK_DEAD := 0x80.

(** [_IO] and [_IOW] of asm/ioctl.h, which deferred.h uses. *)
Class Ioctl := { IO : Z -> Z -> Z; IOW : Z -> Z -> Z -> Z }.

Section codes.
Context `{Io : Ioctl}.
Definition MY_IOCTL_TIMER_SET := IOW 107 1 8.
Definition MY_IOCTL_TIMER_CANCEL := IO 107 2.
Definition MY_IOCTL_TIMER_ALLOC := IO 107 3.
Definition MY_IOCTL_TIMER_MONITOR := IOW 107 4 8.
End codes.

(** A command determines its direction, number and size. *)
Class IoctlLaws `{Io : Ioctl} : Prop := {
  codes_distinct : NoDup [MY_IOCTL_TIMER_SET; MY_IOCTL_TIMER_CANCEL;
                          MY_IOCTL_TIMER_ALLOC; MY_IOCTL_TIMER_MONITOR]
}.

(** Addresses and layout: the device array, the members of [timer_dev] and of
    [monitor_process]. *)
Class Layout := {
  devices_addr : Z;
  sizeof_timer_dev : Z;
  offsetof_cdev : Z;
  offsetof_timer : Z;
  offsetof_work_queue : Z;
  offsetof_dev_list : Z;
  offsetof_lock : Z;
  sizeof_monitor_process : Z;
  offsetof_list : Z
}.

Section addresses.
Context `{Lay : Layout}.
Definition dev_addr (i : Z) : Z := devices_addr + i * sizeof_timer_dev.
Definition cdev_of (dev : Z) : Z := dev + offsetof_cdev.
Definition timer_of (dev : Z) : Z := dev + offsetof_timer.
Definition work_of (dev : Z) : Z := dev + offsetof_work_queue.
Definition list_of (dev : Z) : Z := dev + offsetof_dev_list.
Definition lock_of (dev : Z) : Z := dev + offsetof_lock.
End addresses.

(** [struct monitor_process]; the member [list] is the node of [KList]. *)
Record monitor_process := Monitor { task : Z }.

(** The driver's state: [flag] of each device, and the heap with the links. *)
Record state (L : Type) := State { flags : gmap Z Z; procs : lstate L monitor_process }.
Arguments State {L} _ _.
Arguments flags {L} _.
Arguments procs {L} _.

Definition flagsL {L} : lens (state L) (gmap Z Z) :=
  Lens flags (fun f s => State f (procs s)).
Definition procsL {L} : lens (state L) (lstate L monitor_process) :=
  Lens procs (fun p s => State (flags s) p).

Section code.
Context {L : Type} `{LO : ListOps L} `{EP : ErrPtr} `{Io : Ioctl} `{Lay : Layout} `{Cfg : Config}.
Abbreviation MS := (M (state L)).
Abbreviation MP := (M (lstate L monitor_process)).

Definition alloc_io : MS unit :=
  let secs := 10 in
  tell set_current_state_interruptible ;;
  ask (schedule_timeout (secs * HZ)) ;;
  pr_info "[LOG] I went to sleep for %d seconds im sleepy\n" [KInt secs].

Definition garbage (p : Z) : MP monitor_process :=
  a ← ask (uninitialised p "task"); mret (Monitor a).

Definition get_proc (pid : Z) : MP Z :=
  tell rcu_read_lock ;;
  task ← ask (pid_task pid);
  tell rcu_read_unlock ;;
  if decide (task = NULL) then mret (ERR_PTR (- ESRCH)) else
  p ← kmalloc_obj sizeof_monitor_process GFP_ATOMIC garbage;
  if decide (p = NULL) then mret (ERR_PTR (- ENOMEM)) else
  tell (get_task_struct task) ;;
  obj_update p (fun _ => Monitor task) ;;
  mret p.

Definition work_handler : MS unit := alloc_io.

(** One iteration of the loop of [timer_handler] over the entry at [n]. *)
Definition reap (dev n : Z) : MP (option unit) :=
  let process := list_entry offsetof_list n in
  v ← obj_load process;
  st ← ask (task_state (task v));
  (if decide (st = TASK_DEAD) then
    comm ← ask (task_comm (task v));
    pid ← pid_of (task v);
    tell (printk "task %s (%d) is dead\n" [KInt comm; KInt pid]) ;;
    tell (put_task_struct (task v)) ;;
    list_del offsetof_list (list_of dev) n ;;
    kfree_obj process
  else mret ()) ;;
  mret None.

(** The argument is the device that embeds the timer that fired. *)
Definition timer_handler (dev : Z) : MS unit :=
  pr_info "[timer_handler]\n" [] ;;
  flag ← zoom flagsL (load dev);
  if decide (flag = TIMER_TYPE_SET) then mret ()
  else if decide (flag = TIMER_TYPE_ALLOC) then
    ask (schedule_work (work_of dev)) ;; mret ()
  else if decide (flag = TIMER_TYPE_MONITOR) then
    tell (spin_lock_irqsave (lock_of dev)) ;;
    zoom procsL (list_for_each_safe offsetof_list (list_of dev) (reap dev)) ;;
    tell (spin_unlock_irqrestore (lock_of dev))
  else mret ().

(** The result and the new [private_data]. *)
Definition timer_open (i_cdev : Z) : MS (Z * Z) :=
  let data := i_cdev - offsetof_cdev in
  pr_info "[deferred_open]\n" [] ;;
  mret (0, data).

Definition timer_release : MS Z :=
  pr_info "[deferred_release]\n" [] ;;
  mret 0.

(** [data->flag = flag; mod_timer(&data->timer, jiffies + ticks)] *)
Definition arm (data flag ticks : Z) : MS unit :=
  zoom flagsL (store data flag) ;;
  j ← jiffies;
  ask (mod_timer (timer_of data) (j +64 ticks)%cint) ;;
  mret ().

Definition link_proc (data p : Z) : MS unit :=
  tell (spin_lock_bh (lock_of data)) ;;
  zoom procsL (list_add offsetof_list (p + offsetof_list) (list_of data)) ;;
  tell (spin_unlock_bh (lock_of data)).

Definition timer_ioctl (data cmd arg : Z) : MS Z :=
  if decide (cmd = MY_IOCTL_TIMER_SET) then
    pr_info "[TIMER SET]\n" [] ;;
    arm data TIMER_TYPE_SET (u64 (arg * HZ)) ;;
    mret 0
  else if decide (cmd = MY_IOCTL_TIMER_CANCEL) then
    pr_info "[TIMER CANCEL]\n" [] ;;
    ask (del_timer (timer_of data)) ;;
    mret 0
  else if decide (cmd = MY_IOCTL_TIMER_ALLOC) then
    pr_info "[TIMER ALLOC]\n" [] ;;
    arm data TIMER_TYPE_ALLOC (u64 (arg * HZ)) ;;
    mret 0
  else if decide (cmd = MY_IOCTL_TIMER_MONITOR) then
    pr_info "[TIMER MONITOR]\n" [] ;;
    p ← zoom procsL (get_proc (s32 arg));
    if IS_ERR p then mret (PTR_ERR p) else
    link_proc data p ;;
    arm data TIMER_TYPE_MONITOR HZ ;;
    mret 0
  else mret 0.

(** The loop body of [deferred_init]. *)
Definition init_device (i : Z) : MS unit :=
  let dev := dev_addr i in
  tell (cdev_init (cdev_of dev)) ;;
  ask (cdev_add (cdev_of dev) (MKDEV MAJOR_NUMBER i) 1) ;;
  tell (timer_setup (timer_of dev)) ;;
  tell (INIT_WORK (work_of dev)) ;;
  tell (spin_lock_init (lock_of dev)) ;;
  zoom procsL (modify (set_links (INIT_LIST_HEAD (list_of dev)))) ;;
  zoom flagsL (store dev TIMER_TYPE_NONE).

Definition deferred_init : MS Z :=
  result ← ask (register_chrdev_region (MKDEV MAJOR_NUMBER MINOR_NUMBER) NUM_MINORS MODULE_NAME);
  if decide (result <> 0) then
    pr_debug "[ERROR] failed to register device in chrdev region\n" [] ;;
    mret result
  else
    for_range 0 (Z.to_nat NUM_MINORS) init_device ;;
    pr_info "[LOG] registered %s char device in memory success\n" [KStr MODULE_NAME] ;;
    mret 0.

(** One iteration of the loop over the list in [deferred_exit]. *)
Definition drop_proc (dev n : Z) : MP (option unit) :=
  let proc := list_entry offsetof_list n in
  v ← obj_load proc;
  tell (put_task_struct (task v)) ;;
  list_del offsetof_list (list_of dev) n ;;
  kfree_obj proc ;;
  mret None.

Definition exit_device (i : Z) : MS unit :=
  let dev := dev_addr i in
  tell (cdev_del (cdev_of dev)) ;;
  ask (del_timer (timer_of dev)) ;;
  ask (cancel_work_sync (work_of dev)) ;;
  zoom procsL (list_for_each_safe offsetof_list (list_of dev) (drop_proc dev)) ;;
  mret ().

Definition deferred_exit : MS unit :=
  pr_info "[LOG] Unregistered %s from kernel space\n" [KStr MODULE_NAME] ;;
  for_range 0 (Z.to_nat NUM_MINORS) exit_device ;;
  tell (unregister_chrdev_region (MKDEV MAJOR_NUMBER MINOR_NUMBER) NUM_MINORS).

End code.

(** ** The account *)

Abbreviation obj := (Z * monitor_process)%type.

(** The task references a list of entries owns. *)
Definition owned (l : list obj) : list resource := (fun o => Rtask (task o.2)) <$> l.

(** The entries that are still alive, given the states that were read. *)
Fixpoint alive (sts : list Z) (l : list obj) : list obj :=
  match sts, l with
  | st :: sts', o :: l' => if decide (st = TASK_DEAD) then alive sts' l' else o :: alive sts' l'
  | _, _ => l
  end.

Lemma owned_app l1 l2 : owned (l1 ++ l2) = owned l1 ++ owned l2.
Proof. apply fmap_app. Qed.

Lemma owned_atomic l h0 : free_context h0 -> free_context (owned l ++ h0).
Proof. unfold free_context. intros H0. induction l as [|o l IH]; [done|exact IH]. Qed.

Lemma alive_snoc st sts l o :
  length sts = length l ->
  alive (sts ++ [st]) (l ++ [o]) = alive sts l ++ (if decide (st = TASK_DEAD) then [] else [o]).
Proof.
  revert sts. induction l as [|o' l IH]; intros [|st' sts] E; cbn in *; try lia; [done|].
  rewrite IH by lia. by destruct (decide (st' = TASK_DEAD)).
Qed.

(** With stable states these are the entries whose task is not dead. *)
Lemma alive_filter st l :
  alive ((fun o => st (task o.2)) <$> l) l = filter (fun o => st (task o.2) <> TASK_DEAD) l.
Proof.
  induction l as [|o l IH]; [done|]. rewrite fmap_cons. cbn [alive].
  destruct (decide (st (task o.2) = TASK_DEAD)) as [E|E]; rewrite IH.
  - rewrite filter_cons_False; [done|]. by intros Hne.
  - by rewrite filter_cons_True.
Qed.

(** What a timer handler may call: nothing that sleeps; it arms no timer. *)
Definition harmless (e : event) : Prop :=
  may_sleep (fst e) = false /\ forall tm ex, fst e <> mod_timer tm ex.

(** ... and in monitoring mode it touches neither timers nor work items, and reads
    no clock and looks up no process. *)
Definition calm (e : event) : bool :=
  match fst e with
  | mod_timer _ _ | del_timer _ | schedule_work _ | read_jiffies | pid_task _ => false
  | _ => true
  end.
Definition reaping (e : event) : Prop := may_sleep (fst e) = false /\ calm e = true.

Lemma reaping_harmless l : Forall reaping l -> Forall harmless l.
Proof.
  intros Hl. eapply Forall_impl; [exact Hl|]. intros e [Hs Hc]. split; [done|]. intros tm ex E. unfold calm in Hc.
  by rewrite E in Hc.
Qed.

(** The states of tasks that a history has read, the oldest first. *)
Fixpoint task_reads (t : trace) : list (Z * Z) :=
  match t with
  | [] => []
  | (task_state tk, st) :: t' => task_reads t' ++ [(tk, st)]
  | _ :: t' => task_reads t'
  end.

Lemma task_reads_app l t : task_reads (l ++ t) = task_reads t ++ task_reads l.
Proof.
  induction l as [|[c r] l IH]; cbn; [by rewrite app_nil_r|].
  destruct c; cbn; by rewrite IH, ?app_assoc.
Qed.

Section proofs.
Context {L : Type} `{LO : ListOps L} {chain : Z -> list Z -> L -> Prop} `{LL : !ListLaws L chain}.
Context `{EP : ErrPtr} `{EPL : !ErrPtrLaws} `{Io : Ioctl} `{Lay : Layout} `{Cfg : Config}.
Context (K : oracle) (dev : Z) `{HK : !HeapLaws K offsetof_list (list_of dev)}.
Implicit Types (s : state L) (ps : lstate L monitor_process) (l extra : list obj) (t : trace).

Abbreviation HINV := (heap_inv (chain := chain) offsetof_list (list_of dev)).

(** [l] is monitored, the entries [extra] are in the hands of ioctl callers. *)
Definition dev_inv (h0 : list resource) extra l s t : Prop :=
  HINV (owned (extra ++ l) ++ h0) extra l (procs s) t /\ is_Some (flags s !! dev).

(** Dropping the reference, unlinking and freeing the current entry. *)
Lemma drop_entry h0 extra l1 p v l2 ps t :
  HINV (Rtask (task v) :: h0) extra (l1 ++ (p, v) :: l2) ps t ->
  exists ps1 ps2,
    list_del offsetof_list (list_of dev) (p + offsetof_list) K ps
      ((put_task_struct (task v), 0) :: t) = Done () ps1 ((put_task_struct (task v), 0) :: t) /\
    kfree_obj p K ps1 ((put_task_struct (task v), 0) :: t) =
      Done () ps2 ((kfree p, 0) :: (put_task_struct (task v), 0) :: t) /\
    HINV h0 extra (l1 ++ l2) ps2 ((kfree p, 0) :: (put_task_struct (task v), 0) :: t).
Proof.
  intros Hi. apply (inv_release _ _ _ _ _ _ _ (put_task_struct (task v), 0)) in Hi; [|done].
  destruct (inv_list_del offsetof_list (list_of dev) _ _ _ _ _ K _ _ Hi) as (ps1 & E1 & Hi1 & _).
  destruct (inv_kfree offsetof_list (list_of dev) _ _ _ _ _ K _ _ Hi1) as (ps2 & E2 & Hi2).
  by exists ps1, ps2.
Qed.

(** The reference of the current entry is among those owned. *)
Lemma owned_front extra l1 o l2 h0 :
  owned (extra ++ l1 ++ o :: l2) ++ h0 ≡ₚ
  Rtask (task o.2) :: owned (extra ++ l1 ++ l2) ++ h0.
Proof.
  rewrite !owned_app. cbn [owned fmap list_fmap]. rewrite <- !app_assoc. cbn [app].
  by rewrite <- !Permutation_middle.
Qed.

Lemma task_garbage_silent p : silent (garbage (L := L) p).
Proof.
  intros K' ps t. eexists _, _. split; [reflexivity|]. split; [done|]. split; [|done].
  by rewrite !quiet_disciplined.
Qed.

(** ** The operations *)

(** The history of a successful [get_proc]. *)
Definition get_proc_trace (pid tk p v : Z) t : trace :=
  (get_task_struct tk, 0) :: (uninitialised p "task", v) ::
  (kmalloc sizeof_monitor_process GFP_ATOMIC, p) ::
  (rcu_read_unlock, 0) :: (pid_task pid, tk) :: (rcu_read_lock, 0) :: t.

(** The answers [get_proc] gets: the task and the memory. *)
Definition found (pid : Z) t : Z := K ((rcu_read_lock, 0) :: t) (pid_task pid).
Definition memory (pid : Z) t : Z :=
  K ((rcu_read_unlock, 0) :: (pid_task pid, found pid t) :: (rcu_read_lock, 0) :: t)
    (kmalloc sizeof_monitor_process GFP_ATOMIC).

Lemma rcu_section h0 extra l pid ps t :
  HINV h0 extra l ps t -> HINV h0 extra l ps
    ((rcu_read_unlock, 0) :: (pid_task pid, found pid t) :: (rcu_read_lock, 0) :: t).
Proof.
  intros Hi. eapply inv_release; [done|]. apply inv_quiet; [done|].
  by apply inv_acquire.
Qed.

Lemma get_proc_spec h0 extra l pid ps t :
  HINV h0 extra l ps t -> no_error_pointers K ->
  wp (get_proc pid) K ps t (fun p ps' t' =>
    if decide (found pid t = NULL) then
      p = ERR_PTR (- ESRCH) /\ ps' = ps /\ HINV h0 extra l ps t'
    else if decide (memory pid t = NULL) then
      p = ERR_PTR (- ENOMEM) /\ ps' = ps /\ HINV h0 extra l ps t'
    else p = memory pid t /\ IS_ERR p = false /\
      (exists v, t' = get_proc_trace pid (found pid t) p v t) /\
      HINV (Rtask (found pid t) :: h0) ((p, Monitor (found pid t)) :: extra) l ps' t').
Proof.
  intros Hi Hne. unfold get_proc. wp_run. fold (found pid t).
  apply (rcu_section _ _ _ pid) in Hi. set (t1 := (rcu_read_unlock, 0) :: _) in *.
  destruct (decide (found pid t = NULL)) as [E|E]; [by rewrite wp_ret|].
  wp_run. set (c := kmalloc sizeof_monitor_process GFP_ATOMIC).
  destruct (decide (memory pid t = NULL)) as [E2|E2].
  { destruct (inv_kmalloc_fails (chain := chain) offsetof_list (list_of dev) _ extra l K
      sizeof_monitor_process GFP_ATOMIC garbage ps t1 E2 Hi (or_introl eq_refl)) as [E3 Hi1].
    wp_by E3. rewrite decide_True by done. by wp_run. }
  set (p := memory pid t) in *. set (v := K ((c, p) :: t1) (uninitialised p "task")).
  destruct (inv_kmalloc (chain := chain) offsetof_list (list_of dev) h0 extra l K
    sizeof_monitor_process GFP_ATOMIC garbage (Monitor v) ps t1
    ((uninitialised p "task", v) :: (c, p) :: t1)) as (ps1 & E3 & Hi1);
    [done|done|by left|done|done|by rewrite quiet_disciplined|].
  wp_by E3. rewrite decide_False by done. wp_run.
  apply (inv_acquire _ _ _ _ _ _ _ (get_task_struct (found pid t), 0) (Rtask (found pid t)))
    in Hi1; [|done..].
  destruct (inv_update_extra offsetof_list (list_of dev) _ _ _ _ _
    (fun _ => Monitor (found pid t)) K _ _ Hi1) as (ps2 & E4 & Hi2).
  fold p. wp_by E4. split; [done|]. split; [apply Hne|]. split; [by exists v|done].
Qed.

(** One iteration of the handler's loop. *)
Lemma reap_spec h0 extra l1 p v l2 ps t :
  HINV (owned (extra ++ l1 ++ (p, v) :: l2) ++ h0) extra (l1 ++ (p, v) :: l2) ps t ->
  let st := K t (task_state (task v)) in
  wp (reap dev (p + offsetof_list)) K ps t (fun r ps' t' => r = None /\
    let l' := l1 ++ (if decide (st = TASK_DEAD) then [] else [(p, v)]) ++ l2 in
    HINV (owned (extra ++ l') ++ h0) extra l' ps' t' /\
    exists later, t' = later ++ t /\ Forall reaping later /\ task_reads later = [(task v, st)]).
Proof.
  intros Hi st. unfold reap. rewrite entry_of.
  assert (E1 : obj_load p K ps t = Done v ps t).
  { eapply inv_load_list; [done|]. apply elem_of_app. right. by left. }
  wp_run. wp_by E1. fold st. destruct (decide (st = TASK_DEAD)) as [E|E].
  - unfold pid_of. wp_run.
    set (t1 := (printk _ _, 0) :: _).
    apply (inv_rest_perm offsetof_list (list_of dev) _
      (Rtask (task v) :: owned (extra ++ l1 ++ l2) ++ h0)) in Hi;
      [|by rewrite (owned_front extra l1 (p, v) l2)].
    assert (Hi1 : HINV (Rtask (task v) :: owned (extra ++ l1 ++ l2) ++ h0) extra
      (l1 ++ (p, v) :: l2) ps t1) by by repeat (apply inv_quiet; [done|]).
    destruct (drop_entry _ _ _ _ _ _ _ _ Hi1) as (ps1 & ps2 & E2 & E3 & Hi2).
    wp_by E2. wp_by E3. split; [done|]. split; [done|].
    eexists [_; _; _; _; _; _]. split; [reflexivity|]. by split; [repeat apply Forall_cons_2|].
  - wp_run. split; [done|]. split; [by apply inv_quiet|].
    eexists [_]. split; [reflexivity|]. by split; [repeat apply Forall_cons_2|].
Qed.

Definition task_of (o : obj) : Z := task o.2.

(** A state that was read: an answer to a query of that task's state. *)
Definition state_read (st : Z) (o : obj) : Prop := exists t, st = K t (task_state (task o.2)).

Lemma reap_all_spec h0 extra l ps t :
  HINV (owned (extra ++ l) ++ h0) extra l ps t ->
  wp (list_for_each_safe offsetof_list (list_of dev) (reap dev)) K ps t
    (fun r ps' t' => r = None /\ exists sts later,
      Forall2 state_read sts l /\ t' = later ++ t /\ Forall reaping later /\
      task_reads later = zip (task_of <$> l) sts /\
      HINV (owned (extra ++ alive sts l) ++ h0) extra (alive sts l) ps' t').
Proof.
  intros Hi. eapply wp_mono.
  { apply (inv_for_each_safe offsetof_list (list_of dev) K extra (reap dev)
      (fun kept todo t' => exists seen sts later, l = seen ++ todo /\
         Forall2 state_read sts seen /\ kept = alive sts seen /\
         t' = later ++ t /\ Forall reaping later /\ task_reads later = zip (task_of <$> seen) sts)
      (fun _ _ _ => False) (fun l => owned (extra ++ l) ++ h0) l); [done| |].
    { exists [], [], []. by split_and!; auto. }
    intros l1 [p v] l2 ps1 t1 Hi1 (seen & sts & later & El & Hf & Hk & Ht & Hl & Hr).
    eapply wp_mono; [by apply reap_spec|]. cbn. intros r ps2 t2 (-> & Hi2 & later' & -> & Hl' & Hr').
    set (st := K t1 (task_state (task v))) in *.
    exists (l1 ++ (if decide (st = TASK_DEAD) then [] else [(p, v)])).
    rewrite <- app_assoc. split; [done|].
    exists (seen ++ [(p, v)]), (sts ++ [st]), (later' ++ later). split_and!.
    - by rewrite <- app_assoc.
    - apply Forall2_app; [done|]. apply Forall2_cons. split; [by exists t1|done].
    - rewrite alive_snoc by by apply Forall2_length in Hf. by rewrite Hk.
    - by rewrite Ht, app_assoc.
    - by apply Forall_app.
    - rewrite task_reads_app, Hr, Hr', fmap_app.
      rewrite zip_with_app by (rewrite length_fmap; symmetry; by apply Forall2_length in Hf). done. }
  intros [[]|] ps1 t1; [done|]. intros (l' & Hi1 & seen & sts & later & El & Hf & -> & Ht & Hl & Hr).
  rewrite app_nil_r in El. subst seen. split; [done|]. by exists sts, later.
Qed.

Lemma arm_spec flag ticks s t :
  is_Some (flags s !! dev) ->
  exists t', arm dev flag ticks K s t = Done () (State (<[dev := flag]> (flags s)) (procs s)) t' /\
    exists r j, t' = [(mod_timer (timer_of dev) (u64 (u64 j + ticks)), r); (read_jiffies, j)] ++ t.
Proof.
  intros [f Hf]. eexists. split.
  - unfold arm. erewrite run_bind.
    2: { eapply zoom_eq. unfold store. cbn. by rewrite Hf. }
    reflexivity.
  - by eexists _, _.
Qed.

Lemma arm_inv h0 extra l flag ticks s t :
  dev_inv h0 extra l s t ->
  exists s' t', arm dev flag ticks K s t = Done () s' t' /\ dev_inv h0 extra l s' t' /\
    flags s' !! dev = Some flag /\ procs s' = procs s.
Proof.
  intros [Hi Hf]. destruct (arm_spec flag ticks s t Hf) as (t' & E & r & j & ->).
  eexists _, _. split; [exact E|]. split; [split|split; [apply lookup_insert_eq|done]].
  - by apply inv_quiet, inv_quiet.
  - cbn. exists flag. apply lookup_insert_eq.
Qed.

Lemma link_spec h0 extra p v l s t :
  dev_inv h0 ((p, v) :: extra) l s t -> free_context h0 ->
  wp (link_proc dev p) K s t (fun _ s' t' =>
    dev_inv h0 extra ((p, v) :: l) s' t' /\
    t' = (spin_unlock_bh (lock_of dev), 0) :: (spin_lock_bh (lock_of dev), 0) :: t).
Proof.
  intros [Hi Hf] H0. unfold link_proc. wp_run. cbn [view procsL].
  assert (Hi1 : HINV (Rlock (lock_of dev) :: owned (((p, v) :: extra) ++ l) ++ h0)
    ((p, v) :: extra) l (procs s) ((spin_lock_bh (lock_of dev), 0) :: t)).
  { apply inv_lock; [done..|by apply owned_atomic|done]. }
  destruct (inv_list_add offsetof_list (list_of dev) _ _ _ _ K _ _ Hi1) as (ps & E & Hi2 & _).
  cbn [fst] in E. wp_by E. split; [|done]. split; [|done]. cbn.
  apply (inv_rest_perm _ _ (owned (((p, v) :: extra) ++ l) ++ h0)); [|by eapply inv_release].
  unfold owned. cbn [app]. by rewrite Permutation_middle.
Qed.

(** What the handler does in each mode, and the events in which it does it. *)
Lemma handler_run h0 extra l flag s t :
  dev_inv h0 extra l s t -> free_context h0 -> flags s !! dev = Some flag ->
  wp (timer_handler dev) K s t (fun _ s' t' => flags s' = flags s /\ exists later, t' = later ++ t /\
    if decide (flag = TIMER_TYPE_MONITOR) then
      Forall reaping later /\ exists sts, Forall2 state_read sts l /\
        task_reads later = zip (task_of <$> l) sts /\ dev_inv h0 extra (alive sts l) s' t'
    else s' = s /\ dev_inv h0 extra l s' t' /\ exists r, later =
      (if decide (flag = TIMER_TYPE_ALLOC) then [(schedule_work (work_of dev), r)] else []) ++
      [(printk "[timer_handler]\n" [], 0)]).
Proof.
  intros [Hi Hs] H0 Hf. unfold timer_handler. wp_run.
  rewrite (wp_load _ flag) by done. cbn [upd view flagsL].
  assert (Es : State (flags s) (procs s) = s) by by destruct s. rewrite Es.
  set (t1 := (printk _ _, 0) :: t).
  assert (Hi1 : HINV (owned (extra ++ l) ++ h0) extra l (procs s) t1) by by apply inv_quiet.
  destruct (decide (flag = TIMER_TYPE_SET)) as [->|]; [|destruct (decide (flag = TIMER_TYPE_ALLOC)) as [->|];
    [|destruct (decide (flag = TIMER_TYPE_MONITOR)) as [->|]]]; wp_run.
  - split; [done|]. exists [(printk "[timer_handler]\n" [], 0)]. split; [done|].
    split; [done|]. split; [done|by exists 0].
  - split; [done|]. eexists [_; _]. split; [reflexivity|]. split; [done|].
    split; [|by eexists]. split; [|done]. by apply inv_quiet.
  - set (t2 := (spin_lock_irqsave _, 0) :: t1).
    assert (Hi2 : HINV (owned (extra ++ l) ++ Rlock (lock_of dev) :: h0) extra l (procs s) t2).
    { eapply inv_rest_perm; [|apply inv_lock; [done..|by apply owned_atomic|exact Hi1]].
      apply Permutation_middle. }
    eapply wp_mono; [apply (reap_all_spec (Rlock (lock_of dev) :: h0) extra l); exact Hi2|].
    intros r ps2 t3 (-> & sts & later & Hst & -> & Hl & Hrd & Hi3). wp_run.
    split; [done|]. exists ((spin_unlock_irqrestore (lock_of dev), 0) :: later ++
      [(spin_lock_irqsave (lock_of dev), 0); (printk "[timer_handler]\n" [], 0)]).
    split; [cbn; by rewrite <- app_assoc|]. split.
    { apply Forall_cons_2; [done|]. apply Forall_app. split; [done|]. by repeat apply Forall_cons_2. }
    exists sts. split; [done|]. split; [cbn; by rewrite task_reads_app|]. split; [|done].
    eapply inv_release; [done|]. eapply inv_rest_perm; [|exact Hi3].
    symmetry. apply Permutation_middle.
  - split; [done|]. exists [(printk "[timer_handler]\n" [], 0)]. split; [done|].
    split; [done|]. split; [done|by exists 0].
Qed.

Lemma handler_spec h0 extra l flag s t :
  dev_inv h0 extra l s t -> free_context h0 -> flags s !! dev = Some flag ->
  wp (timer_handler dev) K s t (fun _ s' t' => flags s' = flags s /\
    exists later, t' = later ++ t /\ Forall harmless later /\
    if decide (flag = TIMER_TYPE_MONITOR) then
      exists sts, Forall2 state_read sts l /\ dev_inv h0 extra (alive sts l) s' t'
    else s' = s /\ dev_inv h0 extra l s' t').
Proof.
  intros Hi H0 Hf. eapply wp_mono; [by apply (handler_run h0 extra l flag)|].
  intros _ s' t' (Ef & later & -> & HQ). split; [done|]. exists later. split; [done|].
  destruct (decide (flag = TIMER_TYPE_MONITOR)).
  - destruct HQ as (Hl & sts & Hst & _ & Hi'). split; [by apply reaping_harmless|by exists sts].
  - destruct HQ as (-> & Hi' & r & ->). split; [|done].
    apply Forall_app. split; [by destruct (decide _); repeat apply Forall_cons_2|].
    by repeat apply Forall_cons_2.
Qed.

(** The loop of the exit function gives everything back. *)
Lemma drop_all_spec h0 l ps t :
  HINV (owned l ++ h0) [] l ps t ->
  wp (list_for_each_safe offsetof_list (list_of dev) (drop_proc dev)) K ps t
    (fun _ ps' t' => HINV h0 [] [] ps' t').
Proof.
  intros Hi. eapply wp_mono.
  { apply (inv_for_each_safe offsetof_list (list_of dev) K [] (drop_proc dev)
      (fun kept todo t' => kept = []) (fun _ _ _ => False) (fun l => owned l ++ h0) l); [done|done|].
    intros l1 [p v] l2 ps0 t1 Hi1 ->. cbn [fst]. unfold drop_proc. rewrite entry_of.
    assert (E1 : obj_load p K ps0 t1 = Done v ps0 t1) by (eapply inv_load_list; [done|by left]).
    destruct (drop_entry (owned l2 ++ h0) [] [] p v l2 ps0 t1 Hi1) as (ps1 & ps2 & E2 & E3 & Hi2).
    wp_run. wp_by E1. wp_by E2. wp_by E3. by exists []. }
  intros [[]|] ps1 t1; [done|]. by intros (l' & Hi1 & ->).
Qed.

Lemma ioctl_simple h0 extra l cmd arg s t :
  dev_inv h0 extra l s t -> cmd <> MY_IOCTL_TIMER_MONITOR ->
  exists s' t', timer_ioctl dev cmd arg K s t = Done 0 s' t' /\ dev_inv h0 extra l s' t' /\
    procs s' = procs s.
Proof.
  intros Hi Hm. unfold timer_ioctl.
  assert (Hq : forall e, quiet e = true -> dev_inv h0 extra l s (e :: t)).
  { intros e He. destruct Hi as [Hi Hf]. split; [by apply inv_quiet|done]. }
  destruct (decide (cmd = MY_IOCTL_TIMER_SET)); [|destruct (decide (cmd = MY_IOCTL_TIMER_CANCEL));
    [|destruct (decide (cmd = MY_IOCTL_TIMER_ALLOC))]]; rewrite ?decide_False by done.
  - destruct (arm_inv h0 extra l TIMER_TYPE_SET (u64 (arg * HZ)) s _
      (Hq (printk "[TIMER SET]\n" [], 0) eq_refl)) as (s1 & t1 & E & Hi1 & _ & Hp).
    exists s1, t1. split; [|done]. erewrite run_bind by reflexivity. by rewrite (run_bind _ _ _ _ _ _ _ _ E).
  - eexists _, _. split; [reflexivity|]. split; [|done].
    destruct Hi as [Hi Hf]. split; [|done]. by apply inv_quiet, inv_quiet.
  - destruct (arm_inv h0 extra l TIMER_TYPE_ALLOC (u64 (arg * HZ)) s _
      (Hq (printk "[TIMER ALLOC]\n" [], 0) eq_refl)) as (s1 & t1 & E & Hi1 & _ & Hp).
    exists s1, t1. split; [|done]. erewrite run_bind by reflexivity. by rewrite (run_bind _ _ _ _ _ _ _ _ E).
  - by eexists _, _.
Qed.

(** ** A loaded driver *)

(** Where an ioctl caller is: a timer or another caller can run in between. *)
Inductive caller := Ready | GotProc (p : Z) | Linked.

Abbreviation system := (list caller * state L * trace)%type.

Definition monitor_get (arg : Z) : M (state L) Z :=
  pr_info "[TIMER MONITOR]\n" [] ;; zoom procsL (get_proc (s32 arg)).

Inductive step : system -> system -> Prop :=
  | call_open cs s t r s' t' :
      timer_open (cdev_of dev) K s t = Done r s' t' -> step (cs, s, t) (cs, s', t')
  | call_release cs s t r s' t' :
      timer_release K s t = Done r s' t' -> step (cs, s, t) (cs, s', t')
  | call_ioctl i cs cmd arg s t r s' t' :
      cs !! i = Some Ready -> cmd <> MY_IOCTL_TIMER_MONITOR ->
      timer_ioctl dev cmd arg K s t = Done r s' t' -> step (cs, s, t) (cs, s', t')
  | call_monitor i cs arg s t p s' t' :
      cs !! i = Some Ready -> monitor_get arg K s t = Done p s' t' ->
      step (cs, s, t) (if IS_ERR p then cs else <[i := GotProc p]> cs, s', t')
  | call_link i cs p s t u s' t' :
      cs !! i = Some (GotProc p) -> link_proc dev p K s t = Done u s' t' ->
      step (cs, s, t) (<[i := Linked]> cs, s', t')
  | call_arm i cs s t u s' t' :
      cs !! i = Some Linked -> arm dev TIMER_TYPE_MONITOR HZ K s t = Done u s' t' ->
      step (cs, s, t) (<[i := Ready]> cs, s', t')
  | timer_fires cs s t u s' t' :
      timer_handler dev K s t = Done u s' t' -> step (cs, s, t) (cs, s', t')
  | work_runs cs s t u s' t' :
      work_handler K s t = Done u s' t' -> step (cs, s, t) (cs, s', t').

(** The entry a caller has allocated and not linked yet. *)
Definition pending (c : caller) : option Z := match c with GotProc p => Some p | _ => None end.

Definition sys_inv (h0 : list resource) (sys : system) : Prop :=
  let '(cs, s, t) := sys in
  exists extra l, dev_inv h0 extra l s t /\ extra.*1 ≡ₚ omap pending cs.

Lemma pending_step h0 extra extra' l' cs i c c' s' t' :
  cs !! i = Some c -> extra.*1 ≡ₚ omap pending cs ->
  option_list (pending c) ++ extra'.*1 ≡ₚ option_list (pending c') ++ extra.*1 ->
  dev_inv h0 extra' l' s' t' -> sys_inv h0 (<[i := c']> cs, s', t').
Proof.
  intros Ei He Hp Hi. exists extra', l'. split; [done|].
  apply (Permutation_app_inv_l (option_list (pending c))).
  by rewrite (omap_insert pending cs i c c'), Hp, He.
Qed.

Lemma dev_inv_quiet h0 extra l s t e :
  quiet e = true -> dev_inv h0 extra l s t -> dev_inv h0 extra l s (e :: t).
Proof. intros Hq [Hi Hf]. split; [by apply inv_quiet|done]. Qed.

Lemma dev_inv_perm h0 extra extra' l s t :
  extra ≡ₚ extra' -> dev_inv h0 extra l s t -> dev_inv h0 extra' l s t.
Proof.
  intros Hp [Hi Hf]. split; [|done]. apply (inv_rest_perm _ _ (owned (extra ++ l) ++ h0)).
  - unfold owned. by rewrite Hp.
  - by eapply inv_perm.
Qed.

Lemma pending_front h0 extra l cs i p s t :
  cs !! i = Some (GotProc p) -> extra.*1 ≡ₚ omap pending cs -> dev_inv h0 extra l s t ->
  exists v extra', extra ≡ₚ (p, v) :: extra' /\ dev_inv h0 ((p, v) :: extra') l s t.
Proof.
  intros Ei He Hi.
  assert (Hin : p ∈ extra.*1).
  { rewrite He. apply list_elem_of_omap. exists (GotProc p). split; [|done].
    by eapply list_elem_of_lookup_2. }
  pose proof Hi as [Hh _].
  destruct (inv_front offsetof_list (list_of dev) _ _ _ _ _ p Hin Hh) as (v & extra' & Hp & _).
  exists v, extra'. split; [done|]. by eapply dev_inv_perm.
Qed.

Lemma monitor_get_spec h0 extra l arg s t :
  dev_inv h0 extra l s t -> no_error_pointers K ->
  let t1 := (printk "[TIMER MONITOR]\n" [], 0) :: t in
  let tk := found (s32 arg) t1 in
  wp (monitor_get arg) K s t (fun p s' t' =>
    if decide (tk = NULL) then
      p = ERR_PTR (- ESRCH) /\ IS_ERR p = true /\ s' = s /\ dev_inv h0 extra l s t'
    else if decide (memory (s32 arg) t1 = NULL) then
      p = ERR_PTR (- ENOMEM) /\ IS_ERR p = true /\ s' = s /\ dev_inv h0 extra l s t'
    else p = memory (s32 arg) t1 /\ IS_ERR p = false /\
      dev_inv h0 ((p, Monitor tk) :: extra) l s' t' /\
      exists v, t' = get_proc_trace (s32 arg) tk p v t1).
Proof.
  intros [Hi Hf] Hne t1 tk. unfold monitor_get. wp_run. cbn [view procsL]. fold t1.
  eapply wp_mono; [apply (get_proc_spec (owned (extra ++ l) ++ h0) extra l); [by apply inv_quiet|done]|].
  intros p ps' t'. fold tk.
  assert (Es : upd procsL (procs s) s = s) by by destruct s.
  destruct (decide (tk = NULL)); [|destruct (decide (memory (s32 arg) t1 = NULL))].
  - intros (-> & -> & Hi'). rewrite Es. split_and!; [done|by apply is_err|done|by split].
  - intros (-> & -> & Hi'). rewrite Es. split_and!; [done|by apply is_err|done|by split].
  - intros (-> & HE & Ht & Hi'). by split_and!.
Qed.

(** The same, with the outcomes that [step] distinguishes. *)
Lemma monitor_get_cases h0 extra l arg s t p s' t' :
  dev_inv h0 extra l s t -> no_error_pointers K -> monitor_get arg K s t = Done p s' t' ->
  if IS_ERR p then s' = s /\ dev_inv h0 extra l s t'
  else exists v, dev_inv h0 ((p, v) :: extra) l s' t'.
Proof.
  intros Hi Hne E.
  pose proof (wp_run_eq _ _ _ _ _ _ _ _ (monitor_get_spec h0 extra l arg s t Hi Hne) E) as HQ.
  cbn in HQ. repeat destruct (decide _); destruct HQ as (-> & -> & HQ); [done..|].
  destruct HQ as [? _]. eauto.
Qed.

(** The monitor ioctl is the three steps of a caller. *)
Lemma ioctl_monitor_split arg :
  NoDup [MY_IOCTL_TIMER_SET; MY_IOCTL_TIMER_CANCEL; MY_IOCTL_TIMER_ALLOC; MY_IOCTL_TIMER_MONITOR] ->
  forall s t, timer_ioctl dev MY_IOCTL_TIMER_MONITOR arg K s t =
    (p ← monitor_get arg;
     if IS_ERR p then mret (PTR_ERR p) else
     link_proc dev p ;; arm dev TIMER_TYPE_MONITOR HZ ;; mret 0) K s t.
Proof.
  intros Hnd s t. unfold timer_ioctl.
  rewrite !NoDup_cons, !not_elem_of_cons in Hnd. destruct Hnd as ((?&?&?&_)&(?&?&_)&(?&_)&_).
  rewrite !decide_False, decide_True by congruence. unfold monitor_get, mbind, M_bind. cbn.
  by destruct (zoom procsL _ K s _).
Qed.

Lemma work_spec h0 extra l s t :
  dev_inv h0 extra l s t -> free_context h0 ->
  exists t', work_handler K s t = Done () s t' /\ dev_inv h0 extra l s t'.
Proof.
  intros [Hi Hf] H0. eexists. split; [reflexivity|]. split; [|done].
  apply inv_quiet; [done|]. apply inv_blocking; [done..|by apply owned_atomic|].
  by apply inv_quiet.
Qed.

Lemma caller_step_preserves h0 sys sys' :
  free_context h0 -> no_error_pointers K -> sys_inv h0 sys -> step sys sys' -> sys_inv h0 sys'.
Proof.
  intros H0 Hne Hinv Hst.
  destruct Hst as [cs s t r s' t' E|cs s t r s' t' E|i cs cmd arg s t r s' t' Ei Hm E
    |i cs arg s t p s' t' Ei E|i cs p s t u s' t' Ei E|i cs s t u s' t' Ei E
    |cs s t u s' t' E|cs s t u s' t' E]; destruct Hinv as (extra & l & Hi & He).
  - injection E as <- <- <-. exists extra, l. split; [by apply dev_inv_quiet|done].
  - injection E as <- <- <-. exists extra, l. split; [by apply dev_inv_quiet|done].
  - destruct (ioctl_simple h0 extra l cmd arg s t Hi Hm) as (s1 & t1 & E' & Hi' & _).
    rewrite E in E'. simplify_eq. by exists extra, l.
  - pose proof (monitor_get_cases _ _ _ _ _ _ _ _ _ Hi Hne E) as HQ. destruct (IS_ERR p).
    + destruct HQ as [-> Hi']. by exists extra, l.
    + destruct HQ as [v Hi']. eapply (pending_step h0 extra); [done..| |done]. done.
  - destruct (pending_front _ _ _ _ _ _ _ _ Ei He Hi) as (v & extra' & Hp & Hi1).
    pose proof (wp_run_eq _ _ _ _ _ _ _ _ (link_spec h0 extra' p v l s t Hi1 H0) E) as [Hi' _].
    eapply (pending_step h0 extra); [done..| |done]. by rewrite Hp.
  - destruct (arm_inv h0 extra l TIMER_TYPE_MONITOR HZ s t Hi) as (s1 & t1 & E' & Hi' & _).
    rewrite E in E'. simplify_eq. by eapply (pending_step h0 extra).
  - pose proof Hi as [_ [flag Hf]].
    pose proof (wp_run_eq _ _ _ _ _ _ _ _ (handler_spec h0 extra l flag s t Hi H0 Hf) E)
      as (_ & later & _ & _ & HQ).
    destruct (decide (flag = TIMER_TYPE_MONITOR)).
    + destruct HQ as (sts & _ & Hi'). by exists extra, (alive sts l).
    + destruct HQ as (-> & Hi'). by exists extra, l.
  - destruct (work_spec h0 extra l s t Hi H0) as (t1 & E' & Hi').
    rewrite E in E'. simplify_eq. by exists extra, l.
Qed.

Lemma run_preserves h0 l s t cs sys :
  dev_inv h0 [] l s t -> free_context h0 -> no_error_pointers K -> omap pending cs = [] ->
  rtc step (cs, s, t) sys -> sys_inv h0 sys.
Proof.
  intros Hi H0 Hne Hq Hst.
  assert (H1 : sys_inv h0 (cs, s, t)) by (exists [], l; by rewrite Hq).
  apply (rtc_keeps _ Hst); [|done]. intros x y Hxy Hx. by eapply caller_step_preserves.
Qed.

Section claims.
Context `{IL : !IoctlLaws}.

Lemma ioctl_monitor_run h0 extra l arg s t :
  dev_inv h0 extra l s t -> free_context h0 -> no_error_pointers K ->
  let t1 := (printk "[TIMER MONITOR]\n" [], 0) :: t in
  let tk := found (s32 arg) t1 in
  let p := memory (s32 arg) t1 in
  wp (timer_ioctl dev MY_IOCTL_TIMER_MONITOR arg) K s t (fun r s' t' =>
    if decide (tk = NULL) then r = - ESRCH /\ s' = s /\ dev_inv h0 extra l s t'
    else if decide (p = NULL) then r = - ENOMEM /\ s' = s /\ dev_inv h0 extra l s t'
    else r = 0 /\ dev_inv h0 extra ((p, Monitor tk) :: l) s' t' /\
      flags s' !! dev = Some TIMER_TYPE_MONITOR /\
      exists r j v, t' = [(mod_timer (timer_of dev) (u64 (u64 j + HZ)), r); (read_jiffies, j);
        (spin_unlock_bh (lock_of dev), 0); (spin_lock_bh (lock_of dev), 0)] ++
        get_proc_trace (s32 arg) tk p v t1).
Proof.
  intros Hi H0 Hne t1 tk p.
  rewrite (wp_ext _ _ _ _ _ _ (ioctl_monitor_split arg codes_distinct s t)), wp_bind.
  eapply wp_mono; [by apply (monitor_get_spec h0 extra l)|]. cbn zeta. fold t1 tk p.
  intros q s1 t2. destruct (decide (tk = NULL)); [|destruct (decide (p = NULL))].
  - intros (-> & -> & -> & Hi1). rewrite wp_ret. split; [by apply ptr_err|done].
  - intros (-> & -> & -> & Hi1). rewrite wp_ret. split; [by apply ptr_err|done].
  - intros (-> & -> & Hi1 & v & ->). wp_run.
    eapply wp_mono; [by apply (link_spec h0 extra p (Monitor tk) l)|].
    intros _ s2 t3 [Hi2 Et3]. pose proof Hi2 as [Hi3 Hf].
    destruct (arm_spec TIMER_TYPE_MONITOR HZ s2 t3 Hf) as (t4 & E & r & j & ->).
    wp_run. wp_by E. subst t3. split; [done|]. split.
    + split; [by apply inv_quiet, inv_quiet|]. exists TIMER_TYPE_MONITOR. apply lookup_insert_eq.
    + split; [apply lookup_insert_eq|]. by exists r, j, v.
Qed.

(** ** Claims about a device *)

(** No ioctl caller is between allocation and linking. *)
Abbreviation quiescent cs := (omap pending cs = []).

(** The account while the callers [cs] are in the middle of their ioctls. *)
Definition accounted (h0 : list resource) (cs : list caller) s t : Prop :=
  exists extra l, dev_inv h0 extra l s t /\ extra.*1 ≡ₚ omap pending cs.

(** Over every sequence of ioctls by any number of callers, firings of the
    timer (also in the middle of an ioctl), work items, opens and releases: the
    monitor list stays well formed, every monitored or pending entry owns its
    memory and one task reference and nothing else is held, locks are used
    correctly, and no operation that can come next faults. *)
Theorem driver_interleaving_safe h0 l s t cs cs' s' t' :
  dev_inv h0 [] l s t -> free_context h0 -> no_error_pointers K -> quiescent cs ->
  rtc step (cs, s, t) (cs', s', t') ->
  accounted h0 cs' s' t' /\
  oopsed (timer_handler dev K s' t') = false /\
  (forall cmd arg, oopsed (timer_ioctl dev cmd arg K s' t') = false) /\
  (forall i p, cs' !! i = Some (GotProc p) -> oopsed (link_proc dev p K s' t') = false) /\
  (forall i, cs' !! i = Some Linked -> oopsed (arm dev TIMER_TYPE_MONITOR HZ K s' t') = false).
Proof.
  intros Hi H0 Hne Hq Hst.
  assert (Hinv : sys_inv h0 (cs', s', t')) by by eapply run_preserves.
  clear Hst Hi. split; [done|]. destruct Hinv as (extra & l' & Hi & He). split_and!.
  - pose proof Hi as [_ [flag Hf]].
    pose proof (handler_spec h0 extra l' flag s' t' Hi H0 Hf) as Hwp.
    apply wp_done in Hwp as (u & s2 & t2 & -> & _). done.
  - intros cmd arg. destruct (decide (cmd = MY_IOCTL_TIMER_MONITOR)) as [Hm|Hm].
    + pose proof (ioctl_monitor_run h0 extra l' arg s' t' Hi H0 Hne) as Hwp.
      apply wp_done in Hwp as (u & s2 & t2 & E & _). by rewrite Hm, E.
    + destruct (ioctl_simple h0 extra l' cmd arg s' t' Hi Hm) as (s2 & t2 & -> & _). done.
  - intros i p Hc. destruct (pending_front _ _ _ _ _ _ _ _ Hc He Hi) as (v & extra' & Hp & Hi1).
    pose proof (link_spec h0 extra' p v l' s' t' Hi1 H0) as Hwp.
    apply wp_done in Hwp as (u & s2 & t2 & -> & _). done.
  - intros i _. destruct (arm_inv h0 extra l' TIMER_TYPE_MONITOR HZ s' t' Hi) as (s2 & t2 & -> & _).
    done.
Qed.

(** When the timer fires in monitoring mode the handler leaves exactly the
    entries whose task it read as not dead, in their order; each of the others
    is unlinked, its task reference dropped and its memory freed.  The handler
    sleeps nowhere and does not arm the timer again. *)
Theorem timer_handler_reaps h0 l s t :
  dev_inv h0 [] l s t -> free_context h0 -> flags s !! dev = Some TIMER_TYPE_MONITOR ->
  wp (timer_handler dev) K s t (fun _ s' t' => exists sts later,
    Forall2 state_read sts l /\ dev_inv h0 [] (alive sts l) s' t' /\ flags s' = flags s /\
    t' = later ++ t /\ Forall harmless later).
Proof.
  intros Hi H0 Hf. eapply wp_mono; [by apply (handler_spec h0 [] l TIMER_TYPE_MONITOR)|].
  intros _ s' t' (Ef & later & -> & Hl & HQ). rewrite decide_True in HQ by done.
  destruct HQ as (sts & Hst & Hi'). by exists sts, later.
Qed.


(** The monitor ioctl.  Without such a process it returns -ESRCH and
    without memory -ENOMEM, the driver's state and what is held unchanged.
    Otherwise it returns 0 with a new first entry for the task, which owns a
    reference, the mode is monitoring, and the timer is armed one second after
    the reading of [jiffies]. *)
Theorem ioctl_monitor_spec h0 l arg s t :
  dev_inv h0 [] l s t -> free_context h0 -> no_error_pointers K ->
  let t1 := (printk "[TIMER MONITOR]\n" [], 0) :: t in
  let tk := found (s32 arg) t1 in
  let p := memory (s32 arg) t1 in
  wp (timer_ioctl dev MY_IOCTL_TIMER_MONITOR arg) K s t (fun r s' t' =>
    if decide (tk = NULL) then r = - ESRCH /\ s' = s /\ dev_inv h0 [] l s t'
    else if decide (p = NULL) then r = - ENOMEM /\ s' = s /\ dev_inv h0 [] l s t'
    else r = 0 /\ dev_inv h0 [] ((p, Monitor tk) :: l) s' t' /\
      flags s' !! dev = Some TIMER_TYPE_MONITOR /\
      exists r j later, t' = [(mod_timer (timer_of dev) (u64 (u64 j + HZ)), r);
        (read_jiffies, j)] ++ later ++ t).
Proof.
  intros Hi H0 Hne t1 tk p. eapply wp_mono; [by apply (ioctl_monitor_run h0 [] l)|].
  cbn zeta. fold t1 tk p. intros r s' t'.
  destruct (decide (tk = NULL)); [done|]. destruct (decide (p = NULL)); [done|].
  intros (-> & Hi' & Hf & r' & j & v & ->). split_and!; [done..|].
  eexists r', j, [_; _; _; _; _; _; _; _; _]. reflexivity.
Qed.

(** The other ioctls return 0 and touch neither the list nor anything held:
    SET and ALLOC select their mode and arm the timer [arg] seconds (modulo
    2^64 ticks) after the reading of [jiffies], CANCEL deletes the timer and
    keeps the mode, and an unknown command does nothing. *)
Theorem ioctl_commands h0 l cmd arg s t :
  dev_inv h0 [] l s t -> cmd <> MY_IOCTL_TIMER_MONITOR ->
  exists s' t', timer_ioctl dev cmd arg K s t = Done 0 s' t' /\ dev_inv h0 [] l s' t' /\
    procs s' = procs s /\
    let armed flag msg := flags s' = <[dev := flag]> (flags s) /\ exists r j,
      t' = [(mod_timer (timer_of dev) (u64 (u64 j + u64 (arg * HZ))), r); (read_jiffies, j);
            (printk msg [], 0)] ++ t in
    if decide (cmd = MY_IOCTL_TIMER_SET) then armed TIMER_TYPE_SET "[TIMER SET]\n"
    else if decide (cmd = MY_IOCTL_TIMER_CANCEL) then flags s' = flags s /\ exists r,
      t' = [(del_timer (timer_of dev), r); (printk "[TIMER CANCEL]\n" [], 0)] ++ t
    else if decide (cmd = MY_IOCTL_TIMER_ALLOC) then armed TIMER_TYPE_ALLOC "[TIMER ALLOC]\n"
    else flags s' = flags s /\ t' = t.
Proof.
  intros Hi Hm. destruct (ioctl_simple h0 [] l cmd arg s t Hi Hm) as (s' & t' & E & Hi' & Hp).
  exists s', t'. split; [done|]. split; [done|]. split; [done|].
  destruct Hi as [_ Hf]. unfold timer_ioctl in E.
  destruct (decide (cmd = MY_IOCTL_TIMER_SET)); [|destruct (decide (cmd = MY_IOCTL_TIMER_CANCEL));
    [|destruct (decide (cmd = MY_IOCTL_TIMER_ALLOC))]]; rewrite ?decide_False in E by done.
  - destruct (arm_spec TIMER_TYPE_SET (u64 (arg * HZ)) s ((printk "[TIMER SET]\n" [], 0) :: t) Hf)
      as (t2 & E2 & r & j & ->).
    erewrite run_bind in E by reflexivity. rewrite (run_bind _ _ _ _ _ _ _ _ E2) in E.
    injection E as <- <-. split; [done|]. by exists r, j.
  - injection E as <- <-. split; [done|]. by eexists.
  - destruct (arm_spec TIMER_TYPE_ALLOC (u64 (arg * HZ)) s ((printk "[TIMER ALLOC]\n" [], 0) :: t) Hf)
      as (t2 & E2 & r & j & ->).
    erewrite run_bind in E by reflexivity. rewrite (run_bind _ _ _ _ _ _ _ _ E2) in E.
    injection E as <- <-. split; [done|]. by exists r, j.
  - by injection E as <- <-.
Qed.

(** [get_proc] takes its reference to the task after the RCU section in
    which it found the task: in the history of every successful call the
    section is already closed when [get_task_struct] is called. *)
Theorem get_proc_reference_after_rcu h0 l arg s t :
  dev_inv h0 [] l s t -> no_error_pointers K -> Rrcu ∉ h0 ->
  wp (zoom procsL (get_proc arg)) K s t (fun p s' t' => IS_ERR p = false ->
    exists before, t' = (get_task_struct (found arg t), 0) :: before /\ Rrcu ∉ held before).
Proof.
  intros [Hi Hf] Hne Hr. rewrite wp_zoom.
  eapply wp_mono; [by apply (get_proc_spec (owned l ++ h0) [] l)|].
  intros p ps' t'. destruct (decide _); [intros (-> & _) HE; rewrite is_err in HE; [discriminate HE|done]|].
  destruct (decide _); [intros (-> & _) HE; rewrite is_err in HE; [discriminate HE|done]|].
  intros (-> & _ & (v & ->) & Hi') _. eexists. split; [reflexivity|].
  assert (Ht : Rrcu ∉ held t).
  { destruct Hi as [_ Ha _ _]. unfold account in Ha. rewrite Ha, !not_elem_of_app.
    split_and!; [..|done]; by intros (? & ? & _)%list_elem_of_fmap. }
  cbn. destruct (memory arg t =? 0); cbn; [done|]. by intros [?|?]%elem_of_cons.
Qed.

End claims.
End proofs.

(** ** Loading and unloading *)

(** The first call of the load. *)
Abbreviation REGION := (register_chrdev_region (MKDEV MAJOR_NUMBER MINOR_NUMBER) NUM_MINORS MODULE_NAME).

Section lifecycle.
Context {L : Type} `{LO : ListOps L} {chain : Z -> list Z -> L -> Prop} `{LL : !ListLaws L chain}.
Context `{EP : ErrPtr} `{EPL : !ErrPtrLaws} `{Io : Ioctl} `{IL : !IoctlLaws} `{Lay : Layout}
  `{Cfg : Config}.
Context (K : oracle) `{HK : !HeapLaws K offsetof_list (list_of (dev_addr 0))}.

Abbreviation dev := (dev_addr 0).
Abbreviation INV := (dev_inv (chain := chain) dev).

(** What a loaded driver holds. *)
Definition registered : list resource :=
  [Rcdev (cdev_of dev); Rchrdev (MKDEV MAJOR_NUMBER MINOR_NUMBER) NUM_MINORS].

(** The registrations succeed. *)
Definition registers : Prop :=
  (forall t d n nm, K t (register_chrdev_region d n nm) = 0) /\
  (forall t c d n, K t (cdev_add c d n) = 0).

Lemma init_refused s t :
  K t REGION <> 0 -> deferred_init K s t = Done (K t REGION) s
    ((printk "[ERROR] failed to register device in chrdev region\n" [], 0) :: (REGION, K t REGION) :: t).
Proof.
  intros Hr. unfold deferred_init. erewrite run_bind by reflexivity. by rewrite decide_True.
Qed.

Abbreviation ADD := (cdev_add (cdev_of dev) (MKDEV MAJOR_NUMBER 0) 1).

(** What [cdev_add] answers, and the load whatever it is. *)
Definition added t : Z := K ((cdev_init (cdev_of dev), 0) :: (REGION, 0) :: t) ADD.
Definition init_trace t : trace :=
  (printk "[LOG] registered %s char device in memory success\n" [KStr MODULE_NAME], 0) ::
  (spin_lock_init (lock_of dev), 0) :: (INIT_WORK (work_of dev), 0) :: (timer_setup (timer_of dev), 0) ::
  (ADD, added t) :: (cdev_init (cdev_of dev), 0) :: (REGION, 0) :: t.

Lemma init_eq (l0 : L) f0 t :
  K t REGION = 0 ->
  deferred_init K (State {[dev := f0]} (LState ∅ l0)) t =
    Done 0 (State (<[dev := TIMER_TYPE_NONE]> {[dev := f0]})
      (LState ∅ (INIT_LIST_HEAD (list_of dev) l0))) (init_trace t).
Proof.
  intros Hr. set (s := State _ _). set (c1 := REGION) in *.
  assert (E1 : init_device 0 K s ((c1, 0) :: t) = Done ()
    (State (<[dev := TIMER_TYPE_NONE]> {[dev := f0]}) (LState ∅ (INIT_LIST_HEAD (list_of dev) l0)))
    (tail (init_trace t))).
  { unfold init_device. run_all. unfold zoom, store. cbn. by rewrite lookup_singleton_eq. }
  unfold deferred_init. erewrite run_bind by reflexivity. fold c1. rewrite Hr.
  rewrite decide_False by lia.
  by rewrite (run_bind _ _ _ _ _ _ _ _ (for_range_1 _ _ _ _ _ _ _ E1)).
Qed.

Lemma init_spec (l0 : L) f0 t :
  K t REGION = 0 -> added t = 0 ->
  disciplined t = true -> free_context (held t) ->
  exists s' t', deferred_init K (State {[dev := f0]} (LState ∅ l0)) t = Done 0 s' t' /\
    INV (registered ++ held t) [] [] s' t' /\ flags s' !! dev = Some TIMER_TYPE_NONE.
Proof.
  intros Hr Ha Hd H0. eexists _, _. split; [by apply init_eq|]. unfold init_trace. rewrite Ha. split.
  - split; [|exists TIMER_TYPE_NONE; apply lookup_insert_eq].
    apply inv_quiet; [done|]. split; [apply init_holds|unfold account; reflexivity| |apply Forall_nil_2].
    rewrite !disciplined_cons, Hd. cbn. unfold free_context in H0. by rewrite H0.
  - apply lookup_insert_eq.
Qed.

Lemma exit_spec h0 l s t :
  INV (registered ++ h0) [] l s t -> free_context h0 ->
  wp deferred_exit K s t (fun _ s' t' => held t' ≡ₚ h0 /\ disciplined t' = true).
Proof.
  intros [Hi Hf] H0. unfold deferred_exit. cbn [for_range Z.to_nat Pos.to_nat].
  change (Z.to_nat NUM_MINORS) with 1%nat. cbn [for_range]. unfold exit_device. wp_run.
  cbn [view procsL]. set (t1 := (del_timer _, _) :: _). set (h1 := Rchrdev (MKDEV MAJOR_NUMBER MINOR_NUMBER) NUM_MINORS :: h0).
  assert (Hi1 : heap_inv (chain := chain) offsetof_list (list_of dev) (owned l ++ h1) [] l (procs s) t1).
  { apply inv_quiet; [done|]. eapply inv_release; [done|]. apply inv_quiet; [done|].
    eapply inv_rest_perm; [|exact Hi]. cbn. symmetry. apply Permutation_middle. }
  eapply wp_mono.
  { apply (drop_all_spec K dev h1 l).
    apply inv_blocking; [done..|by apply owned_atomic|done]. }
  intros r ps' t' Hi2. wp_run.
  assert (Hi3 : heap_inv (chain := chain) offsetof_list (list_of dev) h0 [] [] ps'
    ((unregister_chrdev_region (MKDEV MAJOR_NUMBER MINOR_NUMBER) NUM_MINORS, 0) :: t')).
  { by eapply inv_release. }
  split; [apply Hi3|apply Hi3].
Qed.

(** C3: the life of the driver: a load whose registrations succeed returns 0;
    whatever then happens - ioctls by any number of callers, firing timers,
    work items - if no ioctl is in progress at the end, unloading gives back
    everything: the device, its number, and the memory and task reference of
    every process still monitored. *)
Theorem driver_load_run_unload (l0 : L) f0 t :
  registers -> no_error_pointers K -> disciplined t = true -> free_context (held t) ->
  wp deferred_init K (State {[dev := f0]} (LState ∅ l0)) t (fun r s1 t1 => r = 0 /\
    forall cs cs' s2 t2, omap pending cs = [] -> omap pending cs' = [] ->
    rtc (step K dev) (cs, s1, t1) (cs', s2, t2) ->
    wp deferred_exit K s2 t2 (fun _ s3 t3 => held t3 ≡ₚ held t /\ disciplined t3 = true)).
Proof.
  intros Hr Hne Hd H0. destruct (init_spec l0 f0 t ltac:(apply Hr) ltac:(apply Hr) Hd H0) as (s1 & t1 & E & Hi & _).
  wp_by E. split; [done|]. intros cs cs' s2 t2 Hc Hc' Hst.
  assert (Hf : free_context (registered ++ held t)) by done.
  destruct (run_preserves K dev _ [] s1 t1 cs (cs', s2, t2) Hi Hf Hne Hc Hst)
    as (extra & l & Hi2 & He).
  rewrite Hc' in He. apply Permutation_nil_r, fmap_nil_inv in He. subst extra.
  by apply (exit_spec (held t) l).
Qed.

End lifecycle.

(** ** Witnesses *)

Module Sample.

(** The encoding of asm-generic/ioctl.h. *)
#[export] Instance ioctl : Ioctl := {|
  IO ty nr := ty * 256 + nr;
  IOW ty nr size := 2 ^ 30 + size * 2 ^ 16 + ty * 256 + nr
|}.
#[export] Instance ioctl_laws : IoctlLaws.
Proof. split. by apply (bool_decide_unpack _). Defined.

(** The last 4095 addresses are the error pointers. *)
#[export] Instance err_ptr : ErrPtr := {|
  ERR_PTR e := wrap 64 e;
  IS_ERR p := 2 ^ 64 - 4095 <=? p;
  PTR_ERR p := swrap 64 p
|}.
#[export] Instance err_ptr_laws : ErrPtrLaws.
Proof.
  split; intros e He; cbn; unfold wrap, swrap; [apply Z.leb_le|];
    Z.to_euclidean_division_equations; lia.
Defined.

#[export] Instance layout : Layout := Build_Layout 1024 512 0 104 144 176 196 24 8.
#[export] Instance config : Config := Build_Config 250 12.

(** Task [p] is dead when [p] is even; there is memory and every task exists. *)
Definition kernel : oracle := fun t c =>
  match c with
  | pid_task p => p + 100
  | task_state tk => if Z.even tk then TASK_DEAD else 0
  | _ => SampleKernel.kernel t c
  end.

#[export] Instance heap : HeapLaws kernel offsetof_list (list_of (dev_addr 0)).
Proof.
  split; intros t n f _; cbn.
  - intros Hin%SampleKernel.fresh_above. lia.
  - change (list_of (dev_addr 0)) with 1200. change offsetof_list with 8.
    pose proof (SampleKernel.fresh_large t). lia.
Defined.

(** Addresses stay small on the histories of the witnesses; in general the
    allocator is the sample one capped below the error pointers. *)
Definition capped : oracle := fun t c =>
  match c with
  | kmalloc _ _ => if SampleKernel.fresh t <? 2 ^ 32 then SampleKernel.fresh t else NULL
  | _ => kernel t c
  end.

#[export] Instance capped_heap : HeapLaws capped offsetof_list (list_of (dev_addr 0)).
Proof.
  split; intros t n f; cbn; destruct (_ <? _); try done; intros _.
  - intros Hin%SampleKernel.fresh_above. lia.
  - change (list_of (dev_addr 0)) with 1200. change offsetof_list with 8.
    pose proof (SampleKernel.fresh_large t). lia.
Defined.

Lemma capped_pointers : no_error_pointers capped.
Proof.
  intros t n f. cbn. unfold IS_ERR. destruct (Z.ltb_spec (SampleKernel.fresh t) (2 ^ 32)).
  - apply Z.leb_gt. lia.
  - done.
Qed.

Abbreviation INV := (dev_inv (chain := DList.chain) (dev_addr 0)).

Definition entries : list obj := [(8192, Monitor 7); (4096, Monitor 8)].
Definition sample : state DList.mem :=
  State {[dev_addr 0 := TIMER_TYPE_MONITOR]} (LState (list_to_map entries)
    (list_insert 8200 1200 (list_insert 4104 1200 (INIT_LIST_HEAD 1200 ∅)))).
Definition past : trace :=
  [(get_task_struct 7, 0); (get_task_struct 8, 0);
   (kmalloc 24 GFP_ATOMIC, 8192); (kmalloc 24 GFP_ATOMIC, 4096)].

Lemma sample_inv : INV [] [] entries sample past.
Proof.
  split; [split|].
  - split; [|split; [done|]].
    + apply (chain_insert (chain := DList.chain)).
      * apply (chain_insert (chain := DList.chain)); [apply (chain_init (chain := DList.chain))|].
        by apply (bool_decide_unpack _).
      * by apply (bool_decide_unpack _).
    + by apply (bool_decide_unpack _).
  - unfold account. cbn.
    exact (Permutation_app_comm [Rtask 7; Rtask 8] [Rmem 8192; Rmem 4096]).
  - reflexivity.
  - by apply (bool_decide_unpack _).
  - by exists TIMER_TYPE_MONITOR.
Qed.

End Sample.
Import Sample.

Lemma driver_interleaving_safe_witness :
  let cs := [Ready; Ready] in
  accounted (chain := DList.chain) (dev_addr 0) [] cs sample past /\
  oopsed (timer_handler (dev_addr 0) capped sample past) = false /\
  (forall cmd arg, oopsed (timer_ioctl (dev_addr 0) cmd arg capped sample past) = false) /\
  (forall i p, cs !! i = Some (GotProc p) ->
     oopsed (link_proc (dev_addr 0) p capped sample past) = false) /\
  (forall i, cs !! i = Some Linked ->
     oopsed (arm (dev_addr 0) TIMER_TYPE_MONITOR HZ capped sample past) = false).
Proof.
  apply (driver_interleaving_safe (chain := DList.chain) capped (dev_addr 0) [] entries
    sample past [Ready; Ready]); [exact sample_inv|done|exact capped_pointers|done|apply rtc_refl].
Defined.

Lemma timer_handler_reaps_witness :
  wp (timer_handler (dev_addr 0)) kernel sample past (fun _ s' t' => exists sts later,
    Forall2 (state_read kernel) sts entries /\ INV [] [] (alive sts entries) s' t' /\
    flags s' = flags sample /\ t' = later ++ past /\ Forall harmless later).
Proof. apply (timer_handler_reaps kernel (dev_addr 0) []); [exact sample_inv|done|done]. Defined.

Lemma ioctl_monitor_spec_witness :
  wp (timer_ioctl (dev_addr 0) MY_IOCTL_TIMER_MONITOR 3) capped sample past (fun r s' t' =>
    r = 0 /\ INV [] [] ((12288, Monitor 103) :: entries) s' t' /\
    flags s' !! dev_addr 0 = Some TIMER_TYPE_MONITOR /\ exists r j later,
      t' = [(mod_timer (timer_of (dev_addr 0)) (u64 (u64 j + HZ)), r);
        (read_jiffies, j)] ++ later ++ past).
Proof.
  eapply wp_mono.
  { apply (ioctl_monitor_spec (chain := DList.chain) capped (dev_addr 0) [] entries);
      [exact sample_inv|done|exact capped_pointers]. }
  cbv zeta beta. intros r s' t' HQ.
  by rewrite !decide_False in HQ by by vm_compute.
Defined.

Lemma ioctl_commands_witness :
  exists s' t', timer_ioctl (dev_addr 0) 0 5 kernel sample past = Done 0 s' t' /\
    INV [] [] entries s' t' /\ procs s' = procs sample.
Proof.
  destruct (ioctl_commands (chain := DList.chain) kernel (dev_addr 0) [] entries 0 5 sample past)
    as (s' & t' & ? & ? & ? & _); [exact sample_inv|by vm_compute|by exists s', t'].
Defined.

Lemma get_proc_reference_after_rcu_witness :
  wp (zoom procsL (get_proc 3)) capped sample past (fun p s' t' => IS_ERR p = false ->
    exists before, t' = (get_task_struct (found capped 3 past), 0) :: before /\
      Rrcu ∉ held before).
Proof.
  apply (get_proc_reference_after_rcu (chain := DList.chain) capped (dev_addr 0) [] entries);
    [exact sample_inv|exact capped_pointers|apply not_elem_of_nil].
Defined.

Lemma driver_load_run_unload_witness :
  wp deferred_init capped (State {[dev_addr 0 := 0]} (LState ∅ (∅ : DList.mem))) []
    (fun r s1 t1 => r = 0 /\
    forall cs cs' s2 t2, omap pending cs = [] -> omap pending cs' = [] ->
    rtc (step capped (dev_addr 0)) (cs, s1, t1) (cs', s2, t2) ->
    wp deferred_exit capped s2 t2 (fun _ s3 t3 => held t3 ≡ₚ [] /\ disciplined t3 = true)).
Proof.
  apply (driver_load_run_unload (chain := DList.chain) capped ∅ 0 []);
    [done|exact capped_pointers|done|done].
Defined.

End Timer.
