(* ===== verification/TimerRace.v ===== *)
(** * A timer handler that runs on while the timer driver is unloaded

    [deferred_exit] deletes the timer with [del_timer], which does not wait for
    a handler that has started, and it walks the list without the lock of the
    device.  Here its loop is cut into the accesses that such a handler can come
    between, and one handler is interleaved with it. *)

From S2P Require Import Prelude Kernel Monad KList Timer.

Module TimerRace.
Import Timer.

(** Where the loop of [deferred_exit] is: about to read the successor of the
    entry at [p], about to drop the entry at [p] with [q] next, or done. *)
Inductive exit_pc :=
  | Next (p : Z)
  | Drop (p q : Z)
  | Left.

Section code.
Context {L : Type} `{LO : ListOps L} `{EP : ErrPtr} `{Io : Ioctl} `{Lay : Layout} `{Cfg : Config}.
Context (dev : Z).
Abbreviation MP := (M (lstate L monitor_process)).

(** One access of the loop. *)
Definition exit_step (c : exit_pc) : MP exit_pc :=
  match c with
  | Next p =>
      if decide (p = list_of dev) then mret Left else
      q ← node_next offsetof_list (list_of dev) p;
      mret (Drop p q)
  | Drop p q => drop_proc dev p ;; mret (Next q)
  | Left => mret Left
  end.

Fixpoint exit_steps (n : nat) (c : exit_pc) : MP exit_pc :=
  match n with
  | O => mret c
  | S n' => c' ← exit_step c; exit_steps n' c'
  end.

(** The unload and a handler that had started when [del_timer] was called;
    [true] while it is still to run. *)
Abbreviation system := (exit_pc * bool * state L * trace)%type.

Inductive step (K : oracle) : system -> system -> Prop :=
  | exit_moves c c' b s t ps' t' :
      exit_step c K (procs s) t = Done c' ps' t' ->
      step K (c, b, s, t) (c', b, State (flags s) ps', t')
  | handler_runs c s t s' t' :
      timer_handler dev K s t = Done () s' t' ->
      step K (c, true, s, t) (c, false, s', t').

End code.

Section proofs.
Context {L : Type} `{LO : ListOps L} {chain : Z -> list Z -> L -> Prop} `{LL : !ListLaws L chain}.
Context `{EP : ErrPtr} `{EPL : !ErrPtrLaws} `{Io : Ioctl} `{Lay : Layout} `{Cfg : Config}.
Context (K : oracle) (dev : Z) `{HK : !HeapLaws K offsetof_list (list_of dev)}.
Implicit Types (s : state L) (ps : lstate L monitor_process) (l : list obj) (t : trace).

Abbreviation INV := (dev_inv (chain := chain) dev).
Abbreviation node e := (e.1 + offsetof_list).

Lemma eta_state s : State (flags s) (procs s) = s.
Proof. by destruct s. Qed.

(** ** The steps alone are the loop *)

Lemma exit_left n ps t : exit_steps dev n Left K ps t = Done Left ps t.
Proof. induction n as [|n IH]; [done|]. cbn [exit_steps]. by erewrite run_bind by reflexivity. Qed.

Lemma exit_at_head n ps t :
  exit_steps dev (S n) (Next (list_of dev)) K ps t = Done Left ps t.
Proof.
  cbn [exit_steps exit_step]. rewrite decide_True by done.
  erewrite run_bind by reflexivity. apply exit_left.
Qed.

Lemma drop_proc_none n ps t r ps' t' : drop_proc dev n K ps t = Done r ps' t' -> r = None.
Proof.
  unfold drop_proc, mbind, M_bind, mret, M_ret. intros E. by repeat (case_match; simplify_eq).
Qed.

Lemma exit_alone n : forall p ps t ps' t',
  for_each_safe_from n offsetof_list (list_of dev) p (drop_proc dev) K ps t = Done None ps' t' ->
  exit_steps dev (S (2 * n)) (Next p) K ps t = Done Left ps' t'.
Proof.
  induction n as [|n IH]; intros p ps t ps' t' E.
  - cbn [for_each_safe_from] in E. destruct (decide (p = list_of dev)) as [->|]; [|done].
    injection E as <- <-. apply exit_at_head.
  - replace (2 * S n)%nat with (S (S (2 * n))) by lia. cbn [for_each_safe_from] in E.
    destruct (decide (p = list_of dev)) as [->|Hp]; [injection E as <- <-; apply exit_at_head|].
    set (k := S (2 * n)) in *. unfold mbind, M_bind in E.
    destruct (node_next _ _ _ _ _ _) as [q ps1 t1|] eqn:E1; [|done].
    destruct (drop_proc dev p K ps1 t1) as [r ps2 t2|] eqn:E2; [|done].
    pose proof (drop_proc_none _ _ _ _ _ _ E2) as ->.
    cbn [exit_steps]. erewrite run_bind.
    2: { cbn [exit_step]. rewrite decide_False by done. by erewrite run_bind. }
    cbn [exit_steps]. erewrite run_bind; [by apply IH|]. cbn [exit_step]. by erewrite run_bind.
Qed.

(** ** A handler in between *)

(** The history of dropping the entry [e]. *)
Abbreviation dropped e t := ((kfree e.1, 0) :: (put_task_struct (task e.2), 0) :: t).

Lemma drop_proc_spec h0 e l q s t :
  INV h0 [] (e :: l) s t ->
  exists ps', exit_step dev (Drop (node e) q) K (procs s) t = Done (Next q) ps' (dropped e t) /\
    INV h0 [] l (State (flags s) ps') (dropped e t).
Proof.
  destruct e as [p v]. intros [Hi Hf]. cbn [fst snd].
  assert (E1 : obj_load p K (procs s) t = Done v (procs s) t) by (eapply inv_load_list; [done|by left]).
  destruct (drop_entry K dev (owned l ++ h0) [] [] p v l (procs s) t Hi)
    as (ps1 & ps2 & E2 & E3 & Hi2).
  exists ps2. split; [|by split]. cbn [exit_step]. unfold drop_proc. rewrite entry_of.
  erewrite run_bind; [done|]. rewrite (run_bind _ _ _ _ _ _ _ _ E1).
  erewrite run_bind by reflexivity. rewrite (run_bind _ _ _ _ _ _ _ _ E2).
  by rewrite (run_bind _ _ _ _ _ _ _ _ E3).
Qed.

(** The handler in MONITOR mode, when the states of the tasks do not change. *)
Lemma handler_filters h0 l s t (st : Z -> Z) :
  INV h0 [] l s t -> free_context h0 -> flags s !! dev = Some TIMER_TYPE_MONITOR ->
  (forall t x, K t (task_state x) = st x) ->
  exists s' t', timer_handler dev K s t = Done () s' t' /\
    INV h0 [] (filter (fun o => st (task o.2) <> TASK_DEAD) l) s' t'.
Proof.
  intros Hi H0 Hf Hst. pose proof (handler_spec K dev h0 [] l _ s t Hi H0 Hf) as Hw.
  apply wp_done in Hw as ([] & s' & t' & E & _ & later & _ & _ & HQ).
  rewrite decide_True in HQ by done. destruct HQ as (sts & Hsts & Hi').
  exists s', t'. split; [done|]. rewrite <- alive_filter.
  enough (sts = (fun o => st (task o.2)) <$> l) as <- by done.
  clear -Hsts Hst. induction Hsts as [|x o xs l [t Ho] _ IH]; [done|].
  cbn. by rewrite Ho, Hst, IH.
Qed.

(** The loop goes on to the next entry. *)
Lemma read_step h0 l1 e l2 b s t :
  INV h0 [] (l1 ++ e :: l2) s t ->
  step dev K (Next (node e), b, s, t)
    (Drop (node e) (first_node offsetof_list (list_of dev) l2), b, s, t).
Proof.
  intros [[Hh _ _ _] _]. rewrite <- (eta_state s) at 2. apply exit_moves. cbn [exit_step].
  rewrite decide_False.
  2: { eapply holds_not_head; [done|]. apply elem_of_app. right. by left. }
  by rewrite (run_bind _ _ _ _ _ _ _ _ (first_node_next _ _ [] l1 e l2 K (procs s) t Hh)).
Qed.

(** Alone it drops every entry. *)
Lemma exit_runs h0 l : forall b s t,
  INV h0 [] l s t ->
  exists s' t', rtc (step dev K) (Next (first_node offsetof_list (list_of dev) l), b, s, t)
    (Left, b, s', t') /\ INV h0 [] [] s' t'.
Proof.
  induction l as [|e l IH]; intros b s t Hi.
  - exists (State (flags s) (procs s)), t. split; [|by rewrite eta_state].
    apply rtc_once, exit_moves. cbn [exit_step first_node]. by rewrite decide_True.
  - pose proof (read_step h0 [] e l b s t Hi) as Hr.
    destruct (drop_proc_spec h0 e l (first_node offsetof_list (list_of dev) l) s t Hi)
      as (ps' & Ed & Hi').
    destruct (IH b _ _ Hi') as (s2 & t2 & Hs & Hi2). exists s2, t2. split; [|done].
    eapply rtc_l; [exact Hr|]. eapply rtc_l; [by apply exit_moves|exact Hs].
Qed.

(** C17: an unload that races with a handler that [del_timer] did not wait for.
    The list starts with an entry whose task is alive and one whose task is dead.
    The exit function has read that the second is next; the handler frees it; the
    exit function drops the first, goes on to the second and reads freed memory.
    Without the handler the same loop runs to its end. *)
Theorem unload_races_handler h0 e f l s t (st : Z -> Z) :
  INV h0 [] (e :: f :: l) s t -> free_context h0 ->
  flags s !! dev = Some TIMER_TYPE_MONITOR ->
  (forall t x, K t (task_state x) = st x) ->
  st (task e.2) <> TASK_DEAD -> st (task f.2) = TASK_DEAD ->
  (exists s' t', rtc (step dev K) (Next (node e), true, s, t) (Next (node f), false, s', t') /\
    cells (procs s') !! f.1 = None /\
    exit_step dev (Next (node f)) K (procs s') t' = Oops (bad_access f.1) (procs s') t') /\
  exists s' t', rtc (step dev K) (Next (node e), false, s, t) (Left, false, s', t') /\
    INV h0 [] [] s' t'.
Proof.
  intros Hi H0 Hf Hst He Hd. split; [|by apply (exit_runs h0 (e :: f :: l))].
  destruct (handler_filters h0 _ s t st Hi H0 Hf Hst) as (s1 & t1 & Eh & Hi1).
  rewrite filter_cons_True, filter_cons_False in Hi1 by auto.
  destruct (drop_proc_spec h0 e _ (node f) s1 t1 Hi1) as (ps2 & Ed & Hi2).
  exists (State (flags s1) ps2), (dropped e t1).
  assert (Hc : cells ps2 !! f.1 = None).
  { destruct Hi2 as [[(_ & Ec & _) _ _ _] _]. cbn [procs] in Ec. rewrite Ec. apply not_elem_of_list_to_map_1. cbn.
    destruct Hi as [Hi _]. apply inv_nodup in Hi. cbn in Hi.
    apply NoDup_cons in Hi as [_ [Hnd _]%NoDup_cons]. intros Hin. apply Hnd.
    apply list_elem_of_fmap in Hin as (o & Ho & [_ Hin]%list_elem_of_filter).
    apply list_elem_of_fmap. by exists o. }
  split; [|split; [done|]].
  - eapply rtc_l; [by apply (read_step h0 [] e (f :: l))|].
    eapply rtc_l; [by apply handler_runs|]. apply rtc_once. by apply exit_moves.
  - cbn [procs exit_step]. rewrite decide_False.
    2: { destruct Hi as [[Hh _ _ _] _]. eapply holds_not_head; [done|]. right. by left. }
    unfold node_next, touch. rewrite decide_False.
    2: { destruct Hi as [[Hh _ _ _] _]. eapply holds_not_head; [done|]. right. by left. }
    rewrite entry_of. unfold obj_load, zoom, load, mbind, M_bind. cbn [view objs]. rewrite Hc.
    by destruct ps2.
Qed.

End proofs.

(** ** Witness *)

Import Timer.Sample.

Lemma unload_races_handler_witness :
  (exists s' t', rtc (step (dev_addr 0) kernel) (Next (8192 + offsetof_list), true, sample, past)
      (Next (4096 + offsetof_list), false, s', t') /\
    cells (procs s') !! 4096 = None /\
    exit_step (dev_addr 0) (Next (4096 + offsetof_list)) kernel (procs s') t' =
      Oops (bad_access 4096) (procs s') t') /\
  exists s' t', rtc (step (dev_addr 0) kernel) (Next (8192 + offsetof_list), false, sample, past)
      (Left, false, s', t') /\ INV [] [] [] s' t'.
Proof.
  apply (unload_races_handler (chain := DList.chain) kernel (dev_addr 0) []
    (8192, Monitor 7) (4096, Monitor 8) [] sample past
    (fun tk => if Z.even tk then TASK_DEAD else 0));
    [exact sample_inv|reflexivity|reflexivity|reflexivity|discriminate|reflexivity].
Defined.

End TimerRace.
