(* ===== verification/Memory.v ===== *)
(** * The mmap driver on kmalloc memory (Drivers/memory/kernel/memory.c)

    A character device that maps three reserved pages of kernel memory.  The
    state is the two pointers of the module, the allocated blocks and the bytes
    stored in them; a store outside every block is an [Oops].  What the driver
    relies on - [PAGE_ALIGN], the linear map behind [virt_to_phys] - are the
    named hypotheses [PageAlignLaws] and [LinearMap]. *)

From S2P Require Import Prelude Kernel Monad.

Module Memory.

Definition MAJOR_NUMBER := 42.
Definition MINOR_NUMBER := 0.
Definition NUM_MINORS := 1.
Definition MODULE_NAME := "memory_driver"%string.
Definition NPAGES := 3.

(** Where the device array is; [cdev] is the only member. *)
Class Layout := { devs_addr : Z; sizeof_mem_dev : Z }.
Definition offsetof_cdev := 0.

(** [struct vm_area_struct], as far as the driver reads it. *)
Record vm_area := VmArea { vma_addr : Z; vm_start : Z; vm_end : Z; vm_page_prot : Z }.

Record state := State {
  kmalloc_ptr : Z;
  kmalloc_area : Z;
  blocks : list (Z * Z);
  ram : gmap Z Z
}.

Definition set_ptr (p : Z) (s : state) := State p (kmalloc_area s) (blocks s) (ram s).
Definition set_area (p : Z) (s : state) := State (kmalloc_ptr s) p (blocks s) (ram s).
Definition set_blocks (b : list (Z * Z)) (s : state) := State (kmalloc_ptr s) (kmalloc_area s) b (ram s).
Definition set_ram (r : gmap Z Z) (s : state) := State (kmalloc_ptr s) (kmalloc_area s) (blocks s) r.

(** The address is inside the block (start, size). *)
Definition inside (a : Z) (b : Z * Z) : Prop := b.1 <= a < b.1 + b.2.
#[export] Instance inside_dec a b : Decision (inside a b).
Proof. unfold inside. apply _. Defined.

Section code.
Context `{Cfg : Config} `{PA : !PageAlign} `{Lay : Layout}.
Abbreviation MS := (M state).

Definition cdev_of (i : Z) : Z := devs_addr + i * sizeof_mem_dev + offsetof_cdev.

Definition logg (msg : string) : MS unit := pr_info "[LOG]: %s\n" [KStr msg].

(** [*(char * )a = v] *)
Definition store_byte (a v : Z) : MS unit := fun K s t =>
  if decide (Exists (inside a) (blocks s)) then Done () (set_ram (<[a := v]> (ram s)) s) t
  else Oops (bad_access a) s t.

Definition memory_mmap (vma : vm_area) : MS Z :=
  let size := (vm_end vma -64 vm_start vma)%cint in
  if decide (size > u64 (NPAGES * PAGE_SIZE)) then mret (- EIO) else
  area ← gets kmalloc_area;
  phys ← ask (virt_to_phys area);
  let pfn := Z.shiftr phys PAGE_SHIFT in
  r ← ask (remap_pfn_range (vma_addr vma) (vm_start vma) pfn size (vm_page_prot vma));
  mret (s32 r).

(** The result and the new [private_data]. *)
Definition memory_open (i_cdev : Z) : MS (Z * Z) :=
  logg "memory_open called" ;;
  mret (0, i_cdev - offsetof_cdev).

Definition register_minor (i : Z) : MS unit :=
  tell (cdev_init (cdev_of i)) ;;
  ask (cdev_add (cdev_of i) (MKDEV MAJOR_NUMBER MINOR_NUMBER) 1) ;;
  mret ().

Definition reserve_page (i : Z) : MS unit :=
  area ← gets kmalloc_area;
  page ← ask (virt_to_page (area + i * PAGE_SIZE));
  tell (SetPageReserved page).

Definition write_magic (i : Z) : MS unit :=
  area ← gets kmalloc_area;
  store_byte (area + (i * PAGE_SIZE + 0)) 0xaa ;;
  store_byte (area + (i * PAGE_SIZE + 1)) 0xbb ;;
  store_byte (area + (i * PAGE_SIZE + 2)) 0xcc ;;
  store_byte (area + (i * PAGE_SIZE + 3)) 0xdd.

Definition mydriver_init : MS Z :=
  logg "memory driver has been loaded" ;;
  res ← ask (register_chrdev_region (MKDEV MAJOR_NUMBER MINOR_NUMBER) NUM_MINORS MODULE_NAME);
  if decide (res <> 0) then
    pr_debug "[ERROR] failed to allocate char device region\n" [] ;;
    mret res
  else
    for_range 0 (Z.to_nat NUM_MINORS) register_minor ;;
    p ← ask (kmalloc ((NPAGES + 1) * PAGE_SIZE) GFP_KERNEL);
    modify (set_ptr p) ;;
    if decide (p = NULL) then mret (- ENOMEM) else
    modify (fun s => set_blocks ((p, (NPAGES + 1) * PAGE_SIZE) :: blocks s) s) ;;
    modify (set_area (PAGE_ALIGN p)) ;;
    for_range 0 (Z.to_nat NPAGES) reserve_page ;;
    for_range 0 (Z.to_nat NPAGES) write_magic ;;
    mret res.

Definition unreserve_page (i : Z) : MS unit :=
  area ← gets kmalloc_area;
  page ← ask (virt_to_page (area + i * PAGE_SIZE));
  tell (ClearPageReserved page).

Definition mydriver_exit : MS unit :=
  pr_info "[LOG] memory driver exited\n" [] ;;
  for_range 0 (Z.to_nat NUM_MINORS) (fun i => tell (cdev_del (cdev_of i))) ;;
  tell (unregister_chrdev_region (MKDEV MAJOR_NUMBER MINOR_NUMBER) NUM_MINORS) ;;
  for_range 0 (Z.to_nat NPAGES) unreserve_page ;;
  p ← gets kmalloc_ptr;
  modify (fun s => set_blocks (filter (fun b => b.1 <> p) (blocks s)) s) ;;
  tell (kfree p).

End code.

(** ** Hypotheses *)

(** The linear map of kernel memory: [virt_to_phys] subtracts a constant that
    is a multiple of the page size, and each frame has its own [struct page]. *)
Class LinearMap `{Config} (K : oracle) (page_offset : Z) (page_of : Z -> Z) : Prop := {
  phys_linear t v : K t (virt_to_phys v) = v - page_offset;
  phys_aligned : (PAGE_SIZE | page_offset);
  page_linear t v : K t (virt_to_page v) = page_of (Z.shiftr (v - page_offset) PAGE_SHIFT)
}.

(** The registrations succeed. *)
Definition registers (K : oracle) : Prop :=
  (forall t d n nm, K t (register_chrdev_region d n nm) = 0) /\
  (forall t c d n, K t (cdev_add c d n) = 0).


(** ** Loading *)

Section proofs.
Context `{Cfg : Config} `{PA : !PageAlign} `{PAL : !PageAlignLaws} `{Lay : Layout}.
Context (K : oracle) (page_offset : Z) (page_of : Z -> Z) `{LM : !LinearMap K page_offset page_of}.
Context (Hshift : 2 <= PAGE_SHIFT).
Implicit Types (s : state) (t : trace).

Lemma page_size_4 : 4 <= PAGE_SIZE.
Proof.
  unfold PAGE_SIZE. change 4 with (2 ^ 2). apply Z.pow_le_mono_r; lia.
Qed.

(** The frame of a kernel address. *)
Definition frame (a : Z) : Z := Z.shiftr (a - page_offset) PAGE_SHIFT.

(** What the driver holds when loaded, with its memory at [p]. *)
Definition pages (p : Z) : list resource :=
  (fun i => Rpage (page_of (frame (PAGE_ALIGN p + i * PAGE_SIZE)))) <$> [2; 1; 0].
Definition registered : list resource :=
  [Rcdev (cdev_of 0); Rchrdev (MKDEV MAJOR_NUMBER MINOR_NUMBER) NUM_MINORS].

(** The loaded state: the area is the aligned part of one allocated block. *)
Definition loaded (p : Z) s : Prop :=
  kmalloc_ptr s = p /\ kmalloc_area s = PAGE_ALIGN p /\
  (p, (NPAGES + 1) * PAGE_SIZE) ∈ blocks s.

Lemma area_inside p i : 0 <= i < NPAGES ->
  p <= PAGE_ALIGN p + i * PAGE_SIZE /\
  PAGE_ALIGN p + (i + 1) * PAGE_SIZE <= p + (NPAGES + 1) * PAGE_SIZE.
Proof.
  intros Hi. pose proof (page_align_bounds p). pose proof page_size_4. unfold NPAGES in *. nia.
Qed.

Lemma store_in_area p s i k v t :
  loaded p s -> 0 <= i < NPAGES -> 0 <= k < 4 ->
  store_byte (PAGE_ALIGN p + (i * PAGE_SIZE + k)) v K s t =
    Done () (set_ram (<[PAGE_ALIGN p + (i * PAGE_SIZE + k) := v]> (ram s)) s) t.
Proof.
  intros (_ & _ & Hb) Hi Hk. unfold store_byte. rewrite decide_True; [done|].
  apply Exists_exists. eexists. split; [exact Hb|]. unfold inside. cbn [fst snd].
  pose proof (area_inside p i Hi). pose proof page_size_4. nia.
Qed.

(** The bytes of page [i] that [write_magic] sets. *)
Definition magic (area i : Z) (r : gmap Z Z) : gmap Z Z :=
  <[area + (i * PAGE_SIZE + 3) := 0xdd]> (<[area + (i * PAGE_SIZE + 2) := 0xcc]>
  (<[area + (i * PAGE_SIZE + 1) := 0xbb]> (<[area + (i * PAGE_SIZE + 0) := 0xaa]> r))).

Lemma write_magic_eq p s i t :
  loaded p s -> 0 <= i < NPAGES ->
  write_magic i K s t = Done () (set_ram (magic (PAGE_ALIGN p) i (ram s)) s) t.
Proof.
  intros Hl Hi. pose proof Hl as (_ & Ea & _). unfold write_magic.
  erewrite run_bind by reflexivity. rewrite Ea.
  rewrite (run_bind _ _ _ _ _ _ _ _ (store_in_area p s i 0 0xaa t Hl Hi ltac:(lia))).
  erewrite run_bind by (apply (store_in_area p); [done|done|lia]).
  erewrite run_bind by (apply (store_in_area p); [done|done|lia]).
  erewrite (store_in_area p) by (done || lia). done.
Qed.

(** The history of one iteration over the pages. *)
Lemma reserve_page_eq s i t :
  reserve_page i K s t = Done () s
    ([(SetPageReserved (page_of (frame (kmalloc_area s + i * PAGE_SIZE))), 0);
      (virt_to_page (kmalloc_area s + i * PAGE_SIZE),
       page_of (frame (kmalloc_area s + i * PAGE_SIZE)))] ++ t).
Proof. unfold reserve_page. run_all. by rewrite page_linear. Qed.

Lemma unreserve_page_eq s i t :
  unreserve_page i K s t = Done () s
    ([(ClearPageReserved (page_of (frame (kmalloc_area s + i * PAGE_SIZE))), 0);
      (virt_to_page (kmalloc_area s + i * PAGE_SIZE),
       page_of (frame (kmalloc_area s + i * PAGE_SIZE)))] ++ t).
Proof. unfold unreserve_page. run_all. by rewrite page_linear. Qed.

(** A loop of three iterations. *)
Lemma for_pages (body : Z -> M state unit) s0 s1 s2 s3 t0 t1 t2 t3 :
  body 0 K s0 t0 = Done () s1 t1 -> body 1 K s1 t1 = Done () s2 t2 ->
  body 2 K s2 t2 = Done () s3 t3 ->
  for_range 0 (Z.to_nat NPAGES) body K s0 t0 = Done () s3 t3.
Proof.
  intros E0 E1 E2. change (Z.to_nat NPAGES) with 3%nat. cbn [for_range].
  rewrite (run_bind _ _ _ _ _ _ _ _ E0), (run_bind _ _ _ _ _ _ _ _ E1).
  by rewrite (run_bind _ _ _ _ _ _ _ _ E2).
Qed.

Lemma reserve_all s t :
  for_range 0 (Z.to_nat NPAGES) reserve_page K s t = Done () s
    (history (for_range 0 (Z.to_nat NPAGES) reserve_page K s t)) /\
  let t' := history (for_range 0 (Z.to_nat NPAGES) reserve_page K s t) in
  held t' = ((fun i => Rpage (page_of (frame (kmalloc_area s + i * PAGE_SIZE)))) <$> [2; 1; 0]) ++ held t /\
  disciplined t' = disciplined t /\ exists l, t' = l ++ t /\ no_maps l = true.
Proof.
  pose proof (for_pages reserve_page _ _ _ _ _ _ _ _ (reserve_page_eq s 0 t)
    (reserve_page_eq s 1 _) (reserve_page_eq s 2 _)) as E. rewrite E. cbn [history].
  split; [done|]. split; [done|]. cbn [app]. split; [|by eexists [_; _; _; _; _; _]].
  rewrite !disciplined_cons. cbn. by rewrite !andb_true_r.
Qed.

(** The state after the load with memory at [p]. *)
Definition after_load (p : Z) s : state :=
  State p (PAGE_ALIGN p) ((p, (NPAGES + 1) * PAGE_SIZE) :: blocks s)
    (magic (PAGE_ALIGN p) 2 (magic (PAGE_ALIGN p) 1 (magic (PAGE_ALIGN p) 0 (ram s)))).

Abbreviation REGION := (register_chrdev_region (MKDEV MAJOR_NUMBER MINOR_NUMBER) NUM_MINORS MODULE_NAME).
Abbreviation ADD := (cdev_add (cdev_of 0) (MKDEV MAJOR_NUMBER MINOR_NUMBER) 1).
Abbreviation KMALLOC := (kmalloc ((NPAGES + 1) * PAGE_SIZE) GFP_KERNEL).

(** What happens before the driver asks for its number, and then up to the
    allocation, when it gets the number and [cdev_add] returns [a]. *)
Definition hello_trace t : trace :=
  (printk "[LOG]: %s\n" [KStr "memory driver has been loaded"], 0) :: t.
Definition add_trace (a : Z) t : trace :=
  (ADD, a) :: (cdev_init (cdev_of 0), 0) :: (REGION, 0) :: hello_trace t.
Definition alloc_trace (p : Z) t : trace := (KMALLOC, p) :: add_trace 0 t.

(** The answers of the kernel. *)
Definition granted t : Z := K (hello_trace t) REGION.
Definition added t : Z := K (tail (add_trace 0 t)) ADD.
Definition allocated t : Z := K (tail (alloc_trace 0 t)) KMALLOC.

(** The registrations of a load from the history [t] succeed. *)
Definition grants t : Prop := granted t = 0 /\ added t = 0.

Lemma registers_grants t : registers K -> grants t.
Proof. by intros [Hr Ha]; split; [apply Hr|apply Ha]. Qed.

(** The load after the allocation. *)
Definition rest_of_load (p : Z) : M state Z :=
  if decide (p = NULL) then mret (- ENOMEM) else
  modify (fun s => set_blocks ((p, (NPAGES + 1) * PAGE_SIZE) :: blocks s) s) ;;
  modify (set_area (PAGE_ALIGN p)) ;;
  for_range 0 (Z.to_nat NPAGES) reserve_page ;;
  for_range 0 (Z.to_nat NPAGES) write_magic ;;
  mret 0.

#[export] Instance rest_of_load_grows p : Grows (rest_of_load p).
Proof.
  assert (Hs : forall a v, Grows (store_byte a v)).
  { intros a v K' s t. exists []. unfold store_byte. by destruct (decide _). }
  unfold rest_of_load, reserve_page, write_magic. apply _.
Qed.

Lemma driver_init_refused s t :
  granted t <> 0 -> exists t', mydriver_init K s t = Done (granted t) s t' /\
    t' = (printk "[ERROR] failed to allocate char device region\n" [], 0) :: (REGION, granted t) :: hello_trace t.
Proof.
  intros Hr. eexists. split; [|reflexivity]. unfold mydriver_init, logg.
  erewrite run_bind by reflexivity. erewrite run_bind by reflexivity.
  fold (hello_trace t) (granted t). by rewrite decide_True.
Qed.

Lemma init_granted s t :
  granted t = 0 ->
  let p := K (add_trace (added t) t) KMALLOC in
  mydriver_init K s t = rest_of_load p K (set_ptr p s) ((KMALLOC, p) :: add_trace (added t) t).
Proof.
  intros Hr p. unfold mydriver_init, logg. erewrite run_bind by reflexivity.
  erewrite run_bind by reflexivity. fold (hello_trace t) (granted t). rewrite Hr, decide_False by lia.
  erewrite run_bind.
  2: { apply for_range_1. unfold register_minor. run_all. reflexivity. }
  run_all. reflexivity.
Qed.

Lemma init_to_alloc s t :
  grants t ->
  mydriver_init K s t =
    rest_of_load (allocated t) K (set_ptr (allocated t) s) (alloc_trace (allocated t) t).
Proof. intros [Hr Ha]. rewrite init_granted by done. by rewrite Ha. Qed.

Lemma alloc_trace_held p t :
  p <> NULL -> held (alloc_trace p t) = Rmem p :: registered ++ held t.
Proof. intros Hp%Z.eqb_neq. cbn. unfold NULL in Hp. by rewrite Hp. Qed.

Lemma alloc_trace_disciplined p t :
  preemptible t = true -> disciplined (alloc_trace p t) = disciplined t.
Proof.
  intros Hp. unfold preemptible in Hp. apply negb_true_iff in Hp.
  unfold alloc_trace, add_trace, hello_trace. rewrite !disciplined_cons. unfold event_ok. cbn. rewrite Hp.
  destruct (p =? 0); cbn; by rewrite !andb_true_r.
Qed.

Lemma driver_init_eq s t :
  grants t -> allocated t <> NULL -> preemptible t = true ->
  exists t', mydriver_init K s t = Done 0 (after_load (allocated t) s) t' /\
    held t' = pages (allocated t) ++ Rmem (allocated t) :: registered ++ held t /\
    disciplined t' = disciplined t /\ exists l, t' = l ++ t /\ no_maps l = true.
Proof.
  intros Hr Hp Hpre. set (p := allocated t). set (t1 := alloc_trace p t).
  set (s1 := State p (PAGE_ALIGN p) ((p, (NPAGES + 1) * PAGE_SIZE) :: blocks s) (ram s)).
  destruct (reserve_all s1 t1) as (E1 & Hh & Hd & l & El & Hl).
  eexists. split; [|split; [|split]].
  - rewrite init_to_alloc by done. unfold rest_of_load. rewrite decide_False by done.
    erewrite run_bind by reflexivity. erewrite run_bind by reflexivity.
    rewrite (run_bind _ _ _ _ _ _ _ _ E1).
    assert (Hld : forall r, loaded p (set_ram r s1)) by (intros r; split_and!; [done..|by left]).
    erewrite run_bind.
    2: { eapply for_pages; eapply write_magic_eq; (by apply Hld) || done. }
    reflexivity.
  - rewrite Hh. unfold t1. by rewrite alloc_trace_held.
  - rewrite Hd. by apply alloc_trace_disciplined.
  - rewrite El. exists (l ++ alloc_trace p []). split; [by rewrite <- app_assoc|].
    unfold no_maps in *. by rewrite forallb_app, Hl.
Qed.

(** ** Claims *)

(** A load whose registrations and allocation succeed returns 0: the area
    is the first page boundary in the block, the first four bytes of each of
    its three pages are the magic numbers and no other byte of memory has
    changed (no store leaves the block); held are the device, its number, the
    block and a reservation of each page. *)
Theorem mydriver_load s t :
  registers K -> allocated t <> NULL -> preemptible t = true ->
  let p := allocated t in
  exists s' t', mydriver_init K s t = Done 0 s' t' /\ loaded p s' /\
    (PAGE_SIZE | kmalloc_area s') /\
    (forall i k, 0 <= i < NPAGES -> 0 <= k < 4 ->
       ram s' !! (kmalloc_area s' + (i * PAGE_SIZE + k)) = [0xaa; 0xbb; 0xcc; 0xdd] !! Z.to_nat k) /\
    (forall a, (forall i k, 0 <= i < NPAGES -> 0 <= k < 4 ->
       a <> kmalloc_area s' + (i * PAGE_SIZE + k)) -> ram s' !! a = ram s !! a) /\
    held t' = pages p ++ Rmem p :: registered ++ held t /\ disciplined t' = disciplined t.
Proof.
  intros Hr Hp Hpre p. destruct (driver_init_eq s t (registers_grants t Hr) Hp Hpre) as (t' & E & Hh & Hd & _).
  exists (after_load p s), t'. split; [done|]. split; [split_and!; [done..|by left]|].
  split; [apply page_align_divide|]. pose proof page_size_4 as H4. split; [|split; [|done]].
  - intros i k Hi Hk. cbn [ram after_load kmalloc_area]. unfold magic.
    assert (i = 0 \/ i = 1 \/ i = 2) as Hi3 by (unfold NPAGES in Hi; lia).
    assert (k = 0 \/ k = 1 \/ k = 2 \/ k = 3) as Hk4 by lia.
    destruct Hi3 as [->|[->| ->]], Hk4 as [->|[->|[->| ->]]];
      repeat (rewrite lookup_insert_ne by lia); apply lookup_insert_eq.
  - intros a Ha. cbn [ram after_load]. unfold magic. cbn [kmalloc_area after_load] in Ha.
    repeat rewrite lookup_insert_ne by (intros <-; eapply Ha; [..|reflexivity]; unfold NPAGES; lia).
    done.
Qed.

Lemma frame_add a i : 0 <= PAGE_SHIFT -> (PAGE_SIZE | a) ->
  frame (a + i * PAGE_SIZE) = frame a + i.
Proof.
  intros Hs [k ->]. destruct (phys_aligned (K := K) (page_of := page_of)) as [m Hm].
  unfold frame. rewrite !Z.shiftr_div_pow2, Hm by done. fold PAGE_SIZE.
  pose proof page_size_4.
  replace (k * PAGE_SIZE + i * PAGE_SIZE - m * PAGE_SIZE) with ((k + i - m) * PAGE_SIZE) by lia.
  replace (k * PAGE_SIZE - m * PAGE_SIZE) with ((k - m) * PAGE_SIZE) by lia.
  rewrite !Z.div_mul by lia. lia.
Qed.

(** The frames of the area are the pages that the driver reserves. *)
Lemma area_frames p i : 0 <= i < NPAGES ->
  frame (PAGE_ALIGN p) + i = frame (PAGE_ALIGN p + i * PAGE_SIZE) /\
  p <= PAGE_ALIGN p + i * PAGE_SIZE /\
  PAGE_ALIGN p + (i + 1) * PAGE_SIZE <= p + (NPAGES + 1) * PAGE_SIZE /\
  Rpage (page_of (frame (PAGE_ALIGN p) + i)) ∈ pages p.
Proof.
  intros Hi. destruct (area_inside p i Hi) as [Hlo Hhi].
  assert (Hf : frame (PAGE_ALIGN p + i * PAGE_SIZE) = frame (PAGE_ALIGN p) + i)
    by (apply frame_add; [lia|apply page_align_divide]).
  split_and!; [done..|]. apply list_elem_of_fmap. exists i. split; [by rewrite Hf|].
  unfold NPAGES in Hi. assert (i = 2 \/ i = 1 \/ i = 0) as [->|[->| ->]] by lia;
    [by left|by right; left|by right; right; left].
Qed.

(** C33: what user space can get at through mmap on a loaded driver: a request
    for more than three pages is refused with -EIO and maps nothing; any other
    makes one [remap_pfn_range] call, whose result it returns, from a frame
    [pfn] on such that every frame touched is a whole page of the driver's own
    block, one of the three pages it has reserved. *)
Theorem mmap_exposes_own_pages p s vma t h0 :
  loaded p s -> held t = pages p ++ h0 -> 3 * PAGE_SIZE < 2 ^ 64 ->
  let size := u64 (vm_end vma - vm_start vma) in
  exists r t', memory_mmap vma K s t = Done r s t' /\
  (NPAGES * PAGE_SIZE < size -> r = - EIO /\ t' = t) /\
  (size <= NPAGES * PAGE_SIZE -> exists ret before pfn,
     r = s32 ret /\ before ++ t = tail t' /\
     head t' = Some (remap_pfn_range (vma_addr vma) (vm_start vma) pfn size (vm_page_prot vma), ret) /\
     forall i, 0 <= i -> i * PAGE_SIZE < size ->
       pfn + i = frame (PAGE_ALIGN p + i * PAGE_SIZE) /\
       p <= PAGE_ALIGN p + i * PAGE_SIZE /\
       PAGE_ALIGN p + (i + 1) * PAGE_SIZE <= p + (NPAGES + 1) * PAGE_SIZE /\
       Rpage (page_of (pfn + i)) ∈ held t).
Proof.
  intros (_ & Ea & _) Hh Hw size. unfold memory_mmap. fold size. pose proof page_size_4.
  rewrite (wrap_small 64 (NPAGES * PAGE_SIZE)) by (unfold NPAGES; lia).
  destruct (decide (size > NPAGES * PAGE_SIZE)) as [Hgt|Hle].
  { eexists _, _. split; [reflexivity|]. split; [done|]. lia. }
  eexists _, _. split; [run_all; reflexivity|]. split; [lia|]. intros _.
  rewrite phys_linear, Ea. fold (frame (PAGE_ALIGN p)).
  eexists _, [_], _. split; [reflexivity|]. split; [reflexivity|]. split; [reflexivity|].
  intros i Hi0 Hi. assert (Hi3 : 0 <= i < NPAGES) by (unfold NPAGES in *; nia).
  destruct (area_frames p i Hi3) as (Hf & Hlo & Hhi & Hin). split_and!; [done..|].
  rewrite Hh. apply elem_of_app. by left.
Qed.

(** The history of the exit function. *)
Definition exit_trace (p : Z) t : trace :=
  let clear i := [(ClearPageReserved (page_of (frame (PAGE_ALIGN p + i * PAGE_SIZE))), 0);
    (virt_to_page (PAGE_ALIGN p + i * PAGE_SIZE), page_of (frame (PAGE_ALIGN p + i * PAGE_SIZE)))] in
  (kfree p, 0) :: clear 2 ++ clear 1 ++ clear 0 ++
  (unregister_chrdev_region (MKDEV MAJOR_NUMBER MINOR_NUMBER) NUM_MINORS, 0) ::
  (cdev_del (cdev_of 0), 0) :: (printk "[LOG] memory driver exited\n" [], 0) :: t.

Lemma exit_eq p s t :
  loaded p s ->
  mydriver_exit K s t =
    Done () (set_blocks (filter (fun b => b.1 <> p) (blocks s)) s) (exit_trace p t).
Proof.
  intros (Ep & Ea & _). unfold mydriver_exit. erewrite run_bind by reflexivity.
  erewrite run_bind by by apply for_range_1.
  erewrite run_bind by reflexivity.
  erewrite run_bind by (eapply for_pages; apply unreserve_page_eq).
  run_all. by rewrite Ea, Ep.
Qed.

(** It gives back what the load has acquired. *)
Lemma exit_balanced p t h0 :
  p <> NULL -> held t ≡ₚ pages p ++ Rmem p :: registered ++ h0 -> balanced t h0 (exit_trace p t).
Proof.
  intros Hp Hh. set (pg := fun i => Rpage (page_of (frame (PAGE_ALIGN p + i * PAGE_SIZE)))).
  assert (Hm : releases (kfree p, 0) = Some (Rmem p)).
  { cbn. apply Z.eqb_neq in Hp. unfold NULL in Hp. by rewrite Hp. }
  assert (Hh1 : held t ≡ₚ [Rcdev (cdev_of 0);
    Rchrdev (MKDEV MAJOR_NUMBER MINOR_NUMBER) NUM_MINORS; pg 0; pg 1; pg 2; Rmem p] ++ h0).
  { rewrite Hh. unfold registered. rewrite cons_middle, !app_assoc. apply Permutation_app_tail.
    rewrite Permutation_app_comm. do 2 apply perm_skip.
    apply (Permutation_app_tail [Rmem p] (l' := [pg 0; pg 1; pg 2])).
    apply (Permutation_rev [pg 2; pg 1; pg 0]). }
  eapply balanced_release; [exact Hm|].
  do 3 (eapply balanced_release; [reflexivity|]; apply balanced_quiet; [done|]).
  do 2 (eapply balanced_release; [reflexivity|]). apply balanced_quiet; [done|].
  by split.
Qed.

(** Unloading gives back everything that the load acquired - the device and
    its number, the reservations of the three pages and the block - and nothing
    else, and releases nothing it does not own. *)
Theorem mydriver_unload p s t h0 :
  loaded p s -> p <> NULL -> held t ≡ₚ pages p ++ Rmem p :: registered ++ h0 ->
  exists s' t', mydriver_exit K s t = Done () s' t' /\
    held t' ≡ₚ h0 /\ disciplined t' = disciplined t /\
    blocks s' = filter (fun b => b.1 <> p) (blocks s).
Proof.
  intros Hl Hp Hh. rewrite (exit_eq p) by done. eexists _, _. split; [reflexivity|].
  by destruct (exit_balanced p t h0 Hp Hh) as [? ?].
Qed.

(** When the allocation fails after the device has been registered, the
    load fails with -ENOMEM and keeps both the device and its number. *)
Theorem mydriver_load_leaks s t :
  registers K -> allocated t = NULL ->
  exists s' t', mydriver_init K s t = Done (- ENOMEM) s' t' /\
    held t' = registered ++ held t.
Proof.
  intros Hr Hp. rewrite init_to_alloc by by apply registers_grants.
  unfold rest_of_load. rewrite Hp, decide_True by done.
  eexists _, _. split; reflexivity.
Qed.

End proofs.

(** ** Witnesses *)

Module Sample.

#[export] Instance config : Config := Build_Config 250 12.
#[export] Instance align : PageAlign := {| PAGE_ALIGN a := (a + 4095) / 4096 * 4096 |}.
#[export] Instance align_laws : PageAlignLaws.
Proof.
  split; intros a.
  - change PAGE_SIZE with 4096. cbn. Z.to_euclidean_division_equations; lia.
  - exists ((a + 4095) / 4096). done.
Defined.
#[export] Instance layout : Layout := Build_Layout 512 104.

Definition offset := 2 ^ 40.
Definition struct_page (f : Z) : Z := 2 ^ 50 + 64 * f.

Definition kernel : oracle := fun t c =>
  match c with
  | kmalloc _ _ => 10000
  | virt_to_phys v => v - offset
  | virt_to_page v => struct_page (Z.shiftr (v - offset) 12)
  | _ => 0
  end.

#[export] Instance linear : LinearMap kernel offset struct_page.
Proof. split; [done|exists (2 ^ 28); reflexivity|intros; reflexivity]. Defined.

(** A kernel without memory. *)
Definition starved : oracle := fun _ _ => 0.

Definition unloaded : state := State 0 0 [] ∅.
Definition live : state := after_load 10000 unloaded.
Definition past : trace := history (mydriver_init kernel unloaded []).

Lemma live_loaded : loaded 10000 live.
Proof. split_and!; [done..|by left]. Qed.

Lemma past_held : held past = pages offset struct_page 10000 ++ Rmem 10000 :: registered ++ [].
Proof. reflexivity. Qed.

Lemma shift_ok : 2 <= PAGE_SHIFT.
Proof. cbn. lia. Qed.

Lemma registers_ok : registers kernel.
Proof. done. Qed.

End Sample.
Import Sample.

Lemma mydriver_load_witness :
  let p := allocated kernel [] in
  exists s' t', mydriver_init kernel unloaded [] = Done 0 s' t' /\ loaded p s' /\
    (PAGE_SIZE | kmalloc_area s') /\
    held t' = pages offset struct_page p ++ Rmem p :: registered ++ held [].
Proof.
  destruct (mydriver_load kernel offset struct_page shift_ok unloaded [])
    as (s' & t' & E & Hl & Hd & _ & _ & Hh & _); [exact registers_ok|by vm_compute|reflexivity|].
  exists s', t'. exact (conj E (conj Hl (conj Hd Hh))).
Defined.

Lemma mmap_exposes_own_pages_witness :
  exists r t', memory_mmap (VmArea 1 0x10000 0x12000 0) kernel live past = Done r live t' /\ r = 0.
Proof.
  destruct (mmap_exposes_own_pages kernel offset struct_page shift_ok 10000 live
    (VmArea 1 0x10000 0x12000 0) past (Rmem 10000 :: registered ++ []))
    as (r & t' & E & _); [exact live_loaded|exact past_held|done|].
  exists r, t'. split; [exact E|]. vm_compute in E. congruence.
Defined.

Lemma mydriver_unload_witness :
  exists s' t', mydriver_exit kernel live past = Done () s' t' /\
    held t' ≡ₚ [] /\ disciplined t' = disciplined past /\
    blocks s' = filter (fun b => b.1 <> 10000) (blocks live).
Proof.
  apply (mydriver_unload kernel offset struct_page 10000 live past []);
    [exact live_loaded|done|by rewrite past_held].
Defined.

Lemma mydriver_load_leaks_witness :
  exists s' t', mydriver_init starved unloaded [] = Done (- ENOMEM) s' t' /\
    held t' = registered ++ [].
Proof. by apply (mydriver_load_leaks starved unloaded []). Defined.

End Memory.
