(* ===== verification/NonMemory.v ===== *)
(** * The mmap driver on vmalloc memory (Drivers/nonConMemory/kernel/nonMemory.c)

    A character device that maps three pages of vmalloc memory one by one, and
    a /proc entry that prints the size of the caller's address space.  The
    areas of an address space ([for_each_vma]) are an argument. *)

From S2P Require Import Prelude Kernel Monad.

Module NonMemory.

Definition MAJOR_NUMBER := 42.
Definition MINOR_NUMBER := 0.
Definition NUM_MINORS := 1.
Definition MODULE_NAME := "nonmemory_driver"%string.
Definition NPAGES := 3.
Definition PROC_ENTRY_NAME := "nonmemory_driver_proc"%string.

Class Layout := { devs_addr : Z; sizeof_memory_dev : Z }.
Definition offsetof_cdev := 0.

(** [struct vm_area_struct], as far as the driver reads it. *)
Record vm_area := VmArea { vma_addr : Z; vm_start : Z; vm_end : Z; vm_page_prot : Z }.

(** The only state is the pointer [vmalloc_area]. *)
Record state := State { vmalloc_area : Z }.

Section code.
Context `{Cfg : Config} `{Lay : Layout}.
Abbreviation MS := (M state).

Definition cdev_of (i : Z) : Z := devs_addr + i * sizeof_memory_dev + offsetof_cdev.

Definition logg (msg : string) : MS unit := pr_info "[LOG]: %s\n" [KStr msg].

Definition memory_open (i_cdev : Z) : MS (Z * Z) :=
  logg "[memory_open called]" ;;
  mret (0, i_cdev - offsetof_cdev).

Definition memory_release : MS Z :=
  logg "[memory_close called]" ;;
  mret 0.

(** The loop of [memory_mmap] from [offset] on. *)
Fixpoint mmap_pages (fuel : nat) (vma : vm_area) (size offset : Z) : MS Z :=
  if decide (offset < size) then
    match fuel with
    | O => oops out_of_fuel
    | Datatypes.S fuel' =>
        area ← gets vmalloc_area;
        pfn ← ask (vmalloc_to_pfn (area + offset));
        r ← ask (remap_pfn_range (vma_addr vma) (vm_start vma +64 offset)%cint pfn
                   PAGE_SIZE (vm_page_prot vma));
        let ret := s32 r in
        if decide (ret <> 0) then mret ret
        else mmap_pages fuel' vma size (offset +64 PAGE_SIZE)%cint
    end
  else mret 0.

Definition memory_mmap (vma : vm_area) : MS Z :=
  let size := (vm_end vma -64 vm_start vma)%cint in
  if decide (size > u64 (NPAGES * PAGE_SIZE)) then mret (-1) else
  mmap_pages (Z.to_nat NPAGES) vma size 0.

(** The loop over the areas of the address space. *)
Fixpoint sum_areas (vmas : list vm_area) (size : Z) : MS Z :=
  match vmas with
  | [] => mret size
  | vma :: vmas' =>
      pr_info "%lx %lx\n" [KInt (vm_start vma); KInt (vm_end vma)] ;;
      sum_areas vmas' (size +64 (vm_end vma -64 vm_start vma))%cint
  end.

(** [vmas] are the areas of the address space of the running task. *)
Definition memory_seq_show (vmas : list vm_area) : MS Z :=
  c ← ask current;
  mm ← ask (get_task_mm c);
  if decide (mm = NULL) then mret 0 else
  tell (mmap_read_lock mm) ;;
  size ← sum_areas vmas 0;
  tell (mmap_read_unlock mm) ;;
  tell (mmput mm) ;;
  tell (seq_printf "%lu" [KInt size]) ;;
  mret 0.

Definition memory_seq_open (file : Z) : MS Z :=
  r ← ask (single_open file); mret (s32 r).

Definition register_minor (i : Z) : MS unit :=
  tell (cdev_init (cdev_of i)) ;;
  ask (cdev_add (cdev_of i) (MKDEV MAJOR_NUMBER MINOR_NUMBER) 1) ;;
  mret ().

(** [SetPageReserved] writes the flags of the page. *)
Definition reserve (page : Z) : MS unit :=
  if decide (page = NULL) then oops (bad_access NULL) else tell (SetPageReserved page).
Definition unreserve (page : Z) : MS unit :=
  if decide (page = NULL) then oops (bad_access NULL) else tell (ClearPageReserved page).

Definition reserve_page (i : Z) : MS unit :=
  area ← gets vmalloc_area;
  page ← ask (vmalloc_to_page (area + PAGE_SIZE * i));
  reserve page.

Definition driver_initt : MS Z :=
  logg "non-contignous memory driver has been initalized" ;;
  ask (proc_create PROC_ENTRY_NAME) ;;
  res ← ask (register_chrdev_region (MKDEV MAJOR_NUMBER MINOR_NUMBER) NUM_MINORS MODULE_NAME);
  if decide (res <> 0) then
    pr_debug "[ERROR] failed to allocate char device region\n" [] ;;
    mret res
  else
    for_range 0 (Z.to_nat NUM_MINORS) register_minor ;;
    p ← ask (vmalloc (PAGE_SIZE * NPAGES));
    modify (fun _ => State p) ;;
    for_range 0 (Z.to_nat NPAGES) reserve_page ;;
    mret res.

Definition unreserve_page (i : Z) : MS unit :=
  area ← gets vmalloc_area;
  page ← ask (vmalloc_to_page (area + PAGE_SIZE * i));
  unreserve page.

Definition driver_exit : MS unit :=
  logg "non-contignous memory driver has exited" ;;
  tell (remove_proc_entry PROC_ENTRY_NAME) ;;
  for_range 0 (Z.to_nat NUM_MINORS) (fun i => tell (cdev_del (cdev_of i))) ;;
  tell (unregister_chrdev_region (MKDEV MAJOR_NUMBER MINOR_NUMBER) NUM_MINORS) ;;
  for_range 0 (Z.to_nat NPAGES) unreserve_page ;;
  p ← gets vmalloc_area;
  tell (vfree p).

End code.

(** ** What was mapped *)

(** The [remap_pfn_range] calls of a history, the oldest first. *)
Fixpoint mapped (t : trace) : list (Z * Z * Z) :=
  match t with
  | [] => []
  | (remap_pfn_range _ addr pfn size _, _) :: t' => mapped t' ++ [(addr, pfn, size)]
  | _ :: t' => mapped t'
  end.

(** Their results, each an [int]. *)
Fixpoint remap_results (t : trace) : list Z :=
  match t with
  | [] => []
  | (remap_pfn_range _ _ _ _ _, r) :: t' => remap_results t' ++ [s32 r]
  | _ :: t' => remap_results t'
  end.

(** How often the kernel's map of vmalloc memory has changed. *)
Fixpoint vm_epoch (t : trace) : nat :=
  match t with
  | [] => 0
  | (vmalloc _, _) :: t' | (vfree _, _) :: t' => Datatypes.S (vm_epoch t')
  | _ :: t' => vm_epoch t'
  end.

Lemma vm_epoch_app l t : vm_epoch (l ++ t) = (vm_epoch l + vm_epoch t)%nat.
Proof. induction l as [|[c r] l IH]; [done|]. destruct c; cbn; by rewrite IH. Qed.

(** The documented behaviour of [vmalloc_to_page] and [vmalloc_to_pfn]: both
    walk the map, which stays as it is between two calls that change it, and the
    second one gives the frame number of the page that the first one gives. *)
Class VmMap (K : oracle) (page_of : nat -> Z -> Z) (page_to_pfn : Z -> Z) : Prop := {
  vm_page t v : K t (vmalloc_to_page v) = page_of (vm_epoch t) v;
  vm_pfn t v : K t (vmalloc_to_pfn v) = page_to_pfn (page_of (vm_epoch t) v)
}.

(** The registrations succeed. *)
Definition registers (K : oracle) : Prop :=
  (forall t n, K t (proc_create n) <> 0) /\
  (forall t d n nm, K t (register_chrdev_region d n nm) = 0) /\
  (forall t c d n, K t (cdev_add c d n) = 0).

(** The areas of an address space do not overlap: [b] bounds the sorted list. *)
Fixpoint areas_from (b : Z) (vmas : list vm_area) : Prop :=
  match vmas with
  | [] => b < 2 ^ 64
  | vma :: vmas' => b <= vm_start vma <= vm_end vma /\ areas_from (vm_end vma) vmas'
  end.

Definition total (vmas : list vm_area) : Z := foldr (fun v n => vm_end v - vm_start v + n) 0 vmas.

Section proofs.
Context `{Cfg : Config} `{Lay : Layout} (K : oracle).
Context (page_of : nat -> Z -> Z) (page_to_pfn : Z -> Z) `{VM : !VmMap K page_of page_to_pfn}.
Implicit Types (s : state) (t : trace).

(** The frame behind the address [v] after the history [t]. *)
Definition frame t (v : Z) : Z := page_to_pfn (page_of (vm_epoch t) v).

(** Page [k] of the mapping. *)
Definition page_map (pfn : Z -> Z) (vma : vm_area) s (k : Z) : Z * Z * Z :=
  (u64 (vm_start vma + k * PAGE_SIZE), pfn (vmalloc_area s + k * PAGE_SIZE), PAGE_SIZE).

(** The first [n] pages from page [k] on. *)
Definition page_maps (pfn : Z -> Z) (vma : vm_area) s (k : Z) (n : nat) : list (Z * Z * Z) :=
  (fun i => page_map pfn vma s (k + Z.of_nat i)) <$> seq 0 n.

Lemma page_maps_S pfn vma s k n :
  page_maps pfn vma s k (S n) = page_map pfn vma s k :: page_maps pfn vma s (k + 1) n.
Proof.
  unfold page_maps. cbn [seq fmap list_fmap]. f_equal; [f_equal; lia|].
  rewrite <- fmap_S_seq, <- list_fmap_compose. apply list_fmap_ext. intros _ i _. cbn.
  f_equal. lia.
Qed.

Lemma mmap_pages_spec vma s size fuel : forall k t,
  0 < PAGE_SIZE -> (NPAGES + 1) * PAGE_SIZE <= 2 ^ 64 -> 0 <= k -> size <= NPAGES * PAGE_SIZE ->
  NPAGES <= k + Z.of_nat fuel -> k <= NPAGES ->
  wp (mmap_pages fuel vma size (k * PAGE_SIZE)) K s t (fun r s' t' => s' = s /\ exists n,
    mapped t' = mapped t ++ page_maps (frame t) vma s k n /\ k + Z.of_nat n <= NPAGES /\
    (r = 0 -> size <= (k + Z.of_nat n) * PAGE_SIZE) /\
    (forall i, (i < n)%nat -> (k + Z.of_nat i) * PAGE_SIZE < size) /\
    exists ok, remap_results t' = remap_results t ++ replicate ok 0 ++ (if decide (r = 0) then [] else [r]) /\
      n = if decide (r = 0) then ok else S ok).
Proof.
  induction fuel as [|fuel IH]; intros k t Hps Hov Hk Hs Hf Hle.
  - assert (k = NPAGES) as -> by lia. cbn [mmap_pages]. rewrite decide_False by lia. rewrite wp_ret.
    split; [done|]. exists 0%nat. unfold page_maps. cbn. rewrite app_nil_r.
    split_and!; [done|done|lia|lia|exists 0%nat; by rewrite app_nil_r].
  - cbn [mmap_pages]. destruct (decide (k * PAGE_SIZE < size)) as [Hlt|Hge].
    2: { rewrite wp_ret. split; [done|]. exists 0%nat. unfold page_maps. cbn. rewrite app_nil_r.
      split_and!; [done|lia|lia|lia|exists 0%nat; by rewrite app_nil_r]. }
    wp_run. rewrite vm_pfn. fold (frame t (vmalloc_area s + k * PAGE_SIZE)).
    set (t1 := (remap_pfn_range _ _ _ _ _, _) :: _).
    assert (Hm : mapped t1 = mapped t ++ [page_map (frame t) vma s k]) by done.
    assert (Hk1 : k + 1 <= NPAGES) by nia.
    match goal with |- context [decide (s32 ?r <> 0)] => destruct (decide (s32 r <> 0)) as [Hr|Hr] end.
    + rewrite wp_ret. split; [done|]. exists 1%nat. rewrite page_maps_S. unfold page_maps. cbn [seq fmap list_fmap].
      split_and!; [done|lia|done| |exists 0%nat; by rewrite !decide_False].
      intros [|i] Hi; [by rewrite Z.add_0_r|lia].
    + rewrite wrap_small by nia. replace (k * PAGE_SIZE + PAGE_SIZE) with ((k + 1) * PAGE_SIZE) by lia.
      eapply wp_mono; [apply IH; lia|]. intros r s' t' (-> & n & Hm' & Hn & H0 & Hlt' & ok & Hr' & Hok).
      change (frame t1) with (frame t) in Hm'.
      split; [done|]. exists (S n). rewrite page_maps_S, Hm', Hm, <- app_assoc.
      split_and!; [done|lia| | |].
      * intros Hr0. specialize (H0 Hr0). lia.
      * intros [|i] Hi; [by rewrite Z.add_0_r|]. specialize (Hlt' i). nia.
      * exists (S ok). split; [|rewrite Hok; by destruct (decide (r = 0))].
        apply dec_stable in Hr. rewrite Hr'. cbn [t1 remap_results]. by rewrite Hr, <- app_assoc.
Qed.

(** C28: mmap on every branch: a request for more than three pages is refused
    with -1 and maps nothing; otherwise the pages of the area are mapped one by
    one, page [k] of the request to the frame of page [k] of the vmalloc area,
    in order and without gaps, never more pages than the area has, until one
    [remap_pfn_range] fails.  With result 0 all of them have returned 0 and exactly
    the pages the request covers are mapped; any other result is that of the last
    one, and all before it have returned 0. *)
Theorem mmap_maps_in_order vma s t :
  0 < PAGE_SIZE -> (NPAGES + 1) * PAGE_SIZE <= 2 ^ 64 ->
  let size := u64 (vm_end vma - vm_start vma) in
  wp (memory_mmap vma) K s t (fun r s' t' => s' = s /\
    if decide (NPAGES * PAGE_SIZE < size) then r = -1 /\ t' = t else exists n,
      mapped t' = mapped t ++ page_maps (frame t) vma s 0 n /\ Z.of_nat n <= NPAGES /\
      (r = 0 -> size <= Z.of_nat n * PAGE_SIZE) /\
      (forall i, (i < n)%nat -> Z.of_nat i * PAGE_SIZE < size) /\
      exists ok, n = (if decide (r = 0) then ok else S ok) /\
        remap_results t' = remap_results t ++ replicate ok 0 ++ (if decide (r = 0) then [] else [r])).
Proof.
  intros Hps Hov size. unfold memory_mmap. fold size.
  rewrite (wrap_small 64 (NPAGES * PAGE_SIZE)) by (unfold NPAGES in *; lia).
  destruct (decide (NPAGES * PAGE_SIZE < size)) as [Hgt|Hle].
  { rewrite decide_True by lia. by rewrite wp_ret. }
  rewrite decide_False by lia. eapply wp_mono.
  { apply (mmap_pages_spec vma s size (Z.to_nat NPAGES) 0); unfold NPAGES in *; (done || lia). }
  intros r s' t' (-> & n & Hm & Hn & H0 & Hlt & ok & Hr & Hok). split; [done|]. exists n.
  do 4 (split; [done|]). by exists ok.
Qed.

(** The lines logged for the areas. *)
Definition area_lines (vmas : list vm_area) : trace :=
  rev ((fun v => (printk "%lx %lx\n" [KInt (vm_start v); KInt (vm_end v)], 0)) <$> vmas).

Lemma areas_bound vmas : forall b, areas_from b vmas -> 0 <= total vmas /\ b + total vmas < 2 ^ 64.
Proof.
  induction vmas as [|v vmas IH]; intros b Hb; cbn [areas_from] in Hb.
  { change (total []) with 0. lia. }
  change (total (v :: vmas)) with (vm_end v - vm_start v + total vmas).
  destruct Hb as [? Hb]. specialize (IH _ Hb). lia.
Qed.

Lemma area_lines_plain vmas : no_maps (area_lines vmas) = true /\ vm_epoch (area_lines vmas) = 0%nat.
Proof.
  unfold area_lines. induction vmas as [|v vmas [IH1 IH2]]; [done|]. cbn.
  unfold no_maps in *. by rewrite forallb_app, vm_epoch_app, IH1, IH2.
Qed.

Lemma show_plain vmas n m x t :
  exists l, (seq_printf "%lu" [KInt n], 0) :: (mmput m, 0) :: (mmap_read_unlock m, 0) ::
      area_lines vmas ++ (mmap_read_lock m, 0) :: (get_task_mm x, m) :: (current, x) :: t = l ++ t /\
    no_maps l = true /\ vm_epoch l = 0%nat.
Proof.
  destruct (area_lines_plain vmas) as [Hm He].
  exists ((seq_printf "%lu" [KInt n], 0) :: (mmput m, 0) :: (mmap_read_unlock m, 0) ::
    area_lines vmas ++ [(mmap_read_lock m, 0); (get_task_mm x, m); (current, x)]).
  split; [by rewrite <- !app_comm_cons, <- app_assoc|]. cbn.
  unfold no_maps in *. by rewrite forallb_app, vm_epoch_app, Hm, He.
Qed.

(** On any areas the loop ends and logs each of them. *)
Lemma sum_areas_ends vmas s : forall size,
  exists n, forall t, sum_areas vmas size K s t = Done n s (area_lines vmas ++ t).
Proof.
  induction vmas as [|v vmas IH]; intros size; [by eexists|].
  destruct (IH (size +64 (vm_end v -64 vm_start v))%cint) as [n E].
  exists n. intros t. cbn [sum_areas]. erewrite run_bind by reflexivity.
  rewrite E. unfold area_lines. cbn. by rewrite <- app_assoc.
Qed.

Lemma sum_areas_spec vmas s : forall b size t,
  areas_from b vmas -> 0 <= size <= b ->
  sum_areas vmas size K s t = Done (size + total vmas) s (area_lines vmas ++ t).
Proof.
  induction vmas as [|v vmas IH]; intros b size t Hb H0.
  { cbn. by rewrite Z.add_0_r. }
  pose proof (areas_bound _ _ Hb) as Hbd.
  change (total (v :: vmas)) with (vm_end v - vm_start v + total vmas) in *.
  destruct Hb as [Hv Hb].
  pose proof (areas_bound _ _ Hb) as Hbd2.
  cbn [sum_areas]. erewrite run_bind by reflexivity.
  rewrite (wrap_small 64 (vm_end v - _)), wrap_small by lia.
  rewrite (IH (vm_end v)) by (done || lia). f_equal; [lia|].
  unfold area_lines. cbn. by rewrite <- app_assoc.
Qed.

(** The address space of the caller, and the history until it is locked. *)
Abbreviation task t := (K t current).
Abbreviation mm_of t := (K ((current, task t) :: t) (get_task_mm (task t))).
Abbreviation found t := ((get_task_mm (task t), mm_of t) :: (current, task t) :: t).

(** Reading the /proc entry, when the loop adds up to [n]: the reference to the
    address space and its lock are given back in the right order. *)
Lemma seq_show_run vmas n s t :
  (forall t, sum_areas vmas 0 K s t = Done n s (area_lines vmas ++ t)) -> preemptible t = true ->
  exists t', memory_seq_show vmas K s t = Done 0 s t' /\ balanced t (held t) t' /\
    if decide (mm_of t = NULL) then t' = found t
    else t' = (seq_printf "%lu" [KInt n], 0) :: (mmput (mm_of t), 0) ::
      (mmap_read_unlock (mm_of t), 0) :: area_lines vmas ++ (mmap_read_lock (mm_of t), 0) :: found t.
Proof.
  intros Hsum Hp. unfold memory_seq_show. erewrite run_bind by reflexivity.
  erewrite run_bind by reflexivity.
  assert (Hq : forall h t2, balanced t h t2 -> balanced t h (area_lines vmas ++ t2)).
  { intros h t2 Hb. unfold area_lines. rewrite <- map_rev.
    induction (rev vmas) as [|v l IH]; [done|]. by apply balanced_quiet. }
  assert (Hb0 : balanced t (held t) ((current, task t) :: t)) by by apply balanced_quiet.
  destruct (decide (mm_of t = NULL)) as [E|E].
  - eexists. split; [reflexivity|]. split; [|done]. rewrite E. by apply balanced_quiet.
  - rewrite (run_bind _ _ _ _ _ () s ((mmap_read_lock (mm_of t), 0) :: found t)) by done.
    rewrite (run_bind _ _ _ _ _ _ _ _ (Hsum _)).
    eexists. split; [reflexivity|]. split; [|done].
    assert (Ha : acquires (get_task_mm (task t), mm_of t) = Some (Rmm (mm_of t))).
    { cbn. apply Z.eqb_neq in E. unfold NULL in E. by rewrite E. }
    assert (Hb1 : balanced t (Rmm (mm_of t) :: held t) (found t)).
    { apply balanced_acquire; [done..| |done]. unfold event_ok. by rewrite Ha. }
    apply balanced_quiet; [done|]. eapply balanced_release; [done|].
    eapply balanced_release; [done|]. apply Hq. apply balanced_acquire; [done..| |done].
    unfold event_ok. rewrite (held_acquire _ (Rmm (mm_of t))) by done. cbn.
    unfold preemptible in Hp. apply negb_true_iff in Hp. by rewrite Hp.
Qed.

(** Reading the /proc entry prints one number, the total size of the areas
    of the caller's address space, exactly, for any sorted and disjoint areas
    below 2^64; without an address space it prints nothing.  Either way it
    returns 0, and the reference to the address space and its lock are given
    back in the right order. *)
Theorem seq_show_prints_total vmas s t :
  areas_from 0 vmas -> preemptible t = true ->
  exists t', memory_seq_show vmas K s t = Done 0 s t' /\
    balanced t (held t) t' /\
    if decide (mm_of t = NULL) then t' = found t
    else head t' = Some (seq_printf "%lu" [KInt (total vmas)], 0).
Proof.
  intros Hv Hp. destruct (seq_show_run vmas (total vmas) s t) as (t' & E & Hb & Ht); [|done|].
  { intros t1. by rewrite (sum_areas_spec vmas s 0 0 t1 Hv ltac:(lia)). }
  exists t'. split; [done|]. split; [done|]. case_decide; [done|by subst t'].
Qed.

(** ** Loading and unloading *)

Abbreviation REGION := (register_chrdev_region (MKDEV MAJOR_NUMBER MINOR_NUMBER) NUM_MINORS MODULE_NAME).
Abbreviation ADD := (cdev_add (cdev_of 0) (MKDEV MAJOR_NUMBER MINOR_NUMBER) 1).
Abbreviation VMALLOC := (vmalloc (PAGE_SIZE * NPAGES)).

(** What happens up to the request for a number, when [proc_create] returns [pe];
    then up to the allocation, when the number is granted and [cdev_add] returns
    [a]. *)
Definition region_trace (pe : Z) t : trace :=
  (proc_create PROC_ENTRY_NAME, pe) ::
  (printk "[LOG]: %s\n" [KStr "non-contignous memory driver has been initalized"], 0) :: t.
Definition add_trace (pe a : Z) t : trace :=
  (ADD, a) :: (cdev_init (cdev_of 0), 0) :: (REGION, 0) :: region_trace pe t.
Definition alloc_trace (pe p : Z) t : trace := (VMALLOC, p) :: add_trace pe 0 t.

(** The answers of the kernel: the /proc entry, the number, the device, the memory
    the load gets. *)
Definition entry t : Z :=
  K ((printk "[LOG]: %s\n" [KStr "non-contignous memory driver has been initalized"], 0) :: t)
    (proc_create PROC_ENTRY_NAME).
Definition granted t : Z := K (region_trace (entry t) t) REGION.
Definition added t : Z := K (tail (add_trace (entry t) 0 t)) ADD.
Definition allocated t : Z := K (tail (alloc_trace (entry t) 0 t)) VMALLOC.

(** The registrations of a load from the history [t] succeed. *)
Definition grants t : Prop := entry t <> 0 /\ granted t = 0 /\ added t = 0.

Lemma vm_registers_grants t : registers K -> grants t.
Proof. intros (Hp & Hr & Ha). split; [apply Hp|]. split; [apply Hr|apply Ha]. Qed.

Definition registered : list resource :=
  [Rcdev (cdev_of 0); Rchrdev (MKDEV MAJOR_NUMBER MINOR_NUMBER) NUM_MINORS; Rproc PROC_ENTRY_NAME].

(** The load after the allocation. *)
Definition rest_of_load : M state Z := for_range 0 (Z.to_nat NPAGES) reserve_page ;; mret 0.

#[export] Instance rest_of_load_grows : Grows rest_of_load.
Proof. unfold rest_of_load, reserve_page, reserve. apply _. Qed.

Lemma initt_refused s t :
  granted t <> 0 ->
  driver_initt K s t = Done (granted t) s
    ((printk "[ERROR] failed to allocate char device region\n" [], 0) ::
     (REGION, granted t) :: region_trace (entry t) t).
Proof.
  intros Hr. unfold driver_initt, logg. erewrite run_bind by reflexivity.
  erewrite run_bind by reflexivity. fold (entry t). erewrite run_bind by reflexivity.
  fold (region_trace (entry t) t) (granted t). by rewrite decide_True.
Qed.

Lemma initt_granted s t :
  granted t = 0 ->
  let p := K (add_trace (entry t) (added t) t) VMALLOC in
  driver_initt K s t = rest_of_load K (State p) ((VMALLOC, p) :: add_trace (entry t) (added t) t).
Proof.
  intros Hr p. unfold driver_initt, logg. erewrite run_bind by reflexivity.
  erewrite run_bind by reflexivity. fold (entry t). erewrite run_bind by reflexivity.
  fold (region_trace (entry t) t) (granted t). rewrite Hr, decide_False by lia.
  erewrite run_bind.
  2: { apply for_range_1. unfold register_minor. run_all. reflexivity. }
  run_all. reflexivity.
Qed.

Lemma initt_to_alloc s t :
  grants t ->
  driver_initt K s t = rest_of_load K (State (allocated t)) (alloc_trace (entry t) (allocated t) t).
Proof. intros (_ & Hr & Ha). rewrite initt_granted by done. by rewrite Ha. Qed.

Lemma alloc_balanced t :
  grants t -> allocated t <> NULL -> preemptible t = true ->
  balanced t (Rvmem (allocated t) :: registered ++ held t) (alloc_trace (entry t) (allocated t) t).
Proof.
  intros (Hp & _) Ha Hpre. unfold preemptible in Hpre. apply negb_true_iff in Hpre.
  apply Z.eqb_neq in Hp, Ha. unfold NULL in Ha.
  split.
  - cbn. rewrite Hp, Ha. reflexivity.
  - unfold alloc_trace, add_trace, region_trace. rewrite !disciplined_cons. unfold event_ok. cbn. rewrite Hp, Ha. cbn.
    rewrite Hpre. cbn. by rewrite !andb_true_r.
Qed.

(** A loop of three iterations. *)
Lemma for_three (body : Z -> M state unit) s t0 t1 t2 t3 :
  body 0 K s t0 = Done () s t1 -> body 1 K s t1 = Done () s t2 -> body 2 K s t2 = Done () s t3 ->
  for_range 0 (Z.to_nat NPAGES) body K s t0 = Done () s t3.
Proof.
  intros E0 E1 E2. change (Z.to_nat NPAGES) with 3%nat. cbn [for_range].
  rewrite (run_bind _ _ _ _ _ _ _ _ E0), (run_bind _ _ _ _ _ _ _ _ E1).
  by rewrite (run_bind _ _ _ _ _ _ _ _ E2).
Qed.

(** ... and the history after it. *)
Definition after_alloc t : trace := alloc_trace (entry t) (allocated t) t.

(** Page [i] of the area at [p]. *)
Definition page_at t (p i : Z) : Z := page_of (vm_epoch t) (p + PAGE_SIZE * i).
Definition reserved t (p : Z) : list resource := (fun i => Rpage (page_at t p i)) <$> [2; 1; 0].
Definition backed t (p : Z) : Prop := forall i, 0 <= i < NPAGES -> page_at t p i <> NULL.

Lemma reserve_eq p i t : page_at t p i <> NULL ->
  reserve_page i K (State p) t = Done () (State p)
    ((SetPageReserved (page_at t p i), 0) :: (vmalloc_to_page (p + PAGE_SIZE * i), page_at t p i) :: t).
Proof.
  intros Hn. unfold reserve_page, reserve. run_all. rewrite vm_page. cbn [vmalloc_area].
  fold (page_at t p i). by rewrite decide_False.
Qed.

Lemma unreserve_eq p i t : page_at t p i <> NULL ->
  unreserve_page i K (State p) t = Done () (State p)
    ((ClearPageReserved (page_at t p i), 0) :: (vmalloc_to_page (p + PAGE_SIZE * i), page_at t p i) :: t).
Proof.
  intros Hn. unfold unreserve_page, unreserve. run_all. rewrite vm_page. cbn [vmalloc_area].
  fold (page_at t p i). by rewrite decide_False.
Qed.

(** Acquired in one order, released in another. *)
Lemma release_order {A} (p2 p1 p0 v c d e : A) :
  [p2; p1; p0; v; c; d; e] ≡ₚ [e; c; d; p0; p1; p2; v].
Proof.
  rewrite (Permutation_app_comm [p2; p1; p0; v] [c; d; e]).
  rewrite (Permutation_app_comm [c; d] [e]).
  apply (Permutation_app_head [e; c; d]).
  exact (Permutation_app_tail [v] (Permutation_rev [p2; p1; p0])).
Qed.

Lemma unload_balanced p t h0 :
  backed t p -> p <> NULL -> held t ≡ₚ reserved t p ++ Rvmem p :: registered ++ h0 ->
  exists t', driver_exit K (State p) t = Done () (State p) t' /\ balanced t h0 t' /\
    exists l, t' = l ++ t /\ no_maps l = true.
Proof.
  intros Hn Hp Hh. eexists. split; [|split].
  - unfold driver_exit, logg. erewrite run_bind by reflexivity. erewrite run_bind by reflexivity.
    erewrite run_bind by by apply for_range_1. erewrite run_bind by reflexivity.
    erewrite run_bind by (eapply for_three; apply unreserve_eq; apply (Hn 0) || apply (Hn 1) || apply (Hn 2);
      unfold NPAGES; lia).
    erewrite run_bind by reflexivity. reflexivity.
  - eapply balanced_release.
    { cbn. apply Z.eqb_neq in Hp. unfold NULL in Hp. by rewrite Hp. }
    do 3 (eapply balanced_release; [reflexivity|]; apply balanced_quiet; [done|]).
    do 3 (eapply balanced_release; [reflexivity|]). apply balanced_quiet; [done|].
    split; [|done]. rewrite Hh. apply (Permutation_app_tail h0 (release_order _ _ _ _ _ _ _)).
  - by eexists [_; _; _; _; _; _; _; _; _; _; _].
Qed.

Lemma load_balanced s t :
  grants t -> allocated t <> NULL -> preemptible t = true -> backed (after_alloc t) (allocated t) ->
  exists t', driver_initt K s t = Done 0 (State (allocated t)) t' /\
    balanced t (reserved t' (allocated t) ++ Rvmem (allocated t) :: registered ++ held t) t' /\
    vm_epoch t' = vm_epoch (after_alloc t) /\ exists l, t' = l ++ t /\ no_maps l = true.
Proof.
  intros Hr Ha Hp Hn. rewrite initt_to_alloc by done. unfold rest_of_load. eexists. split; [|split].
  - erewrite run_bind by (eapply for_three; apply reserve_eq; apply (Hn 0) || apply (Hn 1) || apply (Hn 2);
      unfold NPAGES; lia). reflexivity.
  - pose proof (alloc_balanced t Hr Ha Hp) as Hb.
    do 3 (apply balanced_acquire; [done..|]; apply balanced_quiet; [done|]). exact Hb.
  - split; [done|]. by eexists [_; _; _; _; _; _; _; _; _; _; _; _].
Qed.

(** The life of the driver: a load whose registrations and allocation
    succeed returns 0 and reserves the three pages of the area; unloading then
    gives back the /proc entry, the device and its number, the reservations and
    the memory, and releases nothing it does not own. *)
Theorem driver_load_unload s t :
  registers K -> allocated t <> NULL -> preemptible t = true -> backed (after_alloc t) (allocated t) ->
  exists s1 t1, driver_initt K s t = Done 0 s1 t1 /\ vmalloc_area s1 = allocated t /\
    held t1 ≡ₚ reserved t1 (allocated t) ++ Rvmem (allocated t) :: registered ++ held t /\
    exists t2, driver_exit K s1 t1 = Done () s1 t2 /\ held t2 ≡ₚ held t /\
      disciplined t2 = disciplined t.
Proof.
  intros Hr Ha Hp Hn. destruct (load_balanced s t (vm_registers_grants t Hr) Ha Hp Hn) as (t1 & E1 & Hb1 & He & _).
  destruct (unload_balanced (allocated t) t1 (held t)) as (t2 & E2 & [Hb2 Hd2] & _);
    [intros i; unfold page_at; rewrite He; apply Hn|done|apply Hb1|].
  exists (State (allocated t)), t1. split; [done|]. split; [done|]. split; [apply Hb1|].
  exists t2. split; [done|]. split; [done|]. rewrite Hd2. apply Hb1.
Qed.

(** The result of [vmalloc] is not tested: when it is NULL, which no page
    backs, the load dereferences a NULL page, with everything it has registered
    still in place. *)
Theorem driver_load_out_of_memory s t :
  registers K -> allocated t = NULL -> page_at (after_alloc t) NULL 0 = NULL ->
  exists t', driver_initt K s t = Oops (bad_access NULL) (State NULL) t' /\
    held t' = registered ++ held t.
Proof.
  intros Hr Ha Hn. rewrite initt_to_alloc by by apply vm_registers_grants. unfold rest_of_load. change (Z.to_nat NPAGES) with 3%nat.
  fold (after_alloc t). rewrite Ha. eexists. split.
  - cbn [for_range]. unfold reserve_page, reserve, mbind, M_bind. cbn [gets ask vmalloc_area].
    unfold gets, ask. cbn [vmalloc_area]. rewrite vm_page. fold (page_at (after_alloc t) NULL 0).
    rewrite Hn, decide_True by done. reflexivity.
  - unfold after_alloc. rewrite Ha. cbn. destruct Hr as [Hp _].
    specialize (Hp ((printk "[LOG]: %s\n" [KStr "non-contignous memory driver has been initalized"], 0) :: t)
      PROC_ENTRY_NAME). fold (entry t) in Hp. apply Z.eqb_neq in Hp. by rewrite Hp.
Qed.

(** When the device number is not available the load fails with the error
    of the registration and keeps the /proc entry it has created. *)
Theorem driver_load_leaks_entry e s t :
  entry t <> NULL -> e <> 0 ->
  (forall t d n nm, K t (register_chrdev_region d n nm) = e) ->
  exists s' t', driver_initt K s t = Done e s' t' /\
    held t' = Rproc PROC_ENTRY_NAME :: held t.
Proof.
  intros He Hne Hr. unfold driver_initt, logg. erewrite run_bind by reflexivity.
  erewrite run_bind by reflexivity. fold (entry t). erewrite run_bind by reflexivity.
  rewrite Hr, decide_True by done. eexists _, _. split; [reflexivity|].
  cbn. apply Z.eqb_neq in He. unfold NULL in He.
  by rewrite He, (proj2 (Z.eqb_neq e 0) Hne).
Qed.

End proofs.

(** ** Witnesses *)

Module Sample.

#[export] Instance config : Config := Build_Config 250 12.
#[export] Instance layout : Layout := Build_Layout 512 104.

(** Vmalloc memory at 2^45; its pages are others after every change of the map.
    The array of [struct page], of 64 bytes each, is at 2^50. *)
Definition area := 2 ^ 45.
Definition struct_page (n : nat) (v : Z) : Z :=
  if v <? area then NULL else 2 ^ 50 + 64 * (77 + 10 * Z.of_nat n + Z.shiftr (v - area) 12).
Definition pfn (page : Z) : Z := Z.shiftr (page - 2 ^ 50) 6.

Definition kernel : oracle := fun t c =>
  match c with
  | vmalloc _ => area
  | vmalloc_to_pfn v => pfn (struct_page (vm_epoch t) v)
  | vmalloc_to_page v => struct_page (vm_epoch t) v
  | proc_create _ | get_task_mm _ => 900
  | _ => 0
  end.

(** ... without memory, and without device numbers. *)
Definition starved : oracle := fun t c => match c with vmalloc _ => NULL | _ => kernel t c end.
Definition busy : oracle := fun t c =>
  match c with register_chrdev_region _ _ _ => - EBUSY | _ => kernel t c end.

Definition two_areas : list vm_area :=
  [VmArea 1 0x1000 0x3000 0; VmArea 2 0x8000 0x8800 0].

#[export] Instance kernel_map : VmMap kernel struct_page pfn.
Proof. done. Qed.
#[export] Instance starved_map : VmMap starved struct_page pfn.
Proof. done. Qed.

Lemma page_size : PAGE_SIZE = 4096.
Proof. reflexivity. Qed.

End Sample.
Import Sample.

Lemma mmap_maps_in_order_witness :
  wp (memory_mmap (VmArea 1 0x10000 0x12000 0)) kernel (State area) [] (fun r s' t' =>
    s' = State area /\ exists n, mapped t' = page_maps (frame struct_page pfn []) (VmArea 1 0x10000 0x12000 0) (State area) 0 n /\
      Z.of_nat n <= NPAGES /\ (r = 0 -> remap_results t' = replicate n 0)).
Proof.
  eapply wp_mono; [apply (mmap_maps_in_order kernel struct_page pfn);
    [rewrite page_size; lia|rewrite page_size; unfold NPAGES; lia]|].
  intros r s' t' [-> HQ]. split; [done|]. rewrite decide_False in HQ by by vm_compute.
  destruct HQ as (n & Hm & Hn & _ & _ & ok & Hok & Hr). exists n. split; [exact Hm|].
  split; [exact Hn|]. intros H0. destruct (decide (r = 0)) as [_|Hne]; [|contradiction].
  rewrite Hok. rewrite app_nil_r in Hr. exact Hr.
Defined.

Lemma seq_show_prints_total_witness :
  exists t', memory_seq_show two_areas kernel (State area) [] = Done 0 (State area) t' /\
    balanced [] [] t' /\ head t' = Some (seq_printf "%lu" [KInt 0x2800], 0).
Proof.
  apply (seq_show_prints_total kernel two_areas (State area) []); [|reflexivity].
  cbn. lia.
Defined.

Lemma driver_load_unload_witness :
  exists s1 t1, driver_initt kernel (State 0) [] = Done 0 s1 t1 /\ vmalloc_area s1 = area /\
    held t1 ≡ₚ reserved struct_page t1 area ++ Rvmem area :: registered ++ [] /\
    exists t2, driver_exit kernel s1 t1 = Done () s1 t2 /\ held t2 ≡ₚ [] /\
      disciplined t2 = true.
Proof.
  apply (driver_load_unload kernel struct_page pfn (State 0) []);
    [done|by vm_compute|reflexivity|].
  intros i Hi. assert (i = 0 \/ i = 1 \/ i = 2) as [->|[->| ->]] by (unfold NPAGES in Hi; lia);
    by vm_compute.
Defined.

Lemma driver_load_out_of_memory_witness :
  exists t', driver_initt starved (State 0) [] = Oops (bad_access NULL) (State NULL) t' /\
    held t' = registered ++ [].
Proof.
  by apply (driver_load_out_of_memory starved struct_page pfn (State 0) []).
Defined.

Lemma driver_load_leaks_entry_witness :
  exists s' t', driver_initt busy (State 0) [] = Done (- EBUSY) s' t' /\
    held t' = [Rproc PROC_ENTRY_NAME].
Proof.
  apply (driver_load_leaks_entry busy (- EBUSY) (State 0) []); [by vm_compute|by vm_compute|done].
Defined.

End NonMemory.
