(* ===== verification/Packet.v ===== *)
(** * The packet filter (KernelModules/packet-mod/kernel/packet.c, print.h)

    A netfilter hook that logs new TCP connections to an address set by an
    ioctl.  The headers of a packet are records; the byte-order macros and what
    [copy_from_user] leaves behind are parameters. *)

From S2P Require Import Prelude Kernel Monad.

Module Packet.

(** ** print.h *)

(** [enum LOG_LEVEL], an [int] at the call. *)
Definition DEBUG := 0.
Definition ERROR := 1.

Definition print {S} (msg : string) (level : Z) : M S unit :=
  if decide (level = DEBUG) then pr_info "[LOG]:%s\n" [KStr msg]
  else if decide (level = ERROR) then pr_info "[ERROR]:%s\n" [KStr msg]
  else pr_info "[???]: unknown log level\n" [].

(** ** packet.c *)

(** linux/netfilter.h, linux/in.h *)
Definition NF_ACCEPT := 1.
Definition IPPROTO_TCP := 6.

(** The fields of the headers that the hook reads. *)
Record iphdr := IpHdr { protocol : Z; saddr : Z; daddr : Z }.
Record tcphdr := TcpHdr { syn : bool; ack : bool; source : Z }.

(** A packet with its parsed headers, [ip_hdr(skb)] and [tcp_hdr(skb)]. *)
Record sk_buff := SkBuff { ip_hdr : iphdr; tcp_hdr : tcphdr }.

(** [ntohs]; the address of [packet_ops]; the ioctl code; [copied old v r], the
    content of a word [old] after a [copy_from_user] of [v] that could not copy
    the last [r] bytes. *)
Class Env := {
  ntohs : Z -> Z;
  packet_ops : Z;
  IOW : Z -> Z -> Z -> Z;
  copied : Z -> Z -> Z -> Z
}.

Class EnvLaws `{Env} : Prop := { copied_all old v : copied old v 0 = v }.

(** The only state is the filter address. *)
Record state := State { ioctl_set_address : Z }.

Section code.
Context `{En : Env}.
Abbreviation MS := (M state).

Definition MY_IOCTL_FILTER_ADDRESS := IOW 107 1 4.

Definition test_daddr (skb : sk_buff) : MS bool :=
  let iph := ip_hdr skb in
  a ← gets ioctl_set_address;
  if decide (a = 0) then
    print "ioctl set address must be called" DEBUG ;;
    mret false
  else mret (bool_decide (daddr iph = a)).

(** [None] is a NULL [sbuf]. *)
Definition packet_hook (sbuf : option sk_buff) : MS Z :=
  match sbuf with
  | None => mret NF_ACCEPT
  | Some skb =>
      let iph := ip_hdr skb in
      if decide (protocol iph <> IPPROTO_TCP) then mret NF_ACCEPT else
      let tcph := tcp_hdr skb in
      if negb (syn tcph) || ack tcph then mret NF_ACCEPT else
      hit ← test_daddr skb;
      if negb hit then mret NF_ACCEPT else
      pr_info "[TCP] tcp connection intiated from %pI4:%u\n" [KInt (saddr iph); KInt (ntohs (source tcph))] ;;
      pr_info "[IP HEADER]: DST IP:%pI4" [KInt (daddr iph)] ;;
      pr_info "[IP HEADER]: SRC IP:%pI4" [KInt (saddr iph)] ;;
      pr_info "[IP HEADER]: protocol:%u" [KInt (protocol iph)] ;;
      mret NF_ACCEPT
  end.

(** [user] is the word at the user address [arg]. *)
Definition packet_ioctl (cmd arg user : Z) : MS Z :=
  if decide (cmd = MY_IOCTL_FILTER_ADDRESS) then
    r ← ask (copy_from_user arg 4);
    modify (fun s => State (copied (ioctl_set_address s) user r)) ;;
    if decide (r <> 0) then mret (- EFAULT) else
    a ← gets ioctl_set_address;
    pr_info "FIlter set to address: %pI4\n" [KInt a] ;;
    mret 0
  else mret (- EINVAL).

Definition packet_init : MS Z :=
  print "[packed_init] intialized kernel module" DEBUG ;;
  r ← ask (nf_register_net_hook packet_ops);
  let register_net := s32 r in
  if decide (register_net < 0) then
    print "Error registering network hook" ERROR ;;
    mret (-1)
  else
    ask (misc_register "network_filter") ;;
    mret 0.

Definition packet_exit : MS unit :=
  print "[packed_exit] exit kernel module" DEBUG ;;
  tell (nf_unregister_net_hook packet_ops) ;;
  tell (misc_deregister "network_filter").

End code.

(** ** Claims *)

(** The packets the filter is for. *)
Definition new_connection_to (a : Z) (skb : sk_buff) : bool :=
  bool_decide (protocol (ip_hdr skb) = IPPROTO_TCP) && syn (tcp_hdr skb) &&
  negb (ack (tcp_hdr skb)) && bool_decide (daddr (ip_hdr skb) = a).

Section proofs.
Context `{En : Env} `{EL : !EnvLaws} (K : oracle).
Implicit Types (s : state) (t : trace).

(** What a logged packet prints, the newest line first. *)
Definition packet_lines (skb : sk_buff) : trace :=
  let iph := ip_hdr skb in
  [(printk "[IP HEADER]: protocol:%u" [KInt (protocol iph)], 0);
   (printk "[IP HEADER]: SRC IP:%pI4" [KInt (saddr iph)], 0);
   (printk "[IP HEADER]: DST IP:%pI4" [KInt (daddr iph)], 0);
   (printk "[TCP] tcp connection intiated from %pI4:%u\n"
      [KInt (saddr iph); KInt (ntohs (source (tcp_hdr skb)))], 0)].

Lemma packet_hook_eq s t sbuf :
  ioctl_set_address s <> 0 ->
  packet_hook sbuf K s t = Done NF_ACCEPT s
    (match sbuf with
     | Some skb => if new_connection_to (ioctl_set_address s) skb then packet_lines skb else []
     | None => []
     end ++ t).
Proof.
  intros Ha. unfold packet_hook, new_connection_to. destruct sbuf as [skb|]; [|done].
  destruct (decide (protocol (ip_hdr skb) = IPPROTO_TCP)) as [Ep|Ep].
  2: { rewrite decide_True, bool_decide_false by done. done. }
  rewrite decide_False, bool_decide_true by tauto.
  destruct (syn (tcp_hdr skb)); [|done]. destruct (ack (tcp_hdr skb)); [done|]. cbn [negb orb andb].
  unfold test_daddr, mbind, M_bind, gets. rewrite decide_False by done. cbn.
  by destruct (bool_decide _).
Qed.

(** The hook accepts every packet and never changes the filter; with a
    filter address set it prints the four lines of exactly the packets that
    open a TCP connection to that address (SYN without ACK), and nothing for
    any other packet. *)
Theorem packet_hook_logs_filtered s t sbuf :
  ioctl_set_address s <> 0 ->
  packet_hook sbuf K s t = Done NF_ACCEPT s
    (match sbuf with
     | Some skb => if new_connection_to (ioctl_set_address s) skb then packet_lines skb else []
     | None => []
     end ++ t).
Proof. apply packet_hook_eq. Qed.

(** The ioctl sets the filter that the hook then uses: after a successful
    call with the non-zero address [a] the hook logs exactly the new
    connections to [a]; any other command is refused with -EINVAL and a fault
    gives -EFAULT. *)
Theorem packet_ioctl_sets_filter s t cmd arg a :
  a <> 0 ->
  exists r s' t', packet_ioctl cmd arg a K s t = Done r s' t' /\
    (cmd <> MY_IOCTL_FILTER_ADDRESS -> r = - EINVAL /\ s' = s /\ t' = t) /\
    (cmd = MY_IOCTL_FILTER_ADDRESS -> K t (copy_from_user arg 4) <> 0 -> r = - EFAULT) /\
    (cmd = MY_IOCTL_FILTER_ADDRESS -> K t (copy_from_user arg 4) = 0 -> r = 0 /\
       forall skb t2, packet_hook (Some skb) K s' t2 =
         Done NF_ACCEPT s' ((if new_connection_to a skb then packet_lines skb else []) ++ t2)).
Proof.
  intros Ha. unfold packet_ioctl. destruct (decide (cmd = MY_IOCTL_FILTER_ADDRESS)) as [E|E].
  2: { by eexists _, _, _. }
  destruct (decide (K t (copy_from_user arg 4) = 0)) as [Er|Er].
  - eexists _, _, _. split.
    { erewrite run_bind by reflexivity. erewrite run_bind by reflexivity.
      rewrite Er, decide_False by lia. reflexivity. }
    split; [done|]. split; [done|]. intros _ _. split; [done|]. intros skb t2.
    rewrite copied_all. by apply (packet_hook_eq (State a) t2 (Some skb)).
  - eexists _, _, _. split.
    { erewrite run_bind by reflexivity. erewrite run_bind by reflexivity.
      rewrite decide_True by done. reflexivity. }
    done.
Qed.

(** What a load whose registrations answer [r1] and [r2] leaves behind. *)
Definition load_trace (r1 r2 : Z) t : trace :=
  (misc_register "network_filter", r2) :: (nf_register_net_hook packet_ops, r1) ::
  (printk "[LOG]:%s\n" [KStr "[packed_init] intialized kernel module"], 0) :: t.

Lemma packet_init_eq r1 r2 s t :
  (forall t o, K t (nf_register_net_hook o) = r1) -> (forall t n, K t (misc_register n) = r2) ->
  0 <= s32 r1 -> packet_init K s t = Done 0 s (load_trace r1 r2 t).
Proof.
  intros H1 H2 Hr. unfold packet_init, print. cbn [decide]. erewrite run_bind by reflexivity.
  erewrite run_bind by reflexivity. rewrite H1, decide_False by lia.
  erewrite run_bind by reflexivity. rewrite H2. reflexivity.
Qed.

(** The history of the exit function. *)
Definition unload_trace t : trace :=
  (misc_deregister "network_filter", 0) :: (nf_unregister_net_hook packet_ops, 0) ::
  (printk "[LOG]:%s\n" [KStr "[packed_exit] exit kernel module"], 0) :: t.

Lemma packet_exit_eq s t : packet_exit K s t = Done () s (unload_trace t).
Proof. reflexivity. Qed.

(** When both registrations succeed, the load returns 0 and unloading gives
    the hook and the device back, and nothing else. *)
Theorem packet_load_unload s t :
  (forall t o, K t (nf_register_net_hook o) = 0) -> (forall t n, K t (misc_register n) = 0) ->
  preemptible t = true ->
  exists t1 t2, packet_init K s t = Done 0 s t1 /\ packet_exit K s t1 = Done () s t2 /\
    balanced t (held t) t2.
Proof.
  intros H1 H2 Hp. eexists _, _. split; [by apply packet_init_eq|]. split; [apply packet_exit_eq|].
  unfold preemptible in Hp. apply negb_true_iff in Hp.
  assert (Hb : balanced t (Rmisc "network_filter" :: Rhook packet_ops :: held t) (load_trace 0 0 t)).
  { split; [done|]. unfold load_trace. rewrite !disciplined_cons. unfold event_ok. cbn.
    by rewrite Hp, !andb_true_r. }
  apply balanced_release with (Rmisc "network_filter"); [done|].
  apply balanced_release with (Rhook packet_ops); [done|]. apply balanced_quiet; [done|].
  destruct Hb as [Hh Hd]. split; [|done]. rewrite Hh. apply Permutation_swap.
Qed.

(** A failed [misc_register] is not noticed: the load returns 0 all the
    same, and unloading deregisters a device that is not registered. *)
Theorem packet_load_ignores_misc e s t :
  (forall t o, K t (nf_register_net_hook o) = 0) -> (forall t n, K t (misc_register n) = e) ->
  e <> 0 -> Rmisc "network_filter" ∉ held t ->
  exists t1 t2, packet_init K s t = Done 0 s t1 /\ packet_exit K s t1 = Done () s t2 /\
    disciplined t2 = false.
Proof.
  intros H1 H2 He Hn. eexists _, _. split; [by apply packet_init_eq|]. split; [apply packet_exit_eq|].
  unfold unload_trace. rewrite disciplined_cons. apply andb_false_iff. right.
  unfold event_ok. cbn. apply bool_decide_eq_false. apply Z.eqb_neq in He.
  rewrite He. cbn. rewrite decide_True by done. done.
Qed.

End proofs.

(** ** Witnesses *)

Module Sample.

#[export] Instance env : Env := {|
  ntohs p := (p mod 256) * 256 + p / 256;
  packet_ops := 4096;
  IOW ty nr size := 2 ^ 30 + size * 2 ^ 16 + ty * 256 + nr;
  copied old v r := if decide (r = 0) then v else 0
|}.
#[export] Instance env_laws : EnvLaws.
Proof. by split. Defined.

Definition kernel : oracle := fun _ _ => 0.
Definition no_misc : oracle := fun _ c => match c with misc_register _ => - EBUSY | _ => 0 end.

Definition packet : sk_buff := SkBuff (IpHdr 6 0x0100007f 0x0200007f) (TcpHdr true false 80).

End Sample.
Import Sample.

Lemma packet_hook_logs_filtered_witness :
  packet_hook (Some packet) kernel (State 0x0200007f) [] =
    Done NF_ACCEPT (State 0x0200007f) (packet_lines packet).
Proof.
  by apply (packet_hook_logs_filtered kernel (State 0x0200007f) [] (Some packet)).
Defined.

Lemma packet_ioctl_sets_filter_witness :
  exists r s' t', packet_ioctl MY_IOCTL_FILTER_ADDRESS 64 7 kernel (State 0) [] = Done r s' t' /\
    r = 0.
Proof.
  destruct (packet_ioctl_sets_filter kernel (State 0) [] MY_IOCTL_FILTER_ADDRESS 64 7)
    as (r & s' & t' & E & _ & _ & H); [lia|]. exists r, s', t'. split; [done|]. by apply H.
Defined.

Lemma packet_load_unload_witness :
  exists t1 t2, packet_init kernel (State 0) [] = Done 0 (State 0) t1 /\
    packet_exit kernel (State 0) t1 = Done () (State 0) t2 /\ balanced [] [] t2.
Proof. by apply (packet_load_unload kernel (State 0) []). Defined.

Lemma packet_load_ignores_misc_witness :
  exists t1 t2, packet_init no_misc (State 0) [] = Done 0 (State 0) t1 /\
    packet_exit no_misc (State 0) t1 = Done () (State 0) t2 /\ disciplined t2 = false.
Proof.
  apply (packet_load_ignores_misc no_misc (- EBUSY) (State 0) []);
    [done|done|by vm_compute|apply not_elem_of_nil].
Defined.

End Packet.
