(* ===== verification/Sockets.v ===== *)
(** * The socket modules (KernelModules/tcp-mod/kernel/tcpmod.c,
    KernelModules/udp-mod/kernel/udpmod.c)

    Each module opens a kernel socket when it is loaded and releases it when it
    is unloaded.  The socket calls are kernel calls; a negative answer is their
    error.  The byte-order macros are parameters.  [print] is that of print.h,
    of which the three network modules have identical copies. *)

From S2P Require Import Prelude Kernel Monad Packet.

Module Sockets.

(** The Linux ABI. *)
Definition AF_INET := 2.
Definition SOCK_STREAM := 1.
Definition SOCK_DGRAM := 2.
Definition IPPROTO_TCP := 6.
Definition IPPROTO_UDP := 17.
Definition INADDR_LOOPBACK := 0x7f000001.

Class ByteOrder := { htons : Z -> Z; htonl : Z -> Z }.

(** [p->...] for a socket [p]. *)
Definition deref {S} (p : Z) : M S unit :=
  if decide (p = NULL) then oops (bad_access NULL) else mret ().

(** [sock_release(p)] reads the socket. *)
Definition release {S} (p : Z) : M S unit := deref p ;; tell (sock_release p).

(** A call that stores a new socket through its last argument if it succeeds. *)
Definition create {S} (c : kcall) (set : Z -> S -> S) : M S Z :=
  r ← ask c;
  if decide (s32 r < 0) then mret (s32 r) else
  p ← ask socket_stored;
  modify (set p) ;;
  mret (s32 r).

(** A call through [sock->ops]. *)
Definition op {S} (s : Z) (c : kcall) : M S Z := deref s ;; r ← ask c; mret (s32 r).

(** ** tcpmod.c *)

Definition LISTEN_BACKLOG := 5.
Definition TCP_PORT := 60000.

Record tcp_state := Tcp { sock : Z; new_sock : Z }.
Definition set_sock (p : Z) (s : tcp_state) := Tcp p (new_sock s).
Definition set_new_sock (p : Z) (s : tcp_state) := Tcp (sock s) p.

Section tcp.
Context `{BO : ByteOrder}.
Abbreviation MT := (M tcp_state).

(** The labels of [tcpmod_init]. *)
Definition socket_failed (res : Z) : MT Z :=
  p ← gets sock;
  release p ;;
  modify (set_sock NULL) ;;
  mret res.

Definition NEW_SOCKET_FAILED (res : Z) : MT Z :=
  p ← gets new_sock;
  release p ;;
  modify (set_new_sock NULL) ;;
  mret res.

Definition tcpmod_init : MT Z :=
  res ← create (sock_create_kern AF_INET SOCK_STREAM IPPROTO_TCP) set_sock;
  if decide (res < 0) then
    Packet.print "[TCP_SOCKET] sock_create_kern failed \n" Packet.ERROR ;; mret res
  else
  s ← gets sock;
  res ← op s (sock_bind s AF_INET (htons TCP_PORT) (htonl INADDR_LOOPBACK));
  if decide (res < 0) then
    Packet.print "[TCP_SOCKET] bind failed \n" Packet.ERROR ;; socket_failed res
  else
  res ← op s (sock_listen s LISTEN_BACKLOG);
  if decide (res < 0) then
    Packet.print "[TCP_SOCKET] bind failed \n" Packet.ERROR ;; socket_failed res
  else
  res ← create (sock_create_lite AF_INET SOCK_STREAM IPPROTO_TCP) set_new_sock;
  if decide (res < 0) then
    Packet.print "[TCP_SOCKET] sock create lite \n" Packet.ERROR ;; NEW_SOCKET_FAILED res
  else
  n ← gets new_sock;
  deref n ;;
  res ← op s (sock_accept s n);
  if decide (res < 0) then
    Packet.print "[TCP_SOCKET] accept failed\n" Packet.ERROR ;; NEW_SOCKET_FAILED res
  else
  res ← op n (sock_getname n);
  if decide (res < 0) then
    Packet.print "[TCP_SOCKET] getname failed\n" Packet.ERROR ;; NEW_SOCKET_FAILED res
  else
  pr_info "[TCP_SOCKET] listening on 127.0.0.1:%d\n" [KInt TCP_PORT] ;;
  mret 0.

Definition tcpmod_exit : MT unit :=
  s ← gets sock;
  (if decide (s <> NULL) then release s ;; modify (set_sock NULL) else mret ()) ;;
  n ← gets new_sock;
  (if decide (n <> NULL) then release n ;; modify (set_new_sock NULL) else mret ()).

End tcp.

(** ** udpmod.c *)

Definition UDP_PORT := 60001.
Definition MESSAGE : string :=
  String.append "Hello from kernel space world!" (String (Ascii.ascii_of_nat 10) EmptyString).

(** The only state is the pointer [sock]. *)
Record udp_state := Udp { udp_sock : Z }.

Section udp.
Context `{BO : ByteOrder}.
Abbreviation MU := (M udp_state).

Definition udpmod_init : MU Z :=
  res ← create (sock_create_kern AF_INET SOCK_DGRAM IPPROTO_UDP) (fun p _ => Udp p);
  if decide (res < 0) then
    Packet.print "[UDP SOCKET] sock_create_kern failed: %d\n" res ;; mret res
  else
  s ← gets udp_sock;
  r ← ask (kernel_sendmsg s AF_INET (htons UDP_PORT) (htonl INADDR_LOOPBACK) (bytes_of_string MESSAGE));
  let res := s32 r in
  if decide (res < 0) then
    Packet.print "[UDP SOCKET] kernel_sendmsg failed\n" Packet.ERROR ;;
    release s ;;
    modify (fun _ => Udp NULL) ;;
    mret res
  else
  pr_info "[UDP SOCKET] send %d bytes to 127.0.0.1:%d\n" [KInt res; KInt UDP_PORT] ;;
  mret 0.

Definition udpmod_exit : MU unit :=
  s ← gets udp_sock;
  if decide (s <> NULL) then release s ;; modify (fun _ => Udp NULL) else mret ().

End udp.

(** ** Claims *)

(** A successful call stores a socket. *)
Definition stores_sockets (K : oracle) : Prop := forall t, K t socket_stored <> NULL.

Section proofs.
Context `{BO : ByteOrder} (K : oracle).
Implicit Types (t : trace).

(** Some call of the history failed with the result [r]. *)
Definition failed_call (c : kcall) (r : Z) t : Prop := exists a, (c, a) ∈ t /\ s32 a = r /\ r < 0.

Lemma create_fails {S} c (set : Z -> S -> S) s t :
  s32 (K t c) < 0 -> create c set K s t = Done (s32 (K t c)) s ((c, K t c) :: t).
Proof. intros Hr. unfold create. erewrite run_bind by reflexivity. by rewrite decide_True. Qed.

Lemma create_succeeds {S} c (set : Z -> S -> S) s t :
  0 <= s32 (K t c) ->
  let t1 := (c, K t c) :: t in
  create c set K s t =
    Done (s32 (K t c)) (set (K t1 socket_stored) s) ((socket_stored, K t1 socket_stored) :: t1).
Proof.
  intros Hr. unfold create. erewrite run_bind by reflexivity. by rewrite decide_False by lia.
Qed.

Lemma op_eq {S} p c (s : S) t :
  p <> NULL -> op p c K s t = Done (s32 (K t c)) s ((c, K t c) :: t).
Proof. intros Hp. unfold op, deref. by rewrite decide_False. Qed.

Lemma deref_eq {S} p (s : S) t : p <> NULL -> deref p K s t = Done () s t.
Proof. intros Hp. unfold deref. by rewrite decide_False. Qed.

Lemma release_eq {S} p (s : S) t :
  p <> NULL -> release p K s t = Done () s ((sock_release p, 0) :: t).
Proof. intros Hp. unfold release. by rewrite (run_bind _ _ _ _ _ _ _ _ (deref_eq p s t Hp)). Qed.

Lemma socket_failed_eq r s t :
  sock s <> NULL ->
  socket_failed r K s t = Done r (Tcp NULL (new_sock s)) ((sock_release (sock s), 0) :: t).
Proof.
  intros Hp. unfold socket_failed. erewrite run_bind by reflexivity.
  by rewrite (run_bind _ _ _ _ _ _ _ _ (release_eq (sock s) s t Hp)).
Qed.

Lemma NEW_SOCKET_FAILED_eq r s t :
  new_sock s <> NULL ->
  NEW_SOCKET_FAILED r K s t = Done r (Tcp (sock s) NULL) ((sock_release (new_sock s), 0) :: t).
Proof.
  intros Hp. unfold NEW_SOCKET_FAILED. erewrite run_bind by reflexivity.
  by rewrite (run_bind _ _ _ _ _ _ _ _ (release_eq (new_sock s) s t Hp)).
Qed.

(** The next call is known, and so is the sign of its result. *)
Ltac call E := rewrite (run_bind _ _ _ _ _ _ _ _ E); cbn beta.
Ltac failing := rewrite decide_True by done; unfold Packet.print; cbn [decide];
  erewrite run_bind by reflexivity.
Ltac passing := rewrite decide_False by lia.

(** C34: every way the load of the TCP module can end, for every kernel that
    stores a socket when it says so.  It returns 0 with both sockets held; or
    it returns the error of creating, binding or listening and holds nothing;
    or it returns the error of accept or getname and keeps the listening socket
    held; or the creation of the second socket fails and the load faults,
    releasing a NULL socket. *)
Theorem tcp_load_outcomes t :
  stores_sockets K ->
  match tcpmod_init K (Tcp NULL NULL) t with
  | Oops f s' t' => f = bad_access NULL /\ held t' = Rsock (sock s') :: held t /\
      exists r, failed_call (sock_create_lite AF_INET SOCK_STREAM IPPROTO_TCP) r t'
  | Done r s' t' =>
      (r = 0 /\ sock s' <> NULL /\ new_sock s' <> NULL /\
         held t' = Rsock (new_sock s') :: Rsock (sock s') :: held t) \/
      (r < 0 /\ s' = Tcp NULL NULL /\ held t' = held t) \/
      (sock s' <> NULL /\ new_sock s' = NULL /\ held t' = Rsock (sock s') :: held t /\
         exists n, failed_call (sock_accept (sock s') n) r t' \/ failed_call (sock_getname n) r t')
  end.
Proof.
  intros Hs. unfold tcpmod_init.
  set (c1 := sock_create_kern _ _ _). destruct (Z.lt_ge_cases (s32 (K t c1)) 0) as [H1|H1].
  { call (create_fails c1 set_sock (Tcp NULL NULL) t H1). failing. right. left. split_and!; done. }
  call (create_succeeds c1 set_sock (Tcp NULL NULL) t H1). passing.
  set (t1 := (c1, K t c1) :: t). set (p := K t1 socket_stored). cbn [set_sock new_sock].
  set (t2 := (socket_stored, p) :: t1). set (s2 := Tcp p NULL).
  assert (Hp : p <> NULL) by apply Hs.
  erewrite run_bind by reflexivity. cbn [sock s2].
  set (c2 := sock_bind _ _ _ _). call (op_eq p c2 s2 t2 Hp).
  destruct (Z.lt_ge_cases (s32 (K t2 c2)) 0) as [H2|H2].
  { failing. rewrite socket_failed_eq by done. right. left. split; [done|]. split; [done|].
    cbn. by rewrite decide_True. }
  passing. set (t3 := (c2, K t2 c2) :: t2).
  set (c3 := sock_listen _ _). call (op_eq p c3 s2 t3 Hp).
  destruct (Z.lt_ge_cases (s32 (K t3 c3)) 0) as [H3|H3].
  { failing. rewrite socket_failed_eq by done. right. left. split; [done|]. split; [done|].
    cbn. by rewrite decide_True. }
  passing. set (t4 := (c3, K t3 c3) :: t3).
  set (c4 := sock_create_lite _ _ _). destruct (Z.lt_ge_cases (s32 (K t4 c4)) 0) as [H4|H4].
  { call (create_fails c4 set_new_sock s2 t4 H4). failing. split; [done|]. split; [done|].
    exists (s32 (K t4 c4)), (K t4 c4). split; [|done]. right. by left. }
  call (create_succeeds c4 set_new_sock s2 t4 H4). passing.
  set (t5 := (c4, K t4 c4) :: t4). set (n := K t5 socket_stored).
  set (t6 := (socket_stored, n) :: t5). cbn [set_new_sock sock s2]. set (s3 := Tcp p n).
  assert (Hn : n <> NULL) by apply Hs.
  erewrite run_bind by reflexivity. cbn [new_sock s3]. call (deref_eq n s3 t6 Hn).
  set (c5 := sock_accept _ _). call (op_eq p c5 s3 t6 Hp).
  destruct (Z.lt_ge_cases (s32 (K t6 c5)) 0) as [H5|H5].
  { failing. rewrite NEW_SOCKET_FAILED_eq by done. right. right. split; [done|]. split; [done|].
    split; [cbn; by rewrite decide_True|]. exists n. left. exists (K t6 c5). split; [|done].
    right. right. by left. }
  passing. set (t7 := (c5, K t6 c5) :: t6).
  set (c6 := sock_getname _). call (op_eq n c6 s3 t7 Hn).
  destruct (Z.lt_ge_cases (s32 (K t7 c6)) 0) as [H6|H6].
  { failing. rewrite NEW_SOCKET_FAILED_eq by done. right. right. split; [done|]. split; [done|].
    split; [cbn; by rewrite decide_True|]. exists n. right. exists (K t7 c6). split; [|done].
    right. right. by left. }
  passing. left. done.
Qed.

(** The socket behind a pointer, if it is not NULL. *)
Definition open_socket (p : Z) : list resource := if decide (p = NULL) then [] else [Rsock p].

(** Unloading the TCP module releases exactly the sockets that are open. *)
Theorem tcp_unload s t h0 :
  held t ≡ₚ open_socket (new_sock s) ++ open_socket (sock s) ++ h0 ->
  exists t', tcpmod_exit K s t = Done () (Tcp NULL NULL) t' /\ balanced t h0 t'.
Proof.
  intros Hh. destruct s as [p n]. cbn [sock new_sock] in *. unfold tcpmod_exit, open_socket in *.
  erewrite run_bind by reflexivity. cbn [sock].
  destruct (decide (p = NULL)) as [->|Hp].
  - rewrite decide_False by tauto. erewrite run_bind by reflexivity.
    erewrite run_bind by reflexivity. cbn [new_sock]. destruct (decide (n = NULL)) as [->|Hn].
    + rewrite decide_False by tauto. eexists. by split.
    + rewrite decide_True by done. erewrite run_bind by by apply release_eq.
      eexists. split; [done|]. by apply balanced_release with (Rsock n).
  - rewrite decide_True by done. erewrite run_bind.
    2: { erewrite run_bind by by apply release_eq. reflexivity. }
    erewrite run_bind by reflexivity. cbn [new_sock set_sock]. destruct (decide (n = NULL)) as [->|Hn].
    + rewrite decide_False by tauto. eexists. split; [done|].
      by apply balanced_release with (Rsock p).
    + rewrite decide_True by done. erewrite run_bind by by apply release_eq.
      eexists. split; [done|]. apply balanced_release with (Rsock n); [done|].
      apply balanced_release with (Rsock p); [done|]. split; [|done].
      rewrite Hh. apply Permutation_swap.
Qed.

(** Every way the load of the UDP module can end: the error of creating the
    socket or of sending, with nothing held, or 0 with the socket held, which
    unloading then releases. *)
Theorem udp_load_outcomes t :
  stores_sockets K ->
  exists r s' t', udpmod_init K (Udp NULL) t = Done r s' t' /\
    ((r < 0 /\ s' = Udp NULL /\ held t' = held t) \/
     (r = 0 /\ udp_sock s' <> NULL /\ held t' = Rsock (udp_sock s') :: held t /\
      exists t2, udpmod_exit K s' t' = Done () (Udp NULL) t2 /\ held t2 = held t)).
Proof.
  intros Hs. unfold udpmod_init. set (c1 := sock_create_kern _ _ _).
  destruct (Z.lt_ge_cases (s32 (K t c1)) 0) as [H1|H1].
  { call (create_fails c1 (fun p (_ : udp_state) => Udp p) (Udp NULL) t H1).
    rewrite decide_True by done. unfold Packet.print.
    rewrite (decide_False (P := s32 (K t c1) = Packet.DEBUG)) by (unfold Packet.DEBUG; lia).
    rewrite (decide_False (P := s32 (K t c1) = Packet.ERROR)) by (unfold Packet.ERROR; lia).
    erewrite run_bind by reflexivity. eexists _, _, _. split; [reflexivity|]. by left. }
  call (create_succeeds c1 (fun p (_ : udp_state) => Udp p) (Udp NULL) t H1). passing.
  set (t1 := (c1, K t c1) :: t). set (p := K t1 socket_stored).
  assert (Hp : p <> NULL) by apply Hs. set (t2 := (socket_stored, p) :: t1).
  erewrite run_bind by reflexivity. cbn [udp_sock]. erewrite run_bind by reflexivity.
  set (c2 := kernel_sendmsg _ _ _ _ _).
  destruct (Z.lt_ge_cases (s32 (K t2 c2)) 0) as [H2|H2].
  - failing. erewrite run_bind by by apply release_eq. eexists _, _, _. split; [reflexivity|].
    left. split; [done|]. split; [done|]. cbn. by rewrite decide_True.
  - passing. eexists _, _, _. split; [reflexivity|]. right. split; [done|]. split; [done|].
    split; [done|]. unfold udpmod_exit. erewrite run_bind by reflexivity. cbn [udp_sock].
    rewrite decide_True by done. erewrite run_bind by by apply release_eq.
    eexists. split; [reflexivity|]. cbn. by rewrite decide_True.
Qed.

(** When the UDP socket cannot be created the error number is passed to
    [print] as the log level, so that instead of the error the line "unknown
    log level" is printed. *)
Theorem udp_error_not_logged t :
  s32 (K t (sock_create_kern AF_INET SOCK_DGRAM IPPROTO_UDP)) < 0 ->
  exists r t', udpmod_init K (Udp NULL) t = Done r (Udp NULL) t' /\
    head t' = Some (printk "[???]: unknown log level\n" [], 0).
Proof.
  set (c1 := sock_create_kern _ _ _). intros H1. unfold udpmod_init.
  call (create_fails c1 (fun p (_ : udp_state) => Udp p) (Udp NULL) t H1).
  rewrite decide_True by done. unfold Packet.print.
  rewrite (decide_False (P := s32 (K t c1) = Packet.DEBUG)) by (unfold Packet.DEBUG; lia).
  rewrite (decide_False (P := s32 (K t c1) = Packet.ERROR)) by (unfold Packet.ERROR; lia).
  by eexists _, _.
Qed.

End proofs.

(** ** Witnesses *)

Module Sample.

#[export] Instance order : ByteOrder := {| htons p := p; htonl a := a |}.
Definition kernel : oracle := fun t c =>
  match c with socket_stored => 4096 + Z.of_nat (length t) | _ => 0 end.
(** ... on which accept fails, and one without sockets. *)
Definition deaf : oracle := fun t c => match c with sock_accept _ _ => - EBUSY | _ => kernel t c end.
Definition without : oracle := fun t c =>
  match c with sock_create_kern _ _ _ => - ENOMEM | _ => kernel t c end.

Lemma sockets_stored : stores_sockets kernel.
Proof. intros t. cbn. unfold NULL. lia. Qed.
Lemma deaf_stored : stores_sockets deaf.
Proof. intros t. cbn. unfold NULL. lia. Qed.

End Sample.
Import Sample.

Lemma tcp_load_outcomes_witness :
  match tcpmod_init deaf (Tcp NULL NULL) [] with
  | Oops f s' t' => f = bad_access NULL /\ held t' = Rsock (sock s') :: [] /\
      exists r, failed_call (sock_create_lite AF_INET SOCK_STREAM IPPROTO_TCP) r t'
  | Done r s' t' =>
      (r = 0 /\ sock s' <> NULL /\ new_sock s' <> NULL /\
         held t' = Rsock (new_sock s') :: Rsock (sock s') :: []) \/
      (r < 0 /\ s' = Tcp NULL NULL /\ held t' = []) \/
      (sock s' <> NULL /\ new_sock s' = NULL /\ held t' = Rsock (sock s') :: [] /\
         exists n, failed_call (sock_accept (sock s') n) r t' \/ failed_call (sock_getname n) r t')
  end.
Proof. exact (tcp_load_outcomes deaf [] deaf_stored). Defined.

Lemma tcp_unload_witness :
  exists t', tcpmod_exit kernel (Tcp 4096 0) [(socket_stored, 4096)] = Done () (Tcp NULL NULL) t' /\
    balanced [(socket_stored, 4096)] [] t'.
Proof. apply (tcp_unload kernel (Tcp 4096 0) [(socket_stored, 4096)] []). done. Defined.

Lemma udp_load_outcomes_witness :
  exists r s' t', udpmod_init kernel (Udp NULL) [] = Done r s' t' /\
    ((r < 0 /\ s' = Udp NULL /\ held t' = []) \/
     (r = 0 /\ udp_sock s' <> NULL /\ held t' = Rsock (udp_sock s') :: [] /\
      exists t2, udpmod_exit kernel s' t' = Done () (Udp NULL) t2 /\ held t2 = [])).
Proof. exact (udp_load_outcomes kernel [] sockets_stored). Defined.

Lemma udp_error_not_logged_witness :
  exists r t', udpmod_init without (Udp NULL) [] = Done r (Udp NULL) t' /\
    head t' = Some (printk "[???]: unknown log level\n" [], 0).
Proof. apply (udp_error_not_logged without []). by vm_compute. Defined.

End Sockets.
