(* ===== verification/ListBasic.v ===== *)
(** * The plain task list (KernelModules/kernel-Lists-mod/list.c)

    Four [taskInfo] objects in a kernel list, printed and freed on unload; no
    lock.  A failed allocation is reported and skipped. *)

From S2P Require Import Prelude Kernel Monad KList.

Module ListBasic.

(** [taskInfo]; the member [node] is the node of [KList]. *)
Record taskInfo := TaskInfo { pid : Z; timestamp : Z }.

Definition set_pid (v : Z) (t : taskInfo) := TaskInfo v (timestamp t).
Definition set_timestamp (v : Z) (t : taskInfo) := TaskInfo (pid t) v.

Class Layout := { head : Z; offsetof_node : Z; sizeof_taskInfo : Z }.

Section code.
Context {L : Type} `{LO : ListOps L} `{Lay : Layout}.
Abbreviation MT := (M (lstate L taskInfo)).

(** The contents of memory fresh from [kmalloc]. *)
Definition garbage (p : Z) : MT taskInfo :=
  a ← ask (uninitialised p "pid");
  b ← ask (uninitialised p "timestamp");
  mret (TaskInfo (s32 a) (u64 b)).

Definition alloc_task_info (pid : Z) : MT Z :=
  t ← kmalloc_obj sizeof_taskInfo GFP_KERNEL garbage;
  if decide (t = NULL) then
    pr_debug "[ERROR] Failed to allocate memory for taskInfo\n" [] ;; mret NULL
  else
  obj_update t (set_pid pid) ;;
  j ← jiffies;
  obj_update t (set_timestamp j) ;;
  mret t.

Definition print_task_info (tsk : Z) : MT unit :=
  v ← obj_load tsk;
  pr_info "tsk->id: %d\n" [KInt (pid v)] ;;
  v ← obj_load tsk;
  pr_info "tsk->timestamp: %lx\n" [KInt (timestamp v)].

Definition task_info_add_for_current (pid : Z) : MT unit :=
  tsk ← alloc_task_info pid;
  if decide (tsk = NULL) then
    pr_debug "[ERROR] failed to allocate memory for taskInfo\n" []
  else
  init_node offsetof_node head (tsk + offsetof_node) ;;
  list_add offsetof_node (tsk + offsetof_node) head.

Definition task_info_print_list : MT unit :=
  list_for_each (R := unit) offsetof_node head (fun curr =>
    print_task_info (list_entry offsetof_node curr) ;; mret None) ;;
  mret ().

Definition task_info_purge_list : MT unit :=
  list_for_each_safe (R := unit) offsetof_node head (fun curr =>
    list_del offsetof_node head curr ;;
    kfree_obj (list_entry offsetof_node curr) ;;
    mret None) ;;
  mret ().

Definition init_kernel_list : MT Z :=
  modify (set_links (INIT_LIST_HEAD head)) ;;
  c ← ask current; n ← pid_of c; task_info_add_for_current n ;;
  c ← ask current; p ← ask (task_parent c); n ← pid_of p; task_info_add_for_current n ;;
  c ← ask current; p ← ask (task_parent c); p ← ask (task_parent p);
  n ← pid_of p; task_info_add_for_current n ;;
  c ← ask current; p ← ask (task_parent c); p ← ask (task_parent p); p ← ask (task_parent p);
  n ← pid_of p; task_info_add_for_current n ;;
  pr_info "[LOG] Succesffuly added the task info into the linked list\n" [] ;;
  mret 0.

Definition exit_kernel_list : MT unit :=
  task_info_print_list ;;
  task_info_purge_list ;;
  pr_info "[LOG] Successfully purged the linked list" [] ;;
  pr_info "[LOG] unloading the kernel list module\n" [].

End code.

Abbreviation obj := (Z * taskInfo)%type.

Section proofs.
Context {L : Type} `{LO : ListOps L} {chain : Z -> list Z -> L -> Prop} `{LL : !ListLaws L chain}.
Context `{Lay : Layout}.
Context (K : oracle) `{HK : !HeapLaws K offsetof_node head}.
Implicit Types (s : lstate L taskInfo) (l extra : list obj) (t : trace).

Abbreviation INV := (heap_inv (chain := chain) offsetof_node head).

Lemma taskInfo_silent p : silent (garbage (L := L) p).
Proof.
  intros K' s t. eexists _, _. split; [reflexivity|]. split; [done|]. split; [|done].
  by rewrite !quiet_disciplined.
Qed.

Lemma alloc_spec h0 extra l n s t :
  INV h0 extra l s t -> free_context h0 ->
  wp (alloc_task_info n) K s t (fun p s' t' =>
    p = K t (kmalloc sizeof_taskInfo GFP_KERNEL) /\ allocations t' = allocations t ++ [p] /\
    if decide (p = NULL) then INV h0 extra l s' t' /\ readings t' = readings t
    else exists j, INV h0 ((p, TaskInfo n j) :: extra) l s' t' /\
      readings t' = readings t ++ [j]).
Proof.
  intros Hi H0. unfold alloc_task_info. rewrite wp_bind.
  eapply wp_mono; [apply (wp_kmalloc (chain := chain) offsetof_node head h0 extra l K);
    [done|by right|apply taskInfo_silent]|].
  intros p s1 t1 (-> & Hr & Hal & HQ). set (p := K t _) in *.
  destruct (decide (p = NULL)) as [E|E].
  { wp_run. split; [congruence|]. rewrite decide_True by done. split; [by rewrite <- E|]. split; [|done].
    destruct HQ as (-> & Hi1 & _). by apply inv_quiet. }
  destruct HQ as [v Hi1].
  destruct (inv_update_extra offsetof_node head _ _ _ _ _ (set_pid n) K _ _ Hi1) as (s2 & E2 & Hi2).
  unfold jiffies. wp_run. wp_by E2. set (j := u64 _).
  apply (inv_quiet _ _ _ _ _ _ _ (read_jiffies, K t1 read_jiffies)) in Hi2; [|done].
  destruct (inv_update_extra offsetof_node head _ _ _ _ _ (set_timestamp j) K _ _ Hi2) as (s3 & E3 & Hi3).
  wp_by E3. split; [done|]. split; [done|]. rewrite decide_False by done. exists j. split; [done|].
  cbn. by rewrite Hr.
Qed.

(** Adding a pid: one more entry in front, or none without memory. *)
Lemma add_spec h0 l n s t :
  INV h0 [] l s t -> free_context h0 ->
  wp (task_info_add_for_current n) K s t (fun _ s' t' => exists p,
    allocations t' = allocations t ++ [p] /\
    if decide (p = NULL) then INV h0 [] l s' t' /\ readings t' = readings t
    else exists j, INV h0 [] ((p, TaskInfo n j) :: l) s' t' /\ readings t' = readings t ++ [j]).
Proof.
  intros Hi H0. unfold task_info_add_for_current. rewrite wp_bind.
  eapply wp_mono; [by apply (alloc_spec h0 [] l)|]. intros p s1 t1 (_ & Hal & HQ).
  destruct (decide (p = NULL)) as [E|E].
  { wp_run. exists p. split; [done|]. rewrite decide_True by done.
    destruct HQ as [Hi1 Hr]. split; [by apply inv_quiet|done]. }
  destruct HQ as (j & Hi1 & Hr).
  destruct (inv_init_node offsetof_node head _ _ _ _ K _ _ Hi1) as (s2 & E2 & Hi2).
  destruct (inv_list_add offsetof_node head _ _ _ _ K _ _ Hi2) as (s3 & E3 & Hi3 & _).
  cbn [fst] in E2, E3. wp_run. wp_by E2. wp_by E3.
  exists p. split; [done|]. rewrite decide_False by done. by exists j.
Qed.

(** The lines of a list, the newest first. *)
Definition entry_lines (l : list obj) : trace :=
  concat (rev ((fun o => [(printk "tsk->timestamp: %lx\n" [KInt (timestamp o.2)], 0);
                          (printk "tsk->id: %d\n" [KInt (pid o.2)], 0)]) <$> l)).

Lemma print_spec h0 l s t :
  INV h0 [] l s t ->
  task_info_print_list K s t = Done () s (entry_lines l ++ t) /\
  INV h0 [] l s (entry_lines l ++ t).
Proof.
  intros Hi. enough (wp task_info_print_list K s t (fun _ s' t' =>
    s' = s /\ t' = entry_lines l ++ t /\ INV h0 [] l s t')) as Hwp.
  { apply wp_done in Hwp as ([] & s' & t' & -> & -> & -> & ?). done. }
  unfold task_info_print_list. wp_run. eapply wp_mono.
  { apply (inv_for_each_read offsetof_node head K h0 [] _
      (fun seen _ t' => t' = entry_lines seen ++ t) (fun _ _ _ => False) l); [done|done|].
    intros l1 p v l2 t1 Hi1 El ->. rewrite entry_of. unfold print_task_info.
    assert (Ev : forall t2, INV h0 [] l s t2 -> obj_load p K s t2 = Done v s t2).
    { intros t2 Hi2. eapply inv_load_list; [done|]. rewrite El. apply elem_of_app. right. by left. }
    eexists _, _. split.
    { erewrite run_bind.
      2: { erewrite run_bind by by apply Ev. erewrite run_bind by reflexivity.
        erewrite run_bind by (apply Ev; by apply inv_quiet). reflexivity. }
      reflexivity. }
    cbn. split; [by apply inv_quiet, inv_quiet|]. unfold entry_lines.
    by rewrite fmap_app, rev_app_distr. }
  intros [[]|] s1 t1 [-> HQ]; [done|]. destruct HQ as [Hi1 ->]. by wp_run.
Qed.

(** When the allocations for the pids [ns] were answered [ps], the list has, the
    oldest first, the entries of the pids whose allocation did not fail, each where
    it was allocated. *)
Definition recorded (ps ns : list Z) l : Prop :=
  (fun o => (o.1, pid o.2)) <$> rev l = filter (fun x => x.1 <> NULL) (zip ps ns).

Lemma add_records h0 t0 ps ns l n s t :
  INV h0 [] l s t -> free_context h0 ->
  length ps = length ns -> allocations t = allocations t0 ++ ps -> recorded ps ns l ->
  wp (task_info_add_for_current n) K s t (fun _ s' t' => exists p l',
    INV h0 [] l' s' t' /\ allocations t' = allocations t0 ++ ps ++ [p] /\
    recorded (ps ++ [p]) (ns ++ [n]) l').
Proof.
  intros Hi H0 Hlen Hal Hre. eapply wp_mono; [by apply (add_spec h0 l)|]. cbn.
  intros _ s' t' (p & Hal' & HQ). exists p. rewrite app_assoc, <- Hal. unfold recorded in *.
  rewrite zip_with_app by done. rewrite filter_app, <- Hre.
  change (zip_with pair [p] [n]) with [(p, n)]. rewrite filter_cons, filter_nil. cbn [fst].
  destruct (decide (p = NULL)) as [E|E].
  - destruct HQ as [Hi' _]. exists l. rewrite decide_False by naive_solver. by rewrite app_nil_r.
  - destruct HQ as (j & Hi' & _). eexists. split; [done|]. split; [done|].
    rewrite decide_True by done. cbn. by rewrite fmap_app.
Qed.

Lemma purge_spec h0 l s t :
  INV h0 [] l s t ->
  wp task_info_purge_list K s t (fun _ s' t' => INV h0 [] [] s' t' /\ exists later, t' = later ++ t).
Proof.
  intros Hi. unfold task_info_purge_list. wp_run.
  eapply wp_mono; [by apply (inv_purge offsetof_node head K h0 [] l)|]. intros r s' t' HQ. by wp_run.
Qed.

Lemma basic_exit_spec h0 l s t :
  INV h0 [] l s t ->
  wp exit_kernel_list K s t (fun _ s' t' => INV h0 [] [] s' t' /\ held t' ≡ₚ h0 /\
    exists later, t' = later ++ entry_lines l ++ t).
Proof.
  intros Hi. unfold exit_kernel_list. destruct (print_spec h0 l s t Hi) as [E Hi1].
  wp_run. wp_by E. eapply wp_mono; [by apply (purge_spec h0 l)|].
  intros _ s1 t1 [Hi2 [later ->]]. wp_run.
  assert (Hi3 : INV h0 [] [] s1 ((printk "[LOG] unloading the kernel list module\n" [], 0) ::
    (printk "[LOG] Successfully purged the linked list" [], 0) :: later ++ entry_lines l ++ t)).
  { by apply inv_quiet, inv_quiet. }
  split; [done|]. split; [apply Hi3|].
  by exists ((printk "[LOG] unloading the kernel list module\n" [], 0) ::
    (printk "[LOG] Successfully purged the linked list" [], 0) :: later).
Qed.

(** C35: whatever the allocator answers, loading the module returns 0 after four
    allocations, for the process, its parent, grandparent and great-grandparent; on
    the list are exactly the entries of those whose allocation did not fail, each in
    the memory it was given, the newest first; nothing else is allocated.
    Unloading prints each entry and then frees all of them: what is held is what
    was held before the load. *)
Theorem list_load_unload h0 (l0 : L) t me parent next tpid :
  held t = h0 -> disciplined t = true -> free_context h0 -> Tasks K me parent next tpid ->
  wp init_kernel_list K (LState ∅ l0) t (fun r s1 t1 => r = 0 /\ exists p1 p2 p3 p4 l,
    INV h0 [] l s1 t1 /\ allocations t1 = allocations t ++ [p1; p2; p3; p4] /\
    (fun o => (o.1, pid o.2)) <$> rev l =
      filter (fun x => x.1 <> NULL) [(p1, tpid me); (p2, tpid (parent me));
        (p3, tpid (parent (parent me))); (p4, tpid (parent (parent (parent me))))] /\
    wp exit_kernel_list K s1 t1 (fun _ s2 t2 => INV h0 [] [] s2 t2 /\ held t2 ≡ₚ h0 /\
      exists later, t2 = later ++ entry_lines l ++ t1)).
Proof.
  intros Hh Hd H0 [Hc Hp _ Ht]. unfold init_kernel_list, pid_of. wp_run. unfold set_links. cbn [cells links].
  assert (Hi0 : INV h0 [] [] (LState (V := taskInfo) ∅ (INIT_LIST_HEAD head l0)) t).
  { split; [apply init_holds|unfold account; by rewrite Hh|done|apply Forall_nil_2]. }
  rewrite !Hc, Ht. eapply wp_mono.
  { apply (add_records h0 t [] [] []); [by repeat (apply inv_quiet; [done|])|done|done|by rewrite app_nil_r|done]. }
  intros _ s1 t1 (p1 & l1 & Hi1 & Ha1 & Hr1). wp_run. rewrite !Hc, !Hp, Ht. eapply wp_mono.
  { apply (add_records h0 t [p1] [tpid me] l1); [by repeat (apply inv_quiet; [done|])|done..]. }
  intros _ s2 t2 (p2 & l2 & Hi2 & Ha2 & Hr2). wp_run. rewrite !Hc, !Hp, Ht. eapply wp_mono.
  { apply (add_records h0 t [p1; p2] [tpid me; tpid (parent me)] l2);
      [by repeat (apply inv_quiet; [done|])|done..]. }
  intros _ s3 t3 (p3 & l3 & Hi3 & Ha3 & Hr3). wp_run. rewrite !Hc, !Hp, Ht. eapply wp_mono.
  { apply (add_records h0 t [p1; p2; p3] [tpid me; tpid (parent me); tpid (parent (parent me))] l3);
      [by repeat (apply inv_quiet; [done|])|done..]. }
  intros _ s4 t4 (p4 & l4 & Hi4 & Ha4 & Hr4). wp_run. split; [done|]. exists p1, p2, p3, p4, l4.
  assert (Hi5 : INV h0 [] l4 s4 ((printk
    "[LOG] Succesffuly added the task info into the linked list\n" [], 0) :: t4)) by by apply inv_quiet.
  split; [done|]. split; [exact Ha4|]. split; [exact Hr4|]. by apply basic_exit_spec.
Qed.

End proofs.

(** ** Witness *)

Module Sample.

#[export] Instance layout : Layout := Build_Layout 8 16 32.
#[export] Instance heap : HeapLaws SampleKernel.kernel offsetof_node head.
Proof. apply SampleKernel.heap_laws; cbn; lia. Defined.

End Sample.
Import Sample.

Lemma list_load_unload_witness :
  wp init_kernel_list SampleKernel.kernel (LState ∅ (∅ : DList.mem)) [] (fun r s1 t1 => r = 0 /\
    exists p1 p2 p3 p4 l,
    heap_inv (chain := DList.chain) offsetof_node head [] [] l s1 t1 /\
    allocations t1 = [] ++ [p1; p2; p3; p4] /\
    (fun o => (o.1, pid o.2)) <$> rev l = filter (fun x => x.1 <> NULL)
      [(p1, s32 7); (p2, s32 8); (p3, s32 9); (p4, s32 10)] /\
    wp exit_kernel_list SampleKernel.kernel s1 t1 (fun _ s2 t2 =>
      heap_inv (chain := DList.chain) offsetof_node head [] [] [] s2 t2 /\ held t2 ≡ₚ [] /\
      exists later, t2 = later ++ entry_lines l ++ t1)).
Proof.
  apply (list_load_unload (chain := DList.chain) SampleKernel.kernel [] ∅ [] 7 (fun x => x + 1)
    (fun x => x + 2) (swrap 32)); [done..|exact SampleKernel.tasks].
Defined.

End ListBasic.
