(* ===== verification/ListFull.v ===== *)
(** * The extended task list (KernelModules/kernel-Lists-full-mod/list-full.c)

    Like list.c, with an access counter in each entry, a search by pid and the
    removal of one pid's expired entries; no lock.  The counter is incremented
    in memory fresh from [kmalloc], whose content is an answer of the kernel. *)

From S2P Require Import Prelude Kernel Monad KList.

Module ListFull.

(** [taskInfo]; the member [node] is the node of [KList]. *)
Record taskInfo := TaskInfo { pid : Z; cnt : Z; timestamp : Z }.

Definition set_pid (v : Z) (t : taskInfo) := TaskInfo v (cnt t) (timestamp t).
Definition set_timestamp (v : Z) (t : taskInfo) := TaskInfo (pid t) (cnt t) v.
Definition atomic_inc (t : taskInfo) := TaskInfo (pid t) (s32 (cnt t + 1)) (timestamp t).

Class Layout := { head : Z; offsetof_node : Z; sizeof_taskInfo : Z }.

Section code.
Context {L : Type} `{LO : ListOps L} `{Lay : Layout} `{Cfg : Config}.
Abbreviation MT := (M (lstate L taskInfo)).

(** The contents of memory fresh from [kmalloc]. *)
Definition garbage (p : Z) : MT taskInfo :=
  a ← ask (uninitialised p "pid");
  b ← ask (uninitialised p "cnt");
  c ← ask (uninitialised p "timestamp");
  mret (TaskInfo (s32 a) (s32 b) (u64 c)).

Definition print_task_info (t : Z) : MT unit :=
  v ← obj_load t;
  pr_info "[LOG] PID: %d\n" [KInt (pid v)] ;;
  v ← obj_load t;
  pr_info "[LOG] CNT: %d\n" [KInt (cnt v)] ;;
  v ← obj_load t;
  pr_info "[LOG] timestamp: %lx\n" [KInt (timestamp v)].

Definition print_full_list : MT unit :=
  list_for_each_safe (R := unit) offsetof_node head (fun tmp =>
    print_task_info (list_entry offsetof_node tmp) ;; mret None) ;;
  mret ().

Definition alloc_task_info (pid : Z) : MT Z :=
  t ← kmalloc_obj sizeof_taskInfo GFP_KERNEL garbage;
  if decide (t = NULL) then
    pr_debug "[ERROR] Failed to allocate memory for taskInfo\n" [] ;; mret NULL
  else
  obj_update t (set_pid pid) ;;
  j ← jiffies;
  obj_update t (set_timestamp j) ;;
  obj_update t atomic_inc ;;
  mret t.

Definition task_info_add_for_current (pid : Z) : MT unit :=
  tsk ← alloc_task_info pid;
  if decide (tsk = NULL) then
    pr_debug "[ERROR] failed to allocate memory for taskInfo\n" []
  else
  init_node offsetof_node head (tsk + offsetof_node) ;;
  list_add offsetof_node (tsk + offsetof_node) head.

Definition task_info_find_pid (n : Z) : MT Z :=
  r ← list_for_each_safe offsetof_node head (fun curr =>
    let tsk := list_entry offsetof_node curr in
    v ← obj_load tsk;
    mret (if decide (pid v = n) then Some tsk else None));
  mret (default NULL r).

Definition task_info_purge_list : MT unit :=
  list_for_each_safe (R := unit) offsetof_node head (fun curr =>
    list_del offsetof_node head curr ;;
    kfree_obj (list_entry offsetof_node curr) ;;
    mret None) ;;
  mret ().

(** The parts of the test that come before the reading of [jiffies]. *)
Definition candidate (n : Z) (tsk : taskInfo) : bool :=
  bool_decide (pid tsk = n) && (cnt tsk <? 5).
Definition expired (j : Z) (tsk : taskInfo) : bool :=
  u64 (3 * HZ) <? (j -64 timestamp tsk)%cint.

(** One iteration of the loop of [task_info_remove_expired]. *)
Definition expire_entry (n curr : Z) : MT (option unit) :=
  let tsk := list_entry offsetof_node curr in
  v ← obj_load tsk;
  old ← (if candidate n v then j ← jiffies; mret (expired j v) else mret false);
  (if (old : bool) then
    list_del offsetof_node head curr ;;
    kfree_obj tsk
  else mret ()) ;;
  mret None.

Definition task_info_remove_expired (n : Z) : MT unit :=
  list_for_each_safe offsetof_node head (expire_entry n) ;;
  mret ().

Definition init_full_kernel_list : MT Z :=
  modify (set_links (INIT_LIST_HEAD head)) ;;
  c ← ask current; n ← pid_of c; task_info_add_for_current n ;;
  c ← ask current; p ← ask (task_parent c); n ← pid_of p; task_info_add_for_current n ;;
  c ← ask current; p ← ask (task_parent c); p ← ask (task_parent p);
  n ← pid_of p; task_info_add_for_current n ;;
  c ← ask current; p ← ask (task_parent c); p ← ask (task_parent p); p ← ask (task_parent p);
  n ← pid_of p; task_info_add_for_current n ;;
  c ← ask current; p ← ask (task_parent c); n ← pid_of p; task_info_find_pid n ;;
  pr_info "[LOG] Succesffuly added the task info into the linked list\n" [] ;;
  c ← ask current; p ← ask (task_parent c); p ← ask (task_parent p);
  n ← pid_of p; task_info_remove_expired n ;;
  mret 0.

Definition exit_full_kernel_list : MT unit :=
  print_full_list ;;
  task_info_purge_list ;;
  pr_info "[LOG] Successfully purged the linked list" [] ;;
  pr_info "[LOG] unloading the kernel list module\n" [].

End code.

Abbreviation obj := (Z * taskInfo)%type.

(** The pids of a list of objects. *)
Definition pids (l : list obj) : list Z := (fun o => pid o.2) <$> l.

(** What [task_info_remove_expired(n)] leaves, given the readings of [jiffies]
    it makes, one for each candidate. *)
Fixpoint survivors `{Config} (n : Z) (js : list Z) (l : list obj) : list obj :=
  match l with
  | [] => []
  | o :: l' =>
      if candidate n o.2 then
        match js with
        | j :: js' => if expired j o.2 then survivors n js' l' else o :: survivors n js' l'
        | [] => l
        end
      else o :: survivors n js l'
  end.

Definition candidates (n : Z) (l : list obj) : nat := length (filter (fun o => candidate n o.2) l).

Lemma survivors_app `{Config} n l2 : forall l1 js1 js2,
  length js1 = candidates n l1 -> length js2 = candidates n l2 ->
  survivors n (js1 ++ js2) (l1 ++ l2) = survivors n js1 l1 ++ survivors n js2 l2.
Proof.
  unfold candidates. induction l1 as [|o l1 IH]; intros js1 js2 E1 E2.
  { by destruct js1. }
  cbn [app survivors]. rewrite filter_cons in E1. destruct (candidate n o.2).
  - rewrite decide_True in E1 by done. destruct js1 as [|j js1]; [done|]. injection E1 as E1.
    cbn [app]. rewrite IH by done. by destruct (expired j o.2).
  - rewrite decide_False in E1 by auto. by rewrite IH.
Qed.


(** ** What has to be removed *)

(** An entry with the reading of [jiffies] that was made for it, if one was, is
    aged when it was then more than three seconds old, on a clock of 64 bits. *)
Definition aged `{Config} (e : obj * option Z) : Prop :=
  match e.2 with
  | Some j => (3 * HZ) mod 2 ^ 64 < (j - timestamp e.1.2) mod 2 ^ 64
  | None => False
  end.
#[export] Instance aged_dec `{Config} e : Decision (aged e).
Proof. unfold aged. destruct (e.2); apply _. Defined.

(** The survivors in these terms. *)
Lemma survivors_aged `{Config} n l : forall js, length js = candidates n l -> exists obs,
  obs.*1 = l /\ omap snd obs = js /\
  (forall o r, (o, r) ∈ obs -> is_Some r <-> pid o.2 = n /\ cnt o.2 < 5) /\
  survivors n js l = (filter (fun e => ~ aged e) obs).*1.
Proof.
  unfold candidates. induction l as [|o l IH]; intros js Hl.
  { exists []. destruct js; [|done]. split_and!; [done..| |done]. by intros o r Hin%elem_of_nil. }
  rewrite filter_cons in Hl. cbn [survivors].
  assert (Hc : Is_true (candidate n o.2) <-> pid o.2 = n /\ cnt o.2 < 5).
  { unfold candidate. rewrite andb_True, bool_decide_spec. by rewrite <- Z.ltb_lt, Is_true_true. }
  destruct (candidate n o.2).
  - rewrite decide_True in Hl by done. destruct js as [|j js]; [done|]. injection Hl as Hl.
    destruct (IH js Hl) as (obs & <- & Ho & Hobs & Hs). exists ((o, Some j) :: obs).
    split; [done|]. split; [cbn; by rewrite Ho|]. split.
    + intros o' r [E|Hin]%elem_of_cons; [simplify_eq; naive_solver|by apply Hobs].
    + rewrite filter_cons. assert (He : expired j o.2 = bool_decide (aged (o, Some j))).
      { unfold expired, wrap, aged. cbn. case_bool_decide; [by apply Z.ltb_lt|by apply Z.ltb_ge; lia]. }
      rewrite He. destruct (decide (aged (o, Some j))) as [Ha|Ha].
      * rewrite bool_decide_true by done. rewrite decide_False by auto. exact Hs.
      * rewrite bool_decide_false, decide_True by done. cbn. by rewrite Hs.
  - rewrite decide_False in Hl by auto.
    destruct (IH js Hl) as (obs & <- & Ho & Hobs & Hs). exists ((o, None) :: obs).
    split; [done|]. split; [exact Ho|]. split.
    + intros o' r [E|Hin]%elem_of_cons; [|by apply Hobs]. simplify_eq. split; [by intros []|].
      intros H'. by apply Hc in H'.
    + rewrite filter_cons, decide_True by by intros []. cbn. by rewrite Hs.
Qed.

Section proofs.
Context {L : Type} `{LO : ListOps L} {chain : Z -> list Z -> L -> Prop} `{LL : !ListLaws L chain}.
Context `{Lay : Layout} `{Cfg : Config}.
Context (K : oracle) `{HK : !HeapLaws K offsetof_node head}.
Implicit Types (s : lstate L taskInfo) (l extra : list obj) (t : trace).

Abbreviation INV := (heap_inv (chain := chain) offsetof_node head).

Lemma full_garbage_silent p : silent (garbage (L := L) p).
Proof.
  intros K' s t. eexists _, _. split; [reflexivity|]. split; [done|]. split; [|done].
  by rewrite !quiet_disciplined.
Qed.

(** Adding a pid: one more entry in front, with any counter, or none without
    memory. *)
Lemma full_add_spec h0 l n s t :
  INV h0 [] l s t -> free_context h0 ->
  wp (task_info_add_for_current n) K s t (fun _ s' t' =>
    if decide (K t (kmalloc sizeof_taskInfo GFP_KERNEL) = NULL) then INV h0 [] l s' t'
    else exists j c,
      INV h0 [] ((K t (kmalloc sizeof_taskInfo GFP_KERNEL), TaskInfo n c j) :: l) s' t').
Proof.
  intros Hi H0. unfold task_info_add_for_current, alloc_task_info. wp_run.
  eapply wp_mono; [apply (wp_kmalloc (chain := chain) offsetof_node head h0 [] l K);
    [done|by right|apply full_garbage_silent]|].
  intros p s1 t1 (-> & Hr & _ & HQ). set (p := K t _) in *.
  destruct (decide (p = NULL)) as [E|E].
  { wp_run. rewrite !decide_True by done. wp_run.
    destruct HQ as (-> & Hi1 & _). by apply inv_quiet, inv_quiet. }
  destruct HQ as [v Hi1].
  destruct (inv_update_extra offsetof_node head _ _ _ _ _ (set_pid n) K _ _ Hi1) as (s2 & E2 & Hi2).
  unfold jiffies. wp_run. wp_by E2. set (j := u64 _).
  apply (inv_quiet _ _ _ _ _ _ _ (read_jiffies, K t1 read_jiffies)) in Hi2; [|done].
  destruct (inv_update_extra offsetof_node head _ _ _ _ _ (set_timestamp j) K _ _ Hi2) as (s3 & E3 & Hi3).
  destruct (inv_update_extra offsetof_node head _ _ _ _ _ atomic_inc K _ _ Hi3) as (s4 & E4 & Hi4).
  wp_by E3. wp_by E4. rewrite decide_False by done.
  destruct (inv_init_node offsetof_node head _ _ _ _ K _ _ Hi4) as (s5 & E5 & Hi5).
  destruct (inv_list_add offsetof_node head _ _ _ _ K _ _ Hi5) as (s6 & E6 & Hi6 & _).
  cbn [fst] in E5, E6. wp_run. wp_by E5. wp_by E6. by eexists _, _.
Qed.

(** The pids of the entries, the oldest first, are some of [ns], in order. *)
Definition entries_of (ns : list Z) l : Prop := sublist (pids (rev l)) ns.

Lemma full_add_grows h0 ns l n s t :
  INV h0 [] l s t -> free_context h0 -> entries_of ns l ->
  wp (task_info_add_for_current n) K s t (fun _ s' t' => exists l',
    INV h0 [] l' s' t' /\ entries_of (ns ++ [n]) l').
Proof.
  intros Hi H0 Hns. eapply wp_mono; [by apply (full_add_spec h0 l)|]. cbn. intros _ s' t'.
  unfold entries_of, pids. destruct (decide _) as [E|E].
  - intros Hi'. exists l. split; [done|].
    rewrite <- (app_nil_r (_ <$> _)). by apply sublist_app; [|apply sublist_nil_l].
  - intros (j & c & Hi'). eexists. split; [done|]. cbn. rewrite fmap_app. by apply sublist_app.
Qed.

Lemma full_find_spec h0 l n s t :
  INV h0 [] l s t ->
  exists p, task_info_find_pid n K s t = Done p s t /\
    if decide (n ∈ pids l) then exists l1 v l2, l = l1 ++ (p, v) :: l2 /\ (n ∉ pids l1) /\ pid v = n
    else p = NULL.
Proof.
  intros Hi. enough (wp (task_info_find_pid n) K s t (fun p s' t' => s' = s /\ t' = t /\
    if decide (n ∈ pids l) then exists l1 v l2, l = l1 ++ (p, v) :: l2 /\ (n ∉ pids l1) /\ pid v = n
    else p = NULL)) as Hwp.
  { apply wp_done in Hwp as (p & s' & t' & -> & -> & -> & ?). by exists p. }
  unfold task_info_find_pid. rewrite wp_bind. eapply wp_mono.
  { apply (inv_for_each_safe_read offsetof_node head K h0 [] _
      (fun l1 _ t' => t' = t /\ n ∉ pids l1)
      (fun p s' t' => t' = t /\ exists l1 v l2, l = l1 ++ (p, v) :: l2 /\ (n ∉ pids l1) /\ pid v = n) l);
      [done|by split; [|apply not_elem_of_nil]|].
    intros l1 p v l2 t1 Hi1 El [-> Hn]. rewrite entry_of.
    erewrite run_bind.
    2: { eapply inv_load_list; [done|]. rewrite El. apply elem_of_app. right. by left. }
    case_decide as E; eexists _, _; (split; [reflexivity|]); cbn.
    - split; [done|]. by exists l1, v, l2.
    - split; [done|]. split; [done|]. unfold pids. rewrite fmap_app, not_elem_of_app.
      split; [done|]. cbn. by apply not_elem_of_cons; split; [|apply not_elem_of_nil]. }
  intros [p|] s' t' [-> HQ]; rewrite wp_ret; cbn.
  - destruct HQ as (-> & l1 & v & l2 & El & Hn & Hv). split_and!; [done..|].
    rewrite decide_True; [by exists l1, v, l2|]. rewrite El. unfold pids. rewrite fmap_app.
    apply elem_of_app. right. rewrite <- Hv. by left.
  - destruct HQ as (_ & -> & Hn). split_and!; [done..|]. by rewrite decide_False.
Qed.

(** One iteration of the expiry loop. *)
Lemma expire_entry_spec h0 l1 p v l2 n s t :
  INV h0 [] (l1 ++ (p, v) :: l2) s t ->
  wp (expire_entry n (p + offsetof_node)) K s t (fun r s' t' => r = None /\ exists js,
    length js = candidates n [(p, v)] /\ readings t' = readings t ++ js /\
    INV h0 [] (l1 ++ survivors n js [(p, v)] ++ l2) s' t').
Proof.
  intros Hi. unfold expire_entry, jiffies. rewrite entry_of.
  assert (Ev : obj_load p K s t = Done v s t).
  { eapply inv_load_list; [done|]. apply elem_of_app. right. by left. }
  wp_run. wp_by Ev. unfold candidates. rewrite filter_cons. cbn [snd survivors].
  destruct (candidate n v) eqn:Ec; wp_run.
  2: { split; [done|]. exists []. rewrite decide_False by auto. by rewrite app_nil_r. }
  rewrite decide_True by done. set (j := u64 _). set (t1 := (read_jiffies, _) :: t).
  assert (Hi1 : INV h0 [] (l1 ++ (p, v) :: l2) s t1) by by apply inv_quiet.
  destruct (expired j v) eqn:Ee.
  - destruct (inv_list_del offsetof_node head _ _ _ _ _ K _ _ Hi1) as (s2 & E2 & Hi2 & _).
    destruct (inv_kfree offsetof_node head _ _ _ _ _ K _ _ Hi2) as (s3 & E3 & Hi3).
    cbn [fst] in E2. wp_run. wp_by E2. wp_by E3. split; [done|]. exists [j]. by rewrite Ee.
  - wp_run. split; [done|]. exists [j]. by rewrite Ee.
Qed.

Lemma full_remove_expired_spec h0 l n s t :
  INV h0 [] l s t ->
  wp (task_info_remove_expired n) K s t (fun _ s' t' => exists js,
    length js = candidates n l /\ readings t' = readings t ++ js /\
    INV h0 [] (survivors n js l) s' t').
Proof.
  intros Hi. unfold task_info_remove_expired. wp_run. eapply wp_mono.
  { apply (inv_for_each_safe offsetof_node head K [] (expire_entry n)
      (fun kept todo t' => exists seen js, l = seen ++ todo /\ length js = candidates n seen /\
         readings t' = readings t ++ js /\ kept = survivors n js seen)
      (fun _ _ _ => False) (fun _ => h0) l); [done|exists [], []; by rewrite app_nil_r|].
    intros l1 [p v] l2 s1 t1 Hi1 (seen & js & El & Hl & Hr & Hk). cbn [fst].
    eapply wp_mono; [by apply expire_entry_spec|]. intros r s2 t2 (-> & js' & Hl' & Hr' & Hi2).
    exists (l1 ++ survivors n js' [(p, v)]). rewrite <- app_assoc. split; [done|].
    exists (seen ++ [(p, v)]), (js ++ js'). rewrite <- app_assoc. split; [done|]. split.
    { unfold candidates in *. by rewrite filter_app, !length_app, Hl, Hl'. }
    split; [by rewrite Hr', Hr, app_assoc|]. by rewrite survivors_app, Hk. }
  intros [[]|] s1 t1; [done|]. intros (l' & Hi1 & seen & js & El & Hl & Hr & ->).
  rewrite app_nil_r in El. subst seen. wp_run. by exists js.
Qed.

(** The lines of a list, the newest first. *)
Definition entry_lines (l : list obj) : trace :=
  concat (rev ((fun o => [(printk "[LOG] timestamp: %lx\n" [KInt (timestamp o.2)], 0);
                          (printk "[LOG] CNT: %d\n" [KInt (cnt o.2)], 0);
                          (printk "[LOG] PID: %d\n" [KInt (pid o.2)], 0)]) <$> l)).

Lemma full_print_spec h0 l s t :
  INV h0 [] l s t ->
  print_full_list K s t = Done () s (entry_lines l ++ t) /\ INV h0 [] l s (entry_lines l ++ t).
Proof.
  intros Hi. enough (wp print_full_list K s t (fun _ s' t' =>
    s' = s /\ t' = entry_lines l ++ t /\ INV h0 [] l s t')) as Hwp.
  { apply wp_done in Hwp as ([] & s' & t' & -> & -> & -> & ?). done. }
  unfold print_full_list. wp_run. eapply wp_mono.
  { apply (inv_for_each_safe_read offsetof_node head K h0 [] _
      (fun seen _ t' => t' = entry_lines seen ++ t) (fun _ _ _ => False) l); [done|done|].
    intros l1 p v l2 t1 Hi1 El ->. rewrite entry_of. unfold print_task_info.
    assert (Ev : forall t2, obj_load p K s t2 = Done v s t2).
    { intros t2. apply obj_load_eq. eapply inv_cells; [done|].
      rewrite El. apply elem_of_app. right. by left. }
    eexists _, _. split.
    { erewrite run_bind.
      2: { erewrite run_bind by apply Ev. erewrite run_bind by reflexivity.
        erewrite run_bind by apply Ev. erewrite run_bind by reflexivity.
        erewrite run_bind by apply Ev. reflexivity. }
      reflexivity. }
    cbn. split; [by repeat (apply inv_quiet; [done|])|]. unfold entry_lines.
    by rewrite fmap_app, rev_app_distr. }
  intros [[]|] s1 t1 [-> HQ]; [done|]. destruct HQ as [Hi1 ->]. by wp_run.
Qed.

Lemma full_exit_spec h0 l s t :
  INV h0 [] l s t ->
  wp exit_full_kernel_list K s t (fun _ s' t' => INV h0 [] [] s' t' /\ held t' ≡ₚ h0 /\
    exists later, t' = later ++ entry_lines l ++ t).
Proof.
  intros Hi. unfold exit_full_kernel_list, task_info_purge_list.
  destruct (full_print_spec h0 l s t Hi) as [E Hi1].
  wp_run. wp_by E. eapply wp_mono; [by apply (inv_purge offsetof_node head K h0 [] l)|].
  intros r s1 t1 [Hi2 [later ->]]. wp_run.
  assert (Hi3 : INV h0 [] [] s1 ((printk "[LOG] unloading the kernel list module\n" [], 0) ::
    (printk "[LOG] Successfully purged the linked list" [], 0) :: later ++ entry_lines l ++ t)).
  { by apply inv_quiet, inv_quiet. }
  split; [done|]. split; [apply Hi3|].
  by exists ((printk "[LOG] unloading the kernel list module\n" [], 0) ::
    (printk "[LOG] Successfully purged the linked list" [], 0) :: later).
Qed.

(** [task_info_find_pid] returns the first entry of the pid, NULL if there
    is none, and changes nothing. *)
Theorem find_pid_first h0 l n s t :
  INV h0 [] l s t ->
  exists p, task_info_find_pid n K s t = Done p s t /\
    if decide (n ∈ pids l) then exists l1 v l2, l = l1 ++ (p, v) :: l2 /\ (n ∉ pids l1) /\ pid v = n
    else p = NULL.
Proof. apply full_find_spec. Qed.

(** C36: [task_info_remove_expired(n)] touches only entries of pid [n].  Going
    through the list once, in order, it reads [jiffies] for exactly the entries
    whose pid is [n] and whose counter is below 5; it unlinks and frees exactly those
    that are more than three seconds old at their reading, on a clock of 64 bits,
    and all others keep their order.  In particular an entry of another pid, or with
    a counter of at least 5, stays, whatever its age. *)
Theorem remove_expired_of_pid h0 l n s t :
  INV h0 [] l s t ->
  wp (task_info_remove_expired n) K s t (fun _ s' t' => exists obs : list (obj * option Z),
    obs.*1 = l /\ readings t' = readings t ++ omap snd obs /\
    (forall o r, (o, r) ∈ obs -> is_Some r <-> pid o.2 = n /\ cnt o.2 < 5) /\
    INV h0 [] (filter (fun e => ~ aged e) obs).*1 s' t' /\
    forall o, o ∈ l -> pid o.2 <> n \/ 5 <= cnt o.2 -> o ∈ (filter (fun e => ~ aged e) obs).*1).
Proof.
  intros Hi. eapply wp_mono; [by apply (full_remove_expired_spec h0 l)|].
  intros _ s' t' (js & Hl & Hr & Hi').
  destruct (survivors_aged n l js Hl) as (obs & <- & <- & Hobs & Hs). rewrite Hs in Hi'.
  exists obs. split_and!; [done..|]. intros o [[o' r] [-> Hin]]%list_elem_of_fmap Ho.
  apply list_elem_of_fmap. exists (o', r). split; [done|]. apply list_elem_of_filter.
  split; [|done]. cbn in Ho. destruct r as [j|]; [|by intros []].
  destruct (proj1 (Hobs o' (Some j) Hin)) as [? ?]; [by eexists|]. destruct Ho; [done|lia].
Qed.

(** Whatever the allocator answers, loading returns 0 with entries for some
    of the process and its three ancestors and nothing else allocated, and
    unloading prints each entry and then gives back everything. *)
Theorem list_full_load_unload h0 (l0 : L) t me parent next tpid :
  held t = h0 -> disciplined t = true -> free_context h0 -> Tasks K me parent next tpid ->
  wp init_full_kernel_list K (LState ∅ l0) t (fun r s1 t1 => r = 0 /\ exists l js l4,
    l = survivors (tpid (parent (parent me))) js l4 /\
    entries_of [tpid me; tpid (parent me); tpid (parent (parent me));
                tpid (parent (parent (parent me)))] l4 /\
    INV h0 [] l s1 t1 /\
    wp exit_full_kernel_list K s1 t1 (fun _ s2 t2 => INV h0 [] [] s2 t2 /\ held t2 ≡ₚ h0 /\
      exists later, t2 = later ++ entry_lines l ++ t1)).
Proof.
  intros Hh Hd H0 [Hc Hp _ Ht]. unfold init_full_kernel_list, pid_of. wp_run.
  unfold set_links. cbn [cells links].
  assert (Hi0 : INV h0 [] [] (LState (V := taskInfo) ∅ (INIT_LIST_HEAD head l0)) t).
  { split; [apply init_holds|unfold account; by rewrite Hh|done|apply Forall_nil_2]. }
  rewrite !Hc, Ht. eapply wp_mono.
  { apply (full_add_grows h0 [] [] (tpid me)); [by repeat (apply inv_quiet; [done|])|done|apply sublist_nil]. }
  intros _ s1 t1 (l1 & Hi1 & He1). wp_run. rewrite !Hc, !Hp, Ht. eapply wp_mono.
  { apply (full_add_grows h0 [tpid me] l1); [by repeat (apply inv_quiet; [done|])|done|exact He1]. }
  intros _ s2 t2 (l2 & Hi2 & He2). wp_run. rewrite !Hc, !Hp, Ht. eapply wp_mono.
  { apply (full_add_grows h0 [tpid me; tpid (parent me)] l2);
      [by repeat (apply inv_quiet; [done|])|done|exact He2]. }
  intros _ s3 t3 (l3 & Hi3 & He3). wp_run. rewrite !Hc, !Hp, Ht. eapply wp_mono.
  { apply (full_add_grows h0 [tpid me; tpid (parent me); tpid (parent (parent me))] l3);
      [by repeat (apply inv_quiet; [done|])|done|exact He3]. }
  intros _ s4 t4 (l4 & Hi4 & He4). wp_run. rewrite !Hc, !Hp, Ht.
  match goal with |- wp (task_info_find_pid ?n) K s4 ?t5 _ =>
    destruct (full_find_spec h0 l4 n s4 t5) as (q & E & _); [by repeat (apply inv_quiet; [done|])|] end.
  wp_by E. rewrite !Hc, !Hp, Ht. eapply wp_mono.
  { apply (full_remove_expired_spec h0 l4). by repeat (apply inv_quiet; [done|]). }
  intros _ s5 t5 (js & _ & _ & Hi5). wp_run. split; [done|]. eexists _, js, l4.
  split; [reflexivity|]. split; [exact He4|]. split; [done|]. by apply full_exit_spec.
Qed.

End proofs.

(** ** Uninitialised counters *)

Module Sample.

#[export] Instance layout : Layout := Build_Layout 8 16 40.
#[export] Instance config : Config := Build_Config 250 12.

(** The sample kernel, with fresh memory that holds [g] and a clock that
    advances by 1000 ticks at each call. *)
Definition kernel (g : Z) : oracle := fun t c =>
  match c with
  | uninitialised _ _ => g
  | read_jiffies => 1000 * Z.of_nat (length t)
  | _ => SampleKernel.kernel t c
  end.

#[export] Instance heap g : HeapLaws (kernel g) offsetof_node head.
Proof.
  split; intros t n f _; cbn.
  - intros Hin%SampleKernel.fresh_above. lia.
  - pose proof (SampleKernel.fresh_large t). lia.
Defined.

Definition empty_state : lstate DList.mem taskInfo := LState ∅ (INIT_LIST_HEAD 8 ∅).

(** The counters of the objects left after a pid has been added and then
    expired. *)
Definition counters_left (g : Z) : list Z :=
  (fun o => cnt o.2) <$> map_to_list (cells (final
    ((task_info_add_for_current 5 ;; task_info_remove_expired 5) (kernel g) empty_state []))).

End Sample.
Import Sample.

(** The counter is incremented before it is ever set, so the outcome of the
    module depends on what the allocator leaves in fresh memory: of two kernels
    that differ only in that, one expires a new entry after three seconds (its
    counter is 1) and the other keeps it (its counter is 101). *)
Theorem counter_depends_on_garbage :
  (forall t c, (forall p f, c <> uninitialised p f) -> kernel 0 t c = kernel 100 t c) /\
  counters_left 0 = [] /\ counters_left 100 = [101].
Proof.
  split; [|split; [by vm_compute|by vm_compute]].
  intros t c Hc. destruct c; try done. by destruct (Hc p field).
Qed.

(** ** Witnesses *)

Definition sample_entries : list obj := [(8192, TaskInfo 6 7 20); (4096, TaskInfo 5 1 10)].
Definition sample_state : lstate DList.mem taskInfo :=
  LState (list_to_map sample_entries) (list_insert 8208 8 (list_insert 4112 8 (INIT_LIST_HEAD 8 ∅))).
Definition sample_past : trace := [(kmalloc 40 GFP_KERNEL, 8192); (kmalloc 40 GFP_KERNEL, 4096)].

Lemma sample_full_inv :
  heap_inv (chain := DList.chain) offsetof_node head [] [] sample_entries sample_state sample_past.
Proof.
  split.
  - split; [|split; [done|]].
    + apply (chain_insert (chain := DList.chain)).
      * apply (chain_insert (chain := DList.chain)); [apply (chain_init (chain := DList.chain))|].
        by apply (bool_decide_unpack _).
      * by apply (bool_decide_unpack _).
    + by apply (bool_decide_unpack _).
  - unfold account. cbn. reflexivity.
  - reflexivity.
  - by apply (bool_decide_unpack _).
Qed.

Lemma find_pid_first_witness :
  exists p, task_info_find_pid 5 (kernel 0) sample_state sample_past = Done p sample_state sample_past /\
    exists l1 v l2, sample_entries = l1 ++ (p, v) :: l2 /\ (5 ∉ pids l1) /\ pid v = 5.
Proof. exact (find_pid_first (kernel 0) [] sample_entries 5 sample_state sample_past sample_full_inv). Defined.

Lemma remove_expired_of_pid_witness :
  wp (task_info_remove_expired 5) (kernel 0) sample_state sample_past (fun _ s' t' =>
    exists obs : list (obj * option Z), obs.*1 = sample_entries /\ readings t' = [] ++ omap snd obs /\
    (forall o r, (o, r) ∈ obs -> is_Some r <-> pid o.2 = 5 /\ cnt o.2 < 5) /\
    heap_inv (chain := DList.chain) offsetof_node head [] [] (filter (fun e => ~ aged e) obs).*1 s' t' /\
    forall o, o ∈ sample_entries -> pid o.2 <> 5 \/ 5 <= cnt o.2 ->
      o ∈ (filter (fun e => ~ aged e) obs).*1).
Proof. exact (remove_expired_of_pid (kernel 0) [] sample_entries 5 sample_state sample_past sample_full_inv). Defined.

Lemma list_full_load_unload_witness :
  wp init_full_kernel_list (kernel 0) (LState ∅ (∅ : DList.mem)) [] (fun r s1 t1 => r = 0 /\ exists l js l4,
    l = survivors (s32 9) js l4 /\ entries_of [s32 7; s32 8; s32 9; s32 10] l4 /\
    heap_inv (chain := DList.chain) offsetof_node head [] [] l s1 t1 /\
    wp exit_full_kernel_list (kernel 0) s1 t1 (fun _ s2 t2 =>
      heap_inv (chain := DList.chain) offsetof_node head [] [] [] s2 t2 /\ held t2 ≡ₚ [] /\
      exists later, t2 = later ++ entry_lines l ++ t1)).
Proof.
  apply (list_full_load_unload (chain := DList.chain) (kernel 0) [] ∅ [] 7 (fun x => x + 1)
    (fun x => x + 2) (swrap 32)); [done..|by split].
Defined.

End ListFull.
