(* ===== verification/Alloc.v ===== *)
(** * Memory for the load of a module (KernelModules/kernelMemory-mod,
    KernelModules/kernelAlloc-mod)

    kernelMemory.c allocates four objects when it is loaded, prints them and
    frees them; kernelAlloc-mod.c fills a buffer that it frees when it is
    unloaded. *)

From S2P Require Import Prelude Kernel Monad KList.

(** ** kernelMemory.c *)

Module KernelMemory.

Record taskInfo := TaskInfo { pid : Z; timestamp : Z }.

Definition set_pid (v : Z) (t : taskInfo) := TaskInfo v (timestamp t).
Definition set_timestamp (v : Z) (t : taskInfo) := TaskInfo (pid t) v.

Class Layout := { sizeof_taskInfo : Z }.

Section code.
Context `{Lay : Layout}.

(** The objects allocated. *)
Abbreviation heap := (gmap Z taskInfo).
Abbreviation MH := (M heap).

(** [kmalloc] of one object, the content of which is arbitrary. *)
Definition kmalloc_info : MH Z :=
  p ← ask (kmalloc sizeof_taskInfo GFP_KERNEL);
  if decide (p = NULL) then mret NULL else
  a ← ask (uninitialised p "pid");
  b ← ask (uninitialised p "timestamp");
  modify <[p := TaskInfo (s32 a) (u64 b)]> ;;
  mret p.

Definition kfree_info (p : Z) : MH unit :=
  if decide (p = NULL) then tell (kfree p) else
  s ← gets (lookup p);
  unwrap (bad_free p) s ;;
  modify (delete p) ;;
  tell (kfree p).

Definition alloc_task_info (pid : Z) : MH Z :=
  t ← kmalloc_info;
  if decide (t = NULL) then
    pr_debug "[ERROR] Failed to allocate memory for taskInfo\n" [] ;; mret NULL
  else
  update t (set_pid pid) ;;
  j ← jiffies;
  update t (set_timestamp j) ;;
  mret t.

Definition print_task_info (tsk : Z) : MH unit :=
  v ← load tsk;
  pr_info "tsk->id: %d\n" [KInt (pid v)] ;;
  v ← load tsk;
  pr_info "tsk->timestamp: %lx\n" [KInt (timestamp v)].

Definition memoryInit : MH Z :=
  c ← ask current; n ← pid_of c;
  currProcess ← alloc_task_info n;
  c ← ask current; c ← ask (task_parent c); n ← pid_of c;
  parentProcess ← alloc_task_info n;
  c ← ask current; c ← ask (task_parent c); c ← ask (task_parent c); n ← pid_of c;
  nextParentProcess ← alloc_task_info n;
  c ← ask current; c ← ask (task_parent c); c ← ask (task_parent c); c ← ask (task_parent c);
  n ← pid_of c;
  nextNextParentProcess ← alloc_task_info n;
  print_task_info currProcess ;;
  print_task_info parentProcess ;;
  print_task_info nextParentProcess ;;
  print_task_info nextNextParentProcess ;;
  (if decide (currProcess <> NULL /\ parentProcess <> NULL /\
              nextNextParentProcess <> NULL /\ nextParentProcess <> NULL) then
     kfree_info currProcess ;;
     kfree_info parentProcess ;;
     kfree_info nextParentProcess ;;
     kfree_info nextNextParentProcess
   else mret ()) ;;
  mret 0.

Definition memoryExit : MH unit :=
  pr_info "[LOG] kernemMemory Module has been unloaded\n" [].

End code.

(** ** Claims *)

(** The allocator does not hand out memory that is in use. *)
Definition fresh_memory (K : oracle) : Prop :=
  forall t n f, K t (kmalloc n f) <> NULL -> Rmem (K t (kmalloc n f)) ∉ held t.

Section proofs.
Context `{Lay : Layout} (K : oracle) (Kfresh : fresh_memory K) (h0 : list resource).
Context (H0 : free_context h0).
Abbreviation obj := (Z * taskInfo)%type.
Implicit Types (s : gmap Z taskInfo) (t new : trace) (ps : list obj).

(** The objects of the heap are [ps], which is what is held in addition to
    [h0]. *)
Record owns ps s t : Prop := Owns {
  owns_heap : s = list_to_map ps;
  owns_distinct : NoDup ps.*1;
  owns_null : (NULL ∉ ps.*1);
  owns_held : held t ≡ₚ (Rmem <$> ps.*1) ++ h0;
  owns_disciplined : disciplined t = true
}.

Lemma owns_quiet ps s e t : quiet e = true -> owns ps s t -> owns ps s (e :: t).
Proof. intros Hq [? ? ? ? ?]. split; [done..| |]; by rewrite ?quiet_held, ?quiet_disciplined. Qed.

Lemma owns_quiets ps s l t : forallb quiet l = true -> owns ps s t -> owns ps s (l ++ t).
Proof.
  intros Hl Ho. induction l as [|e l IH]; [done|]. cbn in Hl. apply andb_true_iff in Hl as [He Hl].
  by apply owns_quiet, IH.
Qed.

(** No object is a lock. *)
Lemma owns_context ps s t : owns ps s t -> existsb is_atomic (held t) = false.
Proof.
  intros [_ _ _ Hh _]. apply not_true_is_false. rewrite existsb_exists. intros (r & Hin & Hr).
  apply list_elem_of_In in Hin. rewrite Hh in Hin. apply elem_of_app in Hin as [Hin|Hin].
  - apply list_elem_of_fmap in Hin as (p & -> & _). discriminate Hr.
  - apply not_true_iff_false in H0. apply H0, existsb_exists. exists r. by rewrite <- list_elem_of_In.
Qed.

Lemma owns_lookup ps s t p v : owns ps s t -> (p, v) ∈ ps -> s !! p = Some v.
Proof. intros [-> Hd _ _ _] Hin. by apply elem_of_list_to_map. Qed.

Lemma owns_lookup_null ps s t : owns ps s t -> s !! NULL = None.
Proof. intros [-> _ Hn _ _]. by apply not_elem_of_list_to_map_1. Qed.

Lemma kmalloc_info_fails s t :
  K t (kmalloc sizeof_taskInfo GFP_KERNEL) = NULL ->
  kmalloc_info K s t = Done NULL s ((kmalloc sizeof_taskInfo GFP_KERNEL, NULL) :: t).
Proof.
  intros E. unfold kmalloc_info. erewrite run_bind by reflexivity. by rewrite E, decide_True.
Qed.

(** The history of a successful allocation. *)
Definition fresh_trace t : trace :=
  let p := K t (kmalloc sizeof_taskInfo GFP_KERNEL) in
  let t1 := (kmalloc sizeof_taskInfo GFP_KERNEL, p) :: t in
  let t2 := (uninitialised p "pid", K t1 (uninitialised p "pid")) :: t1 in
  (uninitialised p "timestamp", K t2 (uninitialised p "timestamp")) :: t2.

Lemma kmalloc_info_eq s t :
  let p := K t (kmalloc sizeof_taskInfo GFP_KERNEL) in
  p <> NULL -> exists v, kmalloc_info K s t = Done p (<[p := v]> s) (fresh_trace t).
Proof.
  intros p Hp. eexists. unfold kmalloc_info. erewrite run_bind by reflexivity. fold p.
  rewrite decide_False by done. by run_all.
Qed.

(** Allocation: the history grows by [new], with one answer of the allocator;
    either it fails or there is one more object, with the pid asked for. *)
Lemma alloc_info_spec ps s t n :
  owns ps s t -> exists p s' new, alloc_task_info n K s t = Done p s' (new ++ t) /\
    allocations (new ++ t) = allocations t ++ [p] /\
    ((p = NULL /\ owns ps s' (new ++ t)) \/
     (p <> NULL /\ exists j, owns ((p, TaskInfo n j) :: ps) s' (new ++ t))).
Proof.
  intros Ho. unfold alloc_task_info. set (p := K t (kmalloc sizeof_taskInfo GFP_KERNEL)).
  pose proof (owns_context _ _ _ Ho) as Hc. pose proof Ho as [Hs Hd Hn Hh Hdi].
  destruct (decide (p = NULL)) as [Ep|Ep].
  - exists NULL, s, [(printk "[ERROR] Failed to allocate memory for taskInfo\n" [], 0);
      (kmalloc sizeof_taskInfo GFP_KERNEL, NULL)]. split.
    { erewrite run_bind by by apply kmalloc_info_fails. by rewrite decide_True. }
    split; [done|]. left. split; [done|].
    apply owns_quiet; [done|]. split; [done..|].
    cbn [app]. rewrite disciplined_cons, Hdi. unfold event_ok. cbn. by rewrite Hc.
  - destruct (kmalloc_info_eq s t Ep) as (v & E).
    exists p, (<[p := TaskInfo n (u64 (K (fresh_trace t) read_jiffies))]> s),
      ((read_jiffies, K (fresh_trace t) read_jiffies) ::
       take 3 (fresh_trace t)). split.
    { erewrite run_bind by exact E. fold p. rewrite decide_False by done. run_step.
      unfold jiffies. erewrite run_bind by (run_all; reflexivity). run_step.
      by rewrite !insert_insert_eq. }
    assert (Hf : p ∉ ps.*1).
    { intros Hin. apply (Kfresh t sizeof_taskInfo GFP_KERNEL Ep). fold p. rewrite Hh.
      apply elem_of_app. left. by apply list_elem_of_fmap_2. }
    split; [done|]. right. split; [done|]. eexists.
    do 3 (apply owns_quiet; [done|]).
    assert (Eq : (p =? 0) = false) by by apply Z.eqb_neq. split.
    + by rewrite Hs.
    + by apply NoDup_cons.
    + cbn. rewrite not_elem_of_cons. by split.
    + cbn. fold p. rewrite Eq. cbn. by rewrite Hh.
    + change (disciplined ((kmalloc sizeof_taskInfo GFP_KERNEL, p) :: t) = true).
      rewrite disciplined_cons, Hdi. unfold event_ok. cbn. by rewrite Hc, Eq.
Qed.

(** The two lines an object prints, the second first. *)
Definition info_lines (v : taskInfo) : trace :=
  [(printk "tsk->timestamp: %lx\n" [KInt (timestamp v)], 0);
   (printk "tsk->id: %d\n" [KInt (pid v)], 0)].

Lemma print_info_eq p v s t :
  s !! p = Some v -> print_task_info p K s t = Done () s (info_lines v ++ t).
Proof. intros E. unfold print_task_info. by run_all. Qed.

Lemma print_info_null s t :
  s !! NULL = None -> print_task_info NULL K s t = Oops (bad_access NULL) s t.
Proof. intros E. unfold print_task_info, mbind, M_bind, load. by rewrite E. Qed.

(** Freeing the oldest of the objects. *)
Lemma kfree_info_spec ps p v s t :
  owns (ps ++ [(p, v)]) s t ->
  exists s', kfree_info p K s t = Done () s' ((kfree p, 0) :: t) /\ owns ps s' ((kfree p, 0) :: t).
Proof.
  intros Ho. pose proof Ho as [Hs Hd Hn Hh Hdi]. rewrite fmap_app in *. cbn in Hd, Hn, Hh.
  assert (Hp : p <> NULL).
  { intros ->. apply Hn, elem_of_app. right. by left. }
  assert (Hin : s !! p = Some v).
  { eapply owns_lookup; [done|]. apply elem_of_app. right. by left. }
  apply NoDup_app in Hd as (Hd & Hdis & _).
  assert (Hf : p ∉ ps.*1). { intros Hx. apply (Hdis p Hx). by left. }
  exists (delete p s). split.
  { unfold kfree_info. rewrite decide_False by done. erewrite run_bind by reflexivity.
    rewrite Hin. by run_all. }
  assert (Er : releases (kfree p, 0) = Some (Rmem p)).
  { cbn. apply Z.eqb_neq in Hp. unfold NULL in Hp. by rewrite Hp. }
  split; [|done| | |].
  - rewrite Hs, list_to_map_app. rewrite delete_union. cbn.
    rewrite delete_insert_eq, delete_empty, (right_id_L ∅ (∪)). apply delete_id.
    by apply not_elem_of_list_to_map_1.
  - intros Hx. apply Hn, elem_of_app. by left.
  - rewrite (held_release _ (Rmem p)) by done. apply drop_one_perm_cons. rewrite Hh.
    rewrite fmap_app, <- (assoc_L (++)). cbn. symmetry. apply Permutation_middle.
  - rewrite disciplined_cons, Hdi. unfold event_ok. rewrite Er. apply bool_decide_eq_true.
    rewrite Hh, fmap_app. apply elem_of_app. left. apply elem_of_app. right. by left.
Qed.

(** The objects behind those of the pointers that are not NULL. *)
Definition objs_of (l : list obj) : list obj := filter (fun o => o.1 <> NULL) l.

Lemma objs_of_cons p v l :
  objs_of ((p, v) :: l) = if decide (p = NULL) then objs_of l else (p, v) :: objs_of l.
Proof.
  unfold objs_of. destruct (decide (p = NULL)) as [Hp|Hp].
  - by rewrite filter_cons_False by (cbn; tauto).
  - by rewrite filter_cons_True.
Qed.

(** The pointers and pids of the objects are those of the successful allocations. *)
Lemma objs_of_pids l :
  (fun o => (o.1, pid o.2)) <$> objs_of l =
  filter (fun x => x.1 <> NULL) ((fun o => (o.1, pid o.2)) <$> l).
Proof.
  induction l as [|[p v] l IH]; [done|]. rewrite objs_of_cons, fmap_cons. cbn [fst snd].
  destruct (decide (p = NULL)) as [Hp|Hp].
  - rewrite filter_cons_False by (cbn; tauto). exact IH.
  - rewrite filter_cons_True by done. by rewrite fmap_cons, IH.
Qed.

(** One allocation of [memoryInit]. *)
Lemma alloc_grows l s t n :
  owns (objs_of l) s t -> exists p v s' new,
    alloc_task_info n K s t = Done p s' (new ++ t) /\ pid v = n /\
    owns (objs_of ((p, v) :: l)) s' (new ++ t) /\ allocations (new ++ t) = allocations t ++ [p].
Proof.
  intros Ho. destruct (alloc_info_spec _ s t n Ho)
    as (p & s' & new & E & Ha & [(-> & Ho')|(Hp & j & Ho')]).
  - by exists NULL, (TaskInfo n 0), s', new.
  - exists p, (TaskInfo n j), s', new. rewrite objs_of_cons, decide_False by done. by split_and!.
Qed.

(** One print of [memoryInit]. *)
Lemma print_info_spec l s t p v :
  owns (objs_of l) s t -> (p, v) ∈ l ->
  print_task_info p K s t =
    if decide (p = NULL) then Oops (bad_access NULL) s t else Done () s (info_lines v ++ t).
Proof.
  intros Ho Hin. destruct (decide (p = NULL)) as [->|Hp].
  - apply print_info_null. by eapply owns_lookup_null.
  - apply print_info_eq. eapply owns_lookup; [done|]. by apply list_elem_of_filter.
Qed.

(** Give back the oldest object; the others are a concrete list. *)
Ltac free_oldest ps p v Ho :=
  let s := fresh "s" in let E := fresh "E" in let Ho' := fresh "Ho" in
  destruct (kfree_info_spec ps p v _ _ Ho) as (s & E & Ho');
  rewrite (run_bind _ _ _ _ _ _ _ _ E); clear E Ho; rename Ho' into Ho; cbn beta.

Lemma free_four p1 p2 p3 p4 v1 v2 v3 v4 s t :
  owns [(p4, v4); (p3, v3); (p2, v2); (p1, v1)] s t ->
  let t' := [(kfree p4, 0); (kfree p3, 0); (kfree p2, 0); (kfree p1, 0)] ++ t in
  (kfree_info p1 ;; kfree_info p2 ;; kfree_info p3 ;; kfree_info p4) K s t = Done () ∅ t' /\
  held t' ≡ₚ h0 /\ disciplined t' = true.
Proof.
  intros Ho t'. free_oldest [(p4, v4); (p3, v3); (p2, v2)] p1 v1 Ho.
  free_oldest [(p4, v4); (p3, v3)] p2 v2 Ho. free_oldest [(p4, v4)] p3 v3 Ho.
  destruct (kfree_info_spec [] p4 v4 _ _ Ho) as (s' & E & [-> _ _ Hh Hd]).
  rewrite E. by split_and!.
Qed.

(** The next allocation or print of [memoryInit]. *)
Ltac next_alloc l Ho p v Hv Hm :=
  match goal with |- context [(alloc_task_info ?n ≫= ?k) K ?s ?t1] =>
    let Ho1 := fresh "Ho" in let s' := fresh "s" in let new := fresh "new" in let E := fresh "E" in
    assert (Ho1 : owns (objs_of l) s t1) by (repeat (apply owns_quiet; [done|]); exact Ho);
    destruct (alloc_grows l s t1 n Ho1) as (p & v & s' & new & E & Hv & Ho' & Hm);
    rewrite (run_bind _ _ _ _ _ _ _ _ E); clear E Ho Ho1; rename Ho' into Ho; cbn beta
  end.

Ltac under_quiet Ho := repeat first [exact Ho | apply owns_quiets; [done|]].
Ltac count_allocations :=
  repeat (cbn [allocations app info_lines];
    match goal with H : allocations (?new ++ _) = _ |- context [allocations (?new ++ _)] =>
      rewrite H; clear H end);
  cbn [allocations]; by rewrite <- !(assoc_L (++)).
Ltac next_print l Ho p v Hf H :=
  match goal with |- context [(print_task_info p ≫= ?k) K ?s ?t1] =>
    let E := fresh "E" in
    assert (E : print_task_info p K s t1 =
      if decide (p = NULL) then Oops (bad_access NULL) s t1 else Done () s (info_lines v ++ t1))
      by (apply (print_info_spec l); [under_quiet Ho|repeat first [by left|right]]);
    destruct (decide (p = NULL)) as [H|H];
    [ unfold mbind at 1, M_bind at 1; rewrite E; split; [done|]; apply Hf;
      [rewrite H; repeat first [by left|right]|count_allocations|under_quiet Ho]
    | rewrite (run_bind _ _ _ _ _ _ _ _ E); clear E; cbn beta ]
  end.

(** What a load that faults leaves: the four answers of the allocator, one of which
    is NULL, and exactly the objects of the others. *)
Definition faulted t (me : Z) (parent tpid : Z -> Z) s' t' : Prop :=
  exists p1 p2 p3 p4 objs, NULL ∈ [p1; p2; p3; p4] /\
    allocations t' = allocations t ++ [p1; p2; p3; p4] /\ owns objs s' t' /\
    (fun o => (o.1, pid o.2)) <$> objs = filter (fun x => x.1 <> NULL)
      [(p4, tpid (parent (parent (parent me)))); (p3, tpid (parent (parent me)));
       (p2, tpid (parent me)); (p1, tpid me)].

(** C37: the load of kernelMemory for every allocator: either it returns 0, has
    printed the process, its parent, grandparent and great-grandparent in this
    order, and has freed all it allocated; or an allocation has failed, the load
    faults on the NULL pointer it prints (the test comes after the prints), and
    exactly the objects of the allocations that succeeded, with their pids, are
    still allocated, besides what was held before. *)
Theorem memory_init_outcomes t me parent next tpid :
  held t ≡ₚ h0 -> disciplined t = true -> Tasks K me parent next tpid ->
  match memoryInit K ∅ t with
  | Done r s' t' => r = 0 /\ s' = ∅ /\ held t' ≡ₚ h0 /\ disciplined t' = true /\
      exists v1 v2 v3 v4 frees t1, length frees = 4%nat /\
        t' = frees ++ info_lines v4 ++ info_lines v3 ++ info_lines v2 ++ info_lines v1 ++ t1 /\
        [pid v1; pid v2; pid v3; pid v4] =
          [tpid me; tpid (parent me); tpid (parent (parent me)); tpid (parent (parent (parent me)))]
  | Oops f s' t' => f = bad_access NULL /\
      faulted t me parent tpid s' t'
  end.
Proof.
  intros Hh Hd [Hc Hp _ Ht]. unfold memoryInit, pid_of.
  assert (Ho : owns (objs_of []) ∅ t) by (split; [done|apply NoDup_nil_2|apply not_elem_of_nil|done..]).
  run_step. rewrite Hc. run_step. next_alloc (@nil obj) Ho p1 v1 Hv1 Hm1.
  run_step. rewrite Hc. run_step. rewrite Hp. run_step. next_alloc [(p1, v1)] Ho p2 v2 Hv2 Hm2.
  run_step. rewrite Hc. run_step. rewrite Hp. run_step. rewrite Hp. run_step.
  next_alloc [(p2, v2); (p1, v1)] Ho p3 v3 Hv3 Hm3.
  run_step. rewrite Hc. run_step. rewrite Hp. run_step. rewrite Hp. run_step. rewrite Hp. run_step.
  next_alloc [(p3, v3); (p2, v2); (p1, v1)] Ho p4 v4 Hv4 Hm4.
  rewrite !Ht in *.
  assert (Hf : forall s' t', NULL ∈ [p1; p2; p3; p4] ->
    allocations t' = allocations t ++ [p1; p2; p3; p4] ->
    owns (objs_of [(p4, v4); (p3, v3); (p2, v2); (p1, v1)]) s' t' -> faulted t me parent tpid s' t').
  { intros s' t' Hn Ha Ho2. eexists p1, p2, p3, p4, _. split_and!; [done..|exact Ho2|].
    rewrite objs_of_pids. cbn [fmap list_fmap fst snd]. by rewrite Hv1, Hv2, Hv3, Hv4. }
  next_print [(p4, v4); (p3, v3); (p2, v2); (p1, v1)] Ho p1 v1 Hf H1.
  next_print [(p4, v4); (p3, v3); (p2, v2); (p1, v1)] Ho p2 v2 Hf H2.
  next_print [(p4, v4); (p3, v3); (p2, v2); (p1, v1)] Ho p3 v3 Hf H3.
  next_print [(p4, v4); (p3, v3); (p2, v2); (p1, v1)] Ho p4 v4 Hf H4.
  rewrite !objs_of_cons, !decide_False in Ho by done. rewrite decide_True by done.
  destruct (free_four p1 p2 p3 p4 v1 v2 v3 v4 _ _ (owns_quiets _ _ (info_lines v4 ++ info_lines v3 ++
    info_lines v2 ++ info_lines v1) _ eq_refl Ho)) as (E & Hh' & Hd').
  rewrite <- !(assoc_L (++)) in E. rewrite (run_bind _ _ _ _ _ _ _ _ E).
  rewrite <- !(assoc_L (++)) in Hh', Hd'. split_and!; [done..|].
  eexists v1, v2, v3, v4, _, _. split_and!; [|reflexivity|congruence]. done.
Qed.

End proofs.

(** ** Witness *)

#[export] Instance layout : Layout := Build_Layout 16.

Lemma sample_fresh : fresh_memory SampleKernel.kernel.
Proof.
  intros t n f Hp. by apply (kmalloc_fresh (HeapLaws := SampleKernel.heap_laws 0 0 ltac:(lia) ltac:(lia))).
Qed.

Lemma memory_init_outcomes_witness :
  exists s t, memoryInit SampleKernel.kernel ∅ [] = Done 0 s t /\ s = ∅ /\ held t ≡ₚ [].
Proof.
  assert (Ho : oopsed (memoryInit SampleKernel.kernel ∅ []) = false) by by vm_compute.
  pose proof (memory_init_outcomes SampleKernel.kernel sample_fresh [] eq_refl [] 7 (fun x => x + 1)
    (fun x => x + 2) (swrap 32) (Permutation_refl _) eq_refl SampleKernel.tasks) as H.
  destruct (memoryInit SampleKernel.kernel ∅ []) as [r s t|f s t] eqn:E.
  - destruct H as (-> & Hs & Hh & _). exists s, t. exact (conj eq_refl (conj Hs Hh)).
  - discriminate Ho.
Defined.

End KernelMemory.

(** ** kernelAlloc-mod.c *)

Module KernelAlloc.

Definition BUFFER_SIZE := 4096.
Definition strToCpy : list Z := bytes_of_string "The Dog is Black" ++ [10].

(** The pointer [kMemBuff] and the bytes of its block that have been written;
    the others are arbitrary. *)
Record state := State { kMemBuff : Z; written : gmap Z Z }.

Abbreviation MS := (M state).

(** [kMemBuff[i]] *)
Definition load_byte (i : Z) : MS Z :=
  p ← gets kMemBuff;
  if decide (p = NULL) then oops (bad_access NULL) else
  if decide (0 <= i < BUFFER_SIZE) then
    o ← gets (fun s => written s !! i);
    match o with Some b => mret b | None => ask (uninitialised p "kMemBuff") end
  else oops (bad_index i).

Definition store_byte (i b : Z) : MS unit :=
  p ← gets kMemBuff;
  if decide (p = NULL) then oops (bad_access NULL) else
  if decide (0 <= i < BUFFER_SIZE) then
    modify (fun s => State (kMemBuff s) (<[i := b]> (written s)))
  else oops (bad_index i).

(** [memcpy(kMemBuff + i, bytes, length bytes)] *)
Fixpoint memcpy (i : Z) (bytes : list Z) : MS unit :=
  match bytes with
  | [] => mret ()
  | b :: bytes' => store_byte i b ;; memcpy (i + 1) bytes'
  end.

Definition print_char (i : Z) : MS unit := b ← load_byte i; pr_info "%c" [KInt b].

Definition allocBuff : MS Z :=
  p ← ask (kmalloc BUFFER_SIZE GFP_KERNEL);
  modify (fun _ => State p ∅) ;;
  let len := length strToCpy in
  pr_info "[LOG] loaded module and allocating a buffer of 4096 bytes\n" [] ;;
  b ← gets kMemBuff;
  if decide (b = NULL) then
    pr_debug "[ERROR] Failed to allocate buffer\n" [] ;;
    mret (- ENOMEM)
  else
  memcpy 0 strToCpy ;;
  pr_info "[LOG] The string is: \n" [] ;;
  for_range 0 len print_char ;;
  mret 0.

Definition exitKernelAlloc : MS unit :=
  p ← gets kMemBuff;
  (if decide (p <> NULL) then tell (kfree p) else mret ()) ;;
  pr_info "[LOG] Unloading Module\n" [].

(** ** Claims *)

(** The characters printed one by one, the oldest first. *)
Fixpoint chars (t : trace) : list Z :=
  match t with
  | [] => []
  | (printk "%c" [KInt b], _) :: t' => chars t' ++ [b]
  | _ :: t' => chars t'
  end.

Section proofs.
Context (K : oracle).
Implicit Types (s : state) (t : trace).

(** The bytes from index [i] on are [bs]. *)
Definition holds_bytes (i : Z) (bs : list Z) s : Prop :=
  forall k b, bs !! k = Some b -> written s !! (i + Z.of_nat k) = Some b.

Lemma memcpy_eq bs : forall i s t,
  kMemBuff s <> NULL -> 0 <= i -> i + Z.of_nat (length bs) <= BUFFER_SIZE ->
  exists w, memcpy i bs K s t = Done () (State (kMemBuff s) w) t /\
    holds_bytes i bs (State (kMemBuff s) w) /\
    forall j, j < i -> w !! j = written s !! j.
Proof.
  induction bs as [|b bs IH]; intros i s t Hp Hi Hl.
  { exists (written s). split; [by destruct s|]. split; [|done]. by intros k b E. }
  cbn [length] in Hl. cbn [memcpy].
  assert (E : store_byte i b K s t = Done () (State (kMemBuff s) (<[i := b]> (written s))) t).
  { unfold store_byte. erewrite run_bind by reflexivity. rewrite decide_False by done.
    by rewrite decide_True by lia. }
  rewrite (run_bind _ _ _ _ _ _ _ _ E).
  destruct (IH (i + 1) (State (kMemBuff s) (<[i := b]> (written s))) t) as (w & -> & Hw & Hlow);
    [done|lia..|].
  exists w. split; [done|]. split.
  - intros [|k] c Ek; cbn in Ek.
    + injection Ek as <-. rewrite Z.add_0_r. cbn [written]. rewrite Hlow by lia. apply lookup_insert_eq.
    + rewrite <- (Hw k c Ek). f_equal. lia.
  - intros j Hj. rewrite Hlow by lia. apply lookup_insert_ne. lia.
Qed.

Lemma print_char_eq bs i b s t :
  kMemBuff s <> NULL -> holds_bytes 0 bs s -> bs !! i = Some b -> Z.of_nat i < BUFFER_SIZE ->
  print_char (Z.of_nat i) K s t = Done () s ((printk "%c" [KInt b], 0) :: t).
Proof.
  intros Hp Hb E Hi. unfold print_char, load_byte, mbind, M_bind, gets.
  rewrite decide_False by done. rewrite decide_True by lia.
  specialize (Hb i b E). rewrite Z.add_0_l in Hb. by rewrite Hb.
Qed.

Lemma print_chars bs s t (Q : unit -> state -> trace -> Prop) :
  kMemBuff s <> NULL -> holds_bytes 0 bs s -> Z.of_nat (length bs) <= BUFFER_SIZE ->
  (forall l, forallb quiet l = true -> chars (l ++ t) = chars t ++ bs -> Q () s (l ++ t)) ->
  wp (for_range 0 (length bs) print_char) K s t Q.
Proof.
  intros Hp Hb Hl HQ.
  apply (wp_for_range (fun i s' t' => s' = s /\ exists l, t' = l ++ t /\ forallb quiet l = true /\
    chars t' = chars t ++ take (Z.to_nat i) bs)).
  - split; [done|]. exists []. cbn. by rewrite app_nil_r.
  - intros i s' t' Hi (-> & l & -> & Hq & Hc).
    destruct (lookup_lt_is_Some_2 bs (Z.to_nat i)) as [b Eb]; [lia|].
    rewrite <- (Z2Nat.id i), (wp_eq _ _ _ _ _ _ _ _ (print_char_eq bs _ b s _ Hp Hb Eb ltac:(lia))) by lia.
    split; [done|]. exists ((printk "%c" [KInt b], 0) :: l). split; [done|]. split; [done|].
    replace (Z.to_nat (Z.of_nat (Z.to_nat i) + 1)) with (S (Z.to_nat i)) by lia.
    cbn [chars app]. by rewrite Hc, (take_S_r _ _ _ Eb), (assoc_L (++)).
  - intros s' t' (-> & l & -> & Hq & Hc). apply HQ; [done|].
    by rewrite Hc, Z.add_0_l, Nat2Z.id, firstn_all.
Qed.

Lemma exit_alloc_balanced s t t0 h :
  balanced t0 (if decide (kMemBuff s = NULL) then h else Rmem (kMemBuff s) :: h) t ->
  wp exitKernelAlloc K s t (fun _ s2 t2 => s2 = s /\ balanced t0 h t2).
Proof.
  intros Hb. unfold exitKernelAlloc. wp_run. destruct (decide (kMemBuff s = NULL)) as [E|E].
  - rewrite decide_False by tauto. wp_run. split; [done|]. by apply balanced_quiet.
  - rewrite decide_True by done. wp_run. split; [done|]. apply balanced_quiet; [done|].
    eapply balanced_release; [|exact Hb]. cbn. apply Z.eqb_neq in E. unfold NULL in E. by rewrite E.
Qed.

Lemma balanced_quiets l t0 t h :
  forallb quiet l = true -> balanced t0 h t -> balanced t0 h (l ++ t).
Proof.
  intros Hl Hb. induction l as [|e l IH]; [done|]. cbn in Hl. apply andb_true_iff in Hl as [He Hl].
  by apply balanced_quiet, IH.
Qed.

(** The load of kernelAlloc copies its string into the block without
    leaving it and prints exactly the string, or fails with -ENOMEM; either way
    unloading leaves held what was held before. *)
Theorem alloc_buff_prints s t :
  preemptible t = true ->
  wp allocBuff K s t (fun r s1 t1 =>
    (if decide (kMemBuff s1 = NULL) then r = - ENOMEM /\ chars t1 = chars t
     else r = 0 /\ chars t1 = chars t ++ strToCpy /\ holds_bytes 0 strToCpy s1) /\
    wp exitKernelAlloc K s1 t1 (fun _ s2 t2 => balanced t (held t) t2)).
Proof.
  intros Hp. unfold allocBuff. wp_run. set (p := K t (kmalloc BUFFER_SIZE GFP_KERNEL)).
  assert (Hb : balanced t (if decide (p = NULL) then held t else Rmem p :: held t)
    ((kmalloc BUFFER_SIZE GFP_KERNEL, p) :: t)).
  { unfold preemptible in Hp. apply negb_true_iff in Hp. split.
    - cbn. destruct (decide (p = NULL)) as [->|E]; [done|]. apply Z.eqb_neq in E.
      unfold NULL in E. by rewrite E.
    - rewrite disciplined_cons. unfold event_ok. cbn. rewrite Hp. destruct (p =? 0); cbn;
        by rewrite andb_true_r. }
  cbn [kMemBuff]. destruct (decide (p = NULL)) as [E|E].
  - wp_run. cbn [kMemBuff]. rewrite decide_True by done. split; [by split|].
    eapply wp_mono; [apply (exit_alloc_balanced _ _ t (held t))|by intros ??? []].
    cbn [kMemBuff]. rewrite decide_True by done. by apply balanced_quiet, balanced_quiet.
  - wp_run. destruct (memcpy_eq strToCpy 0 (State p ∅) ((printk
      "[LOG] loaded module and allocating a buffer of 4096 bytes\n" [], 0) ::
      (kmalloc BUFFER_SIZE GFP_KERNEL, p) :: t)) as (w & Ew & Hw & _); [done..|].
    wp_by Ew. apply (print_chars strToCpy); [done..|]. intros l Hq Hc. wp_run. cbn [kMemBuff].
    rewrite decide_False by done. split; [by split|].
    eapply wp_mono; [apply (exit_alloc_balanced _ _ t (held t))|by intros ??? []].
    cbn [kMemBuff]. rewrite decide_False by done. apply balanced_quiets; [done|].
    by apply balanced_quiet, balanced_quiet.
Qed.

End proofs.

(** ** Witness *)

Lemma alloc_buff_prints_witness :
  exists s1 t1, allocBuff SampleKernel.kernel (State NULL ∅) [] = Done 0 s1 t1 /\
    chars t1 = strToCpy /\
    wp exitKernelAlloc SampleKernel.kernel s1 t1 (fun _ s2 t2 => balanced [] [] t2).
Proof.
  assert (Hn : result (allocBuff SampleKernel.kernel (State NULL ∅) []) = Some 0) by by vm_compute.
  pose proof (alloc_buff_prints SampleKernel.kernel (State NULL ∅) [] eq_refl) as H.
  apply wp_done in H as (r & s1 & t1 & E & H & Hx). exists s1, t1.
  destruct (decide (kMemBuff s1 = NULL)) as [En|_].
  - exfalso. destruct H as [-> _]. rewrite E in Hn. discriminate Hn.
  - destruct H as (-> & Hc & _). exact (conj E (conj Hc Hx)).
Defined.

End KernelAlloc.
