(* ===== verification/SmallMods.v ===== *)
(** * The small modules (KernelModules/deferred-mod, sched-spin-mod,
    proc-info-mod, error-mod, multi-mod, kernel-oops-mod, cmd-mod, hello-1)

    One Module for each of them.  The name of a task and the text of [__FILE__]
    are parameters. *)

From S2P Require Import Prelude Kernel Monad.

(** ** deferred.c: a timer that arms itself *)

Module Deferred.

Definition TIMER_TIMEOUT := 2.
Definition MSG := "INCOMING INCOMING"%string.

(** The address of the variable [timer]. *)
Class Layout := { timer_addr : Z }.

Section code.
Context `{Lay : Layout} `{Cfg : Config}.
Abbreviation MU := (M unit).

Definition timer_callback (timer : Z) : MU unit :=
  pr_info "The message is: %s\n" [KStr MSG] ;;
  j ← jiffies;
  tell (mod_timer timer (j +64 s32 (TIMER_TIMEOUT * HZ))%cint).

Definition timer_init : MU Z :=
  pr_info "[LOG] timer module loaded\n" [] ;;
  tell (timer_setup timer_addr) ;;
  j ← jiffies;
  tell (mod_timer timer_addr (j +64 s32 (TIMER_TIMEOUT * HZ))%cint) ;;
  mret 0.

Definition timer_exit : MU unit :=
  tell (del_timer_sync timer_addr) ;;
  pr_info "[LOG] timer_exit module has exited\n" [].

End code.

(** *** Claims *)

Section proofs.
Context `{Lay : Layout} `{Cfg : Config} (K : oracle).
Implicit Types (t : trace).

(** The tick a pending timer is armed for. *)
Fixpoint pending t : option Z :=
  match t with
  | [] => None
  | (mod_timer tm e, _) :: t' => if decide (tm = timer_addr) then Some e else pending t'
  | (timer_setup tm, _) :: t' | (del_timer tm, _) :: t' | (del_timer_sync tm, _) :: t' =>
      if decide (tm = timer_addr) then None else pending t'
  | _ :: t' => pending t'
  end.

(** The number of times the callback has printed its message. *)
Fixpoint messages t : nat :=
  match t with
  | [] => 0
  | (printk "The message is: %s\n" [KStr _], _) :: t' => S (messages t')
  | _ :: t' => messages t'
  end.

(** A pending timer expires. *)
Inductive expires : trace -> trace -> Prop :=
  | expires_run e t t' : pending t = Some e ->
      timer_callback timer_addr K () t = Done () () t' -> expires t t'.

(** The timer is pending, two seconds after the last reading of [jiffies]. *)
Definition armed t : Prop :=
  exists j, last (readings t) = Some j /\ pending t = Some (j +64 s32 (TIMER_TIMEOUT * HZ))%cint.

Lemma callback_eq t : exists t', timer_callback timer_addr K () t = Done () () t' /\
  armed t' /\ messages t' = S (messages t).
Proof.
  eexists. split.
  { unfold timer_callback. run_step. unfold jiffies. erewrite run_bind by (run_all; reflexivity).
    reflexivity. }
  split; [|done]. eexists. split; [cbn; apply last_snoc|]. cbn. by rewrite decide_True.
Qed.

Lemma init_armed t : exists t', timer_init K () t = Done 0 () t' /\ armed t' /\ messages t' = messages t.
Proof.
  eexists. split.
  { unfold timer_init. run_step. run_step. unfold jiffies.
    erewrite run_bind by (run_all; reflexivity). run_step. reflexivity. }
  split; [|done]. eexists. split; [cbn; apply last_snoc|]. cbn. by rewrite decide_True.
Qed.

Lemma expires_armed n t t' : nsteps expires n t t' -> armed t ->
  armed t' /\ messages t' = (n + messages t)%nat.
Proof.
  induction 1 as [t|n t t1 t' [e t0 t0' He E] _ IH]; [done|]. intros _.
  destruct (callback_eq t0) as (t2 & E2 & Ha & Hm). rewrite E in E2. injection E2 as <-.
  destruct (IH Ha) as [Ha' Hm']. split; [done|]. lia.
Qed.

(** C38: once loaded the timer never stops: after any number [n] of expiries it
    has printed [n] messages and is pending again, two seconds after the last
    reading of [jiffies], and it can expire once more - until the module is
    unloaded, after which it is not pending and never expires. *)
Theorem timer_rearms_until_exit t0 :
  exists t1, timer_init K () t0 = Done 0 () t1 /\ forall n t, nsteps expires n t1 t ->
    armed t /\ messages t = (n + messages t0)%nat /\ (exists t', expires t t') /\
    exists t2, timer_exit K () t = Done () () t2 /\ pending t2 = None /\
      forall t', ~ expires t2 t'.
Proof.
  destruct (init_armed t0) as (t1 & E & Ha & Hm). exists t1. split; [done|].
  intros n t Hn. destruct (expires_armed n t1 t Hn Ha) as [Ha' Hm'].
  split; [done|]. split; [by rewrite Hm', Hm|]. split.
  { destruct Ha' as (j & _ & Hp). destruct (callback_eq t) as (t' & E' & _).
    exists t'. by eapply expires_run. }
  assert (Hx : pending ((printk "[LOG] timer_exit module has exited\n" [], 0) ::
    (del_timer_sync timer_addr, 0) :: t) = None) by (cbn; by rewrite decide_True).
  eexists. split; [reflexivity|]. split; [exact Hx|].
  intros t' He. inversion He as [e t3 t4 Hp]. congruence.
Qed.

End proofs.

End Deferred.

(** ** sched-spin.c: sleeping with a spinlock held *)

Module SchedSpin.

(** The address of the local variable [lock]. *)
Class Layout := { lock_addr : Z }.

Section code.
Context `{Lay : Layout} `{Cfg : Config}.
Abbreviation MU := (M unit).

Definition sched_spin_init : MU Z :=
  pr_info "[LOG] Loading Module\n" [] ;;
  tell (spin_lock_init lock_addr) ;;
  tell (spin_lock lock_addr) ;;
  pr_info "[LOG] Grabbing the lock\n" [] ;;
  tell set_current_state_interruptible ;;
  ask (schedule_timeout_interruptible (5 * HZ)) ;;
  tell (spin_unlock lock_addr) ;;
  pr_info "[LOG] Releasing the lock\n" [] ;;
  mret 0.

Definition sched_spin_exit : MU unit :=
  pr_info "[LOG] Unloading sched_spin module\n" [].

(** The load returns 0 and gives its lock back, but for every kernel and in
    every context it breaks the discipline: it sleeps while it holds the
    spinlock, as its comment says it is meant to. *)
Theorem sched_spin_sleeps_atomic (K : oracle) t :
  exists t', sched_spin_init K () t = Done 0 () t' /\ held t' = held t /\ disciplined t' = false.
Proof.
  eexists. split; [unfold sched_spin_init; run_all; reflexivity|]. split.
  - cbn. by rewrite decide_True.
  - rewrite !disciplined_cons. unfold event_ok. cbn. by rewrite !andb_false_r.
Qed.

End code.

End SchedSpin.

(** ** proc-info-mod.c: the list of processes *)

Module ProcInfo.

(** The text in a [comm] array. *)
Class Env := { comm_text : Z -> string }.

Section code.
Context `{En : Env}.
Abbreviation MU := (M unit).

(** The two lines of a task. *)
Definition print_task (task : Z) : MU unit :=
  n ← pid_of task;
  pr_info "The Process ID is: %d\n" [KInt n] ;;
  c ← ask (task_comm task);
  pr_info "The Process name is: %s\n" [KStr (comm_text c)].

(** [for_each_process] over the processes [ps]. *)
Fixpoint for_each_process (ps : list Z) (body : Z -> MU unit) : MU unit :=
  match ps with
  | [] => mret ()
  | p :: ps' => body p ;; for_each_process ps' body
  end.

Definition print_current : MU unit :=
  c ← ask current; n ← pid_of c;
  pr_info "The Process ID is: %d\n" [KInt n] ;;
  c ← ask current; m ← ask (task_comm c);
  pr_info "The Process name is: %s\n" [KStr (comm_text m)].

Definition proc_print_process (ps : list Z) : MU Z :=
  print_current ;;
  for_each_process ps print_task ;;
  mret 0.

Definition proc_exit : MU unit := print_current.

End code.

(** *** Claims *)

(** What a module has printed, the oldest line first. *)
Fixpoint printed (t : trace) : list (string * list karg) :=
  match t with
  | [] => []
  | (printk f a, _) :: t' => printed t' ++ [(f, a)]
  | _ :: t' => printed t'
  end.

Section proofs.
Context `{En : Env} (K : oracle) (me : Z) (parent next tpid : Z -> Z) (comm : Z -> Z).
Context (HT : Tasks K me parent next tpid) (HC : forall t p, K t (task_comm p) = comm p).

Definition task_lines (p : Z) : list (string * list karg) :=
  [("The Process ID is: %d\n"%string, [KInt (tpid p)]);
   ("The Process name is: %s\n"%string, [KStr (comm_text (comm p))])].

Lemma print_task_spec p t : wp (print_task p) K () t (fun _ _ t' =>
  printed t' = printed t ++ task_lines p /\ held t' = held t).
Proof.
  unfold print_task, pid_of. wp_run. split; [|done]. cbn.
  by rewrite pid_is, HC, <- (assoc_L (++)).
Qed.

Lemma for_each_process_spec ps : forall t, wp (for_each_process ps print_task) K () t (fun _ _ t' =>
  printed t' = printed t ++ (ps ≫= task_lines) /\ held t' = held t).
Proof.
  induction ps as [|p ps IH]; intros t; cbn [for_each_process].
  { wp_run. by rewrite app_nil_r. }
  rewrite wp_bind. eapply wp_mono; [apply print_task_spec|]. intros _ [] t1 [E1 H1].
  eapply wp_mono; [apply IH|]. intros _ [] t2 [E2 H2].
  rewrite E2, E1, H2, H1, bind_cons, (assoc_L (++)). done.
Qed.

Lemma print_current_spec t : wp print_current K () t (fun _ _ t' =>
  printed t' = printed t ++ task_lines me /\ held t' = held t).
Proof.
  unfold print_current, pid_of. wp_run. split; [|done]. cbn.
  by rewrite !current_is, pid_is, HC, <- (assoc_L (++)).
Qed.

(** The load prints the pid and the name of the current process and then
    of every process, in the order of the list; it takes no lock for the walk. *)
Theorem proc_print_lists ps t :
  wp (proc_print_process ps) K () t (fun r _ t' => r = 0 /\
    printed t' = printed t ++ task_lines me ++ (ps ≫= task_lines) /\ held t' = held t).
Proof.
  unfold proc_print_process. rewrite wp_bind. eapply wp_mono; [apply print_current_spec|].
  intros _ [] t1 [E1 H1]. rewrite wp_bind. eapply wp_mono; [apply for_each_process_spec|].
  intros _ [] t2 [E2 H2]. wp_run. by rewrite E2, E1, H2, H1, (assoc_L (++)).
Qed.

End proofs.

End ProcInfo.

(** ** err_mod.c: two unsigned variables *)

Module ErrMod.

Record state := State { n1 : Z; n2 : Z }.
Abbreviation MS := (M state).

Definition err_init : MS Z :=
  modify (fun s => State 1 (n2 s)) ;;
  modify (fun s => State (n1 s) 2) ;;
  a ← gets n1; b ← gets n2;
  pr_info "n1 is %d, n2 is %d\n" [KInt a; KInt b] ;;
  mret 0.

Definition err_exit : MS unit :=
  a ← gets n1; b ← gets n2;
  pr_info "sum is %d\n" [KInt (u32 (a + b))].

(** Whatever the variables held, the load prints 1 and 2 and the unload
    prints their sum 3. *)
Theorem err_prints_sum (K : oracle) s t :
  (err_init ;; err_exit) K s t = Done () (State 1 2)
    ((printk "sum is %d\n" [KInt 3], 0) :: (printk "n1 is %d, n2 is %d\n" [KInt 1; KInt 2], 0) :: t).
Proof. reflexivity. Qed.

End ErrMod.

(** ** mod1.c, mod2.c: two files linked to one module *)

Module Multi.

(** The kernel is compiled with -fno-strict-overflow: signed addition wraps. *)
Definition add (x y : Z) : Z := s32 (x + y).

Record state := State { num1 : Z; num2 : Z }.
Definition initial := State 5 5.
Abbreviation MS := (M state).

Definition printNums : MS Z :=
  a ← gets num1; b ← gets num2;
  pr_info "The Paramerter 1 is: %d\n The Parameter 2 is: %d\n" [KInt a; KInt b] ;;
  mret 0.

Definition exitModule : MS unit :=
  a ← gets num1; b ← gets num2;
  let total := add a b in
  pr_info "The sum is: %d\n" [KInt total].

(** [add] of two ints is an int, congruent to the sum modulo 2^32, and the
    sum itself exactly when that is an int. *)
Theorem add_correct x y :
  - 2 ^ 31 <= add x y < 2 ^ 31 /\ (add x y) mod 2 ^ 32 = (x + y) mod 2 ^ 32 /\
  (add x y = x + y <-> - 2 ^ 31 <= x + y < 2 ^ 31).
Proof.
  unfold add, swrap. pose proof (Z.mod_pos_bound (x + y + 2 ^ (32 - 1)) (2 ^ 32) eq_refl).
  pose proof (Z.div_mod (x + y + 2 ^ (32 - 1)) (2 ^ 32) ltac:(lia)) as E.
  set (r := (x + y + 2 ^ (32 - 1)) mod 2 ^ 32) in *. set (q := (x + y + 2 ^ (32 - 1)) / 2 ^ 32) in *.
  change (2 ^ (32 - 1)) with (2 ^ 31) in *. split; [lia|]. split.
  - replace (x + y) with (r - 2 ^ 31 + q * 2 ^ 32) by lia. symmetry. apply Z_mod_plus_full.
  - lia.
Qed.

(** The module prints its operands and their sum, 10. *)
Theorem multi_prints (K : oracle) t :
  (printNums ;; exitModule) K initial t = Done () initial
    ((printk "The sum is: %d\n" [KInt 10], 0) ::
     (printk "The Paramerter 1 is: %d\n The Parameter 2 is: %d\n" [KInt 5; KInt 5], 0) :: t).
Proof. reflexivity. Qed.

End Multi.

(** ** kernel-oops-mod.c: a write through a NULL pointer *)

Module OopsMod.

Abbreviation MU := (M unit).

(** [*c = v]; the module owns no memory that [c] could point to. *)
Definition write_char (c v : Z) : MU unit := oops (bad_access c).

Definition my_oops_init : MU Z :=
  let c := NULL in
  pr_info "Before Intialization\n" [] ;;
  write_char c 97 ;;
  pr_info "After Intialization\n" [] ;;
  mret 0.

Definition my_oops_exit : MU unit := pr_info "Module is exiting\n" [].

(** The load faults at address 0 after its first line, for every kernel. *)
Theorem my_oops_faults (K : oracle) t :
  my_oops_init K () t = Oops (bad_access NULL) () ((printk "Before Intialization\n" [], 0) :: t).
Proof. reflexivity. Qed.

End OopsMod.

(** ** cmd-mod.c: a module parameter *)

Module Cmd.

(** The parameter [str], which the loader may replace. *)
Record state := State { str : string }.
Definition initial := State "the D:)".
Abbreviation MS := (M state).

Definition cmd_init : MS Z :=
  s ← gets str; pr_info "Early bird gets %s\n" [KStr s] ;; mret 0.

Definition cmd_exit : MS unit :=
  s ← gets str; pr_info "The Bird left the %s\n" [KStr s].

End Cmd.

(** ** hello-1.c *)

Module Hello.

Abbreviation MU := (M unit).

(** [FILE] is the text of [__FILE__]. *)
Definition hello_init (FILE : string) : MU Z := pr_info " AM I alive\n %s\n" [KStr FILE] ;; mret 0.

Definition hello_exit : MU unit := pr_info "Goodbye world \n" [].

End Hello.
