(* ===== verification/User.v ===== *)
(** * User programs

    The C++ clients of the drivers are computations of the same monad, over the
    state of the driver they talk to.  The system calls they make are an
    interface, the class [Sys]; [CharDevice] states how the calls on the file
    descriptor of a device reach the handlers of its driver.  Exceptions are
    values of a sum type.  [std::stoi] is defined here. *)

From Stdlib Require Import Ascii.
From stdpp Require Import pretty.
From S2P Require Import Prelude Kernel Monad.

(** ** Exceptions *)

Inductive exn := invalid_argument | out_of_range | runtime_error (what : string).

#[export] Instance exn_eq_dec : EqDecision exn.
Proof. solve_decision. Defined.

(** A computation that may throw. *)
Definition X (S A : Type) : Type := M S (A + exn).

#[export] Instance X_ret {S} : MRet (X S) := fun A a K s t => Done (inl a) s t.

#[export] Instance X_bind {S} : MBind (X S) := fun A B k m K s t =>
  match m K s t with
  | Done (inl a) s' t' => k a K s' t'
  | Done (inr e) s' t' => Done (inr e) s' t'
  | Oops f s' t' => Oops f s' t'
  end.

Definition throw {S A} (e : exn) : X S A := fun K s t => Done (inr e) s t.
Definition lift {S A} (m : M S A) : X S A := fun K s t =>
  match m K s t with
  | Done a s' t' => Done (inl a) s' t'
  | Oops f s' t' => Oops f s' t'
  end.
Definition or_throw {S A} (r : A + exn) : X S A := fun K s t => Done r s t.

Section exceptions.
Context {S A B : Type}.
Implicit Types (K : oracle) (s : S) (t : trace).

Lemma x_bind_lift (m : M S A) (k : A -> X S B) K s t a s' t' :
  m K s t = Done a s' t' -> (lift m ≫= k) K s t = k a K s' t'.
Proof. intros E. unfold mbind, X_bind, lift. by rewrite E. Qed.

Lemma x_bind_ok (m : X S A) (k : A -> X S B) K s t a s' t' :
  m K s t = Done (inl a) s' t' -> (m ≫= k) K s t = k a K s' t'.
Proof. intros E. unfold mbind, X_bind. by rewrite E. Qed.

Lemma x_bind_throw (m : X S A) (k : A -> X S B) K s t e s' t' :
  m K s t = Done (inr e) s' t' -> (m ≫= k) K s t = Done (inr e) s' t'.
Proof. intros E. unfold mbind, X_bind. by rewrite E. Qed.

End exceptions.

(** The weakest precondition of a sequence. *)
Lemma wp_lift_bind {S A B} (m : M S A) (k : A -> X S B) K s t Q :
  wp (lift m ≫= k : X S B) K s t Q = wp m K s t (fun a s' t' => wp (k a) K s' t' Q).
Proof. unfold wp, mbind, X_bind, lift. by destruct (m K s t). Qed.

Lemma wp_or_throw_bind {S A B} (r : A + exn) (k : A -> X S B) K (s : S) t Q :
  wp (or_throw r ≫= k : X S B) K s t Q =
    match r with inl a => wp (k a) K s t Q | inr e => Q (inr e) s t end.
Proof. unfold wp, mbind, X_bind, or_throw. by destruct r. Qed.

Lemma wp_x_ret {S A} (a : A) K (s : S) t Q : wp (mret a : X S A) K s t Q = Q (inl a) s t.
Proof. done. Qed.

(** ** System calls *)

(** The last argument of an ioctl: a word, or the address of a word. *)
Inductive ioctl_arg := Word (v : Z) | Ref (p v : Z).

(** On failure the result is -1. *)
Class Sys (S : Type) := {
  sys_open : string -> Z -> M S Z;
  sys_ioctl : Z -> Z -> ioctl_arg -> M S Z;
  sys_close : Z -> M S Z
}.

Definition O_RDONLY := 0.
Definition O_RDWR := 2.

(** The C library turns the negative result of a handler into -1. *)
Definition sys_result (ok : Z) (r : Z) : Z := if r <? 0 then -1 else ok.

(** [fd] is the descriptor a process gets for the device at [path]: opening,
    controlling and closing it run the handlers of the driver.  The descriptor
    -1 of a failed open is refused. *)
Class CharDevice {S} `{Sys S} (path : string) (fd : Z)
    (opening : M S Z) (ioctl : Z -> ioctl_arg -> M S Z) (release : M S Z) : Prop := {
  fd_valid : 0 <= fd;
  open_runs flags K s t :
    sys_open path flags K s t = (r ← opening; mret (sys_result fd r)) K s t;
  ioctl_runs cmd arg K s t :
    sys_ioctl fd cmd arg K s t = (r ← ioctl cmd arg; mret (sys_result r r)) K s t;
  close_runs K s t :
    sys_close fd K s t = (r ← release; mret (sys_result 0 r)) K s t;
  ioctl_refused cmd arg K s t : sys_ioctl (-1) cmd arg K s t = Done (-1) s t;
  close_refused K s t : sys_close (-1) K s t = Done (-1) s t
}.

(** [std::cout << ...] *)
Definition cout_line {S} (msg : string) : M S unit := tell (cout [KStr msg; KStr "\n"]).

(** ** std::stoi *)

Definition isspace (c : Ascii.ascii) : bool :=
  let n := Z.of_N (Ascii.N_of_ascii c) in (n =? 32) || ((9 <=? n) && (n <=? 13)).

Fixpoint skip_space (s : string) : string :=
  match s with
  | String c s' => if isspace c then skip_space s' else s
  | EmptyString => EmptyString
  end.

Definition digit (c : Ascii.ascii) : option Z :=
  let n := Z.of_N (Ascii.N_of_ascii c) in
  if decide (48 <= n <= 57) then Some (n - 48) else None.

(** The number that the leading digits denote, after [acc]. *)
Fixpoint digits (acc : Z) (s : string) : Z :=
  match s with
  | String c s' => match digit c with Some d => digits (10 * acc + d) s' | None => acc end
  | EmptyString => acc
  end.

(** An optional sign: is it a minus, and what follows. *)
Definition sign (s : string) : bool * string :=
  match s with
  | String c s' =>
      if decide (c = "-"%char) then (true, s') else if decide (c = "+"%char) then (false, s')
      else (false, s)
  | EmptyString => (false, s)
  end.

(** White space, a sign, then at least one digit; what follows is ignored. *)
Definition stoi (s : string) : Z + exn :=
  let s := skip_space s in
  let neg := (sign s).1 in
  let ds := (sign s).2 in
  match ds with
  | EmptyString => inr invalid_argument
  | String c _ =>
      if decide (is_Some (digit c)) then
        let v := if neg then - digits 0 ds else digits 0 ds in
        if decide (- 2 ^ 31 <= v < 2 ^ 31) then inl v else inr out_of_range
      else inr invalid_argument
  end.

(** A decimal digit of [pretty]. *)
Lemma digit_pretty (n : N) : (n < 10)%N -> digit (pretty_N_char n) = Some (Z.of_N n).
Proof.
  intros Hn. assert (Hc : n ∈ [0;1;2;3;4;5;6;7;8;9]%N).
  { rewrite !elem_of_cons. lia. }
  repeat (apply elem_of_cons in Hc as [->|Hc]; [reflexivity|]). by apply elem_of_nil in Hc.
Qed.

Definition starts_with_digit (s : string) : Prop :=
  exists c s', s = String c s' /\ is_Some (digit c).

Lemma digits_go (x : N) : forall s, (0 < x)%N ->
  starts_with_digit (pretty_N_go x s) /\
  exists k, forall acc, digits acc (pretty_N_go x s) = digits (acc * k + Z.of_N x) s.
Proof.
  induction (N.lt_wf_0 x) as [x _ IH]. intros s Hx.
  rewrite pretty_N_go_step by done. set (c := pretty_N_char (x `mod` 10)).
  assert (Hd : digit c = Some (Z.of_N (x `mod` 10))) by (apply digit_pretty, N.mod_lt; lia).
  pose proof (N.div_mod x 10 ltac:(lia)) as Edm.
  assert (Ez : Z.of_N x = 10 * Z.of_N (x `div` 10) + Z.of_N (x `mod` 10)) by lia.
  destruct (decide (x `div` 10 = 0)%N) as [E|E].
  - rewrite E, pretty_N_go_0. split; [exists c, s; split; [done|by rewrite Hd]|].
    exists 10. intros acc. cbn [digits]. rewrite Hd. f_equal. rewrite E in Ez. lia.
  - destruct (IH (x `div` 10)%N) with (s := String c s) as [Hs [k Hk]]; [apply N.div_lt; lia|by apply N.neq_0_lt_0|].
    split; [done|]. exists (10 * k). intros acc. rewrite Hk. cbn [digits]. rewrite Hd. f_equal. lia.
Qed.

Lemma pretty_pos (x : positive) :
  starts_with_digit (pretty (N.pos x)) /\ digits 0 (pretty (N.pos x)) = Z.pos x.
Proof.
  unfold pretty, pretty_N. rewrite decide_False by done.
  destruct (digits_go (N.pos x) EmptyString) as [Hs [k Hk]]; [lia|]. split; [done|]. by rewrite Hk.
Qed.

(** A digit is neither white space nor a sign. *)
Lemma digit_plain c : is_Some (digit c) -> isspace c = false /\ c <> "-"%char /\ c <> "+"%char.
Proof.
  unfold digit, isspace. intros [d E]. case_decide as H; [|done]. split; [lia|].
  split; intros ->; cbn in H; lia.
Qed.

Lemma stoi_digits s v :
  starts_with_digit s -> digits 0 s = v -> v < 2 ^ 31 -> 0 <= v -> stoi s = inl v.
Proof.
  intros (c & s' & -> & Hc) Ev Hv H0. destruct (digit_plain c Hc) as (Hs & Hm & Hp).
  unfold stoi. cbn [skip_space]. rewrite Hs. cbn [sign].
  rewrite (decide_False (P := c = _)), (decide_False (P := c = _)) by done. cbn [fst snd].
  rewrite decide_True by done. rewrite Ev. by rewrite decide_True by lia.
Qed.

Lemma stoi_negative s v :
  starts_with_digit s -> digits 0 s = v -> v <= 2 ^ 31 -> 0 <= v ->
  stoi (String "-" s) = inl (- v).
Proof.
  intros (c & s' & -> & Hc) Ev Hv H0. unfold stoi. cbn [skip_space isspace sign].
  change (isspace "-") with false. cbn iota. cbn [sign]. rewrite decide_True by done. cbn [fst snd].
  rewrite decide_True by done. rewrite Ev. by rewrite decide_True by lia.
Qed.

(** [stoi] reads back every [int] that is printed in decimal. *)
Lemma stoi_pretty (n : Z) : - 2 ^ 31 <= n < 2 ^ 31 -> stoi (pretty n) = inl n.
Proof.
  intros Hn. destruct n as [|x|x]; [reflexivity| |]; destruct (pretty_pos x) as [Hs Ed].
  - change (pretty (Z.pos x)) with (pretty (N.pos x)). apply stoi_digits; [done|done|lia|lia].
  - change (pretty (Z.neg x)) with (String "-" (pretty (N.pos x))).
    rewrite (stoi_negative _ (Z.pos x)); [done..|lia|lia].
Qed.
