(* ===== verification/Devices.v ===== *)
(** * The operation tables of the drivers

    [struct file_operations] as a record of handlers, the table of each driver,
    and how a system call on a device file reaches a handler: documented
    behaviour of the virtual file system, which also answers where a table has
    no handler. *)

From S2P Require Import Prelude Kernel Monad KList.
From S2P Require Import Kbd So2Cdev Timer Memory NonMemory Packet User.

Module Devices.

(** Documented answers for calls a driver does not handle. *)
Definition ENOTTY := 25.
Definition ENODEV := 19.

(** [S] is the state of the driver, [V] its view of a [vm_area_struct].  The
    owner is [THIS_MODULE] or NULL.  A handler gets the private data of the file
    in place of the file; open and the two transfers also return what they store
    through their arguments, the private data and the position. *)
Record file_operations (S V : Type) := FileOps {
  fo_owner : bool;
  fo_open : option (Z -> M S (Z * Z));
  fo_release : option (Z -> M S Z);
  fo_read : option (Z -> Z -> Z -> Z -> M S (Z * Z));
  fo_write : option (Z -> Z -> list Z -> Z -> Z -> M S (Z * Z));
  fo_unlocked_ioctl : option (Z -> Z -> ioctl_arg -> M S Z);
  fo_mmap : option (V -> M S Z)
}.
Arguments FileOps {S V} _ _ _ _ _ _ _.
Arguments fo_owner {S V} _.
Arguments fo_open {S V} _.
Arguments fo_release {S V} _.
Arguments fo_read {S V} _.
Arguments fo_write {S V} _.
Arguments fo_unlocked_ioctl {S V} _.
Arguments fo_mmap {S V} _.

(** ** System calls on a device file *)

Section vfs.
Context {S V : Type} (fops : file_operations S V).

Definition vfs_open (i_cdev : Z) : M S (Z * Z) :=
  match fo_open fops with Some h => h i_cdev | None => mret (0, NULL) end.

Definition vfs_release (private_data : Z) : M S Z :=
  match fo_release fops with Some h => h private_data | None => mret 0 end.

Definition vfs_read (private_data buf size pos : Z) : M S (Z * Z) :=
  match fo_read fops with Some h => h private_data buf size pos | None => mret (- EINVAL, pos) end.

Definition vfs_write (private_data buf : Z) (bytes : list Z) (size pos : Z) : M S (Z * Z) :=
  match fo_write fops with
  | Some h => h private_data buf bytes size pos
  | None => mret (- EINVAL, pos)
  end.

Definition vfs_ioctl (private_data cmd : Z) (arg : ioctl_arg) : M S Z :=
  match fo_unlocked_ioctl fops with Some h => h private_data cmd arg | None => mret (- ENOTTY) end.

Definition vfs_mmap (vma : V) : M S Z :=
  match fo_mmap fops with Some h => h vma | None => mret (- ENODEV) end.

End vfs.

(** ** The tables *)

(** The file position of [kbd_read] and [kbd_write] is not used. *)
Definition kbd_fops `{Kbd.Kbd.Layout} : file_operations Kbd.Kbd.devices unit :=
  FileOps true (Some Kbd.Kbd.kbd_open) (Some Kbd.Kbd.kbd_release)
    (Some (fun data buf size pos => r ← Kbd.Kbd.kbd_read data buf size; mret (r, pos)))
    (Some (fun data buf bytes size pos => r ← Kbd.Kbd.kbd_write data buf size; mret (r, pos)))
    None None.

Definition so2_fops `{So2Cdev.So2.MemOps} :
    file_operations So2Cdev.So2.devices unit :=
  FileOps true (Some So2Cdev.So2.so2_open) (Some So2Cdev.So2.so2_release)
    (Some So2Cdev.So2.so2_read) (Some So2Cdev.So2.so2_write) None None.

Section timer.
Context {L : Type} `{LO : ListOps L} `{EP : ErrPtr} `{Io : Timer.Timer.Ioctl}
  `{Lay : Timer.Timer.Layout} `{Cfg : Config}.

Definition timer_fops : file_operations (Timer.Timer.state L) unit :=
  FileOps true (Some Timer.Timer.timer_open) (Some (fun _ => Timer.Timer.timer_release)) None None
    (Some (fun data cmd arg =>
       Timer.Timer.timer_ioctl data cmd (match arg with Word v => v | Ref p _ => p end)))
    None.

End timer.

Definition dev_fops `{Cfg : Config} : file_operations Memory.Memory.state Memory.Memory.vm_area :=
  FileOps false (Some Memory.Memory.memory_open) None None None None (Some Memory.Memory.memory_mmap).

(** [fops] of nonMemory.c. *)
Definition nonmemory_fops `{Cfg : Config} :
    file_operations NonMemory.NonMemory.state NonMemory.NonMemory.vm_area :=
  FileOps false (Some NonMemory.NonMemory.memory_open)
    (Some (fun _ => NonMemory.NonMemory.memory_release)) None None None
    (Some NonMemory.NonMemory.memory_mmap).

(** [fops] of packet.c; the word that a pointer argument points to is there for
    [copy_from_user]. *)
Definition packet_fops `{En : Packet.Packet.Env} : file_operations Packet.Packet.state unit :=
  FileOps true None None None None
    (Some (fun _ cmd arg => match arg with
       | Ref p v => Packet.Packet.packet_ioctl cmd p v
       | Word v => Packet.Packet.packet_ioctl cmd v 0
       end)) None.

(** ** What the packet filter registers *)

(** uapi/linux/netfilter.h, uapi/linux/netfilter_ipv4.h, linux/miscdevice.h *)
Definition NFPROTO_IPV4 := 2.
Definition NF_INET_LOCAL_IN := 1.
Definition NF_INET_LOCAL_OUT := 3.
Definition NF_IP_PRI_FIRST := - 2 ^ 31.
Definition MISC_DYNAMIC_MINOR := 255.

Record nf_hook_ops (S : Type) := NfHookOps {
  nf_hook : option Packet.Packet.sk_buff -> M S Z;
  nf_pf : Z;
  nf_hooknum : Z;
  nf_priority : Z
}.
Arguments NfHookOps {S} _ _ _ _.
Arguments nf_hook {S} _.
Arguments nf_pf {S} _.
Arguments nf_hooknum {S} _.

Record miscdevice (S V : Type) := MiscDevice {
  misc_minor : Z;
  misc_name : string;
  misc_fops : file_operations S V
}.
Arguments MiscDevice {S V} _ _ _.
Arguments misc_name {S V} _.
Arguments misc_fops {S V} _.

Definition packet_ops `{En : Packet.Packet.Env} : nf_hook_ops Packet.Packet.state :=
  NfHookOps Packet.Packet.packet_hook NFPROTO_IPV4 NF_INET_LOCAL_OUT NF_IP_PRI_FIRST.

(** [dev] of packet.c. *)
Definition packet_dev `{En : Packet.Packet.Env} : miscdevice Packet.Packet.state unit :=
  MiscDevice MISC_DYNAMIC_MINOR "network_filter" packet_fops.

(** A packet at a point of its way through the stack: the hook is run where it
    is registered; elsewhere the packet is not shown to it. *)
Definition nf_run {S} (ops : nf_hook_ops S) (pf hooknum : Z) (skb : Packet.Packet.sk_buff) : M S Z :=
  if decide (pf = nf_pf ops /\ hooknum = nf_hooknum ops) then nf_hook ops (Some skb)
  else mret Packet.Packet.NF_ACCEPT.

(** The filter sees what the host sends, not what it receives. *)
Lemma incoming_not_examined `{En : Packet.Packet.Env} skb K s t :
  nf_run packet_ops NFPROTO_IPV4 NF_INET_LOCAL_IN skb K s t = Done Packet.Packet.NF_ACCEPT s t.
Proof. reflexivity. Qed.

(** ** container_of *)

(** Opening the file of the character device at [cdev] gives private data that
    is the device [dev]. *)
Definition opens_device {S V} (fops : file_operations S V) (cdev dev : Z) (K : oracle) (s : S)
    (t : trace) : Prop :=
  exists r s' t', vfs_open fops cdev K s t = Done (r, dev) s' t'.

(** Every driver finds its device: for each minor number, the open handler
    of its table, called with the character device that its init function has
    registered for the minor, stores the address of the device that contains
    it, which is what the other handlers of the table work on. *)
Theorem open_finds_device K i :
  (forall `(Kbd.Kbd.Layout) s t,
     opens_device kbd_fops (Kbd.Kbd.cdev_of (Kbd.Kbd.dev_addr i)) (Kbd.Kbd.dev_addr i) K s t) /\
  (forall `(So2Cdev.So2.Layout) `(So2Cdev.So2.MemOps) d s t,
     s !! So2Cdev.So2.dev_addr i = Some d ->
     opens_device so2_fops (So2Cdev.So2.cdev_of (So2Cdev.So2.dev_addr i))
       (So2Cdev.So2.dev_addr i) K s t) /\
  (forall L `(ListOps L) `(ErrPtr) `(Timer.Timer.Ioctl) `(Timer.Timer.Layout) `(Config) s t,
     opens_device (timer_fops (L := L)) (Timer.Timer.cdev_of (Timer.Timer.dev_addr i))
       (Timer.Timer.dev_addr i) K s t) /\
  (forall `(Config) `(Memory.Memory.Layout) s t,
     opens_device dev_fops (Memory.Memory.cdev_of i)
       (Memory.Memory.devs_addr + i * Memory.Memory.sizeof_mem_dev) K s t) /\
  (forall `(Config) `(NonMemory.NonMemory.Layout) s t,
     opens_device nonmemory_fops (NonMemory.NonMemory.cdev_of i)
       (NonMemory.NonMemory.devs_addr + i * NonMemory.NonMemory.sizeof_memory_dev) K s t).
Proof.
  assert (Hc : forall a b, a + b - b = a) by lia.
  split; [|split; [|split; [|split]]]; intros; unfold opens_device, vfs_open; cbn [fo_open].
  - cbn. eexists _, _, _. unfold Kbd.Kbd.kbd_open, Kbd.Kbd.cdev_of. by rewrite Hc.
  - cbn. rewrite (So2Cdev.So2.so2_open_eq _ d) by done.
    case_decide; by eexists _, _, _.
  - cbn. unfold Timer.Timer.timer_open, Timer.Timer.cdev_of. rewrite Hc. by eexists _, _, _.
  - cbn. unfold Memory.Memory.memory_open, Memory.Memory.cdev_of. rewrite Hc. by eexists _, _, _.
  - cbn. unfold NonMemory.NonMemory.memory_open, NonMemory.NonMemory.cdev_of. rewrite Hc.
    by eexists _, _, _.
Qed.

End Devices.
