(* ===== verification/Lifetime.v ===== *)
(** * The life of a module: loads, open files, system calls, unloads

    A driver as the kernel keeps it: an image that every load starts from, an
    init and an exit function, a device node, an operation table and handlers of
    events.  Processes open the node, make calls on the files and close them;
    interrupts and packets come in; an administrator loads and unloads.  What the
    kernel does around the handlers is documented behaviour: an open takes a
    reference to the owner of the operation table, a close gives it back, and a
    module with references is not unloaded.  [Managed] is what a driver has to
    promise so that all of this goes well whatever happens in which order; a
    module that owns no operation table also needs an administrator who does not
    unload it while its files are open ([permitted]).

    Nothing is assumed of the answers of the kernel here.  What a driver does not
    survive (a registration that fails, say) is a kind of event, and [until] says
    that all goes well, or goes well until an action in which such an event
    happens. *)

From S2P Require Import Prelude Kernel Monad User Devices.

Module Lifetime.

(** [mod_node] is what the init function registers so that the node can be
    opened; [mod_cdev] is [inode->i_cdev].  An event comes with the registration
    that makes the kernel call its handler. *)
Record kmodule (S V E : Type) := KModule {
  mod_image : S;
  mod_init : M S Z;
  mod_exit : M S unit;
  mod_node : resource;
  mod_cdev : Z;
  mod_fops : Devices.file_operations S V;
  mod_event : E -> resource * M S unit
}.
Arguments KModule {S V E} _ _ _ _ _ _ _.
Arguments mod_image {S V E} _.
Arguments mod_init {S V E} _.
Arguments mod_exit {S V E} _.
Arguments mod_node {S V E} _.
Arguments mod_cdev {S V E} _.
Arguments mod_fops {S V E} _.
Arguments mod_event {S V E} _ _.

(** An open file; [of_load] is the load whose operation table it points to. *)
Record ofile := OFile { of_data : Z; of_pos : Z; of_load : nat }.

Record sys (S : Type) := Sys {
  live : bool;
  refs : nat;
  loads : nat;
  files : list ofile;
  drv : S;
  hist : trace
}.
Arguments Sys {S} _ _ _ _ _ _.
Arguments live {S} _.
Arguments refs {S} _.
Arguments loads {S} _.
Arguments files {S} _.
Arguments drv {S} _.
Arguments hist {S} _.

(** A call on an open file. *)
Inductive request (V : Type) :=
  | RRead (uBuff size : Z)
  | RWrite (uBuff : Z) (ubytes : list Z)
  | RIoctl (cmd : Z) (arg : ioctl_arg)
  | RMmap (vma : V).
Arguments RRead {V} _ _.
Arguments RWrite {V} _ _.
Arguments RIoctl {V} _ _.
Arguments RMmap {V} _.

Inductive action (V E : Type) :=
  | Load
  | Open
  | Call (i : nat) (q : request V)
  | Close (i : nat)
  | Event (e : E)
  | Unload.
Arguments Load {V E}.
Arguments Open {V E}.
Arguments Call {V E} _ _.
Arguments Close {V E} _.
Arguments Event {V E} _.
Arguments Unload {V E}.

Section life.
Context {S V E : Type} (m : kmodule S V E) (K : oracle).
Implicit Types (s : sys S) (a : action V E).

(** The result and the new position; a size that is negative as an [ssize_t]
    does not reach the handler. *)
Definition do_request (q : request V) (f : ofile) : M S (Z * Z) :=
  match q with
  | RRead u size =>
      if decide (0 <= size < 2 ^ 63)
      then Devices.vfs_read (mod_fops m) (of_data f) u size (of_pos f)
      else mret (- EINVAL, of_pos f)
  | RWrite u ub =>
      if decide (Z.of_nat (length ub) < 2 ^ 63)
      then Devices.vfs_write (mod_fops m) (of_data f) u ub (Z.of_nat (length ub)) (of_pos f)
      else mret (- EINVAL, of_pos f)
  | RIoctl cmd arg => r ← Devices.vfs_ioctl (mod_fops m) (of_data f) cmd arg; mret (r, of_pos f)
  | RMmap vma => r ← Devices.vfs_mmap (mod_fops m) vma; mret (r, of_pos f)
  end.

(** The reference that an open file holds. *)
Definition owned : nat := if Devices.fo_owner (mod_fops m) then 1 else 0.

(** One action; [None] is a crash of the kernel: a fault in the module, or a
    use of a module that is not there, through its node or a file.  An action
    that the kernel refuses leaves everything as it is. *)
Definition act a s : option (sys S) :=
  match a with
  | Load =>
      if live s then Some s else
      match mod_init m K (mod_image m) (hist s) with
      | Done r d t => Some (Sys (bool_decide (0 <= r)) 0 (Datatypes.S (loads s)) (files s) d t)
      | Oops _ _ _ => None
      end
  | Open =>
      if bool_decide (mod_node m ∉ held (hist s)) then Some s else
      if negb (live s) then None else
      match Devices.vfs_open (mod_fops m) (mod_cdev m) K (drv s) (hist s) with
      | Done (r, data) d t =>
          Some (if decide (r = 0)
                then Sys true (refs s + owned) (loads s) (files s ++ [OFile data 0 (loads s)]) d t
                else Sys true (refs s) (loads s) (files s) d t)
      | Oops _ _ _ => None
      end
  | Call i q =>
      match files s !! i with
      | None => Some s
      | Some f =>
          if negb (live s && bool_decide (of_load f = loads s)) then None else
          match do_request q f K (drv s) (hist s) with
          | Done (_, pos) d t =>
              Some (Sys true (refs s) (loads s)
                      (<[i := OFile (of_data f) pos (of_load f)]> (files s)) d t)
          | Oops _ _ _ => None
          end
      end
  | Close i =>
      match files s !! i with
      | None => Some s
      | Some f =>
          if negb (live s && bool_decide (of_load f = loads s)) then None else
          match Devices.vfs_release (mod_fops m) (of_data f) K (drv s) (hist s) with
          | Done _ d t => Some (Sys true (refs s - owned) (loads s) (delete i (files s)) d t)
          | Oops _ _ _ => None
          end
      end
  | Event e =>
      if bool_decide ((mod_event m e).1 ∉ held (hist s)) then Some s else
      if negb (live s) then None else
      match (mod_event m e).2 K (drv s) (hist s) with
      | Done _ d t => Some (Sys true (refs s) (loads s) (files s) d t)
      | Oops _ _ _ => None
      end
  | Unload =>
      if negb (live s) || bool_decide (refs s <> 0%nat) then Some s else
      match mod_exit m K (drv s) (hist s) with
      | Done _ d t => Some (Sys false 0 (loads s) (files s) d t)
      | Oops _ _ _ => None
      end
  end.

(** The history after the handler that an action runs, whether the handler has
    returned or has crashed the kernel. *)
Definition act_history a s : trace :=
  let after {A} (c : M S A) := history (c K (drv s) (hist s)) in
  match a with
  | Load => if live s then hist s else history (mod_init m K (mod_image m) (hist s))
  | Open =>
      if bool_decide (mod_node m ∉ held (hist s)) || negb (live s) then hist s
      else after (Devices.vfs_open (mod_fops m) (mod_cdev m))
  | Call i q =>
      match files s !! i with
      | Some f =>
          if live s && bool_decide (of_load f = loads s) then after (do_request q f) else hist s
      | None => hist s
      end
  | Close i =>
      match files s !! i with
      | Some f =>
          if live s && bool_decide (of_load f = loads s)
          then after (Devices.vfs_release (mod_fops m) (of_data f)) else hist s
      | None => hist s
      end
  | Event e =>
      if bool_decide ((mod_event m e).1 ∉ held (hist s)) || negb (live s) then hist s
      else after (mod_event m e).2
  | Unload =>
      if negb (live s) || bool_decide (refs s <> 0%nat) then hist s else after (mod_exit m)
  end.

Fixpoint run (l : list (action V E)) s : option (sys S) :=
  match l with
  | [] => Some s
  | a :: l' => s' ← act a s; run l' s'
  end.

(** Before the first load. *)
Definition unloaded : sys S := Sys false 0 0 [] (mod_image m) [].

End life.

(** ** Runs *)

Section runs.
Context {S V E : Type} (m : kmodule S V E) (K : oracle).
Implicit Types (s : sys S) (a : action V E) (l : list (action V E)) (I : sys S -> Prop).

Lemma run_app l1 l2 s : run m K (l1 ++ l2) s = s' ← run m K l1 s; run m K l2 s'.
Proof.
  revert s. induction l1 as [|a l1 IH]; intros s; [done|]. cbn.
  destruct (act m K a s) as [s'|]; [apply IH|done].
Qed.

Lemma run_cons a l s s' : act m K a s = Some s' -> run m K (a :: l) s = run m K l s'.
Proof. intros Ea. cbn [run]. by rewrite Ea. Qed.

(** The actions that leave the open files their module: an unload needs an
    operation table with an owner, or that no file is open. *)
Definition permitted a s : Prop :=
  a = Unload -> Devices.fo_owner (mod_fops m) = true \/ files s = [].

Fixpoint permitted_run l s : Prop :=
  match l with
  | [] => True
  | a :: l' => permitted a s /\ forall s', act m K a s = Some s' -> permitted_run l' s'
  end.

Lemma owner_permits l s : Devices.fo_owner (mod_fops m) = true -> permitted_run l s.
Proof. intros Ho. revert s. induction l as [|a l IH]; intros s; [done|]. split; [by left|auto]. Qed.

(** The history after an action that does not crash is that of its handler. *)
Lemma act_hist a s s' : act m K a s = Some s' -> hist s' = act_history m K a s.
Proof.
  unfold act, act_history. intros Es. destruct a as [| |i q|i|e|].
  - destruct (live s); [by simplify_eq|]. by destruct (mod_init _ _ _ _); simplify_eq.
  - destruct (bool_decide _); [by simplify_eq|]. destruct (live s); [|done]. cbn [negb orb] in *.
    destruct (Devices.vfs_open _ _ _ _ _) as [[r d] ? ?|]; simplify_eq. by destruct (decide _).
  - destruct (files s !! i) as [f|]; [|by simplify_eq]. destruct (_ && _); [|done]. cbn [negb] in *.
    by destruct (do_request _ _ _ _ _ _) as [[] ? ?|]; simplify_eq.
  - destruct (files s !! i) as [f|]; [|by simplify_eq]. destruct (_ && _); [|done]. cbn [negb] in *.
    by destruct (Devices.vfs_release _ _ _ _ _); simplify_eq.
  - destruct (bool_decide _); [by simplify_eq|]. destruct (live s); [|done]. cbn [negb orb] in *.
    by destruct ((mod_event m e).2 _ _ _); simplify_eq.
  - destruct (_ || _); [by simplify_eq|]. by destruct (mod_exit _ _ _ _); simplify_eq.
Qed.

(** A [failed] event happens in the run of [l]. *)
Fixpoint spoiled (failed : event -> bool) l s : bool :=
  match l with
  | [] => false
  | a :: l' =>
      existsb failed (act_history m K a s) ||
      match act m K a s with Some s' => spoiled failed l' s' | None => false end
  end.

(** Without a [failed] event the run of [l] is completed and ends well, with the
    property [G]; otherwise all goes well up to the first action in which such an
    event happens. *)
Definition until (failed : event -> bool) (G : sys S -> Prop) l s0 : Prop :=
  if spoiled failed l s0 then
    exists l1 a l2 s, l = l1 ++ a :: l2 /\ spoiled failed l1 s0 = false /\
      run m K l1 s0 = Some s /\ G s /\ existsb failed (act_history m K a s) = true
  else exists s, run m K l s0 = Some s /\ G s.

Lemma until_mono failed (G G' : sys S -> Prop) l s0 :
  (forall s, G s -> G' s) -> until failed G l s0 -> until failed G' l s0.
Proof.
  unfold until. intros HG. destruct (spoiled failed l s0); [|naive_solver].
  intros (l1 & a & l2 & s & ? & ? & ? & ? & ?). exists l1, a, l2, s. split_and!; auto.
Qed.

Lemma until_unspoiled failed (G : sys S -> Prop) l s0 :
  until failed G l s0 -> spoiled failed l s0 = false -> exists s, run m K l s0 = Some s /\ G s.
Proof. unfold until. intros Hu Es. by rewrite Es in Hu. Qed.

(** What every permitted action keeps, without a crash, such runs keep. *)
Lemma run_safe failed I l s :
  (forall a s, permitted a s -> I s -> never failed (act_history m K a s) ->
    exists s', act m K a s = Some s' /\ I s') ->
  permitted_run l s -> I s -> until failed I l s.
Proof.
  intros Ha. revert s. induction l as [|a l IH]; intros s Hl Hs; [by exists s|].
  destruct Hl as [Hp Hl]. unfold until. cbn [spoiled].
  destruct (existsb failed (act_history m K a s)) eqn:Ef; [by exists [], a, l, s|].
  destruct (Ha a s Hp Hs Ef) as (s1 & E1 & H1). specialize (IH s1 (Hl s1 E1) H1).
  rewrite E1. cbn [orb]. unfold until in IH. destruct (spoiled failed l s1).
  - destruct IH as (l1 & b & l2 & s2 & -> & Hsp & E2 & H2). exists (a :: l1), b, l2, s2.
    rewrite (run_cons a l1 s s1) by done. cbn [spoiled]. by rewrite Ef, E1.
  - destruct IH as (s2 & E2 & H2). exists s2. by rewrite (run_cons a l s s1).
Qed.

(** ** Files and references *)

(** The open files have the references that the owner gives them, and belong to
    the module that is loaded. *)
Definition pinned s : Prop :=
  refs s = (if Devices.fo_owner (mod_fops m) then length (files s) else 0%nat) /\
  Forall (fun f => live s = true /\ of_load f = loads s) (files s).

Lemma pinned_dead s : pinned s -> live s = false -> files s = [].
Proof.
  intros [_ Hf] Hl. destruct (files s) as [|f l]; [done|].
  apply Forall_cons in Hf as [[Hl' _] _]. congruence.
Qed.

Lemma pinned_file s i f :
  pinned s -> files s !! i = Some f ->
  live s = true /\ bool_decide (of_load f = loads s) = true.
Proof.
  intros [_ Hf] Hi. destruct (Forall_lookup_1 _ _ _ _ Hf Hi) as [Hl Ho].
  split; [done|by apply bool_decide_eq_true].
Qed.

Lemma act_pinned a s s' : permitted a s -> pinned s -> act m K a s = Some s' -> pinned s'.
Proof.
  intros Hperm Hs E1. pose proof Hs as [Hr Hf]. unfold act, owned in E1.
  destruct a as [| |i q|i|e|].
  - destruct (live s) eqn:El; [by simplify_eq|].
    destruct (mod_init m _ _ _); simplify_eq.
    apply pinned_dead in Hs; [|done]. rewrite Hs. split; [by case_match|by apply Forall_nil].
  - destruct (bool_decide _); [by simplify_eq|]. destruct (live s) eqn:El; [|done].
    destruct (Devices.vfs_open _ _ _ _ _) as [[r data] d t|]; [|done]. cbn [negb] in E1. simplify_eq.
    destruct (decide (r = 0)); [|by split]. split; cbn.
    + destruct (Devices.fo_owner _); [rewrite length_app; cbn|]; lia.
    + apply Forall_app. split; [done|]. by apply Forall_singleton.
  - destruct (files s !! i) as [f|] eqn:Ef; [|by simplify_eq].
    destruct (pinned_file s i f Hs Ef) as [El Ho]. rewrite El, Ho in E1. cbn [negb andb] in E1.
    destruct (do_request _ _ _ _ _ _) as [[r pos] d t|]; [|done]. simplify_eq.
    split; [cbn; by rewrite length_insert|]. cbn. apply Forall_insert; [|].
    + eapply Forall_impl; [exact Hf|]. by intros g [_ ?].
    + split; [done|]. by apply bool_decide_eq_true in Ho.
  - destruct (files s !! i) as [f|] eqn:Ef; [|by simplify_eq].
    destruct (pinned_file s i f Hs Ef) as [El Ho]. rewrite El, Ho in E1. cbn [negb andb] in E1.
    destruct (Devices.vfs_release _ _ _ _ _) as [r d t|]; [|done]. simplify_eq. split; cbn.
    + destruct (Devices.fo_owner _); [rewrite length_delete by eauto|]; lia.
    + apply Forall_delete. eapply Forall_impl; [exact Hf|]. by intros g [_ ?].
  - destruct (bool_decide _); [by simplify_eq|]. destruct (live s) eqn:El; [|done]. cbn [negb] in E1.
    destruct ((mod_event m e).2 _ _ _) as [[] d t|]; [|done]. simplify_eq. by split.
  - destruct (negb _ || _) eqn:Eg; [by simplify_eq|]. destruct (mod_exit m _ _ _) as [[] d t|]; [|done].
    simplify_eq. apply orb_false_iff in Eg as [_ Eg]. apply bool_decide_eq_false in Eg.
    assert (files s = []) as ->.
    { destruct (Hperm eq_refl) as [Ho|?]; [|done]. rewrite Ho in Hr. apply nil_length_inv. lia. }
    split; [by case_match|by apply Forall_nil].
Qed.

End runs.

(** ** What a driver promises *)

(** [ok fs d t]: the module is loaded, the files [fs] are open, [d] is its state
    and [t] the history; [gone t]: it is not loaded.  Loads and calls need only go
    well when none of the events [failed] happens in them. *)
Class Managed {S V E} (m : kmodule S V E) (K : oracle) (failed : event -> bool)
    (ok : list ofile -> S -> trace -> Prop) (gone : trace -> Prop) : Prop := {
  managed_gone t : gone t -> held t = [];
  managed_init t : gone t -> never failed (history (mod_init m K (mod_image m) t)) ->
    exists r d t', mod_init m K (mod_image m) t = Done r d t' /\
    if bool_decide (0 <= r) then ok [] d t' else gone t';
  managed_open fs n d t : ok fs d t -> exists r data d' t',
    Devices.vfs_open (mod_fops m) (mod_cdev m) K d t = Done (r, data) d' t' /\
    ok (if decide (r = 0) then fs ++ [OFile data 0 n] else fs) d' t';
  managed_call fs i f q d t : ok fs d t -> fs !! i = Some f ->
    never failed (history (do_request m q f K d t)) -> exists r pos d' t',
    do_request m q f K d t = Done (r, pos) d' t' /\
    ok (<[i := OFile (of_data f) pos (of_load f)]> fs) d' t';
  managed_close fs i f d t : ok fs d t -> fs !! i = Some f -> exists r d' t',
    Devices.vfs_release (mod_fops m) (of_data f) K d t = Done r d' t' /\ ok (delete i fs) d' t';
  managed_event fs e d t : ok fs d t -> exists d' t',
    (mod_event m e).2 K d t = Done () d' t' /\ ok fs d' t';
  managed_exit fs d t : ok fs d t -> exists d' t', mod_exit m K d t = Done () d' t' /\ gone t'
}.

Section managed.
Context {S V E : Type} {m : kmodule S V E} {K : oracle} {failed : event -> bool}.
Context {ok : list ofile -> S -> trace -> Prop} {gone : trace -> Prop} `{MM : !Managed m K failed ok gone}.
Implicit Types (s : sys S) (a : action V E).

Definition state_ok s : Prop :=
  if live s then ok (files s) (drv s) (hist s) else gone (hist s).

Definition life_inv s : Prop := pinned m s /\ state_ok s.

(** What an open file says of the state. *)
Lemma open_file s i f :
  life_inv s -> files s !! i = Some f ->
  live s && bool_decide (of_load f = loads s) = true /\ ok (files s) (drv s) (hist s).
Proof.
  intros [Hpin Hs] Ef. destruct (pinned_file m s i f Hpin Ef) as [El Ho].
  unfold state_ok in Hs. rewrite El in *. by rewrite Ho.
Qed.

(** A registration that is there is that of a loaded module. *)
Lemma registered_live s r :
  life_inv s -> r ∈ held (hist s) -> live s = true /\ ok (files s) (drv s) (hist s).
Proof.
  intros [_ Hs] Hr. unfold state_ok in Hs. destruct (live s); [done|].
  rewrite (managed_gone _ Hs) in Hr. by apply elem_of_nil in Hr.
Qed.

(** Loads and calls can fail. *)
Definition fallible a : bool := match a with Load | Call _ _ => true | _ => false end.

Lemma act_state_ok a s :
  life_inv s -> (fallible a = true -> never failed (act_history m K a s)) ->
  exists s', act m K a s = Some s' /\ state_ok s'.
Proof.
  intros Hs Hn. pose proof Hs as (Hpin & Hok). unfold act, act_history in *. destruct a as [| |i q|i|e|].
  - destruct (live s) eqn:El; [by exists s|]. unfold state_ok in Hok. rewrite El in Hok.
    destruct (managed_init (hist s)) as (r & d & t & -> & Hr); [by auto..|].
    eexists. split; [done|]. unfold state_ok. cbn. by rewrite (pinned_dead m s Hpin El).
  - case_bool_decide as Hnode; [by exists s|].
    destruct (registered_live s _ Hs Hnode) as [-> Hd]. cbn [negb].
    destruct (managed_open (files s) (loads s) (drv s) (hist s)) as (r & data & d & t & -> & Hd'); [done|].
    eexists. split; [done|]. by destruct (decide (r = 0)).
  - destruct (files s !! i) as [f|] eqn:Ef; [|by exists s].
    destruct (open_file s i f Hs Ef) as (Eo & Hd). rewrite Eo in *. cbn [negb].
    destruct (managed_call (files s) i f q (drv s) (hist s)) as (r & pos & d & t & -> & Hd'); [by auto..|].
    by eexists.
  - destruct (files s !! i) as [f|] eqn:Ef; [|by exists s].
    destruct (open_file s i f Hs Ef) as (-> & Hd). cbn [negb].
    destruct (managed_close (files s) i f (drv s) (hist s)) as (r & d & t & -> & Hd'); [done..|].
    by eexists.
  - case_bool_decide as Hnode; [by exists s|].
    destruct (registered_live s _ Hs Hnode) as [-> Hd]. cbn [negb].
    destruct (managed_event (files s) e (drv s) (hist s)) as (d & t & -> & Hd'); [done|]. by eexists.
  - unfold state_ok in Hok. destruct (live s) eqn:El; [|exists s; split; [done|]; unfold state_ok; by rewrite El].
    cbn [negb orb]. case_bool_decide; [exists s; split; [done|]; unfold state_ok; by rewrite El|].
    destruct (managed_exit (files s) (drv s) (hist s)) as (d & t & -> & Hg); [done|]. by eexists.
Qed.

(** Every permitted action is safe and keeps the invariant, hence such runs. *)
Lemma act_life a s :
  permitted m a s -> life_inv s -> (fallible a = true -> never failed (act_history m K a s)) ->
  exists s', act m K a s = Some s' /\ life_inv s'.
Proof.
  intros Hp Hs Hn. destruct (act_state_ok a s Hs Hn) as (s' & Ea & Hok). exists s'. split; [done|].
  split; [|done]. eapply act_pinned; [exact Hp|apply Hs|exact Ea].
Qed.

Lemma unloaded_life : gone [] -> life_inv (unloaded m).
Proof. intros Hg. split; [|done]. split; cbn; [by case_match|by apply Forall_nil]. Qed.

Lemma permitted_life l :
  gone [] -> permitted_run m K l (unloaded m) -> until m K failed life_inv l (unloaded m).
Proof. intros Hg Hl. by apply run_safe; [|done|by apply unloaded_life]; auto using act_life. Qed.

Lemma run_life l :
  Devices.fo_owner (mod_fops m) = true -> gone [] -> until m K failed life_inv l (unloaded m).
Proof. intros Ho Hg. by apply permitted_life, owner_permits. Qed.

(** The invariant, case by case. *)
Lemma life_live s : life_inv s -> live s = true -> ok (files s) (drv s) (hist s).
Proof. intros [_ Hs] El. unfold state_ok in Hs. by rewrite El in Hs. Qed.

Lemma life_dead s : life_inv s -> live s = false -> files s = [] /\ held (hist s) = [] /\ gone (hist s).
Proof.
  intros [Hp Hs] El. unfold state_ok in Hs. rewrite El in Hs.
  split; [by apply (pinned_dead m)|]. split; [by apply managed_gone|done].
Qed.

(** Closing every file and unloading. *)
Definition wind_down s : list (action V E) := replicate (length (files s)) (Close 0) ++ [Unload].

Lemma close_first s :
  life_inv s -> exists s', act m K (Close 0) s = Some s' /\ life_inv s' /\
    files s' = tail (files s).
Proof.
  intros Hs. destruct (act_life (Close 0) s ltac:(discriminate) Hs ltac:(discriminate)) as (s' & Ea & Hs'). exists s'.
  split; [done|]. split; [done|]. cbn [act] in Ea. destruct (files s) as [|f fs] eqn:Ef.
  { cbn in Ea. by simplify_eq. }
  destruct (open_file s 0 f Hs) as (Ho & _); [by rewrite Ef|].
  cbn [lookup list_lookup] in Ea. cbn in Ea. rewrite Ho in Ea. cbn [negb] in Ea.
  destruct (Devices.vfs_release _ _ _ _ _); by simplify_eq.
Qed.

Lemma wind_down_life s :
  life_inv s -> exists s', run m K (wind_down s) s = Some s' /\ life_inv s' /\ live s' = false.
Proof.
  unfold wind_down. intros Hs. remember (length (files s)) as n eqn:Hn. revert s Hs Hn.
  induction n as [|n IH]; intros s Hs Hn; cbn [replicate app].
  - assert (Ef : files s = []) by by apply nil_length_inv.
    destruct (act_life Unload s ltac:(by right) Hs ltac:(discriminate)) as (s' & Ea & Hs'). exists s'.
    rewrite (run_cons m K _ _ _ _ Ea). split; [done|]. split; [done|].
    assert (Hr : refs s = 0%nat) by (destruct Hs as ([-> _] & _); rewrite Ef; by case_match).
    cbn [act] in Ea. rewrite Hr, bool_decide_false in Ea by auto.
    destruct (live s) eqn:El; cbn [negb orb] in Ea; [|by simplify_eq].
    destruct (mod_exit m _ _ _); by simplify_eq.
  - destruct (close_first s Hs) as (s1 & Ea & Hs1 & Hf). rewrite (run_cons m K _ _ _ _ Ea).
    apply IH; [done|]. rewrite Hf. destruct (files s); cbn in *; lia.
Qed.

End managed.

End Lifetime.
