(* ===== verification/KbdLife.v ===== *)
(** * The keyboard driver over its whole life

    The module kbd under loads, opens, reads, writes, closes, interrupts and
    unloads in any order.  Calls are atomic here; [Kbd] and [KbdRuns] interleave
    them with interrupts. *)

From S2P Require Import Prelude Kernel Monad Kbd User Devices Lifetime.

Module KbdLife.
Import Kbd Lifetime.

Section code.
Context {LO : Layout}.

(** [devs], zeroed, with [module_init] and [module_exit]. *)
Definition kbd_image : devices := {[dev_addr 0 := KbdDev (replicate (Z.to_nat BUFF_SIZE) 0) 0 0 0]}.

(** The one event is the keyboard interrupt. *)
Definition kbd_module : kmodule devices unit unit :=
  KModule kbd_image kbd_init kbd_exit
    (Rcdev (cdev_of (dev_addr 0))) (cdev_of (dev_addr 0)) Devices.kbd_fops
    (fun _ => (Rirq I8042_KBD_IRQ (dev_addr 0),
               kbd_irq_handler I8042_KBD_IRQ (dev_addr 0) ;; mret ())).

End code.

(** What [kbd_init] does not survive, although it reports it or goes on: a port that
    is busy, a device that is not added, an interrupt that is not granted.  After
    the first and the last the device number stays registered, and after the last
    the device too, without a module behind it. *)
Definition setup_failed (e : event) : bool :=
  match e with
  | (request_region _ _ _, r) => r =? 0
  | (cdev_add _ _ _, r) | (request_irq _ _ _, r) => negb (r =? 0)
  | _ => false
  end.

Section proofs.
Context {LO : Layout} (K : oracle).
Context (Hreg : forall t d n nm, K t (register_chrdev_region d n nm) <= 0).
Implicit Types (fs : list ofile) (t : trace) (dev : devices).

(** What a loaded driver holds: no port. *)
Definition kbd_owns : list resource :=
  [Rirq I8042_KBD_IRQ (dev_addr 0); Rcdev (cdev_of (dev_addr 0));
   Rchrdev (MKDEV MAJOR_NUMBER MINOR_NUMBER) NUM_MINORS].

Definition device_ok fs dev : Prop :=
  (exists d, dev !! dev_addr 0 = Some d /\ ring_ok d) /\
  Forall (fun f => of_data f = dev_addr 0) fs.

(** The load fails cleanly, or succeeds, or one of its steps has failed. *)
Lemma kbd_init_life t :
  held t = [] -> never setup_failed (history (kbd_init K kbd_image t)) ->
  exists r dev t', kbd_init K kbd_image t = Done r dev t' /\
    if bool_decide (0 <= r) then device_ok [] dev /\ held t' = kbd_owns else held t' = [].
Proof.
  intros Hh. rewrite kbd_init_eq. cbv zeta.
  pose proof (Hreg (init_t0 t) (MKDEV MAJOR_NUMBER MINOR_NUMBER) NUM_MINORS MODULE_NAME) as Hr.
  set (r := K (init_t0 t) _) in *. clearbody r. set (r1 := K _ (request_region I8042_DATA_REG _ _)).
  clearbody r1. set (r2 := K _ (request_region I8042_STATUS_REG _ _)). clearbody r2.
  set (r3 := K _ (cdev_add _ _ _)). clearbody r3. set (r4 := K _ (request_irq _ _ _)). clearbody r4.
  destruct (decide (r <> 0)) as [Hr0|Hr0].
  { intros _. eexists _, _, _. split; [reflexivity|]. rewrite bool_decide_false by lia.
    cbn. apply Z.eqb_neq in Hr0. by rewrite Hr0. }
  destruct (decide (r1 = 0)) as [->|H1]; [discriminate|].
  destruct (decide (r2 = 0)) as [->|H2]; [discriminate|]. cbn [history].
  intros Hn. cbn in Hn. rewrite !orb_false_iff, !negb_false_iff, !Z.eqb_eq in Hn.
  destruct Hn as (-> & -> & _). eexists _, _, _. split; [reflexivity|]. rewrite bool_decide_true by done.
  split; [split; [|by apply Forall_nil]|].
  - eexists. split; [apply lookup_insert_eq|]. by split.
  - apply dec_stable in Hr0. subst r. unfold kbd_owns. cbn. rewrite Hh. by trace_simpl.
Qed.

Lemma kbd_exit_life dev t :
  held t = kbd_owns -> exists t', kbd_exit K dev t = Done () dev t' /\ held t' = [].
Proof.
  intros Hh. eexists. split; [reflexivity|]. cbn. rewrite Hh. unfold kbd_owns, cdev_of, offsetof_cdev.
  rewrite !Z.add_0_r. by trace_simpl.
Qed.

Lemma device_ok_insert fs dev d :
  ring_ok d -> Forall (fun f => of_data f = dev_addr 0) fs ->
  device_ok fs (<[dev_addr 0 := d]> dev).
Proof. intros Hd Hf. split; [|done]. exists d. by rewrite lookup_insert_eq. Qed.

Lemma kbd_read_life fs f u size dev t :
  device_ok fs dev -> of_data f = dev_addr 0 -> held t = kbd_owns ->
  exists r dev' t', kbd_read (of_data f) u size K dev t = Done r dev' t' /\
    held t' = kbd_owns /\ device_ok fs dev'.
Proof.
  intros [(d & Hp & Hd) Hf] -> Hh. unfold kbd_read. pose proof Hd as (? & ? & ? & ?).
  destruct (read_loop_spec (dev_addr 0) K (Z.to_nat size) u 0 d dev t Hp Hd)
    as (k & t' & _ & Hh' & _ & [(Hk & -> & ->)|(Hk & ->)]); (eexists _, _, _; split; [reflexivity|]);
    (split; [congruence|]); (apply device_ok_insert; [|done]); (apply pop_ok; [lia|done]).
Qed.

Lemma kbd_write_life fs f u size dev t :
  device_ok fs dev -> of_data f = dev_addr 0 -> held t = kbd_owns ->
  exists r dev' t', kbd_write (of_data f) u size K dev t = Done r dev' t' /\
    held t' = kbd_owns /\ device_ok fs dev'.
Proof.
  intros [(d & Hp & (Hl & _)) Hf] -> Hh. rewrite (kbd_write_eq _ d) by done.
  eexists _, _, _. split; [reflexivity|]. split; [by rewrite (held_locked_irqsave _ t : held (_ :: _ :: t) = _)|].
  by apply device_ok_insert.
Qed.

Lemma kbd_irq_life fs dev t :
  device_ok fs dev -> held t = kbd_owns ->
  exists dev' t', (mod_event kbd_module ()).2 K dev t = Done () dev' t' /\
    held t' = kbd_owns /\ device_ok fs dev'.
Proof.
  intros [(d & Hp & Hd) Hf] Hh. cbn [mod_event kbd_module snd].
  erewrite run_bind by by apply (kbd_irq_handler_eq I8042_KBD_IRQ (dev_addr 0) d).
  eexists _, _. split; [reflexivity|]. unfold irq_trace. cbv zeta.
  destruct (Z.testbit _ 7).
  - split; [exact Hh|]. split; [by exists d|done].
  - split; [|by apply device_ok_insert; [apply push_ok|]]. cbn. rewrite Hh.
    by rewrite decide_True.
Qed.

Lemma device_ok_file fs i f dev :
  device_ok fs dev -> fs !! i = Some f -> of_data f = dev_addr 0.
Proof. intros [_ Hf] Hi. by apply (Forall_lookup_1 _ _ _ _ Hf Hi). Qed.

Lemma device_ok_call fs i f pos dev :
  device_ok fs dev -> fs !! i = Some f ->
  device_ok (<[i := OFile (of_data f) pos (of_load f)]> fs) dev.
Proof.
  intros Hd Hi. pose proof (device_ok_file _ _ _ _ Hd Hi). destruct Hd as [Hd Hf].
  split; [done|]. by apply Forall_insert.
Qed.

(** ** The driver keeps its promises *)

Definition kbd_ok fs dev t : Prop := device_ok fs dev /\ held t = kbd_owns.

#[local] Instance kbd_managed : Managed kbd_module K setup_failed kbd_ok (fun t => held t = []).
Proof.
  split.
  - done.
  - intros t Hh Hn. destruct (kbd_init_life t Hh Hn) as (r & dev & t' & E & H). by exists r, dev, t'.
  - intros fs n dev t [[Hd Hf] Hh]. eexists _, _, _, _. split; [reflexivity|]. split; [|done].
    split; [done|]. cbn. apply Forall_app. split; [done|]. apply Forall_singleton.
    unfold cdev_of, offsetof_cdev. cbn. lia.
  - intros fs i f q dev t [Hd Hh] Hi _. pose proof (device_ok_file _ _ _ _ Hd Hi) as Hfd.
    assert (Hr : forall r : Z, exists r' pos d' t', (mret (r, of_pos f) : M devices _) K dev t =
      Done (r', pos) d' t' /\ kbd_ok (<[i := OFile (of_data f) pos (of_load f)]> fs) d' t').
    { intros r. eexists _, _, _, _. split; [reflexivity|]. split; [by apply device_ok_call|done]. }
    destruct q as [u size|u ub|cmd arg|vma]; cbn [do_request]; [case_decide..| |]; try apply Hr.
    + destruct (kbd_read_life fs f u size dev t) as (r & dev' & t' & E & ? & ?); [done..|].
      eexists _, _, _, _. split; [unfold Devices.vfs_read; cbn; by rewrite (run_bind _ _ _ _ _ _ _ _ E)|].
      split; [by apply device_ok_call|done].
    + destruct (kbd_write_life fs f u (Z.of_nat (length ub)) dev t) as (r & dev' & t' & E & ? & ?); [done..|].
      eexists _, _, _, _. split; [unfold Devices.vfs_write; cbn; by rewrite (run_bind _ _ _ _ _ _ _ _ E)|].
      split; [by apply device_ok_call|done].
  - intros fs i f dev t [[Hd Hf] Hh] Hi. eexists _, _, _. split; [reflexivity|].
    split; [|done]. split; [done|]. by apply Forall_delete.
  - intros fs [] dev t [Hd Hh]. destruct (kbd_irq_life fs dev t Hd Hh) as (dev' & t' & E & ? & ?).
    by exists dev', t'.
  - intros fs dev t [Hd Hh]. destruct (kbd_exit_life dev t Hh) as (t' & E & ?). by exists dev, t'.
Qed.

(** C9: over its whole life - loads (the number refused or not), opens, reads,
    writes, closes, interrupts and unloads in any order - and up to the first load
    in which a port is busy or [cdev_add] or [request_irq] fails, the keyboard module
    never crashes the kernel: every handler returns, the ring buffer stays in its
    bounds, no file or interrupt outlives the module, a loaded module holds its
    device, its number and its interrupt but no port, and from every point
    closing the files and unloading gives everything back.
    ([register_chrdev_region] returns 0 or a negative error.) *)
Theorem kbd_life (l : list (action unit unit)) :
  until kbd_module K setup_failed (fun s => refs s = length (files s) /\
    (live s = true ->
      Forall (fun f => of_load f = loads s /\ of_data f = dev_addr 0) (files s) /\
      held (hist s) = kbd_owns /\ exists d, drv s !! dev_addr 0 = Some d /\ ring_ok d) /\
    (live s = false -> files s = [] /\ held (hist s) = []) /\
    exists s', run kbd_module K (wind_down s) s = Some s' /\
      live s' = false /\ files s' = [] /\ held (hist s') = [])
    l (unloaded kbd_module).
Proof.
  eapply until_mono, (run_life (MM := kbd_managed) l eq_refl eq_refl). intros s Hs.
  destruct (wind_down_life (MM := kbd_managed) s Hs) as (s' & E' & Hs' & El').
  destruct (life_dead (MM := kbd_managed) s' Hs' El') as (Hf' & Hh' & _).
  pose proof Hs as [[Hr Hf] _]. split_and!; [done| | |by exists s'].
  - intros El. destruct (life_live s Hs El) as [[Hd Hfd] Hh]. split; [|done].
    apply Forall_and. split; [|done]. eapply Forall_impl; [exact Hf|]. by intros f [_ ?].
  - intros El. by destruct (life_dead (MM := kbd_managed) s Hs El) as (? & ? & _).
Qed.

End proofs.

(** ** Witness *)

(** A kernel in which the first load is refused. *)
Definition demo_life : list (action unit unit) :=
  [Load; Open; Load; Event (); Open; Event (); Open; Call 0 (RRead 7000 1); Unload; Close 1;
   Event (); Close 0; Unload; Event (); Open].

Definition kernel : oracle := fun t c =>
  match c with
  | register_chrdev_region _ _ _ => if decide (length t = 1)%nat then - EBUSY else 0
  | request_region _ _ _ => 1
  | inb _ => 0x1e
  | _ => 0
  end.

Lemma kbd_life_witness :
  exists s, run (kbd_module (LO := demo_layout)) kernel demo_life
      (unloaded (kbd_module (LO := demo_layout))) = Some s /\
    loads s = 2%nat /\ user_writes (hist s) = [(7000, 97)] /\
    live s = false /\ files s = [] /\ held (hist s) = [].
Proof.
  assert (Hreg : forall t d n nm, kernel t (register_chrdev_region d n nm) <= 0)
    by (intros t d n nm; cbn; destruct (decide _); discriminate).
  pose proof (@kbd_life demo_layout kernel Hreg demo_life) as Hu.
  destruct (until_unspoiled _ _ _ _ _ _ Hu) as (s & E & _ & _ & Hd & _); [by vm_compute|].
  assert (Ev : (fun s => (live s, loads s, user_writes (hist s))) <$>
    run (kbd_module (LO := demo_layout)) kernel demo_life (unloaded (kbd_module (LO := demo_layout))) =
    Some (false, 2%nat, [(7000, 97)])) by (vm_compute; reflexivity).
  rewrite E in Ev. cbn in Ev. injection Ev as E1 E2 E3. destruct (Hd E1) as [Hf Hh].
  exists s. exact (conj E (conj E2 (conj E3 (conj E1 (conj Hf Hh))))).
Defined.

End KbdLife.
