(* ===== verification/So2Life.v ===== *)
(** * The so2 device over its whole life

    The module so2_cdev under loads, opens, reads, writes, closes and unloads
    in any order: nothing crashes, one file is open at a time, and what the
    module holds is what it has registered. *)

From S2P Require Import Prelude Kernel Monad So2Cdev User Devices Lifetime.

Module So2Life.
Import So2 Lifetime.

Section code.
Context {LO : Layout} {MO : MemOps}.

(** [devices], zeroed, with [module_init] and [module_exit]. *)
Definition so2_image : devices := {[dev_addr 0 := So2Data 0 (replicate (Z.to_nat MSG_MAX) 0) 0]}.

Definition so2_module : kmodule devices unit Empty_set :=
  KModule so2_image so2_cdev_init so2_cdev_exit
    (Rcdev (cdev_of (dev_addr 0))) (cdev_of (dev_addr 0)) Devices.so2_fops (Empty_set_rect _).

End code.

(** [cdev_add] has failed; [so2_cdev_init] does not look at its result. *)
Definition add_failed (e : event) : bool :=
  match e with (cdev_add _ _ _, r) => negb (r =? 0) | _ => false end.

Section proofs.
Context {LO : Layout} {MO : MemOps} {ML : MemLaws} (K : oracle).
Context (Hnull : dev_addr 0 <> NULL).
Context (Hreg : forall t d n nm, K t (register_chrdev_region d n nm) <= 0).
Implicit Types (fs : list ofile) (t : trace).

(** What a loaded driver holds. *)
Definition so2_owns : list resource :=
  [Rcdev (cdev_of (dev_addr 0)); Rchrdev (MKDEV MAJOR_NUMBER MINOR_NUMBER) NUM_MINORS].

Definition device_ok (fs : list ofile) (dev : devices) : Prop :=
  exists d, dev !! dev_addr 0 = Some d /\ msg_ok d /\
    isOpen d = Z.of_nat (length fs) /\ (length fs <= 1)%nat /\
    Forall (fun f => of_data f = dev_addr 0 /\ 0 <= of_pos f < MSG_MAX) fs.

Lemma image_loaded : exists d,
  so2_image !! dev_addr 0 = Some d /\ isOpen d = 0 /\
  msg_ok (set_msg (strscpy (msg d) (bytes_of_string MESSAGE) MSG_MAX) d).
Proof.
  eexists. split; [apply lookup_insert_eq|]. split; [done|]. cbn [msg set_msg].
  rewrite strscpy_fits by (vm_compute; discriminate || done). by split.
Qed.

Abbreviation REGION := (register_chrdev_region (MKDEV MAJOR_NUMBER MINOR_NUMBER) NUM_MINORS MODULE_NAME).
Abbreviation INIT := (cdev_init (cdev_of (dev_addr 0)), 0).
Abbreviation ADD := (cdev_add (cdev_of (dev_addr 0)) (MKDEV MAJOR_NUMBER 0) 1).

(** A load whose number is granted, whatever [cdev_add] says. *)
Lemma so2_load_eq d t :
  so2_image !! dev_addr 0 = Some d -> K t REGION = 0 ->
  so2_cdev_init K so2_image t =
    Done 0 (<[dev_addr 0 := set_msg (strscpy (msg d) (bytes_of_string MESSAGE) MSG_MAX) d]> so2_image)
      ((printk "[LOG] registered %s char device in memory success\n" [KStr MODULE_NAME], 0) ::
       (ADD, K (INIT :: (REGION, 0) :: t) ADD) :: INIT :: (REGION, 0) :: t).
Proof.
  intros Ed Hr. unfold so2_cdev_init. run_step. rewrite Hr, decide_False by (intros H; congruence).
  erewrite run_bind; [by run_all|]. apply for_range_1. run_step. run_step. exact (update_eq _ d _ _ _ _ Ed).
Qed.

Lemma so2_init_life t :
  held t = [] -> disciplined t = true -> never add_failed (history (so2_cdev_init K so2_image t)) ->
  exists r dev t', so2_cdev_init K so2_image t = Done r dev t' /\ disciplined t' = true /\
    if bool_decide (0 <= r) then device_ok [] dev /\ held t' = so2_owns else held t' = [].
Proof.
  intros Hh Hd Hn. destruct image_loaded as (d & Ed & Ho & Hm).
  pose proof (Hreg t (MKDEV MAJOR_NUMBER MINOR_NUMBER) NUM_MINORS MODULE_NAME) as Hr.
  destruct (decide (K t REGION = 0)) as [H0|H0].
  - rewrite (so2_load_eq d) in Hn |- * by done. cbn in Hn.
    apply orb_false_iff in Hn as [Hadd%negb_false_iff _]. eexists _, _, _. split; [reflexivity|].
    cbn. rewrite Hadd, Hd, Hh. cbn. split; [done|]. split; [|done].
    eexists. split; [apply lookup_insert_eq|]. split; [exact Hm|]. split; [exact Ho|].
    split; [cbn; lia|by apply Forall_nil].
  - exists (K t REGION), so2_image. eexists.
    split; [unfold so2_cdev_init; run_step; rewrite decide_True by done; by run_all|].
    rewrite bool_decide_false by lia. cbn. apply Z.eqb_neq in H0. rewrite H0. cbn. by rewrite Hd, Hh.
Qed.

Lemma so2_exit_life dev t :
  held t = so2_owns -> disciplined t = true ->
  exists t', so2_cdev_exit K dev t = Done () dev t' /\ held t' = [] /\ disciplined t' = true.
Proof.
  intros Hh Hd. eexists. split; [reflexivity|].
  cbn. rewrite Hd, Hh. unfold so2_owns. split; by trace_simpl.
Qed.

(** A log line and a copy leave what is held alone. *)
Lemma copy_life e t m args :
  releases e = None -> acquires e = None -> held t = so2_owns -> disciplined t = true ->
  let t1 := (printk m args, 0) :: t in
  (held t1 = so2_owns /\ disciplined t1 = true) /\
  (held (e :: t1) = so2_owns /\ disciplined (e :: t1) = true).
Proof.
  intros He1 He2 Hh Hd t1.
  assert (held t1 = so2_owns /\ disciplined t1 = true) as [Hh1 Hd1]
    by (unfold t1; by rewrite quiet_held, quiet_disciplined).
  split; [done|]. rewrite held_skip, disciplined_cons, Hh1, Hd1 by done. split; [done|].
  rewrite <- Hh1. apply blocking_ok; [done..|]. unfold preemptible. by rewrite Hh1.
Qed.

(** A call on the open file [f] returns, and leaves the device as it must be. *)
Definition call_life f (c : M devices (Z * Z)) dev t : Prop :=
  exists r pos dev' t', c K dev t = Done (r, pos) dev' t' /\
    held t' = so2_owns /\ disciplined t' = true /\
    device_ok [OFile (of_data f) pos (of_load f)] dev'.

Lemma call_lifeI f c dev t r pos dev' t' :
  c K dev t = Done (r, pos) dev' t' -> held t' = so2_owns /\ disciplined t' = true ->
  device_ok [OFile (of_data f) pos (of_load f)] dev' -> call_life f c dev t.
Proof. intros E [??] Hd. by exists r, pos, dev', t'. Qed.

Lemma so2_ok_file f pos dev :
  of_data f = dev_addr 0 -> 0 <= pos < MSG_MAX ->
  (exists d, dev !! dev_addr 0 = Some d /\ msg_ok d /\ isOpen d = 1) ->
  device_ok [OFile (of_data f) pos (of_load f)] dev.
Proof.
  intros Hf Hpos (d & Hd & Hm & Ho). exists d. do 4 (split; [done|]). by apply Forall_singleton.
Qed.

Lemma refused_life f (r : Z) dev t :
  device_ok [f] dev -> held t = so2_owns -> disciplined t = true ->
  call_life f (mret (r, of_pos f)) dev t.
Proof. intros Hd Hh Ht. exists r, (of_pos f), dev, t. by destruct f. Qed.

Lemma read_life f u size dev t :
  device_ok [f] dev -> held t = so2_owns -> disciplined t = true -> 0 <= size < 2 ^ 63 ->
  call_life f (so2_read (of_data f) u size (of_pos f)) dev t.
Proof.
  intros (d & Hp & Hd & Ho & _ & [Hdata Hpos]%Forall_singleton) Hh Ht Hsize.
  pose proof (text_le d Hd) as Hlen. unfold MSG_MAX in Hlen, Hpos.
  pose proof (so2_read_eq (dev_addr 0) u size (of_pos f) d K dev t Hp Hnull Hd Hsize ltac:(lia)) as E.
  cbv zeta in E. rewrite <- Hdata in E. set (src := take _ _) in E. destruct (copy_life (copy_to_user u src, K (log_read t) (copy_to_user u src))
    t "%s method 'read' was called!\n" [KStr MODULE_NAME]) as [H1 H2]; [done..|].
  repeat destruct (decide _); (eapply call_lifeI; [exact E|exact H1 || exact H2|]);
    (apply so2_ok_file; [done|unfold MSG_MAX; lia|by exists d]).
Qed.

Lemma write_life f u ub off dev t :
  device_ok [f] dev -> held t = so2_owns -> disciplined t = true -> off = of_pos f ->
  Z.of_nat (length ub) < 2 ^ 63 ->
  call_life f (so2_write (of_data f) u ub (Z.of_nat (length ub)) off) dev t.
Proof.
  intros (d & Hp & Hd & Ho & _ & [Hdata Hpos]%Forall_singleton) Hh Ht -> Hsize.
  pose proof (so2_write_eq (dev_addr 0) u ub (Z.of_nat (length ub)) (of_pos f) d K dev t Hp Hd
    ltac:(lia) eq_refl) as E. cbv zeta in E. rewrite <- Hdata in E.
  set (n := Z.of_nat (length ub) `min` (MSG_MAX - 1)) in E. set (r := K _ _) in E.
  assert (Hn : 0 <= n < MSG_MAX /\ n <= Z.of_nat (length ub)) by (unfold n, MSG_MAX; lia).
  destruct (copy_life (copy_from_user u n, r) t
    "%s method 'write' was called!\n" [KStr MODULE_NAME]) as [H1 H2]; [done..|].
  destruct (decide _); (eapply call_lifeI; [exact E|exact H2|]);
    (apply so2_ok_file; [done|unfold MSG_MAX in *; lia|]);
    (eexists; rewrite Hdata; split; [apply lookup_insert_eq|]).
  - split; [apply filled_ok; (done || lia)|done].
  - split; [apply written_ok; (done || lia)|done].
Qed.

Lemma one_file fs i f :
  (length fs <= 1)%nat -> fs !! i = Some f -> i = 0%nat /\ fs = [f].
Proof. intros Hl Hi. destruct fs as [|g [|]], i; cbn in *; naive_solver lia. Qed.

Lemma open_life fs l dev t :
  device_ok fs dev -> held t = so2_owns -> disciplined t = true ->
  exists r data dev' t',
    Devices.vfs_open Devices.so2_fops (cdev_of (dev_addr 0)) K dev t = Done (r, data) dev' t' /\
    held t' = so2_owns /\ disciplined t' = true /\
    device_ok (if decide (r = 0) then fs ++ [OFile data 0 l] else fs) dev'.
Proof.
  intros (d & Hp & Hd & Ho & Hl & Hf) Hh Ht. unfold Devices.vfs_open; cbn [Devices.fo_open Devices.so2_fops].
  rewrite (so2_open_eq _ d) by done.
  destruct (decide (isOpen d = 0)) as [H0|H0]; eexists _, _, _, _; (split; [reflexivity|]);
    rewrite quiet_held, quiet_disciplined by done; (split; [done|]; split; [done|]).
  - rewrite decide_True by done. assert (fs = []) as -> by (apply nil_length_inv; lia).
    eexists. split; [apply lookup_insert_eq|]. do 3 (split; [done|]). by apply Forall_singleton.
  - rewrite decide_False by done. by exists d.
Qed.

Lemma close_life f dev t :
  device_ok [f] dev -> held t = so2_owns -> disciplined t = true ->
  exists r dev' t', so2_release (of_data f) K dev t = Done r dev' t' /\
    held t' = so2_owns /\ disciplined t' = true /\ device_ok [] dev'.
Proof.
  intros (d & Hp & Hd & Ho & Hl & [-> _]%Forall_singleton) Hh Ht.
  rewrite (so2_release_eq _ d) by done. eexists _, _, _. split; [reflexivity|].
  rewrite quiet_held, quiet_disciplined by done. split; [done|]. split; [done|].
  eexists. split; [apply lookup_insert_eq|]. split_and!; [done..|cbn; lia|by apply Forall_nil].
Qed.

(** ** The driver keeps its promises *)

Definition so2_ok fs dev t : Prop :=
  device_ok fs dev /\ held t = so2_owns /\ disciplined t = true.

Definition so2_gone t : Prop := held t = [] /\ disciplined t = true.

#[local] Instance so2_managed : Managed so2_module K add_failed so2_ok so2_gone.
Proof.
  assert (Hone : forall fs i f dev, device_ok fs dev -> fs !! i = Some f -> i = 0%nat /\ fs = [f]).
  { intros fs i f dev (? & ? & ? & ? & Hl & ?) Hi. by apply one_file. }
  split.
  - by intros t [? _].
  - intros t [Hh Ht] Hn. destruct (so2_init_life t Hh Ht Hn) as (r & dev & t' & E & Ht' & Hr).
    exists r, dev, t'. split; [done|]. case_bool_decide; [by destruct Hr|done].
  - intros fs n d t (Hd & Hh & Ht). destruct (open_life fs n d t Hd Hh Ht) as (r & data & d' & t' & E & H).
    exists r, data, d', t'. split; [exact E|]. by destruct H as (? & ? & ?).
  - intros fs i f q d t (Hd & Hh & Ht) Hi _. destruct (Hone _ _ _ _ Hd Hi) as [-> ->].
    assert (Hc : call_life f (do_request so2_module q f) d t).
    { destruct q as [u size|u ub|cmd arg|vma]; cbn [do_request]; [case_decide..| |];
        (by apply refused_life) || (by apply read_life) || (by apply write_life). }
    destruct Hc as (r & pos & d' & t' & E & H). exists r, pos, d', t'. split; [exact E|].
    by destruct H as (? & ? & ?).
  - intros fs i f d t (Hd & Hh & Ht) Hi. destruct (Hone _ _ _ _ Hd Hi) as [-> ->].
    destruct (close_life f d t Hd Hh Ht) as (r & d' & t' & E & H). exists r, d', t'.
    split; [exact E|]. by destruct H as (? & ? & ?).
  - intros fs [].
  - intros fs d t (Hd & Hh & Ht). exists d. by apply so2_exit_life.
Qed.

(** C8: over its whole life - loads, opens, reads, writes, closes and unloads in
    any order, copies faulting anywhere, the number refused at any load - and up to
    the first load in which [cdev_add] fails, a result that [so2_cdev_init] does not
    look at, the so2 module never crashes the kernel: every handler returns, no file
    outlives the module, at most one is open and the open flag says whether one is,
    and the module holds its device and number when it is loaded and nothing when
    it is not.  From every point, closing the file and unloading gives everything
    back.  ([register_chrdev_region] returns 0 or a negative error.) *)
Theorem so2_life (l : list (action unit Empty_set)) :
  until so2_module K add_failed (fun s =>
    disciplined (hist s) = true /\ refs s = length (files s) /\ (length (files s) <= 1)%nat /\
    (live s = true ->
      Forall (fun f => of_load f = loads s) (files s) /\ held (hist s) = so2_owns /\
      exists d, drv s !! dev_addr 0 = Some d /\ msg_ok d /\
        isOpen d = Z.of_nat (length (files s))) /\
    (live s = false -> files s = [] /\ held (hist s) = []) /\
    exists s', run so2_module K (wind_down s) s = Some s' /\
      files s' = [] /\ held (hist s') = [] /\ disciplined (hist s') = true)
    l (unloaded so2_module).
Proof.
  eapply until_mono, (run_life (MM := so2_managed) l eq_refl (conj eq_refl eq_refl)). intros s Hs.
  pose proof (life_live s Hs) as Hl.
  pose proof (life_dead (MM := so2_managed) s Hs) as Hd. pose proof Hs as [[Hr Hf] _].
  destruct (wind_down_life (MM := so2_managed) s Hs) as (s' & E' & Hs' & El').
  destruct (life_dead (MM := so2_managed) s' Hs' El') as (Hf' & Hh' & _ & Ht').
  destruct (live s) eqn:El.
  - destruct (Hl eq_refl) as ((d & ? & ? & ? & ? & _) & Hh & Ht).
    split_and!; [done..| |done|by exists s']. intros _.
    split; [eapply Forall_impl; [exact Hf|]; by intros f [_ ?]|]. split; [done|by exists d].
  - destruct (Hd eq_refl) as (Hnil & Hh & _ & Ht). split_and!; [done..| |done|done|by exists s'].
    rewrite Hnil. cbn. lia.
Qed.

End proofs.

(** ** Witness *)

Definition demo_life : list (action unit Empty_set) :=
  [Open; Load; Open; Open; Call 0 (RWrite 7000 [104; 105]); Unload; Call 0 (RRead 8000 10);
   Close 0; Unload; Load; Open].

Lemma so2_life_witness :
  exists s, run (so2_module (LO := demo_layout) (MO := demo_mem)) demo_kernel demo_life
      (unloaded (so2_module (LO := demo_layout) (MO := demo_mem))) = Some s /\
    live s = true /\ loads s = 2%nat /\ copied_out (hist s) = [104; 105] /\
    held (hist s) = so2_owns (LO := demo_layout) /\ disciplined (hist s) = true.
Proof.
  pose proof (@so2_life demo_layout demo_mem demo_laws demo_kernel ltac:(discriminate)
    (fun _ _ _ _ => Z.le_refl 0) demo_life) as Hu.
  destruct (until_unspoiled _ _ _ _ _ _ Hu) as (s & E & Ht & _ & _ & Hl & _); [by vm_compute|].
  assert (Ev : (fun s => (live s, loads s, copied_out (hist s))) <$>
    run (so2_module (LO := demo_layout) (MO := demo_mem)) demo_kernel demo_life
      (unloaded (so2_module (LO := demo_layout) (MO := demo_mem))) =
    Some (true, 2%nat, [104; 105])) by (vm_compute; reflexivity).
  rewrite E in Ev. cbn in Ev. injection Ev as E1 E2 E3.
  destruct (Hl E1) as (_ & Hh & _).
  exists s. exact (conj E (conj E1 (conj E2 (conj E3 (conj Hh Ht))))).
Defined.

End So2Life.
