(* ===== verification/MemoryLife.v ===== *)
(** * The kmalloc memory driver over its life

    The operation table of memory.c names no owner, and the init function
    leaves the device registered when its allocation fails: the module can be
    gone while processes still have its files, its pages or its node.  Until an
    allocation or [cdev_add] fails, and when no file is open at an unload, all goes
    well. *)

From S2P Require Import Prelude Kernel Monad Memory User Devices Lifetime.

Module MemoryLife.
Import Memory Lifetime.

Section code.
Context `{Cfg : Config} `{PA : !PageAlign} `{Lay : Layout}.

(** [kmalloc_ptr] and [kmalloc_area], zeroed, with [module_init] and
    [module_exit]. *)
Definition memory_image : state := State NULL NULL [] ∅.

Definition memory_module : kmodule state vm_area Empty_set :=
  KModule memory_image mydriver_init mydriver_exit
    (Rcdev (cdev_of 0)) (cdev_of 0) Devices.dev_fops (Empty_set_rect _).

End code.

Section proofs.
Context `{Cfg : Config} `{PA : !PageAlign} `{PAL : !PageAlignLaws} `{Lay : Layout}.
Context (K : oracle) (page_offset : Z) (page_of : Z -> Z) `{LM : !LinearMap K page_offset page_of}.
Context (Hshift : 2 <= PAGE_SHIFT) (Hreg : registers K).
Implicit Types (s : sys state) (t : trace).

Abbreviation start := (unloaded memory_module).

Lemma load_fails :
  allocated K [] = NULL ->
  exists s, act memory_module K Load start = Some s /\ live s = false /\
    held (hist s) = registered /\ disciplined (hist s) = true.
Proof.
  intros Hp. cbn [act live hist unloaded mod_init mod_image memory_module].
  rewrite (init_to_alloc K _ _ (registers_grants K _ Hreg)). unfold rest_of_load.
  rewrite Hp, decide_True by done.
  eexists. split; [reflexivity|]. done.
Qed.

Lemma load_succeeds :
  allocated K [] <> NULL ->
  exists t, act memory_module K Load start =
      Some (Sys true 0 1 [] (after_load (allocated K []) memory_image) t) /\
    held t = pages page_offset page_of (allocated K []) ++ Rmem (allocated K []) :: registered /\
    disciplined t = true.
Proof.
  intros Hp. destruct (driver_init_eq K page_offset page_of Hshift memory_image [] (registers_grants K [] Hreg) Hp) as (t & E & Hh & Hd & _);
    [done|]. exists t. split; [|by rewrite app_nil_r in Hh].
  cbn [act live hist loads files unloaded mod_init mod_image memory_module]. by rewrite E.
Qed.

(** The loaded module, with [fs] open. *)
Abbreviation loaded_sys fs t :=
  (Sys true 0 1 fs (after_load (allocated K []) memory_image) t).
Abbreviation opened := (OFile (cdev_of 0 - offsetof_cdev) 0 1).

Abbreviation log_open t := ((printk "[LOG]: %s\n" [KStr "memory_open called"], 0) :: t).

Lemma open_step fs t :
  Rcdev (cdev_of 0) ∈ held t ->
  act memory_module K Open (loaded_sys fs t) =
    Some (loaded_sys (fs ++ [opened]) (log_open t)).
Proof. intros Hin. cbn [act hist mod_node memory_module]. by rewrite bool_decide_false by auto. Qed.

(** The call that a mapping of [size] bytes makes. *)
Abbreviation remap vma size :=
  (remap_pfn_range (vma_addr vma) (vm_start vma) (frame page_offset (PAGE_ALIGN (allocated K [])))
    size (vm_page_prot vma)).

Lemma mmap_step vma t :
  3 * PAGE_SIZE < 2 ^ 64 ->
  let size := u64 (vm_end vma - vm_start vma) in
  size <= NPAGES * PAGE_SIZE ->
  exists e, act memory_module K (Call 0 (RMmap vma)) (loaded_sys [opened] t) =
    Some (loaded_sys [opened] ((remap vma size, K (e :: t) (remap vma size)) :: e :: t)) /\
    quiet e = true.
Proof.
  intros Hw size Hsize. pose proof (page_size_4 Hshift) as H4.
  assert (Hlim : u64 (NPAGES * PAGE_SIZE) = NPAGES * PAGE_SIZE)
    by (apply wrap_small; unfold NPAGES; lia).
  cbn [act files live of_load loads drv hist lookup list_lookup do_request Devices.vfs_mmap
    Devices.fo_mmap Devices.dev_fops mod_fops memory_module].
  cbn. unfold memory_mmap. fold size. rewrite Hlim.
  destruct (decide (size > NPAGES * PAGE_SIZE)); [lia|].
  unfold mbind, M_bind, gets, ask, mret, M_ret. cbn. rewrite phys_linear.
  eexists. split; [reflexivity|done].
Qed.

Lemma unload_step fs t :
  act memory_module K Unload (loaded_sys fs t) =
    Some (Sys false 0 1 fs
      (set_blocks (filter (fun b => b.1 <> allocated K [])
        (blocks (after_load (allocated K []) memory_image)))
        (after_load (allocated K []) memory_image))
      (exit_trace page_offset page_of (allocated K []) t)).
Proof.
  cbn [act live refs drv hist mod_exit memory_module negb orb].
  rewrite bool_decide_false by auto.
  by rewrite (exit_eq K page_offset page_of (allocated K [])) by by split_and!; [..|left].
Qed.

(** C20: the module can be unloaded while a process has its memory mapped: the
    operation table names no owner, so an open file takes no reference.  After
    load, open, a successful mmap of at most three pages and unload, the file is
    still open and nothing has undone the mapping, but every frame of it is a page
    of the block that [kfree] has given back; closing the file then uses an
    operation table that is not there. *)
Theorem unload_while_mapped vma :
  3 * PAGE_SIZE < 2 ^ 64 -> allocated K [] <> NULL ->
  (forall t v a pfn n prot, K t (remap_pfn_range v a pfn n prot) = 0) ->
  let p := allocated K [] in
  let size := u64 (vm_end vma - vm_start vma) in
  let acts := [Load; Open; Call 0 (RMmap vma); Unload] in
  size <= NPAGES * PAGE_SIZE ->
  exists s pfn, run memory_module K acts start = Some s /\
    live s = false /\ length (files s) = 1%nat /\ disciplined (hist s) = true /\
    (remap_pfn_range (vma_addr vma) (vm_start vma) pfn size (vm_page_prot vma), 0) ∈ hist s /\
    (forall i, 0 <= i -> i * PAGE_SIZE < size ->
      pfn + i = frame page_offset (PAGE_ALIGN p + i * PAGE_SIZE) /\
      p <= PAGE_ALIGN p + i * PAGE_SIZE /\
      PAGE_ALIGN p + (i + 1) * PAGE_SIZE <= p + (NPAGES + 1) * PAGE_SIZE) /\
    head (hist s) = Some (kfree p, 0) /\ held (hist s) = [] /\ blocks (drv s) = [] /\
    run memory_module K (acts ++ [Close 0]) start = None.
Proof.
  intros Hw Hp Hremap p size acts Hsize. pose proof (page_size_4 Hshift) as H4.
  destruct (load_succeeds Hp) as (t & E1 & Hh & Hd).
  assert (E2 : act memory_module K Open (loaded_sys [] t) = Some (loaded_sys [opened] (log_open t))).
  { apply (open_step [] t). rewrite Hh. apply elem_of_app. right. right. left. }
  destruct (mmap_step vma (log_open t) Hw Hsize) as (e & E3 & He). rewrite Hremap in E3.
  set (t3 := (remap vma size, 0) :: e :: log_open t) in E3.
  assert (Erun : forall l, run memory_module K (acts ++ l) start =
    run memory_module K l (Sys false 0 1 [opened] (set_blocks [] (after_load p memory_image))
      (exit_trace page_offset page_of p t3))).
  { intros l. cbn [acts app]. rewrite (run_cons _ _ _ _ _ _ E1), (run_cons _ _ _ _ _ _ E2),
      (run_cons _ _ _ _ _ _ E3), (run_cons _ _ _ _ _ _ (unload_step _ _)).
    cbn [blocks after_load memory_image]. rewrite filter_cons_False by (cbn; auto). done. }
  assert (Hb : balanced t3 [] (exit_trace page_offset page_of p t3)).
  { apply exit_balanced; [exact Hp|]. unfold t3. rewrite !quiet_held by done. by rewrite Hh, app_nil_r. }
  destruct Hb as [Hh' Hd']. eexists _, _. split; [rewrite <- (app_nil_r acts), Erun; reflexivity|].
  split; [done|]. split; [done|].
  split; [cbn [hist]; rewrite Hd'; unfold t3; by rewrite !quiet_disciplined|].
  split; [do 10 right; left|].
  split; [|split_and!; [done|by apply Permutation_nil_r in Hh'|done|by rewrite Erun]].
  intros i Hi Hin.
  destruct (area_frames K page_offset page_of Hshift p i) as (? & ? & ? & _); [unfold NPAGES in *; nia|done].
Qed.

(** When the allocation fails, the load returns -ENOMEM and the module goes,
    but its device stays registered: the next open of the node runs into an
    operation table that is not there. *)
Theorem open_after_failed_load :
  allocated K [] = NULL ->
  exists s, run memory_module K [Load] start = Some s /\ live s = false /\
    held (hist s) = registered /\ disciplined (hist s) = true /\
    run memory_module K [Load; Open] start = None.
Proof.
  intros Hp. destruct (load_fails Hp) as (s & E & Hl & Hh & Hd). exists s.
  rewrite !(run_cons _ _ _ _ _ _ E). do 4 (split; [done|]).
  cbn [run act mod_node memory_module]. rewrite Hh, Hl, bool_decide_false; [done|].
  intros H. apply H. by left.
Qed.

End proofs.

(** ** Lives without these events *)

(** What the driver does not survive: [cdev_add] fails, which [mydriver_init] does
    not notice, or [kmalloc] does, after which the device stays registered without
    a module behind it. *)
Definition load_failed (e : event) : bool :=
  match e with
  | (cdev_add _ _ _, r) => negb (r =? 0)
  | (kmalloc _ _, p) => p =? NULL
  | _ => false
  end.

Section lives.
Context `{Cfg : Config} `{PA : !PageAlign} `{PAL : !PageAlignLaws} `{Lay : Layout}.
Context (K : oracle) (page_offset : Z) (page_of : Z -> Z) `{LM : !LinearMap K page_offset page_of}.
Context (Hshift : 2 <= PAGE_SHIFT) (Hw : 3 * PAGE_SIZE < 2 ^ 64).
Context (Hreg : forall t d n nm, K t (register_chrdev_region d n nm) <= 0).
Implicit Types (s : sys state) (t : trace).

Abbreviation start := (unloaded memory_module).

(** A mapping of whole pages of one block that is held, all of them reserved. *)
Definition own_frames (pfn size : Z) t : Prop :=
  size <= NPAGES * PAGE_SIZE /\ exists p, Rmem p ∈ held t /\ forall i, 0 <= i -> i * PAGE_SIZE < size ->
    pfn + i = frame page_offset (PAGE_ALIGN p + i * PAGE_SIZE) /\
    p <= PAGE_ALIGN p + i * PAGE_SIZE /\
    PAGE_ALIGN p + (i + 1) * PAGE_SIZE <= p + (NPAGES + 1) * PAGE_SIZE /\
    Rpage (page_of (pfn + i)) ∈ held t.
Abbreviation maps_own := (maps_only own_frames).

(** The module is loaded: its block with its pages reserved, its registrations. *)
Definition memory_ok (fs : list ofile) (st : state) t : Prop :=
  (exists p, p <> NULL /\ loaded p st /\
    held t ≡ₚ pages page_offset page_of p ++ Rmem p :: registered) /\
  disciplined t = true /\ maps_own t.
Definition memory_gone t : Prop := held t = [] /\ disciplined t = true /\ maps_own t.

(** A load in which nothing of the sort happens. *)
Lemma load_grants st t :
  granted K t = 0 -> never load_failed (history (mydriver_init K st t)) ->
  grants K t /\ allocated K t <> NULL.
Proof.
  intros Hr Hn. rewrite (init_granted K st t Hr) in Hn. apply never_before in Hn; [|apply _].
  cbn in Hn. rewrite !orb_false_iff, negb_false_iff, Z.eqb_eq, Z.eqb_neq in Hn.
  destruct Hn as (Hp & Ha & _). rewrite Ha in Hp. by split.
Qed.

Lemma memory_init_life t :
  memory_gone t -> never load_failed (history (mydriver_init K memory_image t)) ->
  exists r st t', mydriver_init K memory_image t = Done r st t' /\
    if bool_decide (0 <= r) then memory_ok [] st t' else memory_gone t'.
Proof.
  intros (Hh & Hd & Hm) Hn. destruct (decide (granted K t = 0)) as [Hr|Hr].
  - destruct (load_grants _ t Hr Hn) as [Hg Hp].
    destruct (driver_init_eq K page_offset page_of Hshift memory_image t Hg Hp)
      as (t' & E & Hh' & Hd' & l & -> & Hl); [unfold preemptible; by rewrite Hh|].
    eexists _, _, _. split; [exact E|]. rewrite bool_decide_true by done.
    rewrite Hh, app_nil_r in Hh'. split; [|split].
    + exists (allocated K t). split; [done|]. split; [|by rewrite Hh'].
      split_and!; [done..|by left].
    + by rewrite Hd'.
    + by apply maps_only_app.
  - destruct (driver_init_refused K memory_image t Hr) as (t' & E & ->). eexists _, _, _. split; [exact E|].
    assert (granted K t <= 0) by apply Hreg. rewrite bool_decide_false by lia.
    unfold memory_gone. cbn. apply Z.eqb_neq in Hr. by rewrite Hr, Hd, Hh.
Qed.

Lemma memory_mmap_life fs vma st t :
  memory_ok fs st t -> exists r t', memory_mmap vma K st t = Done r st t' /\ memory_ok fs st t'.
Proof.
  intros ((p & Hp & Hl & Hh) & Hd & Hm). pose proof (page_size_4 Hshift). unfold memory_mmap.
  set (size := (vm_end vma -64 vm_start vma)%cint).
  rewrite (wrap_small 64 (NPAGES * PAGE_SIZE)) by (unfold NPAGES; lia).
  destruct (decide (size > NPAGES * PAGE_SIZE)) as [Hgt|Hle].
  { eexists _, t. split; [reflexivity|]. split; [by exists p|done]. }
  eexists _, _. split; [run_all; reflexivity|]. rewrite phys_linear. pose proof Hl as (_ & Ea & _).
  rewrite Ea. fold (frame page_offset (PAGE_ALIGN p)).
  split; [exists p; by rewrite !quiet_held|]. split; [by rewrite !quiet_disciplined|].
  cbn [maps_only]. split; [|done]. split; [lia|]. exists p. rewrite quiet_held, Hh by done.
  split; [apply elem_of_app; right; by left|]. intros i Hi0 Hi.
  destruct (area_frames K page_offset page_of Hshift p i) as (? & ? & ? & Hin); [unfold NPAGES in *; nia|].
  split_and!; [done..|]. rewrite Hh. apply elem_of_app. by left.
Qed.

Lemma memory_exit_life fs st t :
  memory_ok fs st t -> exists st' t', mydriver_exit K st t = Done () st' t' /\ memory_gone t'.
Proof.
  intros ((p & Hp & Hl & Hh) & Hd & Hm). eexists _, _.
  split; [by apply (exit_eq K page_offset page_of p)|].
  destruct (exit_balanced page_offset page_of p t [] Hp) as [Hh' Hd']; [by rewrite app_nil_r|].
  split; [by apply Permutation_nil_r|]. by rewrite Hd'.
Qed.

#[local] Instance memory_managed : Managed memory_module K load_failed memory_ok memory_gone.
Proof.
  split.
  - by intros t [? _].
  - exact memory_init_life.
  - intros fs n st t (Hp & Hd & Hm). eexists 0, _, st, _. split; [reflexivity|].
    split; [done|]. by rewrite quiet_disciplined.
  - intros fs i f q st t Hok Hi _.
    destruct q as [u size|u ub|cmd arg|vma]; cbn [do_request]; [case_decide..| |];
      try (eexists _, _, st, t; split; [reflexivity|exact Hok]).
    destruct (memory_mmap_life fs vma st t Hok) as (r & t' & E & H).
    exists r, (of_pos f), st, t'. split; [|exact H].
    unfold Devices.vfs_mmap; cbn. by rewrite (run_bind _ _ _ _ _ _ _ _ E).
  - intros fs i f st t Hok Hi. by eexists 0, st, t.
  - intros fs [].
  - intros fs st t Hok. by eapply memory_exit_life.
Qed.

(** C19: over its whole life - loads (the number refused or not), opens, mmaps of
    any size that fail anywhere, closes and unloads, in any order in which no file
    is open when the module goes - and up to the first load in which [cdev_add] or
    the allocation fails, the kmalloc driver never crashes the kernel, and every
    frame it ever maps is, when it is mapped, a whole page of a block that it holds,
    one of those it has reserved.  Unloaded, it holds nothing; closing the files and
    then unloading gives everything back.  ([register_chrdev_region] returns 0 or a
    negative error, and kernel memory is mapped linearly.) *)
Theorem memory_life (acts : list (action vm_area Empty_set)) :
  permitted_run memory_module K acts start ->
  until memory_module K load_failed (fun s =>
    disciplined (hist s) = true /\ maps_own (hist s) /\
    (live s = true -> exists p, loaded p (drv s) /\
      held (hist s) ≡ₚ pages page_offset page_of p ++ Rmem p :: registered) /\
    (live s = false -> files s = [] /\ held (hist s) = []) /\
    exists s' : sys state, run memory_module K (wind_down s) s = Some s' /\
      live s' = false /\ files s' = [] /\ held (hist s') = [] /\ maps_own (hist s'))
    acts start.
Proof.
  intros Hperm.
  eapply until_mono, (permitted_life (MM := memory_managed) acts (conj eq_refl (conj eq_refl I)) Hperm).
  intros s Hs. destruct (wind_down_life (MM := memory_managed) s Hs) as (s' & E' & Hs' & El').
  destruct (life_dead (MM := memory_managed) s' Hs' El') as (Hf' & Hh' & _ & _ & Hm').
  destruct (live s) eqn:El.
  - destruct (life_live s Hs El) as ((p & _ & Hl & Hh) & Hd & Hm).
    split_and!; [done|done|by exists p|done|by exists s'].
  - destruct (life_dead (MM := memory_managed) s Hs El) as (? & ? & _ & ? & ?).
    split_and!; [done..|by exists s'].
Qed.

End lives.

(** ** Witnesses *)

Import Memory.Sample Lifetime.

Lemma unload_while_mapped_witness :
  let vma := VmArea 1 0x10000 0x12000 0 in
  exists s pfn, run memory_module kernel [Load; Open; Call 0 (RMmap vma); Unload]
      (unloaded memory_module) = Some s /\
    live s = false /\ length (files s) = 1%nat /\ held (hist s) = [] /\
    (remap_pfn_range 1 0x10000 pfn 0x2000 0, 0) ∈ hist s /\
    pfn + 1 = frame offset (PAGE_ALIGN 10000 + 1 * PAGE_SIZE) /\
    run memory_module kernel [Load; Open; Call 0 (RMmap vma); Unload; Close 0]
      (unloaded memory_module) = None.
Proof.
  destruct (unload_while_mapped kernel offset struct_page shift_ok registers_ok
    (VmArea 1 0x10000 0x12000 0)) as (s & pfn & E & Hl & Hf & _ & Hin & Hp & _ & Hh & _ & En);
    [reflexivity|discriminate|reflexivity|discriminate|].
  exists s, pfn. exact (conj E (conj Hl (conj Hf (conj Hh (conj Hin
    (conj (proj1 (Hp 1 ltac:(discriminate) ltac:(reflexivity))) En)))))).
Defined.

Lemma open_after_failed_load_witness :
  exists s, run memory_module starved [Load] (unloaded memory_module) = Some s /\
    live s = false /\ held (hist s) = registered /\ disciplined (hist s) = true /\
    run memory_module starved [Load; Open] (unloaded memory_module) = None.
Proof. apply (open_after_failed_load starved); [split; reflexivity|reflexivity]. Defined.

(** Two loads, with a mapping in each. *)
Definition demo_acts : list (action vm_area Empty_set) :=
  [Load; Open; Call 0 (RMmap (VmArea 1 0x10000 0x12000 0)); Close 0; Unload;
   Load; Open; Call 0 (RMmap (VmArea 1 0x10000 0x11000 0))].

Lemma demo_permitted_acts : permitted_run memory_module kernel demo_acts (unloaded memory_module).
Proof.
  repeat (split; [first [discriminate|intros _; by right]|intros ? E; vm_compute in E; injection E as <-]).
  exact I.
Qed.

Lemma memory_life_witness :
  exists s, run memory_module kernel demo_acts (unloaded memory_module) = Some s /\
    maps_only (own_frames offset struct_page) (hist s) /\ live s = true /\
    head (hist s) = Some (remap_pfn_range 1 0x10000 (frame offset (PAGE_ALIGN 10000)) 0x1000 0, 0).
Proof.
  assert (Hreg : forall t d n nm, kernel t (register_chrdev_region d n nm) <= 0)
    by (intros t d n nm; apply Z.eq_le_incl, registers_ok).
  pose proof (memory_life kernel offset struct_page shift_ok eq_refl Hreg demo_acts
    demo_permitted_acts) as Hu.
  destruct (until_unspoiled _ _ _ _ _ _ Hu) as (s & E & _ & Hm & _); [by vm_compute|].
  assert (Ev : (fun s => (live s, head (hist s))) <$>
      run memory_module kernel demo_acts (unloaded memory_module) =
    Some (true, Some (remap_pfn_range 1 0x10000 (frame offset (PAGE_ALIGN 10000)) 0x1000 0, 0)))
    by (vm_compute; reflexivity).
  rewrite E in Ev. cbn [fmap option_fmap option_map] in Ev. injection Ev as E1 E2.
  exists s. exact (conj E (conj Hm (conj E1 E2))).
Defined.

End MemoryLife.
