(* ===== verification/NonMemoryLife.v ===== *)
(** * The vmalloc memory driver over its life

    The module nonMemory under loads, opens, mmaps, closes, reads of its /proc
    entry and unloads.  The operation table names no owner, so that the
    administrator has to wait until the files are closed; everything else can
    happen in any order, up to a load in which something fails.  The map of vmalloc memory changes with every load. *)

From S2P Require Import Prelude Kernel Monad NonMemory User Devices Lifetime.

Module NonMemoryLife.
Import NonMemory Lifetime.

(** A process opens and reads the /proc entry; [vmas] are its areas. *)
Inductive proc_event := ReadProc (file : Z) (vmas : list vm_area).

Section code.
Context `{Cfg : Config} `{Lay : Layout}.

(** [proc_ops]: after [single_open], [seq_read] calls the function that was given
    to it, and [single_release] runs no code of the driver. *)
Definition proc_ops (file : Z) (vmas : list vm_area) : M state unit :=
  r ← memory_seq_open file;
  if decide (r < 0) then mret () else memory_seq_show vmas ;; mret ().

(** [vmalloc_area], zeroed, with [module_init] and [module_exit]. *)
Definition nonmemory_image : state := State NULL.

Definition nonmemory_module : kmodule state vm_area proc_event :=
  KModule nonmemory_image driver_initt driver_exit (Rcdev (cdev_of 0)) (cdev_of 0)
    Devices.nonmemory_fops
    (fun e => match e with ReadProc file vmas => (Rproc PROC_ENTRY_NAME, proc_ops file vmas) end).

End code.

(** What the driver does not survive: the /proc entry is not created, or [cdev_add]
    fails, which [driver_initt] does not notice; the number is refused, after which
    the entry stays without a module behind it; or [vmalloc] fails, whose result is
    used untested. *)
Definition load_failed (e : event) : bool :=
  match e with
  | (proc_create _, r) | (vmalloc _, r) => r =? 0
  | (register_chrdev_region _ _ _, r) | (cdev_add _ _ _, r) => negb (r =? 0)
  | _ => false
  end.

Section proofs.
Context `{Cfg : Config} `{Lay : Layout} (K : oracle).
Context (page_of : nat -> Z -> Z) (page_to_pfn : Z -> Z) `{VM : !VmMap K page_of page_to_pfn}.
Context (Hps : 0 < PAGE_SIZE) (Hov : (NPAGES + 1) * PAGE_SIZE <= 2 ^ 64).
Context (Hback : forall t, allocated K t <> NULL -> backed page_of (after_alloc K t) (allocated K t)).
Implicit Types (s : state) (t : trace) (fs : list ofile).

(** Every frame that the history maps is, at that moment, the frame of a
    reserved page of vmalloc memory that is held. *)
Definition reserved_frame (pfn size : Z) t : Prop :=
  size = PAGE_SIZE /\ exists p i, 0 <= i < NPAGES /\ Rvmem p ∈ held t /\
    Rpage (page_at page_of t p i) ∈ held t /\ pfn = page_to_pfn (page_at page_of t p i).
Abbreviation maps_reserved := (maps_only reserved_frame).

(** The module is loaded: its area, with its pages reserved, its registrations. *)
Definition vm_ok fs s t : Prop :=
  (vmalloc_area s <> NULL /\ backed page_of t (vmalloc_area s) /\
   held t ≡ₚ reserved page_of t (vmalloc_area s) ++ Rvmem (vmalloc_area s) :: registered) /\
  disciplined t = true /\ maps_reserved t.
Definition vm_gone t : Prop := held t = [] /\ disciplined t = true /\ maps_reserved t.

Lemma vm_ok_preemptible fs s t : vm_ok fs s t -> preemptible t = true.
Proof. intros ((_ & _ & Hh) & _). by rewrite (preemptible_perm t _ Hh). Qed.

(** What gives everything back, maps nothing and leaves the map keeps all this. *)
Lemma vm_ok_app fs s l t :
  vm_ok fs s t -> balanced t (held t) (l ++ t) -> no_maps l = true -> vm_epoch l = 0%nat ->
  vm_ok fs s (l ++ t).
Proof.
  intros ((Ha & Hb & Hh) & Hd & Hr) [Hb1 Hd1] Hm He. unfold vm_ok, backed, reserved, page_at.
  rewrite vm_epoch_app, He, Hb1, Hd1. split; [done|]. split; [done|by apply maps_only_app].
Qed.

Lemma vm_ok_quiet fs s e t :
  quiet e = true -> no_maps [e] = true -> vm_epoch [e] = 0%nat -> vm_ok fs s t -> vm_ok fs s (e :: t).
Proof. intros Hq Hm He Ht. apply (vm_ok_app fs s [e]); [done|by apply balanced_quiet|done..]. Qed.

(** ** The handlers *)

(** The loop of [memory_mmap] from page [k] on. *)
Lemma mmap_pages_life fs vma size s fuel : forall k t,
  vm_ok fs s t -> 0 <= k -> NPAGES <= k + Z.of_nat fuel -> size <= NPAGES * PAGE_SIZE ->
  wp (mmap_pages fuel vma size (k * PAGE_SIZE)) K s t (fun _ s' t' => s' = s /\ vm_ok fs s' t').
Proof.
  induction fuel as [|fuel IH]; intros k t Hok Hk Hf Hs; cbn [mmap_pages].
  { rewrite decide_False by nia. by rewrite wp_ret. }
  destruct (decide (k * PAGE_SIZE < size)) as [Hlt|Hge]; [|by rewrite wp_ret].
  assert (Hk1 : k < NPAGES) by nia. wp_run. rewrite vm_pfn.
  set (t1 := (remap_pfn_range _ _ _ _ _, _) :: _).
  assert (Ht1 : vm_ok fs s t1).
  { destruct Hok as ((Ha & Hb & Hh) & Hd & Hr). split; [|split]; [|by unfold t1; rewrite !quiet_disciplined|].
    - done.
    - cbn [maps_only t1]. split; [split; [done|]|done].
      exists (vmalloc_area s), k. split; [lia|]. rewrite quiet_held, Hh by done.
      split; [apply elem_of_app; right; by left|]. split.
      + apply elem_of_app. left. apply list_elem_of_fmap. exists k. split; [done|].
        rewrite !elem_of_cons. unfold NPAGES in *. lia.
      + unfold page_at. cbn [vm_epoch]. do 2 f_equal. lia. }
  match goal with |- context [decide (s32 ?r <> 0)] => destruct (decide (s32 r <> 0)) end;
    [by rewrite wp_ret|].
  rewrite wrap_small by nia. replace (k * PAGE_SIZE + PAGE_SIZE) with ((k + 1) * PAGE_SIZE) by lia.
  apply IH; [done|lia..].
Qed.

Lemma vm_mmap_life fs vma s t :
  vm_ok fs s t -> exists r t', memory_mmap vma K s t = Done r s t' /\ vm_ok fs s t'.
Proof.
  intros Hok. unfold memory_mmap. rewrite (wrap_small 64 (NPAGES * _)) by (unfold NPAGES in *; lia).
  destruct (decide _) as [Hgt|Hle]; [by eexists _, t|].
  pose proof (mmap_pages_life fs vma (vm_end vma -64 vm_start vma)%cint s (Z.to_nat NPAGES) 0 t Hok) as Hw.
  apply wp_done in Hw as (r & s' & t' & E & -> & Ht'); [by exists r, t'|unfold NPAGES in *; lia..].
Qed.

Lemma proc_ops_life fs file vmas s t :
  vm_ok fs s t -> exists t', proc_ops file vmas K s t = Done () s t' /\ vm_ok fs s t'.
Proof.
  intros Hok. unfold proc_ops, memory_seq_open. run_all.
  set (t1 := (single_open file, _) :: t). assert (Ht1 : vm_ok fs s t1) by by apply vm_ok_quiet.
  destruct (decide _); [by exists t1|].
  destruct (sum_areas_ends K vmas s 0) as [total Hn].
  destruct (seq_show_run K vmas total s t1 Hn (vm_ok_preemptible fs s t1 Ht1)) as (t2 & E & Hb & Ht2).
  rewrite (run_bind _ _ _ _ _ _ _ _ E). exists t2. split; [done|].
  case_decide; subst t2; [by apply (vm_ok_app fs s [_; _])|].
  destruct (show_plain vmas total (K ((current, K t1 current) :: t1) (get_task_mm (K t1 current)))
    (K t1 current) t1) as (l & El & Hm & He).
  rewrite El in Hb |- *. by apply vm_ok_app.
Qed.

(** A load in which nothing of the sort happens. *)
Lemma vm_load_grants s t :
  never load_failed (history (driver_initt K s t)) -> grants K t /\ allocated K t <> NULL.
Proof.
  intros Hn. destruct (decide (granted K t = 0)) as [Hr|Hr].
  - rewrite (initt_granted K s t Hr) in Hn. apply never_before in Hn; [|apply _].
    cbn in Hn. rewrite !orb_false_iff, negb_false_iff, Z.eqb_eq, !Z.eqb_neq in Hn.
    destruct Hn as (Hp & Ha & He & _). rewrite Ha in Hp. by split.
  - rewrite (initt_refused K s t Hr) in Hn. cbn in Hn. apply Z.eqb_neq in Hr. by rewrite Hr in Hn.
Qed.

Lemma driver_initt_life s t :
  vm_gone t -> never load_failed (history (driver_initt K s t)) ->
  exists s' t', driver_initt K s t = Done 0 s' t' /\ vm_ok [] s' t'.
Proof.
  intros (Hh & Hd & Hr) Hn. destruct (vm_load_grants s t Hn) as [Hg Hmem].
  destruct (load_balanced K page_of page_to_pfn s t Hg Hmem) as (t' & E & [Hb1 Hb2] & He & l & -> & Hl);
    [unfold preemptible; by rewrite Hh|by apply Hback|].
  exists (State (allocated K t)), (l ++ t). split; [done|]. rewrite Hh, app_nil_r in Hb1.
  split; [|split; [by rewrite Hb2|by apply maps_only_app]].
  split; [done|]. split; [|done]. intros i. unfold page_at. rewrite He. by apply Hback.
Qed.

Lemma driver_exit_life fs s t :
  vm_ok fs s t -> exists s' t', driver_exit K s t = Done () s' t' /\ vm_gone t'.
Proof.
  destruct s as [p]. intros ((Ha & Hb & Hh) & Hd & Hr).
  destruct (unload_balanced K page_of page_to_pfn p t [] Hb Ha) as (t' & E & [Hb1 Hb2] & l & -> & Hl);
    [by rewrite app_nil_r|].
  exists (State p), (l ++ t). split; [done|]. split; [by apply Permutation_nil_r|].
  split; [by rewrite Hb2|by apply maps_only_app].
Qed.

(** ** The driver keeps its promises *)

#[local] Instance nonmemory_managed : Managed nonmemory_module K load_failed vm_ok vm_gone.
Proof.
  split.
  - by intros t [? _].
  - intros t Ht Hn. destruct (driver_initt_life nonmemory_image t Ht Hn) as (s & t' & E & H).
    by exists 0, s, t'.
  - intros fs n s t Hok. eexists 0, _, s, _. split; [reflexivity|]. by apply vm_ok_quiet.
  - intros fs i f q s t Hok Hi _.
    destruct q as [u size|u ub|cmd arg|vma]; cbn [do_request]; [case_decide..| |];
      try (eexists _, _, s, t; split; [reflexivity|exact Hok]).
    destruct (vm_mmap_life fs vma s t Hok) as (r & t' & E & H).
    exists r, (of_pos f), s, t'. split; [|exact H].
    unfold Devices.vfs_mmap; cbn. by rewrite (run_bind _ _ _ _ _ _ _ _ E).
  - intros fs i f s t Hok Hi. eexists 0, s, _. split; [reflexivity|]. by apply vm_ok_quiet.
  - intros fs [file vmas] s t Hok. destruct (proc_ops_life fs file vmas s t Hok) as (t' & E & H).
    by exists s, t'.
  - intros fs s t Hok. by eapply driver_exit_life.
Qed.

(** C18: over its whole life - loads, opens, mmaps of any size that fail anywhere,
    closes, reads of the /proc entry and unloads, in any order in which no file is
    open when the module goes, and with vmalloc memory at other pages after every
    load - and up to the first load in which a registration or the unchecked
    allocation fails, the vmalloc driver never crashes the kernel, and every frame
    it ever maps is, when it is mapped, the frame of one of three reserved pages of
    memory that it holds.  Loaded, it holds that memory, those pages and its
    registrations; unloaded, nothing; closing the files and then unloading gives
    everything back.  (A page is behind every address of memory that [vmalloc] has
    given.) *)
Theorem nonmemory_life (acts : list (action vm_area proc_event)) :
  permitted_run nonmemory_module K acts (unloaded nonmemory_module) ->
  until nonmemory_module K load_failed (fun s : sys state =>
    disciplined (hist s) = true /\ maps_reserved (hist s) /\
    (live s = true -> let p := vmalloc_area (drv s) in
      held (hist s) ≡ₚ reserved page_of (hist s) p ++ Rvmem p :: registered) /\
    (live s = false -> files s = [] /\ held (hist s) = []) /\
    exists s' : sys state, run nonmemory_module K (wind_down s) s = Some s' /\
      live s' = false /\ files s' = [] /\ held (hist s') = [] /\ maps_reserved (hist s'))
    acts (unloaded nonmemory_module).
Proof.
  intros Hperm.
  eapply until_mono, (permitted_life (MM := nonmemory_managed) acts (conj eq_refl (conj eq_refl I)) Hperm).
  intros s Hs. destruct (wind_down_life (MM := nonmemory_managed) s Hs) as (s' & E' & Hs' & El').
  destruct (life_dead (MM := nonmemory_managed) s' Hs' El') as (Hf' & Hh' & _ & _ & Hm').
  destruct (live s) eqn:El.
  - destruct (life_live s Hs El) as ((_ & _ & Hh) & Hd & Hr). split_and!; [done..|by exists s'].
  - destruct (life_dead (MM := nonmemory_managed) s Hs El) as (? & ? & _ & ? & ?).
    split_and!; [done..|by exists s'].
Qed.

End proofs.

(** ** Witness *)

Import NonMemory.Sample.

Lemma sample_backed n i : 0 <= i < NPAGES -> struct_page n (area + PAGE_SIZE * i) <> NULL.
Proof.
  intros Hi. rewrite page_size. unfold struct_page, NULL.
  assert ((area + 4096 * i <? area) = false) as -> by (apply Z.ltb_ge; lia).
  assert (0 <= Z.shiftr (area + 4096 * i - area) 12) by (apply Z.shiftr_nonneg; lia). lia.
Qed.

(** Two loads; a page is mapped in each, and the entry is read in between. *)
Definition demo_acts : list (action vm_area proc_event) :=
  [Load; Open; Call 0 (RMmap (VmArea 1 0x10000 0x11000 0)); Event (ReadProc 3 two_areas); Close 0;
   Unload; Load; Open; Call 0 (RMmap (VmArea 1 0x10000 0x12000 0))].

Lemma demo_permitted : permitted_run nonmemory_module kernel demo_acts (unloaded nonmemory_module).
Proof.
  repeat (split; [first [discriminate|intros _; by right]|intros ? E; vm_compute in E; injection E as <-]).
  exact I.
Qed.

Lemma nonmemory_life_witness :
  exists s, run nonmemory_module kernel demo_acts (unloaded nonmemory_module) = Some s /\
    maps_only (reserved_frame struct_page pfn) (hist s) /\ live s = true /\
    mapped (hist s) = [(0x10000, 87, 4096); (0x10000, 107, 4096); (0x11000, 108, 4096)].
Proof.
  assert (Hback : forall t, allocated kernel t <> NULL ->
    backed struct_page (after_alloc kernel t) (allocated kernel t))
    by (intros t _ i Hi; exact (sample_backed _ i Hi)).
  pose proof (nonmemory_life kernel struct_page pfn eq_refl ltac:(discriminate) Hback demo_acts
    demo_permitted) as Hu.
  destruct (until_unspoiled _ _ _ _ _ _ Hu) as (s & E & _ & Hm & _); [by vm_compute|].
  assert (Ev : (fun s => (live s, mapped (hist s))) <$>
    run nonmemory_module kernel demo_acts (unloaded nonmemory_module) =
    Some (true, [(0x10000, 87, 4096); (0x10000, 107, 4096); (0x11000, 108, 4096)]))
    by (vm_compute; reflexivity).
  rewrite E in Ev. cbn in Ev. injection Ev as E1 E2.
  exists s. exact (conj E (conj Hm (conj E1 E2))).
Defined.

End NonMemoryLife.
