(* ===== verification/PacketLife.v ===== *)
(** * The packet filter over its whole life

    The module packet under loads, opens, ioctls, closes, packets and unloads in
    any order, and what its log says: a connection is logged only when its
    destination is the address that the log has announced last. *)

From S2P Require Import Prelude Kernel Monad Packet User Devices Lifetime.

Module PacketLife.
Import Packet Lifetime.

Section code.
Context `{En : Env}.

(** [ioctl_set_address], zeroed, with [module_init] and [module_exit].  The
    events are the packets that reach the hook. *)
Definition packet_module : kmodule state unit (option sk_buff) :=
  KModule (State 0) packet_init packet_exit
    (Rmisc "network_filter") NULL Devices.packet_fops
    (fun skb => (Rhook packet_ops, packet_hook skb ;; mret ())).

End code.

(** ** What the log says *)

Definition INIT := "[packed_init] intialized kernel module"%string.
Definition SET := "FIlter set to address: %pI4\n"%string.
Definition DST := "[IP HEADER]: DST IP:%pI4"%string.

(** The filter that was announced last since the module was loaded, 0 if none. *)
Fixpoint announced (t : trace) : Z :=
  match t with
  | [] => 0
  | (printk fmt [KInt a], _) :: t' => if decide (fmt = SET) then a else announced t'
  | (printk _ [KStr m], _) :: t' => if decide (m = INIT) then 0 else announced t'
  | _ :: t' => announced t'
  end.

(** Every connection logged goes to the filter announced before. *)
Fixpoint filtered (t : trace) : bool :=
  match t with
  | [] => true
  | (printk fmt [KInt a], _) :: t' =>
      filtered t' &&
      (if decide (fmt = DST) then bool_decide (a = announced t' /\ a <> 0) else true)
  | _ :: t' => filtered t'
  end.

(** What the module does not survive, or not well: [misc_register] fails, which
    [packet_init] does not notice, or the copy in an ioctl faults, after which the
    filter is partly changed and nothing is announced. *)
Definition disturbed (e : event) : bool :=
  match e with (misc_register _, r) | (copy_from_user _ _, r) => negb (r =? 0) | _ => false end.

Section proofs.
Context `{En : Env} `{EL : !EnvLaws} (K : oracle).
Context (Hhook : forall t o, - 2 ^ 31 <= K t (nf_register_net_hook o) <= 0).
Implicit Types (fs : list ofile) (t : trace) (d : state).

Definition packet_owns : list resource := [Rmisc "network_filter"; Rhook packet_ops].

Definition filter_ok fs d t : Prop := ioctl_set_address d = announced t.

Definition log_ok t : Prop := disciplined t = true /\ filtered t = true.

Lemma packet_init_life t :
  held t = [] -> log_ok t -> never disturbed (history (packet_init K (State 0) t)) ->
  exists r t', packet_init K (State 0) t = Done r (State 0) t' /\ log_ok t' /\
    if bool_decide (0 <= r) then filter_ok [] (State 0) t' /\ held t' = packet_owns
    else held t' = [].
Proof.
  intros Hh [Hd Hf]. unfold packet_init, print. cbn [decide].
  erewrite run_bind by reflexivity. erewrite run_bind by reflexivity.
  set (t1 := (printk _ _, 0) :: t). pose proof (Hhook t1 packet_ops) as Hr.
  set (r := K t1 _) in *. clearbody r. rewrite swrap_small by lia.
  destruct (decide (r < 0)) as [Hr0|Hr0].
  - intros _. eexists _, _. split; [reflexivity|]. rewrite bool_decide_false by lia.
    unfold log_ok, t1. cbn. rewrite Hd, Hf, Hh. cbn.
    rewrite (proj2 (Z.ltb_lt r 0)) by done. done.
  - assert (r = 0) as -> by lia. intros Hn. cbn in Hn.
    apply orb_false_iff in Hn as [Hmisc%negb_false_iff%Z.eqb_eq _]. eexists _, _. split; [reflexivity|].
    rewrite Hmisc, bool_decide_true by done. unfold log_ok, filter_ok, t1. cbn.
    by rewrite Hd, Hf, Hh.
Qed.

Lemma packet_exit_life d t :
  held t = packet_owns -> log_ok t ->
  exists t', packet_exit K d t = Done () d t' /\ held t' = [] /\ log_ok t'.
Proof.
  intros Hh [Hd Hf]. eexists. split; [reflexivity|]. unfold log_ok. cbn.
  rewrite Hh, Hd, Hf. unfold packet_owns. split; [|split]; by trace_simpl.
Qed.

(** Without a filter nothing is logged. *)
Lemma hook_without_filter skb t :
  exists l, packet_hook skb K (State 0) t = Done NF_ACCEPT (State 0) (l ++ t) /\
    (l = [] \/ l = [(printk "[LOG]:%s\n" [KStr "ioctl set address must be called"], 0)]).
Proof.
  unfold packet_hook. destruct skb as [skb|]; [|by exists []; auto].
  case_decide; [by exists []; auto|]. destruct (_ || _); [by exists []; auto|].
  eexists [_]. split; [reflexivity|by right].
Qed.

Lemma packet_hook_life skb fs d t :
  filter_ok fs d t -> held t = packet_owns -> log_ok t ->
  exists t', packet_hook skb K d t = Done NF_ACCEPT d t' /\
    held t' = packet_owns /\ log_ok t' /\ filter_ok fs d t'.
Proof.
  intros Ha Hh [Hd Hf]. destruct d as [a]. unfold filter_ok, log_ok in *. cbn in Ha.
  destruct (decide (a = 0)) as [->|Ha0].
  - destruct (hook_without_filter skb t) as (l & E & Hl). exists (l ++ t). split; [exact E|].
    destruct Hl as [-> | ->]; [done|]. cbn. by rewrite Hd, Hf, Hh.
  - rewrite packet_hook_eq by done. eexists. split; [reflexivity|]. cbn [ioctl_set_address].
    destruct skb as [skb|]; [|done]. destruct (new_connection_to a skb) eqn:Enew; [|done].
    unfold new_connection_to in Enew. apply andb_prop in Enew as [_ Enew%bool_decide_eq_true].
    cbn. rewrite Hd, Hf, Hh, Enew, <- Ha. cbn. by rewrite bool_decide_true.
Qed.

Lemma packet_ioctl_life cmd arg user fs d t :
  filter_ok fs d t -> held t = packet_owns -> log_ok t ->
  never disturbed (history (packet_ioctl cmd arg user K d t)) ->
  exists r d' t', packet_ioctl cmd arg user K d t = Done r d' t' /\
    held t' = packet_owns /\ log_ok t' /\ filter_ok fs d' t'.
Proof.
  intros Ha Hh [Hd Hf]. unfold packet_ioctl. case_decide; [|by exists (- EINVAL), d, t].
  erewrite run_bind by reflexivity. intros Hn.
  assert (Hcopy : K t (copy_from_user arg 4) = 0).
  { apply (never_before (modify _ ;; _)) in Hn; [|apply _..]. cbn in Hn.
    by apply orb_false_iff in Hn as [Hn%negb_false_iff%Z.eqb_eq _]. }
  rewrite Hcopy. eexists _, _, _. split; [reflexivity|].
  unfold log_ok, filter_ok. cbn. rewrite Hd, Hf, Hh. by rewrite copied_all.
Qed.

(** ** The driver keeps its promises *)

Definition packet_ok fs d t : Prop := filter_ok fs d t /\ held t = packet_owns /\ log_ok t.

Definition packet_gone t : Prop := held t = [] /\ log_ok t.

#[local] Instance packet_managed : Managed packet_module K disturbed packet_ok packet_gone.
Proof.
  split.
  - by intros t [? _].
  - intros t [Hh Ht] Hn. destruct (packet_init_life t Hh Ht Hn) as (r & t' & E & Ht' & H).
    exists r, (State 0), t'. split; [done|]. case_bool_decide; [by destruct H|done].
  - intros fs n d t (Hd & Hh & Ht). by exists 0, NULL, d, t.
  - intros fs i f q d t (Hd & Hh & Ht) Hi.
    destruct q as [u size|u ub|cmd arg|vma]; cbn [do_request]; [case_decide..| |]; intros Hn;
      try (eexists _, _, d, t; split; [reflexivity|done]).
    assert (Hn' : forall a u, Devices.vfs_ioctl (mod_fops packet_module) (of_data f) cmd arg =
      packet_ioctl cmd a u -> never disturbed (history (packet_ioctl cmd a u K d t))).
    { intros a u E. rewrite E in Hn. clear -Hn. revert Hn. unfold mbind, M_bind.
      by destruct (packet_ioctl cmd a u K d t). }
    destruct arg as [v|p v]; [destruct (packet_ioctl_life cmd v 0 fs d t Hd Hh Ht) as (r & d' & t' & E & H)
      |destruct (packet_ioctl_life cmd p v fs d t Hd Hh Ht) as (r & d' & t' & E & H)];
      [by apply Hn'| |by apply Hn'|];
      (eexists _, _, d', t'; split; [unfold Devices.vfs_ioctl; cbn; by rewrite (run_bind _ _ _ _ _ _ _ _ E)|]);
      by destruct H as (? & ? & ?).
  - intros fs i f d t (Hd & Hh & Ht) Hi. by exists 0, d, t.
  - intros fs skb d t (Hd & Hh & Ht). destruct (packet_hook_life skb fs d t Hd Hh Ht) as (t' & E & H).
    exists d, t'. split; [|by destruct H as (? & ? & ?)].
    cbn [mod_event packet_module snd]. by rewrite (run_bind _ _ _ _ _ _ _ _ E).
  - intros fs d t (Hd & Hh & Ht). destruct (packet_exit_life d t Hh Ht) as (t' & E & H). by exists d, t'.
Qed.

(** C11: over its whole life - loads (the hook refused or not), opens, ioctls,
    closes, packets and unloads in any order - and up to the first ioctl whose copy
    faults or load in which [misc_register] fails, the filter module never crashes
    the kernel; no packet reaches the hook of a module that is gone; a connection is
    logged only when its destination is the address announced last since the load,
    and none before the first announcement; the module holds its hook and its device
    when it is loaded and nothing when it is not.  ([nf_register_net_hook] returns 0
    or a negative error.) *)
Theorem packet_life (l : list (action unit (option sk_buff))) :
  until packet_module K disturbed (fun s : sys state =>
    disciplined (hist s) = true /\ filtered (hist s) = true /\
    (live s = true -> held (hist s) = packet_owns /\
      ioctl_set_address (drv s) = announced (hist s)) /\
    (live s = false -> files s = [] /\ held (hist s) = []) /\
    exists s', run packet_module K (wind_down s) s = Some s' /\
      live s' = false /\ files s' = [] /\ held (hist s') = [])
    l (unloaded packet_module).
Proof.
  eapply until_mono, (run_life (MM := packet_managed) l eq_refl (conj eq_refl (conj eq_refl eq_refl))).
  intros s Hs. destruct (wind_down_life (MM := packet_managed) s Hs) as (s' & E' & Hs' & El').
  destruct (life_dead (MM := packet_managed) s' Hs' El') as (Hf' & Hh' & _).
  assert (Hlog : log_ok (hist s)).
  { destruct (live s) eqn:El; [by destruct (life_live s Hs El) as (_ & _ & ?)|].
    by destruct (life_dead (MM := packet_managed) s Hs El) as (_ & _ & _ & ?). }
  destruct Hlog as [Hd Hf]. split_and!; [done..| | |by exists s'].
  - intros El. by destruct (life_live s Hs El) as (? & ? & _).
  - intros El. by destruct (life_dead (MM := packet_managed) s Hs El) as (? & ? & _).
Qed.

End proofs.

(** ** Witness *)

Import Packet.Sample Lifetime.

Definition demo_life : list (action unit (option sk_buff)) :=
  [Event (Some packet); Load; Event (Some packet); Open;
   Call 0 (RIoctl MY_IOCTL_FILTER_ADDRESS (Ref 64 0x0200007f)); Event (Some packet);
   Call 0 (RIoctl MY_IOCTL_FILTER_ADDRESS (Ref 64 7)); Event (Some packet); Event None].

Lemma packet_life_witness :
  exists s, run packet_module kernel demo_life (unloaded packet_module) = Some s /\
    live s = true /\ ioctl_set_address (drv s) = 7 /\ announced (hist s) = 7 /\
    length (hist s) = 12%nat /\ filtered (hist s) = true.
Proof.
  assert (Hhook : forall t o, - 2 ^ 31 <= kernel t (nf_register_net_hook o) <= 0)
    by (intros t o; split; discriminate).
  pose proof (packet_life kernel Hhook demo_life) as Hu.
  destruct (until_unspoiled _ _ _ _ _ _ Hu) as (s & E & _ & Hf & Hl & _); [by vm_compute|].
  assert (Ev : (fun s => (live s, ioctl_set_address (drv s), length (hist s))) <$>
    run packet_module kernel demo_life (unloaded packet_module) =
    Some (true, 7, 12%nat)) by (vm_compute; reflexivity).
  rewrite E in Ev. cbn in Ev. injection Ev as E1 E2 E3. destruct (Hl E1) as [_ Ha].
  exists s. exact (conj E (conj E1 (conj E2 (conj (eq_trans (eq_sym Ha) E2) (conj E3 Hf))))).
Defined.

End PacketLife.
