(* ===== verification/TimerLife.v ===== *)
(** * The timer driver over its whole life

    The module timerDriver under loads, opens, ioctls, closes, firing timers,
    work items and unloads in any order.  Calls are atomic here; [Timer] cuts the
    monitor ioctl into the steps that a timer can come between, and [TimerRace]
    has the handler that is still running when the module is unloaded. *)

From S2P Require Import Prelude Kernel Monad KList Timer User Devices Lifetime.

Module TimerLife.
Import Timer Lifetime.

Inductive timer_event := Fire | Work.

Section code.
Context {L : Type} `{LO : ListOps L} `{EP : ErrPtr} `{Io : Ioctl} `{Lay : Timer.Layout} `{Cfg : Config}.
Context (l0 : L).

(** [devices], zeroed, with [module_init] and [module_exit]; [l0] is what the
    memory of the links holds.  The timer and the work item can run from the load
    on until the exit function deletes them. *)
Definition timer_image : state L := State {[dev_addr 0 := 0]} (LState ∅ l0).

Definition timer_module : kmodule (state L) unit timer_event :=
  KModule timer_image deferred_init deferred_exit
    (Rcdev (cdev_of (dev_addr 0))) (cdev_of (dev_addr 0)) Devices.timer_fops
    (fun e => (Rcdev (cdev_of (dev_addr 0)),
      match e with Fire => timer_handler (dev_addr 0) | Work => work_handler end)).

End code.

(** [cdev_add] has failed; [deferred_init] does not look at its result. *)
Definition add_failed (e : event) : bool :=
  match e with (cdev_add _ _ _, r) => negb (r =? 0) | _ => false end.

Section proofs.
Context {L : Type} `{LO : ListOps L} {chain : Z -> list Z -> L -> Prop} `{LL : !ListLaws L chain}.
Context `{EP : ErrPtr} `{EPL : !ErrPtrLaws} `{Io : Ioctl} `{IL : !IoctlLaws} `{Lay : Timer.Layout}
  `{Cfg : Config}.
Context (K : oracle) `{HK : !HeapLaws K offsetof_list (list_of (dev_addr 0))} (l0 : L).
Context (Hreg : forall t d n nm, K t (register_chrdev_region d n nm) <= 0).
Context (Hne : no_error_pointers K).
Implicit Types (fs : list ofile) (t : trace) (s : state L).

Abbreviation dev := (dev_addr 0).
Abbreviation INV := (dev_inv (chain := chain) dev registered []).

(** The monitored processes [l] of a loaded driver. *)
Definition monitors fs s t : Prop :=
  (exists l, INV l s t) /\ Forall (fun f => of_data f = dev) fs.

Definition timer_gone t : Prop := held t = [] /\ disciplined t = true.

Lemma registered_free : free_context registered.
Proof. done. Qed.

Lemma timer_init_life t :
  timer_gone t -> never add_failed (history (deferred_init K (timer_image l0) t)) ->
  exists r s t', deferred_init K (timer_image l0) t = Done r s t' /\
    if bool_decide (0 <= r) then monitors [] s t' else timer_gone t'.
Proof.
  intros [Hh Hd] Hn. destruct (decide (K t REGION = 0)) as [Hr|Hr].
  - unfold timer_image in Hn. rewrite init_eq in Hn by done. cbn in Hn.
    apply orb_false_iff in Hn as [Hadd%negb_false_iff%Z.eqb_eq _].
    destruct (init_spec (chain := chain) K l0 0 t Hr Hadd Hd) as (s & t' & E & Hi & _).
    { by rewrite Hh. }
    exists 0, s, t'. split; [done|]. rewrite bool_decide_true by done.
    rewrite Hh, app_nil_r in Hi. split; [by exists []|by apply Forall_nil].
  - eexists _, _, _. split; [by apply init_refused|]. rewrite bool_decide_false.
    2: { pose proof (Hreg t (MKDEV MAJOR_NUMBER MINOR_NUMBER) NUM_MINORS MODULE_NAME). lia. }
    unfold timer_gone. cbn. rewrite Hh, Hd. apply Z.eqb_neq in Hr. by rewrite Hr.
Qed.

Lemma timer_ioctl_life fs cmd arg s t :
  monitors fs s t ->
  exists r s' t', timer_ioctl dev cmd arg K s t = Done r s' t' /\ monitors fs s' t'.
Proof.
  intros [[l Hi] Hf]. destruct (decide (cmd = MY_IOCTL_TIMER_MONITOR)) as [->|Hm].
  - pose proof (ioctl_monitor_run K dev registered [] l arg s t Hi registered_free Hne) as Hw.
    apply wp_done in Hw as (r & s' & t' & E & HQ). exists r, s', t'. split; [done|].
    split; [|done]. repeat destruct (decide _); [by destruct HQ as (_ & -> & ?); exists l..|].
    destruct HQ as (_ & Hi' & _). by eexists.
  - destruct (ioctl_simple K dev registered [] l cmd arg s t Hi Hm) as (s' & t' & E & Hi' & _).
    exists 0, s', t'. split; [done|]. split; [by exists l|done].
Qed.

Lemma timer_fire_life fs s t :
  monitors fs s t ->
  exists s' t', timer_handler dev K s t = Done () s' t' /\ monitors fs s' t'.
Proof.
  intros [[l Hi] Hf]. pose proof Hi as [_ [flag Hflag]].
  pose proof (handler_spec K dev registered [] l flag s t Hi registered_free Hflag) as Hw.
  apply wp_done in Hw as ([] & s' & t' & E & _ & later & _ & _ & HQ). exists s', t'.
  split; [done|]. split; [|done]. destruct (decide _).
  - destruct HQ as (sts & _ & Hi'). by eexists.
  - destruct HQ as (-> & Hi'). by exists l.
Qed.

Lemma timer_exit_life fs s t :
  monitors fs s t -> exists s' t', deferred_exit K s t = Done () s' t' /\ timer_gone t'.
Proof.
  intros [[l Hi] Hf]. unfold dev_inv in Hi. rewrite <- (app_nil_r registered) in Hi.
  pose proof (exit_spec K [] l s t Hi ltac:(done)) as Hw.
  apply wp_done in Hw as ([] & s' & t' & E & Hh & Hd). exists s', t'. split; [done|].
  split; [by apply Permutation_nil_r|done].
Qed.

(** ** The driver keeps its promises *)

#[local] Instance timer_managed : Managed (timer_module l0) K add_failed monitors timer_gone.
Proof.
  split.
  - by intros t [? _].
  - exact timer_init_life.
  - intros fs n s t [[l Hi] Hf]. eexists _, _, _, _. split; [reflexivity|].
    split; [exists l; by apply dev_inv_quiet|]. apply Forall_app. split; [done|].
    apply Forall_singleton. cbn. unfold cdev_of. lia.
  - intros fs i f q s t Hm Hi _.
    assert (Hd : of_data f = dev) by by apply (Forall_lookup_1 _ _ _ _ (proj2 Hm) Hi).
    assert (Hkeep : forall pos s' t', monitors fs s' t' ->
      monitors (<[i := OFile (of_data f) pos (of_load f)]> fs) s' t').
    { intros pos s' t' [? ?]. split; [done|]. by apply Forall_insert. }
    destruct q as [u size|u ub|cmd arg|vma]; cbn [do_request]; [case_decide..| |];
      try (eexists _, _, s, t; split; [reflexivity|by apply Hkeep]).
    destruct (timer_ioctl_life fs cmd (match arg with Word v => v | Ref p _ => p end)
      s t Hm) as (r & s' & t' & E & H).
    eexists _, _, s', t'. split; [|by apply Hkeep].
    unfold Devices.vfs_ioctl; cbn. by rewrite Hd, (run_bind _ _ _ _ _ _ _ _ E).
  - intros fs i f s t [[l Hi] Hf] Hfi. eexists _, _, _. split; [reflexivity|].
    split; [exists l; by apply dev_inv_quiet|by apply Forall_delete].
  - intros fs [] s t Hm; cbn [mod_event timer_module snd]; [by apply timer_fire_life|].
    destruct Hm as [[l Hi] Hf].
    destruct (work_spec K dev registered [] l s t Hi registered_free) as (t' & E & Hi').
    exists s, t'. split; [done|]. split; [by exists l|done].
  - intros fs s t Hm. by eapply timer_exit_life.
Qed.

(** C10: over its whole life - loads (the number refused or not), opens, ioctls,
    closes, firing timers, work items and unloads in any order, allocations failing
    anywhere - and up to the first load in which [cdev_add] fails, a result that
    [deferred_init] does not look at, the timer module never crashes the kernel:
    when it is loaded, the monitored processes form a well-formed list whose entries
    own their memory and one task reference each, and nothing else is held but the
    device and its number; when it is not, nothing is held.  From every point,
    closing the files and unloading gives everything back.
    ([register_chrdev_region] returns 0 or a negative error, and memory is not in
    the range of the error pointers.) *)
Theorem timer_life (acts : list (action unit timer_event)) :
  until (timer_module l0) K add_failed (fun s : sys (state L) =>
    disciplined (hist s) = true /\ refs s = length (files s) /\
    (live s = true -> exists l, INV l (drv s) (hist s) /\
      held (hist s) ≡ₚ (Rmem <$> l.*1) ++ Timer.owned l ++ registered) /\
    (live s = false -> files s = [] /\ held (hist s) = []) /\
    exists s' : sys (state L), run (timer_module l0) K (wind_down s) s = Some s' /\
      live s' = false /\ files s' = [] /\ held (hist s') = [] /\ disciplined (hist s') = true)
    acts (unloaded (timer_module l0)).
Proof.
  eapply until_mono, (run_life (MM := timer_managed) acts eq_refl (conj eq_refl eq_refl)). intros s Hs.
  destruct (wind_down_life (MM := timer_managed) s Hs) as (s' & E' & Hs' & El').
  destruct (life_dead (MM := timer_managed) s' Hs' El') as (Hf' & Hh' & _ & Hd').
  pose proof Hs as [[Hr _] _]. destruct (live s) eqn:El.
  - destruct (life_live s Hs El) as [[l Hi] _]. split; [apply Hi|]. split; [done|].
    split; [intros _|split; [done|by exists s']]. exists l. split; [done|].
    destruct Hi as [[_ Ha _ _] _]. unfold account in Ha. cbn [app] in Ha. exact Ha.
  - destruct (life_dead (MM := timer_managed) s Hs El) as (? & ? & _ & ?).
    split_and!; [done..|by exists s'].
Qed.

End proofs.

(** ** Witness *)

Import Timer.Sample.

(** The process 3 has task 103, which is alive; 4 has task 104, which is dead. *)
Definition demo_life : list (action unit timer_event) :=
  [Event Fire; Load; Open; Open; Call 0 (RIoctl MY_IOCTL_TIMER_MONITOR (Word 3));
   Call 1 (RIoctl MY_IOCTL_TIMER_MONITOR (Word 4)); Unload; Event Fire; Event Work].

Lemma timer_life_witness :
  exists s, run (timer_module (∅ : DList.mem)) capped demo_life
      (unloaded (timer_module (∅ : DList.mem))) = Some s /\
    live s = true /\ held (hist s) = [Rtask 103; Rmem 4096] ++ registered /\
    exists s', run (timer_module (∅ : DList.mem)) capped (wind_down s) s = Some s' /\
      held (hist s') = [].
Proof.
  assert (Hreg : forall t d n nm, capped t (register_chrdev_region d n nm) <= 0)
    by (intros t d n nm; discriminate).
  pose proof (timer_life (chain := DList.chain) capped (∅ : DList.mem) Hreg capped_pointers demo_life) as Hu.
  destruct (until_unspoiled _ _ _ _ _ _ Hu) as (s & E & _ & _ & _ & _ & s' & E' & _ & _ & Hh' & _);
    [by vm_compute|].
  assert (Ev : (fun s => (live s, held (hist s))) <$>
    run (timer_module (∅ : DList.mem)) capped demo_life
      (unloaded (timer_module (∅ : DList.mem))) =
    Some (true, [Rtask 103; Rmem 4096] ++ registered)) by (vm_compute; reflexivity).
  rewrite E in Ev. cbn in Ev. injection Ev as E1 E2.
  exists s. split; [exact E|]. split; [exact E1|]. split; [exact E2|]. exists s'. exact (conj E' Hh').
Defined.

End TimerLife.
