(* ===== verification/So2Spec.v ===== *)
(** * The so2 device as a message slot for one client at a time

    What the device promises, without buffers, flags and string scans: a slot
    that holds one message and has at most one open file.  The handlers of
    [So2Cdev], reached through their operation table, implement it for every
    sequence of calls and every kernel. *)

From S2P Require Import Prelude Kernel Monad Refine So2Cdev Devices.

Module So2Spec.
Import So2Cdev.So2.

Definition EBADF := 9.

(** The calls of a client; [ubytes] is what its buffer at [uBuff] holds. *)
Inductive call :=
  | Open
  | Read (uBuff size : Z)
  | Write (uBuff : Z) (ubytes : list Z)
  | Close.

#[export] Instance call_eq_dec : EqDecision call.
Proof. solve_decision. Defined.

Definition call_ok (c : call) : Prop :=
  match c with
  | Read _ size => 0 <= size < 2 ^ 63
  | Write _ ubytes => Z.of_nat (length ubytes) < 2 ^ 63
  | Open | Close => True
  end.

(** ** The specification *)

(** The position of the open file, if there is one, and the message. *)
Record slot := Slot { pos : option Z; message : list Z }.

(** The C string at the start of [l], or all of [l]. *)
Definition cstr (l : list Z) : list Z :=
  match strlen l with Some n => take (Z.to_nat n) l | None => l end.

(** [spec a c r out a']: the call [c] returns [r] and delivers the bytes [out].
    A read that reaches the end of the message returns the size asked for; a
    write keeps what fits; a write that faults leaves some message. *)
Inductive spec : slot -> call -> Z -> list Z -> slot -> Prop :=
  | spec_open m : spec (Slot None m) Open 0 [] (Slot (Some 0) m)
  | spec_busy off m : spec (Slot (Some off) m) Open (- EBUSY) [] (Slot (Some off) m)
  | spec_no_file c m : c <> Open -> spec (Slot None m) c (- EBADF) [] (Slot None m)
  | spec_read off m u size :
      off < Z.of_nat (length m) ->
      spec (Slot (Some off) m) (Read u size) size
        (take (Z.to_nat size) (drop (Z.to_nat off) m))
        (Slot (Some (off + Z.min size (Z.of_nat (length m) - off))) m)
  | spec_read_end off m u size :
      Z.of_nat (length m) <= off ->
      spec (Slot (Some off) m) (Read u size) 0 [] (Slot (Some off) m)
  | spec_read_fault off m u size k :
      off < Z.of_nat (length m) ->
      spec (Slot (Some off) m) (Read u size) (- EFAULT)
        (take k (take (Z.to_nat size) (drop (Z.to_nat off) m))) (Slot (Some off) m)
  | spec_write off m u ub :
      spec (Slot (Some off) m) (Write u ub) (Z.of_nat (length ub)) []
        (Slot (Some 0) (cstr (take (Z.to_nat (MSG_MAX - 1)) ub)))
  | spec_write_fault off m u ub m' :
      0 ∉ m' -> Z.of_nat (length m') < MSG_MAX ->
      spec (Slot (Some off) m) (Write u ub) (- EFAULT) [] (Slot (Some off) m')
  | spec_close off m : spec (Slot (Some off) m) Close 0 [] (Slot None m).

(** ** The implementation *)

Section code.
Context {MO : MemOps}.

(** A call on the device at [p], with the open file if there is one: an open
    that fails leaves the files alone. *)
Definition do_call (p : Z) (f : option file) (c : call) : M devices (Z * option file) :=
  match c, f with
  | Open, _ =>
      r ← Devices.vfs_open Devices.so2_fops (cdev_of p);
      mret (r.1, if decide (r.1 = 0) then Some (File r.2 0) else f)
  | _, None => mret (- EBADF, None)
  | Read u size, Some f =>
      r ← Devices.vfs_read Devices.so2_fops (private_data f) u size (f_pos f);
      mret (r.1, Some (File (private_data f) r.2))
  | Write u ub, Some f =>
      r ← Devices.vfs_write Devices.so2_fops (private_data f) u ub (Z.of_nat (length ub)) (f_pos f);
      mret (r.1, Some (File (private_data f) r.2))
  | Close, Some f =>
      r ← Devices.vfs_release Devices.so2_fops (private_data f);
      mret (r, None)
  end.

End code.

(** ** Strings *)

Lemma strlen_app w b n : strlen w = Some n -> strlen (w ++ b) = Some n.
Proof.
  revert n. induction w as [|c w IH]; intros n E; cbn in *; [done|]. case_decide; [done|].
  destruct (strlen w) as [m|]; [|done]. by rewrite (IH m).
Qed.

Lemma strlen_None w : strlen w = None -> 0 ∉ w.
Proof. intros E Hin. destruct (strlen_exists w Hin) as [n En]. congruence. Qed.

(** A string and its terminator, whatever comes after. *)
Lemma text_terminated o w rest l : text (So2Data o (w ++ 0 :: rest) l) = cstr w.
Proof.
  unfold text, cstr; cbn. destruct (strlen w) as [n|] eqn:E.
  - rewrite (strlen_app w _ n) by done. apply strlen_Some in E as (Hn & _).
    rewrite take_app_le by lia. done.
  - rewrite strlen_intro by by apply strlen_None. rewrite Nat2Z.id. apply take_app_length.
Qed.

Section handlers.
Context {MO : MemOps} {ML : MemLaws}.
Implicit Types (d : so2_device_data) (s : devices) (K : oracle) (t : trace) (f : option file).

Lemma text_no_nul d : 0 ∉ text d.
Proof.
  unfold text. destruct (strlen (msg d)) as [n|] eqn:E; [|apply not_elem_of_nil].
  by apply strlen_Some in E as (_ & _ & ?).
Qed.

(** The message after a write, NULs included. *)
Lemma text_after_write d ub o l :
  msg_ok d -> let n := Z.min (Z.of_nat (length ub)) (MSG_MAX - 1) in
  text (So2Data o (<[Z.to_nat n := 0]> (filled d ub n 0)) l) =
    cstr (take (Z.to_nat (MSG_MAX - 1)) ub).
Proof.
  intros [Hl H0] n. unfold filled. rewrite copied_in_all.
  assert (Ew : take (Z.to_nat (MSG_MAX - 1)) ub = take (Z.to_nat n) ub).
  { unfold n. destruct (decide (Z.of_nat (length ub) <= MSG_MAX - 1)).
    - rewrite !take_ge by lia. done.
    - do 2 f_equal. lia. }
  rewrite Ew. set (w := take (Z.to_nat n) ub).
  assert (Hw : length w = Z.to_nat n) by (unfold w, n; rewrite length_take; lia).
  destruct (drop (Z.to_nat n) (msg d)) as [|x rest] eqn:Ed.
  { assert (Hx := f_equal length Ed). rewrite length_drop, Hl in Hx. cbn in Hx.
    unfold n, MSG_MAX in *. lia. }
  replace (Z.to_nat n) with (length w + 0)%nat by lia.
  rewrite insert_app_r. apply text_terminated.
Qed.

(** The device and the open file implement the slot. *)
Definition implements p f s (a : slot) : Prop :=
  exists d, s !! p = Some d /\ msg_ok d /\ text d = message a /\
    f = File p <$> pos a /\
    match pos a with None => isOpen d = 0 | Some off => isOpen d = 1 /\ 0 <= off < MSG_MAX end.

(** What a call has delivered. *)
Definition delivers t t' (out : list Z) : Prop := copied_out t' = copied_out t ++ out.

Definition call_refines p f s t K (a : slot) (c : call) : Prop :=
  exists r f' s' t' out a', do_call p f c K s t = Done (r, f') s' t' /\
    delivers t t' out /\ implements p f' s' a' /\ spec a c r out a'.

Lemma do_open_eq p f d K s t :
  s !! p = Some d ->
  do_call p f Open K s t =
    if decide (isOpen d = 0) then Done (0, Some (File p 0)) (<[p := set_isOpen 1 d]> s) (log_open t)
    else Done (- EBUSY, f) s (log_open t).
Proof.
  intros Hp. unfold do_call, Devices.vfs_open. cbn [Devices.fo_open Devices.so2_fops].
  unfold mbind, M_bind. rewrite (so2_open_eq p d) by done. by case_decide.
Qed.

Lemma open_refines p f s t K a : implements p f s a -> call_refines p f s t K a Open.
Proof.
  intros (d & Hp & Hd & Hm & -> & Ho). unfold call_refines, delivers.
  rewrite (do_open_eq p _ d) by done. destruct a as [[off|] m]; cbn in *.
  - destruct Ho as [Ho Hoff]. rewrite decide_False by lia. eexists _, _, _, _, [], _.
    split; [done|]. split; [by rewrite app_nil_r|]. split; [|apply spec_busy]. by exists d.
  - rewrite decide_True by done. eexists _, _, _, _, [], _.
    split; [done|]. split; [by rewrite app_nil_r|]. split; [|apply spec_open].
    eexists. split; [apply lookup_insert_eq|]. by split_and!.
Qed.

Lemma no_file_refines p s t K m c :
  c <> Open -> implements p None s (Slot None m) -> call_refines p None s t K (Slot None m) c.
Proof.
  intros Hc Hi. exists (- EBADF), None, s, t, [], (Slot None m).
  split; [by destruct c|]. split; [unfold delivers; by rewrite app_nil_r|]. split; [done|].
  by apply spec_no_file.
Qed.

Lemma close_refines p f s t K off m :
  implements p f s (Slot (Some off) m) -> call_refines p f s t K (Slot (Some off) m) Close.
Proof.
  intros (d & Hp & Hd & Hm & -> & Ho). eexists 0, None, _, _, [], (Slot None m).
  split.
  { unfold do_call, Devices.vfs_release. cbn. by rewrite (run_bind _ _ _ _ _ _ _ _ (so2_release_eq p d K s t Hp)). }
  split; [unfold delivers; by rewrite app_nil_r|]. split; [|apply spec_close].
  eexists. split; [apply lookup_insert_eq|]. by split_and!.
Qed.

Lemma read_refines p f s t K off m u size :
  p <> NULL -> 0 <= size < 2 ^ 63 -> implements p f s (Slot (Some off) m) ->
  call_refines p f s t K (Slot (Some off) m) (Read u size).
Proof.
  intros Hnull Hsize (d & Hp & Hd & Hm & -> & Ho & Hoff). cbn in Hm.
  assert (Himp : forall off', 0 <= off' < MSG_MAX ->
    implements p (Some (File p off')) s (Slot (Some off') m)) by (intros off' H; by exists d).
  pose proof (text_le d Hd) as Hlen. rewrite Hm in Hlen.
  unfold call_refines, delivers, do_call, Devices.vfs_read. cbn. unfold mbind, M_bind.
  rewrite (so2_read_eq p u size off d) by (done || (unfold MSG_MAX in *; lia)). cbv zeta. rewrite Hm.
  set (src := take (Z.to_nat size) _).
  destruct (decide (0 <= off < Z.of_nat (length m))) as [Hin|Hout].
  2: { eexists _, _, _, _, [], _. split; [done|]. split; [by rewrite app_nil_r|].
    split; [by apply Himp|]. apply spec_read_end. cbn. lia. }
  case_decide as Hr.
  - eexists _, _, _, _, _, _. split; [done|]. split; [reflexivity|]. split; [by apply Himp|].
    apply spec_read_fault. cbn. lia.
  - eexists _, _, _, _, src, _. split; [done|].
    split; [cbn [copied_out]; by rewrite Hr, Nat.sub_0_r, firstn_all|].
    split; [apply (Himp (off + size `min` (Z.of_nat (length m) - off))); lia|]. apply spec_read. lia.
Qed.

Lemma write_refines p f s t K off m u ub :
  Z.of_nat (length ub) < 2 ^ 63 -> implements p f s (Slot (Some off) m) ->
  call_refines p f s t K (Slot (Some off) m) (Write u ub).
Proof.
  intros Hsize (d & Hp & Hd & Hm & -> & Ho & Hoff).
  unfold call_refines, delivers, do_call, Devices.vfs_write. cbn. unfold mbind, M_bind.
  rewrite (so2_write_eq p u ub _ off d) by (done || lia). cbv zeta.
  set (n := Z.of_nat (length ub) `min` (MSG_MAX - 1)). set (r := K _ _).
  assert (Hn : 0 <= n < MSG_MAX /\ n <= Z.of_nat (length ub)) by (unfold n, MSG_MAX; lia).
  case_decide as Hr.
  - set (d' := set_msg (filled d ub n r) d).
    assert (Hd' : msg_ok d') by (apply filled_ok; (done || lia)).
    eexists _, _, _, _, [], (Slot (Some off) (text d')). split; [done|].
    split; [by rewrite app_nil_r|]. split; [|apply spec_write_fault; [apply text_no_nul|by apply text_le]].
    exists d'. split; [apply lookup_insert_eq|]. by split_and!.
  - eexists _, _, _, _, [], _. split; [done|]. split; [by rewrite app_nil_r|].
    split; [|apply spec_write]. eexists. split; [apply lookup_insert_eq|].
    split; [apply written_ok; (done || lia)|]. split; [by apply text_after_write|].
    split; [done|]. split; [done|]. unfold MSG_MAX. lia.
Qed.

(** Each call refines the specification. *)
Lemma call_refines_spec p f s t K a c :
  p <> NULL -> call_ok c -> implements p f s a -> call_refines p f s t K a c.
Proof.
  intros Hnull Hc Hi. destruct (decide (c = Open)) as [->|Ho]; [by apply open_refines|].
  destruct a as [[off|] m].
  - destruct c; [done|by apply read_refines|by apply write_refines|by apply close_refines].
  - assert (f = None) as -> by by destruct Hi as (? & ? & ? & ? & ? & ?). by apply no_file_refines.
Qed.

#[export] Instance so2_refines p K (Hnull : p <> NULL) :
  Refines (do_call p) spec copied_out call_ok (fun f s _ a => implements p f s a) K.
Proof. intros f s t a c Hc Hi. by apply call_refines_spec. Qed.

(** C6: the so2 device implements a message slot with one open file.  For every
    sequence of opens, reads, writes and closes through its operation table, and
    whatever the copies to and from user space do, there is a run of the
    specification with the same results, the same bytes delivered to the user,
    and a final state that the device and the file that is open at the end
    implement. *)
Theorem so2_refines_slot p f cs a K s t :
  p <> NULL -> Forall call_ok cs -> implements p f s a ->
  exists rs f' s' t' outs a', execs (do_call p) f cs K s t = Done (rs, f') s' t' /\
    copied_out t' = copied_out t ++ outs /\ implements p f' s' a' /\ spec_run spec a cs rs outs a'.
Proof.
  intros Hnull Hcs Hi.
  exact (refines_run (RF := so2_refines p K Hnull) _ _ _ _ _ K f s t a cs Hcs Hi).
Qed.

End handlers.

(** ** Witness *)

Lemma demo_implements : implements 4096 None demo_heap (Slot None (bytes_of_string MESSAGE)).
Proof. exists demo_dev. split; [reflexivity|]. by split_and!. Qed.

Definition demo_calls : list call := [Open; Open; Write 7000 [104; 105]; Read 8000 10; Close; Close].

Lemma so2_refines_slot_witness :
  exists rs f' s' t' outs a', execs (@do_call demo_mem 4096) None demo_calls
      demo_kernel demo_heap [] = Done (rs, f') s' t' /\ rs = [0; - EBUSY; 2; 10; 0; - EBADF] /\
    outs = [104; 105] /\ spec_run spec (Slot None (bytes_of_string MESSAGE)) demo_calls rs outs a' /\
    implements 4096 f' s' a'.
Proof.
  destruct (@so2_refines_slot demo_mem demo_laws 4096 None demo_calls
    (Slot None (bytes_of_string MESSAGE)) demo_kernel demo_heap [])
    as (rs & f' & s' & t' & outs & a' & E & Ho & Hi & Hr);
    [discriminate|repeat (apply Forall_cons; split; [cbn; (exact I || lia)|]); apply Forall_nil; exact I
    |exact demo_implements|].
  assert (Ev : fst <$> result (execs (@do_call demo_mem 4096) None demo_calls demo_kernel demo_heap []) =
    Some [0; - EBUSY; 2; 10; 0; - EBADF]) by (vm_compute; reflexivity).
  exists rs, f', s', t', outs, a'.
  split; [exact E|]. split; [rewrite E in Ev; by injection Ev|].
  split; [|split; [exact Hr|exact Hi]].
  assert (Eh : copied_out (history (execs (@do_call demo_mem 4096) None demo_calls
    demo_kernel demo_heap [])) = [104; 105]) by (vm_compute; reflexivity).
  rewrite E in Eh. exact (eq_trans (eq_sym Ho) Eh).
Defined.

End So2Spec.
