(* ===== verification/TimerSpec.v ===== *)
(** * The timer driver as a watch over processes

    What the driver promises, without lists, flags and locks: a mode, a list of
    watched tasks, and an alarm and a work item that the kernel keeps for it.
    The handlers of [Timer] implement it for every sequence of ioctls, firing
    timers and work items, and every kernel.  Events are atomic here; [Timer] cuts
    the monitor command into the steps that a timer can come between. *)

From S2P Require Import Prelude Kernel Monad Refine KList Timer User Devices.

Module TimerSpec.
Import Timer.

Inductive mode := Unset | Set_ | Alloc | Monitoring.

#[export] Instance mode_eq_dec : EqDecision mode.
Proof. solve_decision. Defined.

Definition flag_of (m : mode) : Z :=
  match m with
  | Unset => TIMER_TYPE_NONE
  | Set_ => TIMER_TYPE_SET
  | Alloc => TIMER_TYPE_ALLOC
  | Monitoring => TIMER_TYPE_MONITOR
  end.

(** What the kernel keeps for the driver: when the timer will fire, if it will,
    and whether the work item is queued. *)
Record agenda := Agenda { alarm : option Z; queued : bool }.

Record watch := Watch { md : mode; agenda_of : agenda; watched : list Z }.

(** What the driver asks the kernel for: the clock, the task of a pid, and the state
    of a task. *)
Inductive observation :=
  | Clock (j : Z)
  | Lookup (pid task : Z)
  | Status (task st : Z).

(** Those of a history, the oldest first. *)
Fixpoint observed (t : trace) : list observation :=
  match t with
  | [] => []
  | (read_jiffies, j) :: t' => observed t' ++ [Clock j]
  | (pid_task pid, tk) :: t' => observed t' ++ [Lookup pid tk]
  | (task_state tk, st) :: t' => observed t' ++ [Status tk st]
  | _ :: t' => observed t'
  end.

Lemma observed_app l t : observed (l ++ t) = observed t ++ observed l.
Proof.
  induction l as [|[c r] l IH]; cbn; [by rewrite app_nil_r|].
  destruct c; cbn; by rewrite IH, ?app_assoc.
Qed.

Definition status (x : observation) : option (Z * Z) :=
  match x with Status tk st => Some (tk, st) | _ => None end.

Lemma observed_status t : omap status (observed t) = task_reads t.
Proof.
  induction t as [|[c r] t IH]; [done|]. destruct c; cbn; rewrite ?omap_app, IH; cbn; by rewrite ?app_nil_r.
Qed.

(** A handler that reaps looks at nothing but states. *)
Lemma observed_reaping l : Forall reaping l -> observed l = uncurry Status <$> task_reads l.
Proof.
  induction 1 as [|[c r] l [_ Hc] _ IH]; [done|]. destruct c; try discriminate Hc; cbn;
    rewrite ?fmap_app, IH; done.
Qed.

(** The timer fires, or the work item runs, only if it is due. *)
Inductive event :=
  | Command (cmd arg : Z)
  | Fire
  | Work.

(** ** The specification *)

Section spec.
Context `{Io : Ioctl} `{Cfg : Config}.

(** The tasks that were not read as dead. *)
Definition survivors (reads : list (Z * Z)) : list Z :=
  (filter (fun x => x.2 <> TASK_DEAD) reads).*1.

Definition commands : list Z :=
  [MY_IOCTL_TIMER_SET; MY_IOCTL_TIMER_CANCEL; MY_IOCTL_TIMER_ALLOC; MY_IOCTL_TIMER_MONITOR].

(** [ticks] after the clock showed [j]. *)
Definition after (j ticks : Z) : option Z := Some (u64 (u64 j + ticks)).

(** [spec w e r out w']: the event [e] returns [r] and makes the observations [out].
    A command selects the mode of the one alarm there is and sets it from the clock it
    reads; the monitor command watches the task of the pid it is given; the alarm is
    used up when it fires; only in monitoring mode does it look at the tasks, once
    at each, and lets go of the dead ones. *)
Inductive spec : watch -> event -> Z -> list observation -> watch -> Prop :=
  | spec_set m g l arg j :
      spec (Watch m g l) (Command MY_IOCTL_TIMER_SET arg) 0 [Clock j]
        (Watch Set_ (Agenda (after j (u64 (arg * HZ))) (queued g)) l)
  | spec_alloc m g l arg j :
      spec (Watch m g l) (Command MY_IOCTL_TIMER_ALLOC arg) 0 [Clock j]
        (Watch Alloc (Agenda (after j (u64 (arg * HZ))) (queued g)) l)
  | spec_cancel m g l arg :
      spec (Watch m g l) (Command MY_IOCTL_TIMER_CANCEL arg) 0 [] (Watch m (Agenda None (queued g)) l)
  | spec_monitor m g l arg task j :
      task <> NULL ->
      spec (Watch m g l) (Command MY_IOCTL_TIMER_MONITOR arg) 0 [Lookup (s32 arg) task; Clock j]
        (Watch Monitoring (Agenda (after j HZ) (queued g)) (task :: l))
  | spec_monitor_fails w arg task :
      spec w (Command MY_IOCTL_TIMER_MONITOR arg) (if decide (task = NULL) then - ESRCH else - ENOMEM)
        [Lookup (s32 arg) task] w
  | spec_unknown w cmd arg : cmd ∉ commands -> spec w (Command cmd arg) 0 [] w
  | spec_not_due w : alarm (agenda_of w) = None -> spec w Fire 0 [] w
  | spec_fire m ex q l :
      m <> Monitoring ->
      spec (Watch m (Agenda (Some ex) q) l) Fire 0 []
        (Watch m (Agenda None (q || bool_decide (m = Alloc))) l)
  | spec_reap ex q l sts :
      length sts = length l ->
      spec (Watch Monitoring (Agenda (Some ex) q) l) Fire 0 (zip_with Status l sts)
        (Watch Monitoring (Agenda None q) (survivors (zip l sts)))
  | spec_idle w : queued (agenda_of w) = false -> spec w Work 0 [] w
  | spec_work m al l :
      spec (Watch m (Agenda al true) l) Work 0 [] (Watch m (Agenda al false) l).

(** Nobody will look at the tasks before the next monitor command. *)
Definition blind (w : watch) : Prop := md w = Monitoring -> alarm (agenda_of w) = None.

Definition no_monitor (e : event) : Prop := forall arg, e <> Command MY_IOCTL_TIMER_MONITOR arg.

Lemma blind_silent l w e r out w' :
  blind w /\ watched w = l -> no_monitor e -> spec w e r out w' ->
  (blind w' /\ watched w' = l) /\ Forall (fun x => status x = None) out.
Proof.
  intros [Hb Hl] He Hs. destruct Hs; cbn in *; try (by exfalso; eapply He);
    try (by split; [|repeat apply Forall_cons_2]).
  by discriminate (Hb eq_refl).
Qed.

(** The timer fires, or a command other than the monitor command takes it. *)
Definition takes_alarm (e : event) : Prop :=
  match e with
  | Fire => True
  | Command cmd _ => cmd ∈ [MY_IOCTL_TIMER_SET; MY_IOCTL_TIMER_ALLOC; MY_IOCTL_TIMER_CANCEL]
  | Work => False
  end.

Lemma takes_alarm_blind `{IL : !IoctlLaws} w e r out w' :
  takes_alarm e -> spec w e r out w' ->
  blind w' /\ (e <> Fire -> omap status out = [] /\ watched w' = watched w).
Proof.
  pose proof codes_distinct as Hd. rewrite !NoDup_cons, !not_elem_of_cons in Hd.
  intros He Hs. destruct Hs; unfold blind; cbn [md agenda_of alarm watched takes_alarm] in *;
    try (by split; [|by intros ?]); try done; exfalso.
  - rewrite !elem_of_cons, elem_of_nil in He. intuition congruence.
  - rewrite !elem_of_cons, elem_of_nil in He. intuition congruence.
  - unfold commands in *. rewrite !not_elem_of_cons in *. rewrite !elem_of_cons, elem_of_nil in He.
    intuition congruence.
Qed.

Lemma unseen l : Forall (fun x => status x = None) l -> omap status l = [].
Proof. induction 1 as [|x l Hx _ IH]; [done|]. cbn. by rewrite Hx. Qed.

Lemma status_zip l sts : uncurry Status <$> zip l sts = zip_with Status l sts.
Proof. revert sts. induction l as [|x l IH]; intros [|y sts]; cbn; [done..|]. by rewrite <- IH. Qed.

End spec.

(** ** The implementation *)

Section code.
Context {L : Type} `{LO : ListOps L} `{EP : ErrPtr} `{Io : Ioctl} `{Lay : Layout} `{Cfg : Config}.
Context (dev : Z).

(** What a call of the driver does to the agenda. *)
Definition noted (c : kcall) (g : agenda) : agenda :=
  match c with
  | mod_timer tm ex => if decide (tm = timer_of dev) then Agenda (Some ex) (queued g) else g
  | del_timer tm => if decide (tm = timer_of dev) then Agenda None (queued g) else g
  | schedule_work w => if decide (w = work_of dev) then Agenda (alarm g) true else g
  | _ => g
  end.

Fixpoint follow (l : trace) (g : agenda) : agenda :=
  match l with
  | [] => g
  | (c, _) :: l' => noted c (follow l' g)
  end.

(** The events between two histories. *)
Definition recent (t t' : trace) : trace := take (length t' - length t) t'.

(** What runs at an event, and the agenda when it starts. *)
Definition handler_of (g : agenda) (e : event) : agenda * M (state L) Z :=
  match e with
  | Command cmd arg => (g, Devices.vfs_ioctl Devices.timer_fops dev cmd (Word arg))
  | Fire =>
      match alarm g with
      | Some _ => (Agenda None (queued g), timer_handler dev ;; mret 0)
      | None => (g, mret 0)
      end
  | Work =>
      if queued g then (Agenda (alarm g) false, work_handler ;; mret 0) else (g, mret 0)
  end.

Definition do_event (g : agenda) (e : event) : M (state L) (Z * agenda) := fun K s t =>
  match (handler_of g e).2 K s t with
  | Done r s' t' => Done (r, follow (recent t t') (handler_of g e).1) s' t'
  | Oops x s' t' => Oops x s' t'
  end.

End code.

Section proofs.
Context {L : Type} `{LO : ListOps L} {chain : Z -> list Z -> L -> Prop} `{LL : !ListLaws L chain}.
Context `{EP : ErrPtr} `{EPL : !ErrPtrLaws} `{Io : Ioctl} `{IL : !IoctlLaws} `{Lay : Layout}
  `{Cfg : Config}.
Context (K : oracle) (dev : Z) `{HK : !HeapLaws K offsetof_list (list_of dev)}.
Context (h0 : list resource) (H0 : free_context h0) (Hne : no_error_pointers K).
Implicit Types (s : state L) (t : trace) (g : agenda) (w : watch) (l : list obj).

Abbreviation INV := (dev_inv (chain := chain) dev h0 []).

Definition implements g s t w : Prop :=
  exists l, INV l s t /\ task_of <$> l = watched w /\ flags s !! dev = Some (flag_of (md w)) /\
    g = agenda_of w.

Lemma recent_app later t : recent t (later ++ t) = later.
Proof.
  unfold recent. rewrite length_app.
  replace (length later + length t - length t)%nat with (length later) by lia.
  apply take_app_length.
Qed.

Lemma follow_app (l1 l2 : trace) g : follow dev (l1 ++ l2) g = follow dev l1 (follow dev l2 g).
Proof. induction l1 as [|[c r] l1 IH]; [done|]. cbn [follow app]. by rewrite IH. Qed.

Lemma follow_calm later g : Forall reaping later -> follow dev later g = g.
Proof.
  induction 1 as [|[c r] later [_ Hc] _ IH]; [done|]. cbn [follow]. rewrite IH.
  by destruct c.
Qed.

(** An event whose handler returns with the events [later] added. *)
Lemma do_event_eq g e r s t s' later :
  (handler_of dev g e).2 K s t = Done r s' (later ++ t) ->
  do_event dev g e K s t = Done (r, follow dev later (handler_of dev g e).1) s' (later ++ t).
Proof. intros E. unfold do_event. by rewrite E, recent_app. Qed.

(** A monitor command that fails leaves the driver's state and the agenda. *)
Lemma get_proc_fails_eq pid (ps : lstate L monitor_process) t :
  found K pid t = NULL \/ memory K pid t = NULL ->
  exists q later, get_proc pid K ps t = Done (ERR_PTR q) ps (later ++ t) /\ -4095 <= q < 0 /\
    (forall g, follow dev later g = g) /\ observed later = [Lookup pid (found K pid t)].
Proof.
  intros Hn. unfold get_proc. run_all. fold (found K pid t).
  destruct (decide (found K pid t = NULL)) as [E|E].
  - exists (- ESRCH). eexists [_; _; _]. split; [reflexivity|]. by split_and!.
  - destruct Hn as [?|Hn]; [done|]. exists (- ENOMEM). eexists [_; _; _; _].
    split; [|split].
    + erewrite run_bind.
      2: { unfold kmalloc_obj. erewrite run_bind by reflexivity. fold (memory K pid t).
        rewrite Hn, decide_True by done. reflexivity. }
      by rewrite decide_True.
    + done.
    + done.
Qed.

Lemma monitor_fails_eq arg s t :
  let t1 := (printk "[TIMER MONITOR]\n" [], 0) :: t in
  found K (s32 arg) t1 = NULL \/ memory K (s32 arg) t1 = NULL ->
  exists r later, timer_ioctl dev MY_IOCTL_TIMER_MONITOR arg K s t = Done r s (later ++ t) /\
    (forall g, follow dev later g = g) /\ observed later = [Lookup (s32 arg) (found K (s32 arg) t1)].
Proof.
  intros t1 Hn. rewrite (ioctl_monitor_split K dev arg codes_distinct s t).
  destruct (get_proc_fails_eq (s32 arg) (procs s) t1 Hn) as (q & later & E & Hq & Hc & Hr).
  exists (PTR_ERR (ERR_PTR q)), (later ++ [(printk "[TIMER MONITOR]\n" [], 0)]). split; [|split].
  - unfold monitor_get. rewrite <- app_assoc. cbn [app]. fold t1.
    erewrite run_bind.
    2: { erewrite run_bind by reflexivity. fold t1. apply (zoom_eq procsL _ _ s t1 _ _ _ E). }
    rewrite is_err by done. by destruct s.
  - intros g. by rewrite follow_app, Hc.
  - by rewrite observed_app, Hr.
Qed.

(** ** The events *)

Definition refined g s t w (e : event) : Prop :=
  exists r g' s' t' out w', do_event dev g e K s t = Done (r, g') s' t' /\
    observed t' = observed t ++ out /\ implements g' s' t' w' /\ spec w e r out w'.

(** An event whose handler adds the events [later] reads what they read. *)
Lemma refined_by g e r s t s' later w w' out :
  (handler_of dev g e).2 K s t = Done r s' (later ++ t) -> observed later = out ->
  implements (follow dev later (handler_of dev g e).1) s' (later ++ t) w' ->
  spec w e r out w' -> refined g s t w e.
Proof.
  intros E Ho Hi Hs. exists r, (follow dev later (handler_of dev g e).1), s', (later ++ t), out, w'.
  split; [by apply do_event_eq|]. split; [by rewrite observed_app, Ho|done].
Qed.

(** Nothing runs. *)
Lemma refined_none g e s t w :
  handler_of dev g e = (g, mret 0 : M (state L) Z) -> implements g s t w -> spec w e 0 [] w -> refined g s t w e.
Proof. intros E Hi Hs. by eapply (refined_by g e 0 s t s []); rewrite ?E. Qed.

Lemma alive_survivors sts l :
  length sts = length l -> task_of <$> alive sts l = survivors (zip (task_of <$> l) sts).
Proof.
  revert sts. induction l as [|o l IH]; intros [|st sts] E; try discriminate E; [done|].
  injection E as E. rewrite fmap_cons. cbn [alive zip zip_with].
  unfold survivors in *. destruct (decide (st = TASK_DEAD)) as [->|Hst].
  - rewrite filter_cons_False by (cbn; auto). by apply IH.
  - rewrite filter_cons_True by done. rewrite !fmap_cons. cbn [fst]. f_equal. by apply IH.
Qed.

Lemma fire_refines g s t w : implements g s t w -> refined g s t w Fire.
Proof.
  intros (l & Hi & Hl & Hf & ->). destruct w as [m [[ex|] q] ws]; cbn in *.
  2: { apply refined_none; [done| |by apply spec_not_due]. by exists l. }
  pose proof (handler_run K dev h0 [] l (flag_of m) s t Hi H0 Hf) as Hw.
  apply wp_done in Hw as ([] & s' & t' & E & Ef & later & -> & HQ).
  assert (E' : (handler_of dev (Agenda (Some ex) q) Fire).2 K s t = Done 0 s' (later ++ t))
    by (cbn; by rewrite (run_bind _ _ _ _ _ _ _ _ E)).
  destruct (decide (m = Monitoring)) as [->|Hm].
  - rewrite decide_True in HQ by done. destruct HQ as (Hc & sts & Hst & Hr & Hi').
    apply Forall2_length in Hst.
    eapply (refined_by _ _ _ _ _ _ later); [exact E'| | |].
    1: { rewrite observed_reaping by done. rewrite Hr, Hl. apply status_zip. }
    2: {  apply spec_reap. by rewrite <- Hl, length_fmap. }
    exists (alive sts l). split; [done|]. cbn [watched md agenda_of]. rewrite Ef.
    split; [by rewrite <- Hl, alive_survivors|]. split; [done|]. by apply follow_calm.
  - rewrite decide_False in HQ by by destruct m. destruct HQ as (-> & Hi' & r & ->).
    eapply (refined_by _ _ _ _ _ _ _); [exact E'| | |by apply spec_fire].
    + by destruct (decide _).
    + exists l. split; [done|]. split; [done|]. split; [done|]. cbn [agenda_of handler_of alarm fst].
      destruct m; cbn; try done.
      * by rewrite orb_false_r.
      * by rewrite orb_false_r.
      * rewrite decide_True by done. cbn. by rewrite decide_True, orb_true_r.
Qed.

Lemma work_refines g s t w : implements g s t w -> refined g s t w Work.
Proof.
  intros (l & Hi & Hl & Hf & ->). destruct w as [m [al []] ws]; cbn in *.
  2: { apply refined_none; [done| |by apply spec_idle]. by exists l. }
  destruct (work_spec K dev h0 [] l s t Hi H0) as (t' & E & Hi').
  eapply (refined_by _ _ 0 _ _ s [_; _; _]); [reflexivity|reflexivity| |apply spec_work].
  cbn in E. injection E as <-. by exists l.
Qed.

Lemma command_refines g s t w cmd arg :
  implements g s t w -> cmd <> MY_IOCTL_TIMER_MONITOR -> refined g s t w (Command cmd arg).
Proof.
  intros (l & Hi & Hl & Hf & ->) Hm. destruct w as [m g ws]; cbn in *.
  destruct (ioctl_commands K dev h0 l cmd arg s t Hi Hm) as (s' & t' & E & Hi' & Hp & HQ).
  assert (Hcase : forall m' later out, t' = later ++ t -> observed later = out ->
    flags s' !! dev = Some (flag_of m') ->
    spec (Watch m g ws) (Command cmd arg) 0 out (Watch m' (follow dev later g) ws) ->
    refined g s t (Watch m g ws) (Command cmd arg)).
  { intros m' later out -> Hr Hf' Hs. eapply (refined_by _ _ 0 _ _ s' later); [exact E|exact Hr| |exact Hs].
    by exists l. }
  destruct (decide (cmd = MY_IOCTL_TIMER_SET)) as [->|];
    [|destruct (decide (cmd = MY_IOCTL_TIMER_CANCEL)) as [->|];
    [|destruct (decide (cmd = MY_IOCTL_TIMER_ALLOC)) as [->|]]].
  - destruct HQ as (Ef & r & j & ->). eapply (Hcase Set_ [_; _; _] [_]); [done|done| |].
    + rewrite Ef. apply lookup_insert_eq.
    + cbn. rewrite decide_True by done. apply spec_set.
  - destruct HQ as (Ef & r & ->). eapply (Hcase m [_; _] []); [done|done|by rewrite Ef|].
    cbn. rewrite decide_True by done. apply spec_cancel.
  - destruct HQ as (Ef & r & j & ->). eapply (Hcase Alloc [_; _; _] [_]); [done|done| |].
    + rewrite Ef. apply lookup_insert_eq.
    + cbn. rewrite decide_True by done. apply spec_alloc.
  - destruct HQ as (Ef & ->). eapply (Hcase m [] []); [done|done|by rewrite Ef|]. apply spec_unknown.
    unfold commands. rewrite !not_elem_of_cons. split_and!; [done..|apply not_elem_of_nil].
Qed.

Lemma monitor_refines g s t w arg :
  implements g s t w -> refined g s t w (Command MY_IOCTL_TIMER_MONITOR arg).
Proof.
  intros (l & Hi & Hl & Hf & ->). destruct w as [m g ws]; cbn in *.
  pose proof (ioctl_monitor_run K dev h0 [] l arg s t Hi H0 Hne) as Hw. cbn zeta in Hw.
  set (t1 := (printk "[TIMER MONITOR]\n" [], 0) :: t) in *.
  destruct (decide (found K (s32 arg) t1 = NULL \/ memory K (s32 arg) t1 = NULL)) as [Hn|Hn].
  - destruct (monitor_fails_eq arg s t Hn) as (r & later & E & Hc & Hr).
    pose proof (wp_run_eq _ _ _ _ _ _ _ _ Hw E) as HQ.
    assert (HQ' : r = (if decide (found K (s32 arg) t1 = NULL) then - ESRCH else - ENOMEM) /\
      INV l s (later ++ t)).
    { destruct (decide _) as [|Hf0]; [by destruct HQ as (-> & _ & ?)|].
      rewrite decide_True in HQ by by destruct Hn. by destruct HQ as (-> & _ & ?). }
    destruct HQ' as [-> Hi'].
    eapply (refined_by _ _ _ _ _ s later); [exact E|exact Hr| |apply spec_monitor_fails].
    exists l. cbn [handler_of fst]. by rewrite Hc.
  - apply Decidable.not_or in Hn as [Hn1 Hn2].
    apply wp_done in Hw as (r & s' & t' & E & HQ). rewrite !decide_False in HQ by done.
    destruct HQ as (-> & Hi' & Hf' & q & j & v & ->).
    eapply (refined_by _ _ 0 _ _ s' [_; _; _; _; _; _; _; _; _; _; _]); [exact E|reflexivity| |].
    2: { apply (spec_monitor _ _ _ _ (found K (s32 arg) t1) j). done. }
    eexists. split; [exact Hi'|]. cbn [watched md agenda_of]. rewrite fmap_cons, Hl.
    split; [done|]. split; [done|]. cbn. by rewrite decide_True.
Qed.

#[export] Instance timer_refines : Refines (do_event dev) spec observed (fun _ => True) implements K.
Proof.
  intros g s t w e _ Hi. destruct e as [cmd arg| |]; [|by apply fire_refines|by apply work_refines].
  destruct (decide (cmd = MY_IOCTL_TIMER_MONITOR)) as [->|Hc];
    [by apply monitor_refines|by apply command_refines].
Qed.

(** C7: the timer driver implements the watch.  For every sequence of ioctls,
    firing timers and work items, with any answer of the kernel - no such process,
    no memory, any state of any task - there is a run of the specification with
    the same results and the same observations - readings of the clock, from which
    the alarm is set, look-ups of the pids, whose tasks are watched, and readings of
    task states - whose last state the driver and the kernel's agenda implement:
    nothing but the specification's events arms the timer, queues the work item,
    watches a task or lets go of it. *)
Theorem timer_refines_watch evs g s t w :
  implements g s t w -> exists rs g' s' t' seen w',
    execs (do_event dev) g evs K s t = Done (rs, g') s' t' /\
    observed t' = observed t ++ seen /\ implements g' s' t' w' /\
    spec_run spec w evs rs seen w'.
Proof.
  intros Hi. apply (refines_run (RF := timer_refines) _ _ _ _ _ K); [by apply Forall_forall|done].
Qed.

(** C16: a process that dies is noticed by the timer that its monitor command has
    armed or not at all.  Once that timer has fired, or a SET, ALLOC or CANCEL command
    has come - in whatever mode and with whatever alarm the driver was - and until
    the next monitor command, no task is looked at, whatever else happens, and the
    driver keeps every task that it watched after that event; SET, ALLOC and CANCEL
    look at no task either, and keep all. *)
Theorem unnoticed_deaths e evs g s t w :
  implements g s t w -> takes_alarm e -> Forall no_monitor evs ->
  exists r g1 s1 t1 w1 rs g2 s2 t2 w2,
    do_event dev g e K s t = Done (r, g1) s1 t1 /\ implements g1 s1 t1 w1 /\
    (e <> Fire -> task_reads t1 = task_reads t /\ watched w1 = watched w) /\
    execs (do_event dev) g1 evs K s1 t1 = Done (rs, g2) s2 t2 /\ implements g2 s2 t2 w2 /\
    task_reads t2 = task_reads t1 /\ watched w2 = watched w1.
Proof.
  intros Hi He Hevs.
  destruct (refines_call (Refines := timer_refines) _ _ _ _ e I Hi)
    as (r & g1 & s1 & t1 & out & w1 & E1 & Hr1 & Hi1 & Hs1).
  destruct (takes_alarm_blind _ _ _ _ _ He Hs1) as [Hb Hk].
  destruct (refines_run (RF := timer_refines) _ _ _ _ _ K g1 s1 t1 w1 evs)
    as (rs & g2 & s2 & t2 & reads & w2 & E2 & Hr2 & Hi2 & Hrun); [by apply Forall_forall|done|].
  destruct (spec_run_keeps spec _ no_monitor _ w1 evs rs reads w2 (blind_silent (watched w1)))
    as [[_ Hw] Hq]; [done..|].
  exists r, g1, s1, t1, w1, rs, g2, s2, t2, w2. rewrite <- !observed_status.
  split_and!; [done|done| |done|done| |done].
  - intros Hf. destruct (Hk Hf) as [Ho Hw1]. by rewrite Hr1, omap_app, Ho, app_nil_r.
  - by rewrite Hr2, omap_app, (unseen _ Hq), app_nil_r.
Qed.

(** ... and conversely the alarm in monitoring mode looks at every watched task,
    once, and keeps those that it does not find dead. *)
Lemma fire_looks_at_all ex q (l : list Z) r reads w' :
  spec (Watch Monitoring (Agenda (Some ex) q) l) Fire r reads w' ->
  exists sts, length sts = length l /\ reads = zip_with Status l sts /\
    watched w' = survivors (zip l sts) /\ blind w'.
Proof. intros Hs. inversion Hs; subst; [done|done|]. by exists sts. Qed.

End proofs.

(** A driver that has just been loaded implements a watch with nothing set. *)
Lemma loaded_implements {L} `{LO : ListOps L} {chain : Z -> list Z -> L -> Prop} `{LL : !ListLaws L chain}
    `{EP : ErrPtr} `{Io : Ioctl} `{Lay : Layout} `{Cfg : Config} (K : oracle) (l0 : L) f0 t :
  registers K -> disciplined t = true -> free_context (held t) ->
  exists s' t', deferred_init K (State {[dev_addr 0 := f0]} (LState ∅ l0)) t = Done 0 s' t' /\
    implements (chain := chain) (dev_addr 0) (registered ++ held t) (Agenda None false) s' t'
      (Watch Unset (Agenda None false) []).
Proof.
  intros [Hr Ha] Hd H0. destruct (init_spec (chain := chain) K l0 f0 t) as (s' & t' & E & Hi & Hf);
    [apply Hr|apply Ha|done..|].
  exists s', t'. split; [done|]. by exists [].
Qed.

(** ** Witnesses *)

Import Timer.Sample.

(** The tasks 7, which lives, and 8, which is dead, are watched. *)
Lemma sample_implements m g :
  implements (chain := DList.chain) (dev_addr 0) [] g
    (State {[dev_addr 0 := flag_of m]} (procs sample)) past (Watch m g [7; 8]).
Proof.
  destruct sample_inv as [Hi _]. exists entries. split; [|by split; [|split; [apply lookup_singleton_eq|]]].
  split; [exact Hi|]. exists (flag_of m). apply lookup_singleton_eq.
Qed.

(** The process 4 has the task 104, which is dead. *)
Definition demo_events : list event :=
  [Fire; Command MY_IOCTL_TIMER_MONITOR 4; Fire; Fire; Command MY_IOCTL_TIMER_ALLOC 1; Fire; Work].

Definition demo_seen : list observation :=
  [Status 7 0; Status 8 TASK_DEAD; Lookup 4 104; Clock 23;
   Status 104 TASK_DEAD; Status 7 0; Clock 36].

Lemma timer_refines_watch_witness :
  exists rs g' s' t' seen w',
    execs (do_event (dev_addr 0)) (Agenda (Some 5) false) demo_events capped
      (State {[dev_addr 0 := flag_of Monitoring]} (procs sample)) past = Done (rs, g') s' t' /\
    seen = demo_seen /\
    implements (chain := DList.chain) (dev_addr 0) [] g' s' t' w' /\
    spec_run spec (Watch Monitoring (Agenda (Some 5) false) [7; 8]) demo_events rs seen w'.
Proof.
  destruct (timer_refines_watch (chain := DList.chain) capped (dev_addr 0) [] eq_refl capped_pointers
    demo_events _ _ _ _ (sample_implements Monitoring (Agenda (Some 5) false)))
    as (rs & g' & s' & t' & seen & w' & E & Hr & Hi & Hs).
  assert (Ev : observed (history (execs (do_event (dev_addr 0)) (Agenda (Some 5) false) demo_events capped
      (State {[dev_addr 0 := flag_of Monitoring]} (procs sample)) past)) =
    demo_seen) by (vm_compute; reflexivity).
  rewrite E in Ev. exists rs, g', s', t', seen, w'.
  exact (conj E (conj (eq_trans (eq_sym Hr) Ev) (conj Hi Hs))).
Defined.

(** The alarm of a monitor command is taken over by SET. *)
Lemma unnoticed_deaths_witness :
  exists r rs g1 s1 t1 g' s' t' w',
    do_event (dev_addr 0) (Agenda (Some 5) false) (Command MY_IOCTL_TIMER_SET 9) capped
      (State {[dev_addr 0 := flag_of Monitoring]} (procs sample)) past = Done (r, g1) s1 t1 /\
    execs (do_event (dev_addr 0)) g1 [Fire; Fire] capped s1 t1 = Done (rs, g') s' t' /\
    task_reads t' = [] /\ implements (chain := DList.chain) (dev_addr 0) [] g' s' t' w' /\
    watched w' = [7; 8].
Proof.
  destruct (unnoticed_deaths (chain := DList.chain) capped (dev_addr 0) [] eq_refl capped_pointers
    (Command MY_IOCTL_TIMER_SET 9) [Fire; Fire] _ _ _ _
    (sample_implements Monitoring (Agenda (Some 5) false)) (list_elem_of_here _ _))
    as (r & g1 & s1 & t1 & w1 & rs & g' & s' & t' & w' & E1 & Hi1 & Hk & E & Hi & Hr & Hw).
  - repeat (apply Forall_cons; split; [intros arg; discriminate|]). apply Forall_nil. exact I.
  - destruct Hk as [Hr1 Hw1]; [discriminate|].
    exists r, rs, g1, s1, t1, g', s', t', w'.
    exact (conj E1 (conj E (conj (eq_trans Hr Hr1) (conj Hi (eq_trans Hw Hw1))))).
Defined.

End TimerSpec.
