(* ===== verification/TimerClient.v ===== *)
(** * The client of the timer driver (Drivers/deferredTimer/user/user.cpp,
    TimerDriver/timerDriver.h, TimerDriver/timerDriver.cpp)

    The command line program, over any system; then the program together with
    the driver of [Timer], which the device of the system is bound to. *)

From Stdlib Require Import Ascii.
From stdpp Require Import pretty.
From S2P Require Import Prelude Kernel Monad KList Timer User Devices.

Module TimerClient.
Import Timer.Timer.

Definition DRIVERPATH := "/dev/timerDriver"%string.

Section code.
Context {S : Type} `{Sy : Sys S} `{Io : Ioctl}.
Abbreviation MS := (M S).

(** The register of a variadic argument: the upper half of an [int] argument
    and the whole of an argument that is not passed are arbitrary. *)
Definition variadic_int (v : Z) : MS Z :=
  h ← ask (uninitialised NULL "upper half of an argument");
  mret (u64 (u32 v + 2 ^ 32 * h)).
Definition no_argument : MS Z :=
  a ← ask (uninitialised NULL "argument that is not passed"); mret (u64 a).

(** The constructor: the value of [m_fd]. *)
Definition TimerDriver : MS Z := sys_open DRIVERPATH O_RDONLY.

(** [if (res < 0) { std::cout << msg; close(m_fd); return; }] *)
Definition close_on_error (m_fd res : Z) (msg : string) : MS unit :=
  if decide (res < 0) then cout_line msg ;; sys_close m_fd ;; mret () else mret ().

Definition setTimer (m_fd time : Z) : MS unit :=
  arg ← variadic_int time;
  res ← sys_ioctl m_fd MY_IOCTL_TIMER_SET (Word arg);
  close_on_error m_fd res "[ERROR] Failed to set timer".

Definition cancelTimer (m_fd : Z) : MS unit :=
  arg ← no_argument;
  res ← sys_ioctl m_fd MY_IOCTL_TIMER_CANCEL (Word arg);
  close_on_error m_fd res "[ERROR] timer failed to cancel".

Definition allocTimer (m_fd : Z) : MS unit :=
  arg ← no_argument;
  res ← sys_ioctl m_fd MY_IOCTL_TIMER_ALLOC (Word arg);
  close_on_error m_fd res "[ERROR] timer failed to alloc".

Definition monitorTimer (m_fd pid : Z) : MS unit :=
  res ← sys_ioctl m_fd MY_IOCTL_TIMER_MONITOR (Word pid);
  close_on_error m_fd res "[ERROR] timer failed to alloc".

(** [*s]: the first character of a C string. *)
Definition first_char (s : string) : Ascii.ascii :=
  match s with String c _ => c | EmptyString => Ascii.zero end.

Definition argc_not_met : X S Z := lift (cout_line "[ERROR] argc not met") ;; mret 1.

Definition main (argv : list string) : X S Z :=
  let argc := length argv in
  if decide (argc < 2)%nat then
    lift (cout_line "[ERROR] zero args were passed") ;; mret 1
  else
  timer ← lift TimerDriver;
  let cmd := first_char (nth 1 argv EmptyString) in
  if decide (cmd = Ascii.ascii_of_nat 115) then (* 's' *)
    if decide (argc <> 3%nat) then argc_not_met else
    duration ← or_throw (stoi (nth 2 argv EmptyString));
    lift (setTimer timer duration) ;; mret 0
  else if decide (cmd = Ascii.ascii_of_nat 99) then (* 'c' *)
    if decide (argc <> 2%nat) then argc_not_met else
    lift (cancelTimer timer) ;; mret 0
  else if decide (cmd = Ascii.ascii_of_nat 97) then (* 'a' *)
    if decide (argc <> 2%nat) then argc_not_met else
    lift (allocTimer timer) ;; mret 0
  else if decide (cmd = Ascii.ascii_of_nat 112) then (* 'p' *)
    if decide (argc <> 3%nat) then argc_not_met else
    n ← or_throw (stoi (nth 2 argv EmptyString));
    let pid := u64 n in
    lift (monitorTimer timer pid) ;; mret 0
  else
    lift (tell (cout [KStr "[ERROR] unknown cmd"; KStr (String cmd EmptyString); KStr "\n"])) ;;
    mret 0.

End code.

(** ** The client and the driver *)

(** The operations of the driver as the system calls reach them, through
    [timer_fops]; the inode of the device file points to the character device. *)
Section device.
Context {L : Type} `{LO : ListOps L} `{EP : ErrPtr} `{Io : Ioctl} `{Lay : Layout} `{Cfg : Config}.

Definition dev_open (dev : Z) : M (state L) Z :=
  r ← Devices.vfs_open Devices.timer_fops (dev + offsetof_cdev); mret r.1.
Definition dev_ioctl (dev : Z) : Z -> ioctl_arg -> M (state L) Z :=
  Devices.vfs_ioctl Devices.timer_fops dev.
Definition dev_release (dev : Z) : M (state L) Z := Devices.vfs_release Devices.timer_fops dev.

End device.

(** [timer_open] stores the device as the private data of the file. *)
Lemma open_private_data {L} `{Lay : Layout} dev K (s : state L) t :
  timer_open (dev + offsetof_cdev) K s t =
    Done (0, dev) s ((printk "[deferred_open]\n" [], 0) :: t).
Proof. unfold timer_open. run_all. by rewrite Z.add_simpl_r. Qed.

Section claims.
Context {L : Type} `{LO : ListOps L} {chain : Z -> list Z -> L -> Prop} `{LL : !ListLaws L chain}.
Context `{EP : ErrPtr} `{EPL : !ErrPtrLaws} `{Io : Ioctl} `{IL : !IoctlLaws} `{Lay : Layout}
  `{Cfg : Config} `{Sy : !Sys (state L)}.
Context (dev fd : Z) `{CD : !CharDevice DRIVERPATH fd (dev_open dev) (dev_ioctl dev) (dev_release dev)}.
Context (K : oracle) `{HK : !HeapLaws K offsetof_list (list_of dev)}.
Implicit Types (s : state L) (t : trace).

Abbreviation INV := (dev_inv (chain := chain) dev).
Abbreviation opened t := ((printk "[deferred_open]\n" [], 0) :: t).

Lemma construct_eq s t : TimerDriver K s t = Done fd s (opened t).
Proof.
  unfold TimerDriver. rewrite open_runs. unfold dev_open.
  erewrite run_bind; [|erewrite run_bind by apply open_private_data; reflexivity]. done.
Qed.

Lemma word_eq cmd v s t r s' t' :
  timer_ioctl dev cmd v K s t = Done r s' t' ->
  sys_ioctl fd cmd (Word v) K s t = Done (sys_result r r) s' t'.
Proof. intros E. rewrite ioctl_runs. change (dev_ioctl dev cmd (Word v)) with (timer_ioctl dev cmd v).
  by rewrite (run_bind _ _ _ _ _ _ _ _ E). Qed.

(** The error branch of the four methods. *)
Definition error_trace (msg : string) t : trace :=
  (printk "[deferred_release]\n" [], 0) :: (cout [KStr msg; KStr "\n"], 0) :: t.

Lemma close_on_error_eq r msg s t :
  close_on_error fd (sys_result r r) msg K s t =
    Done () s (if decide (r < 0) then error_trace msg t else t).
Proof.
  unfold close_on_error, sys_result. destruct (Z.ltb_spec r 0).
  - rewrite !decide_True by done. erewrite run_bind by reflexivity.
    erewrite run_bind; [reflexivity|]. rewrite close_runs.
    change (dev_release dev) with (timer_release (L := L)). unfold timer_release.
    erewrite run_bind by (run_all; reflexivity). done.
  - by rewrite !decide_False by lia.
Qed.

(** One of the four commands, whatever its argument, on a device in order. *)
Lemma ioctl_keeps h0 l cmd v s t :
  INV h0 [] l s t -> free_context h0 -> no_error_pointers K ->
  wp (timer_ioctl dev cmd v) K s t (fun r s' t' => exists l', INV h0 [] l' s' t').
Proof.
  intros Hi H0 Hne. destruct (decide (cmd = MY_IOCTL_TIMER_MONITOR)) as [->|Hm].
  - eapply wp_mono; [by apply (ioctl_monitor_run K dev h0 [] l)|]. cbn zeta. intros r s' t'.
    repeat case_decide; [intros (_ & -> & Hi')|intros (_ & -> & Hi')|intros (_ & Hi' & _)]; by eexists.
  - destruct (ioctl_simple K dev h0 [] l cmd v s t Hi Hm) as (s' & t' & E & Hi' & _).
    wp_by E. by exists l.
Qed.

Lemma send_keeps h0 l cmd v msg s t :
  INV h0 [] l s t -> free_context h0 -> no_error_pointers K ->
  wp (res ← sys_ioctl fd cmd (Word v); close_on_error fd res msg) K s t
    (fun _ s' t' => exists l', INV h0 [] l' s' t').
Proof.
  intros Hi H0 Hne. pose proof (ioctl_keeps h0 l cmd v s t Hi H0 Hne) as Hw.
  apply wp_done in Hw as (r & s' & t' & E & l' & Hi').
  rewrite wp_bind, (wp_eq _ _ _ _ _ _ _ _ (word_eq _ _ _ _ _ _ _ E)).
  rewrite (wp_eq _ _ _ _ _ _ _ _ (close_on_error_eq _ _ _ _)). exists l'.
  case_decide; [|done]. by do 2 (apply dev_inv_quiet; [done|]).
Qed.

(** How the program may end. *)
Definition exit_ok (argv : list string) (r : Z + exn) : Prop :=
  match r with
  | inl status => status = 0 \/ status = 1
  | inr e => exists arg, argv !! 2%nat = Some arg /\ stoi arg = inr e
  end.

Definition ends (h0 : list resource) argv (r : Z + exn) s t : Prop :=
  exit_ok argv r /\ exists l, INV h0 [] l s t.

Lemma argc_not_met_ends h0 l argv s t :
  INV h0 [] l s t -> wp argc_not_met K s t (ends h0 argv).
Proof.
  intros Hi. unfold argc_not_met. rewrite wp_lift_bind. split; [by right|]. exists l.
  by apply dev_inv_quiet.
Qed.

Lemma method_ends h0 l argv cmd v msg s t :
  INV h0 [] l s t -> free_context h0 -> no_error_pointers K ->
  wp (lift (res ← sys_ioctl fd cmd (Word v); close_on_error fd res msg) ;; mret 0) K s t
    (ends h0 argv).
Proof.
  intros Hi H0 Hne. rewrite wp_lift_bind. eapply wp_mono; [by apply (send_keeps h0 l)|].
  intros [] s' t' Hl. split; [by left|done].
Qed.

(** ... whose argument is an arbitrary register. *)
Lemma register_ends h0 l argv cmd c f msg s t :
  INV h0 [] l s t -> free_context h0 -> no_error_pointers K ->
  (forall r, quiet (uninitialised NULL c, r) = true) ->
  wp (lift (arg ← (a ← ask (uninitialised NULL c); mret (f a));
            res ← sys_ioctl fd cmd (Word arg); close_on_error fd res msg) ;; mret 0) K s t
    (ends h0 argv).
Proof.
  intros Hi H0 Hne Hq. rewrite wp_lift_bind. wp_run.
  assert (Hi1 : INV h0 [] l s ((uninitialised NULL c, K t (uninitialised NULL c)) :: t))
    by by apply dev_inv_quiet.
  pose proof (method_ends h0 l argv cmd (f (K t (uninitialised NULL c))) msg s _ Hi1 H0 Hne) as Hm.
  rewrite wp_lift_bind, wp_bind in Hm. exact Hm.
Qed.

(** C39: no command line can break the driver: on a device in order, for every
    argument vector and every kernel, the client ends - with status 0 or 1, or
    with the exception of [std::stoi] for its second argument - and leaves the
    device in order. *)
Theorem command_line_safe h0 l argv s t :
  INV h0 [] l s t -> free_context h0 -> no_error_pointers K ->
  wp (main argv) K s t (fun r s' t' => exit_ok argv r /\ exists l', INV h0 [] l' s' t').
Proof.
  intros Hi H0 Hne. change (wp (main argv) K s t (ends h0 argv)). unfold main.
  case_decide as Hc.
  { rewrite wp_lift_bind. split; [by right|]. exists l. by apply dev_inv_quiet. }
  rewrite wp_lift_bind, (wp_eq _ _ _ _ _ _ _ _ (construct_eq s t)).
  assert (Ho : INV h0 [] l s (opened t)) by by apply dev_inv_quiet.
  case_decide; [|case_decide; [|case_decide; [|case_decide]]].
  1-4: case_decide as Hlen; [by apply (argc_not_met_ends h0 l)|].
  1,4: rewrite wp_or_throw_bind; destruct (stoi _) as [n|e] eqn:E.
  2,4: split; [|by exists l]; exists (nth 2 argv EmptyString); split; [|done];
    destruct (nth_lookup_or_length argv 2 EmptyString); [done|lia].
  - by apply (register_ends h0 l).
  - by apply (method_ends h0 l).
  - by apply (register_ends h0 l).
  - by apply (register_ends h0 l).
  - rewrite wp_lift_bind. split; [by left|]. exists l. by apply dev_inv_quiet.
Qed.

(** The register [variadic_int] reads its upper half from. *)
Definition upper_half t : Z := K t (uninitialised NULL "upper half of an argument").

Lemma main_duration prog n s t :
  stoi (pretty n) = inl n ->
  main [prog; "s"; pretty n]%string K s t = (lift (setTimer fd n) ;; mret 0) K s (opened t).
Proof.
  intros E. unfold main. rewrite decide_False by (cbn; lia).
  rewrite (x_bind_lift _ _ _ _ _ _ _ _ (construct_eq s t)). cbn [nth first_char length].
  rewrite (decide_True (P := "s"%char = _)) by done. rewrite decide_False by lia. by rewrite E.
Qed.

Lemma main_pid prog n s t :
  stoi (pretty n) = inl n ->
  main [prog; "p"; pretty n]%string K s t =
    (lift (monitorTimer fd (u64 n)) ;; mret 0) K s (opened t).
Proof.
  intros E. unfold main. rewrite decide_False by (cbn; lia).
  rewrite (x_bind_lift _ _ _ _ _ _ _ _ (construct_eq s t)). cbn [nth first_char length].
  rewrite !(decide_False (P := "p"%char = _)) by done.
  rewrite (decide_True (P := "p"%char = _)) by done. rewrite decide_False by lia. by rewrite E.
Qed.

(** The command "s n" sets the timer of the driver, through the text of the
    command line, the system call and the handler: status 0, mode SET, nothing
    else changed, and the timer armed [n] seconds after the reading of
    [jiffies] if the upper half of the register that holds the [int] argument is
    zero; otherwise a multiple of 2^32 seconds later still. *)
Theorem client_sets_timer h0 l prog n s t :
  INV h0 [] l s t -> 0 <= n < 2 ^ 31 ->
  let h := upper_half (opened t) in
  exists s' t', main [prog; "s"; pretty n]%string K s t = Done (inl 0) s' t' /\
    INV h0 [] l s' t' /\ s' = State (<[dev := TIMER_TYPE_SET]> (flags s)) (procs s) /\
    exists arg j r, head t' = Some (mod_timer (timer_of dev) (u64 (u64 j + u64 (arg * HZ))), r) /\
      arg mod 2 ^ 32 = n /\ (h = 0 -> arg = n).
Proof.
  intros Hi Hn h. rewrite main_duration by (apply stoi_pretty; lia).
  set (t1 := (uninitialised NULL "upper half of an argument", h) :: opened t).
  assert (Hi1 : INV h0 [] l s t1) by by do 2 (apply dev_inv_quiet; [done|]).
  set (arg := u64 (u32 n + 2 ^ 32 * h)). pose proof Hi1 as [Hh Hf].
  destruct (arm_spec K dev TIMER_TYPE_SET (u64 (arg * HZ)) s ((printk "[TIMER SET]\n" [], 0) :: t1) Hf)
    as (t2 & E & r & j & Et).
  assert (Ei : timer_ioctl dev MY_IOCTL_TIMER_SET arg K s t1 =
    Done 0 (State (<[dev := TIMER_TYPE_SET]> (flags s)) (procs s)) t2).
  { unfold timer_ioctl. rewrite decide_True by done. erewrite run_bind by reflexivity.
    by rewrite (run_bind _ _ _ _ _ _ _ _ E). }
  exists (State (<[dev := TIMER_TYPE_SET]> (flags s)) (procs s)), t2. split.
  { erewrite x_bind_lift; [reflexivity|]. unfold setTimer, variadic_int.
    erewrite run_bind by (run_all; reflexivity).
    rewrite (run_bind _ _ _ _ _ _ _ _ (word_eq _ _ _ _ _ _ _ Ei)). apply close_on_error_eq. }
  split.
  { subst t2. do 3 (apply dev_inv_quiet; [done|]). split; [exact Hh|]. exists TIMER_TYPE_SET. apply lookup_insert_eq. }
  split; [done|]. exists arg, j, r. split; [by rewrite Et|]. split.
  - unfold arg, wrap. rewrite Z.mod_mod_divide by by exists (2 ^ 32).
    rewrite (Z.mul_comm (2 ^ 32)), Z_mod_plus_full, Zmod_mod. apply Z.mod_small. lia.
  - intros Eh. unfold arg. rewrite Eh, Z.mul_0_r, Z.add_0_r.
    rewrite (wrap_small 32), wrap_small by lia. done.
Qed.

Lemma main_pid_wp prog n s t Q :
  stoi (pretty n) = inl n ->
  wp (main [prog; "p"; pretty n]%string) K s t Q =
    wp (lift (monitorTimer fd (u64 n)) ;; mret 0) K s (opened t) Q.
Proof. intros E. unfold wp. by rewrite main_pid. Qed.

Lemma pid_roundtrip n : - 2 ^ 31 <= n < 2 ^ 31 -> s32 (u64 n) = n.
Proof. intros Hn. unfold wrap, swrap. Z.to_euclidean_division_equations. lia. Qed.

(** C24: the command "p n" makes the driver monitor process [n].  If there is no
    such process, or no memory for the entry, the driver is unchanged, the
    client prints its error message and closes the device - and still exits with
    status 0.  Otherwise the process is the first of the monitored ones. *)
Theorem client_monitors h0 l prog n s t :
  INV h0 [] l s t -> free_context h0 -> no_error_pointers K -> - 2 ^ 31 <= n < 2 ^ 31 ->
  let t1 := (printk "[TIMER MONITOR]\n" [], 0) :: opened t in
  let tk := found K n t1 in
  let p := memory K n t1 in
  wp (main [prog; "p"; pretty n]%string) K s t (fun r s' t' => r = inl 0 /\
    if decide (tk = NULL \/ p = NULL) then
      s' = s /\ INV h0 [] l s t' /\ exists t2, t' = error_trace "[ERROR] timer failed to alloc" t2
    else INV h0 [] ((p, Monitor tk) :: l) s' t' /\ flags s' !! dev = Some TIMER_TYPE_MONITOR).
Proof.
  intros Hi H0 Hne Hn t1 tk p. 
  rewrite main_pid_wp, wp_lift_bind by by apply stoi_pretty.
  unfold monitorTimer. rewrite wp_bind.
  assert (Hi1 : INV h0 [] l s (opened t)) by by apply dev_inv_quiet.
  pose proof (ioctl_monitor_run K dev h0 [] l (u64 n) s (opened t) Hi1 H0 Hne) as Hw.
  cbn zeta in Hw. rewrite (pid_roundtrip n Hn) in Hw. fold t1 tk p in Hw.
  apply wp_done in Hw as (r & s' & t' & E & HQ).
  rewrite (wp_eq _ _ _ _ _ _ _ _ (word_eq _ _ _ _ _ _ _ E)).
  rewrite (wp_eq _ _ _ _ _ _ _ _ (close_on_error_eq _ _ _ _)), wp_x_ret. split; [done|].
  assert (Hbad : forall e, e < 0 -> r = e /\ s' = s /\ INV h0 [] l s t' ->
    s' = s /\ INV h0 [] l s (if decide (r < 0) then error_trace "[ERROR] timer failed to alloc" t' else t')
    /\ exists t2, (if decide (r < 0) then error_trace "[ERROR] timer failed to alloc" t' else t')
         = error_trace "[ERROR] timer failed to alloc" t2).
  { intros e He (-> & -> & Hi'). rewrite !decide_True by done. split; [done|].
    split; [by do 2 (apply dev_inv_quiet; [done|])|by eexists]. }
  destruct (decide (tk = NULL)) as [Et|Et].
  { rewrite (decide_True (P := tk = NULL \/ _)) by tauto. by apply (Hbad (- ESRCH)). }
  destruct (decide (p = NULL)) as [Ep|Ep].
  { rewrite (decide_True (P := tk = NULL \/ _)) by tauto. by apply (Hbad (- ENOMEM)). }
  rewrite (decide_False (P := tk = NULL \/ _)) by tauto. destruct HQ as (-> & Hi' & Hf & _).
  by rewrite decide_False by lia.
Qed.

End claims.

(** ** Witnesses *)

Module SampleSystem.
Export Sample.

(** A system whose only file is the device, with descriptor 3. *)
#[export] Instance sys : Sys (state DList.mem) := {|
  sys_open path _ := if decide (path = DRIVERPATH)
    then r ← dev_open (dev_addr 0); mret (sys_result 3 r) else mret (-1);
  sys_ioctl fd cmd arg := if decide (fd = 3)
    then r ← dev_ioctl (dev_addr 0) cmd arg; mret (sys_result r r) else mret (-1);
  sys_close fd := if decide (fd = 3) then r ← dev_release (dev_addr 0); mret (sys_result 0 r) else mret (-1)
|}.

#[export] Instance device :
  CharDevice DRIVERPATH 3 (dev_open (dev_addr 0)) (dev_ioctl (dev_addr 0))
    (dev_release (dev_addr 0)).
Proof. by split. Qed.

End SampleSystem.
Import SampleSystem.

Lemma command_line_safe_witness :
  wp (main ["driver"; "p"; "seven"]%string) capped sample past (fun r s' t' =>
    exit_ok ["driver"; "p"; "seven"]%string r /\
    exists l', dev_inv (chain := DList.chain) (dev_addr 0) [] [] l' s' t').
Proof.
  apply (command_line_safe (chain := DList.chain) (dev_addr 0) 3 capped [] entries);
    [exact sample_inv|done|exact capped_pointers].
Defined.

Lemma client_sets_timer_witness :
  exists s' t', main ["driver"; "s"; "5"]%string kernel sample past = Done (inl 0) s' t' /\
    s' = State (<[dev_addr 0 := TIMER_TYPE_SET]> (flags sample)) (procs sample).
Proof.
  destruct (client_sets_timer (chain := DList.chain) (dev_addr 0) 3 kernel [] entries "driver" 5
    sample past) as (s' & t' & E & _ & Es & _); [exact sample_inv|lia|].
  exists s', t'. exact (conj E Es).
Defined.

Lemma client_monitors_witness :
  wp (main ["driver"; "p"; "3"]%string) capped sample past (fun r s' t' => r = inl 0 /\
    dev_inv (chain := DList.chain) (dev_addr 0) [] [] ((12288, Monitor 103) :: entries) s' t').
Proof.
  eapply wp_mono.
  { apply (client_monitors (chain := DList.chain) (dev_addr 0) 3 capped [] entries "driver" 3);
      [exact sample_inv|done|exact capped_pointers|lia]. }
  cbv zeta beta. intros r s' t' [Hr HQ]. rewrite decide_False in HQ by (vm_compute; intuition discriminate).
  exact (conj Hr (proj1 HQ)).
Defined.

End TimerClient.
