(* ===== verification/PacketClient.v ===== *)
(** * The client of the packet filter (KernelModules/packet-mod/user: main.cpp,
    PacketDriver/packetDriver.h, packetDriver.cpp, socket/socket.h, socket.cpp)

    The test program of the filter, over any system and network; then the
    program together with the driver of [Packet], whose hook sees the packets
    the program sends. *)

From S2P Require Import Prelude Kernel Monad Packet User Devices.

Module PacketClient.
Import Packet.Packet.

(** The socket calls, on failure -1; [inet_pton] gives the address in network
    byte order if its text is well formed. *)
Class Net (S : Type) := {
  sys_socket : Z -> Z -> Z -> M S Z;
  sys_connect : Z -> Z -> Z -> M S Z;
  sys_send : Z -> list Z -> M S Z;
  inet_pton : string -> option Z
}.

(** Where the local variable [addr] of [filter_address] is. *)
Class Frame := { addr_addr : Z }.

Definition AF_INET := 2.
Definition SOCK_STREAM := 1.
Definition PATH := "/dev/network_filter"%string.

Section code.
Context {S : Type} `{Sy : Sys S} `{Ne : Net S} `{En : Env} `{Fr : Frame}.
Abbreviation MS := (M S).
Abbreviation XS := (X S).

(** [if (bad) throw std::runtime_error(what)] *)
Definition throw_if (bad : bool) (what : string) : XS unit :=
  if bad then throw (runtime_error what) else mret ().

(** *** packetDriver.cpp *)

Definition PacketDriver : XS Z :=
  m_fd ← lift (sys_open PATH O_RDONLY);
  throw_if (m_fd <? 0) "[ERROR] Failed to open packet Driver\n" ;;
  mret m_fd.

Definition filter_address (m_fd : Z) (ip : string) : XS unit :=
  match inet_pton ip with
  | None => throw (runtime_error "[ERROR] Invalid IP ADDRESS\n")
  | Some addr =>
      r ← lift (sys_ioctl m_fd MY_IOCTL_FILTER_ADDRESS (Ref addr_addr addr));
      throw_if (r <? 0) "[ERROR] Failed to filter address\n"
  end.

Definition close_fd (m_fd : Z) : MS unit :=
  if decide (m_fd >= 0) then sys_close m_fd ;; mret () else mret ().

(** [~PacketDriver()] *)
Definition PacketDriver_delete (m_fd : Z) : MS unit := close_fd m_fd.

(** *** socket.cpp *)

Definition Socket : XS Z :=
  m_fd ← lift (sys_socket AF_INET SOCK_STREAM 0);
  throw_if (m_fd <? 0) "[ERROR] Error intializing socket file descriptor\n" ;;
  mret m_fd.

Definition connect (m_fd : Z) (ip : string) (port : Z) : XS unit :=
  match inet_pton ip with
  | None => throw (runtime_error "[ERROR] inet_pton() failed\n")
  | Some addr =>
      r ← lift (sys_connect m_fd addr port);
      throw_if (r <? 0) "[ERROR] connection failed\n"
  end.

Definition send (m_fd : Z) (msg : list Z) : XS unit :=
  res ← lift (sys_send m_fd msg);
  throw_if (res <? 0) "[ERROR] failed to send message\n".

(** [~Socket()] *)
Definition Socket_delete (m_fd : Z) : MS unit := close_fd m_fd.

(** *** main.cpp *)

(** An exception leaves [main], which ends the program without unwinding. *)
Definition main : XS Z :=
  driver ← PacketDriver;
  filter_address driver "127.0.0.1" ;;
  socket1 ← Socket;
  connect socket1 "127.0.0.1" 8080 ;;
  send socket1 (bytes_of_string "Hello from the user space world" ++ [10]) ;;
  socket2 ← Socket;
  connect socket2 "127.0.0.2" 8080 ;;
  send socket2 (bytes_of_string "THIS MESSAE SHOULD NOT BE SEEN" ++ [10]) ;;
  lift (Socket_delete socket2) ;;
  lift (Socket_delete socket1) ;;
  lift (PacketDriver_delete driver) ;;
  mret 0.

End code.

(** ** The client and the driver *)

(** The device that the driver registers, through its table; it has no open and
    no release handler, and its ioctl handler does not look at the file. *)
Section device.
Context `{En : Env}.

Definition dev_open : M state Z := r ← Devices.vfs_open (Devices.misc_fops Devices.packet_dev) NULL; mret r.1.
Definition dev_ioctl : Z -> ioctl_arg -> M state Z :=
  Devices.vfs_ioctl (Devices.misc_fops Devices.packet_dev) NULL.
Definition dev_release : M state Z := Devices.vfs_release (Devices.misc_fops Devices.packet_dev) NULL.

End device.

(** The path the program opens is the node of that device. *)
Lemma path_of_device `{En : Env} : PATH = ("/dev/" +:+ Devices.misc_name Devices.packet_dev)%string.
Proof. reflexivity. Qed.

(** Packets on their way out, each at the point where locally made packets
    leave. *)
Fixpoint output `{En : Env} (ps : list sk_buff) : M state unit :=
  match ps with
  | [] => mret ()
  | p :: ps' =>
      Devices.nf_run Devices.packet_ops Devices.NFPROTO_IPV4 Devices.NF_INET_LOCAL_OUT p ;;
      output ps'
  end.

(** No packet of a connection that exists opens one. *)
Definition no_syn (p : sk_buff) : Prop := forall a, new_connection_to a p = false.

(** The network: connecting sends a packet that opens a connection to the
    address, perhaps several times, and others that open none; sending and
    closing send packets that open none. *)
Class Network `{En : Env} `{Sy : Sys state} `{Ne : Net state} (dev_fd : Z) : Prop := {
  socket_runs d ty p K s t : exists r, r <> dev_fd /\ sys_socket d ty p K s t = Done r s t;
  connect_runs fd a port K s t : exists r ps,
    sys_connect fd a port K s t = (output ps ;; mret r) K s t /\
    Forall (fun p => new_connection_to a p = true \/ no_syn p) ps /\
    (0 <= r -> Exists (fun p => new_connection_to a p = true) ps);
  send_runs fd msg K s t : exists r ps,
    sys_send fd msg K s t = (output ps ;; mret r) K s t /\ Forall no_syn ps;
  socket_close_runs fd K s t : fd <> dev_fd -> exists r ps,
    sys_close fd K s t = (output ps ;; mret r) K s t /\ Forall no_syn ps
}.

(** The destinations of the packets the hook has logged, the oldest first. *)
Fixpoint logged (t : trace) : list Z :=
  match t with
  | [] => []
  | (printk "[IP HEADER]: DST IP:%pI4" [KInt a], _) :: t' => logged t' ++ [a]
  | _ :: t' => logged t'
  end.

Section claims.
Context `{En : Env} `{EL : !EnvLaws} `{Fr : Frame} `{Sy : !Sys state} `{Ne : !Net state}.
Context (fd : Z) `{CD : !CharDevice PATH fd dev_open dev_ioctl dev_release} `{NW : !Network fd}.
Context (K : oracle).
Implicit Types (s : state) (t : trace).

(** With the filter set to [a], the output of packets logs those that open a
    connection to [a]. *)
Definition opens (a : Z) (ps : list sk_buff) : list Z :=
  ps ≫= fun p => if new_connection_to a p then [a] else [].

Lemma hook_logs a p s t :
  ioctl_set_address s = a -> a <> 0 -> exists t',
    packet_hook (Some p) K s t = Done NF_ACCEPT s t' /\
    logged t' = logged t ++ (if new_connection_to a p then [a] else []).
Proof.
  intros Es Ha. eexists. rewrite packet_hook_eq by by rewrite Es. rewrite Es. split; [done|].
  destruct (new_connection_to a p) eqn:E; [|by rewrite app_nil_r].
  unfold new_connection_to in E. apply andb_true_iff in E as [_ E%bool_decide_eq_true].
  cbn. by rewrite E.
Qed.

Lemma output_logs a ps : forall s t,
  ioctl_set_address s = a -> a <> 0 -> exists t',
    output ps K s t = Done () s t' /\ logged t' = logged t ++ opens a ps.
Proof.
  induction ps as [|p ps IH]; intros s t Es Ha; cbn [output].
  { exists t. split; [done|]. by rewrite app_nil_r. }
  destruct (hook_logs a p s t Es Ha) as (t1 & E1 & H1).
  rewrite (run_bind _ _ _ _ _ _ _ _ E1). destruct (IH s t1 Es Ha) as (t2 & E2 & H2).
  exists t2. split; [done|]. by rewrite H2, H1, <- (assoc_L (++)).
Qed.

Lemma opens_none a ps : Forall no_syn ps -> opens a ps = [].
Proof. induction 1 as [|p ps Hp _ IH]; [done|]. unfold opens in *. cbn. by rewrite (Hp a). Qed.

Lemma opens_all a ps : Forall (eq a) (opens a ps).
Proof.
  induction ps as [|p ps IH]; [done|]. unfold opens in *. cbn.
  destruct (new_connection_to a p); [by constructor|done].
Qed.

Lemma opens_some a ps :
  Exists (fun p => new_connection_to a p = true) ps -> a ∈ opens a ps.
Proof.
  induction 1 as [p ps Hp|p ps _ IH]; unfold opens in *; cbn.
  - rewrite Hp. by left.
  - apply elem_of_app. by right.
Qed.

(** *** The run of the program *)

Context (A1 A2 : Z) (H1 : inet_pton "127.0.0.1" = Some A1) (H2 : inet_pton "127.0.0.2" = Some A2).
Context (Hnz : A1 <> 0).

(** Since the history [t0] the hook has logged [l], only connections to [A1],
    which is the filter. *)
Definition sees t0 l s t : Prop :=
  ioctl_set_address s = A1 /\ logged t = logged t0 ++ l /\ Forall (eq A1) l.

(** How the program may end. *)
Definition ends t0 (r : Z + exn) s t : Prop :=
  match r with
  | inl status => status = 0 /\ exists l, sees t0 l s t /\ A1 ∈ l
  | inr e => (exists what, e = runtime_error what) /\
      exists l, logged t = logged t0 ++ l /\ Forall (eq A1) l
  end.

Lemma wp_throw_if {A} bad what (k : unit -> X state A) s t Q :
  (bad = true -> Q (inr (runtime_error what)) s t) -> (bad = false -> wp (k ()) K s t Q) ->
  wp (throw_if bad what ≫= k) K s t Q.
Proof. destruct bad; [intros HQ _; by apply HQ|intros _ HQ; by apply HQ]. Qed.

Lemma wp_x_assoc {A B C} (m : X state A) (f : A -> X state B) (k : B -> X state C) s t Q :
  wp ((m ≫= f) ≫= k) K s t Q = wp (m ≫= fun a => f a ≫= k) K s t Q.
Proof. unfold wp, mbind, X_bind. by destruct (m K s t) as [[a|e] s' t'|]. Qed.

Lemma ends_throw t0 l s t what : sees t0 l s t -> ends t0 (inr (runtime_error what)) s t.
Proof. intros (_ & Hl & Hf). split; [by eexists|by exists l]. Qed.

(** Output under the filter. *)
Lemma output_sees t0 l ps (r : Z) s t :
  sees t0 l s t -> exists t', (output ps ;; mret r) K s t = Done r s t' /\
    sees t0 (l ++ opens A1 ps) s t'.
Proof.
  intros (Es & Hl & Hf). destruct (output_logs A1 ps s t Es Hnz) as (t' & E & Ht).
  exists t'. rewrite (run_bind _ _ _ _ _ _ _ _ E). split; [done|]. split; [done|].
  rewrite Ht, Hl, (assoc_L (++)). split; [done|]. apply Forall_app. split; [done|]. apply opens_all.
Qed.

Lemma socket_rule t0 l s t (k : Z -> X state Z) :
  sees t0 l s t -> (forall r, r <> fd -> wp (k r) K s t (ends t0)) ->
  wp (Socket ≫= k) K s t (ends t0).
Proof.
  intros Hs Hk. unfold Socket. rewrite wp_x_assoc, wp_lift_bind.
  destruct (socket_runs AF_INET SOCK_STREAM 0 K s t) as (r & Hr & E).
  rewrite (wp_eq _ _ _ _ _ _ _ _ E), wp_x_assoc.
  apply wp_throw_if; [intros _; by eapply ends_throw|intros _; by apply Hk].
Qed.

Lemma connect_rule t0 l ip a sock s t (k : unit -> X state Z) :
  sees t0 l s t -> inet_pton ip = Some a ->
  (forall l' t', sees t0 (l ++ l') s t' -> (a = A1 -> A1 ∈ l') -> wp (k ()) K s t' (ends t0)) ->
  wp (connect sock ip 8080 ≫= k) K s t (ends t0).
Proof.
  intros Hs Hip Hk. unfold connect. rewrite Hip, wp_x_assoc, wp_lift_bind.
  destruct (connect_runs sock a 8080 K s t) as (r & ps & E & Hps & Hsyn).
  destruct (output_sees t0 l ps r s t Hs) as (t' & E' & Hs'). rewrite E' in E.
  rewrite (wp_eq _ _ _ _ _ _ _ _ E). apply wp_throw_if; [intros _; by eapply ends_throw|].
  intros Hr%Z.ltb_ge. apply (Hk (opens A1 ps)); [done|]. intros ->. by apply opens_some, Hsyn.
Qed.

Lemma send_rule t0 l msg sock s t (k : unit -> X state Z) :
  sees t0 l s t -> (forall t', sees t0 l s t' -> wp (k ()) K s t' (ends t0)) ->
  wp (send sock msg ≫= k) K s t (ends t0).
Proof.
  intros Hs Hk. unfold send. rewrite wp_x_assoc, wp_lift_bind.
  destruct (send_runs sock msg K s t) as (r & ps & E & Hps).
  destruct (output_sees t0 l ps r s t Hs) as (t' & E' & Hs').
  rewrite (opens_none A1 ps Hps), app_nil_r in Hs'. rewrite E' in E.
  rewrite (wp_eq _ _ _ _ _ _ _ _ E). apply wp_throw_if; [intros _; by eapply ends_throw|].
  intros _. by apply Hk.
Qed.

Lemma delete_rule t0 l sock s t (k : unit -> X state Z) :
  sees t0 l s t -> sock <> fd -> (forall t', sees t0 l s t' -> wp (k ()) K s t' (ends t0)) ->
  wp (lift (Socket_delete sock) ≫= k) K s t (ends t0).
Proof.
  intros Hs Hsock Hk. rewrite wp_lift_bind. unfold Socket_delete, close_fd.
  case_decide as Hge; [|rewrite wp_ret; by apply Hk].
  destruct (socket_close_runs sock K s t Hsock) as (r & ps & E & Hps).
  destruct (output_sees t0 l ps r s t Hs) as (t' & E' & Hs').
  rewrite (opens_none A1 ps Hps), app_nil_r in Hs'. rewrite E' in E.
  rewrite wp_bind, (wp_eq _ _ _ _ _ _ _ _ E), wp_ret. by apply Hk.
Qed.

(** The ioctl that sets the filter, or fails with a part of it copied. *)
Lemma filter_rule s t (k : unit -> X state Z) :
  (forall s' t', sees t [] s' t' -> wp (k ()) K s' t' (ends t)) ->
  wp (filter_address fd "127.0.0.1" ≫= k) K s t (ends t).
Proof.
  intros Hk. unfold filter_address. rewrite H1, wp_x_assoc, wp_lift_bind.
  unfold wp at 1. rewrite ioctl_runs.
  change (dev_ioctl ?c (Ref ?p ?v)) with (packet_ioctl c p v). unfold packet_ioctl. rewrite decide_True by done.
  set (c := copy_from_user addr_addr 4). destruct (decide (K t c = 0)) as [E|E].
  - erewrite run_bind.
    2: { erewrite run_bind by reflexivity. run_step. rewrite decide_False by tauto. run_all. reflexivity. }
    cbn [ioctl_set_address]. apply wp_throw_if; [done|]. intros _. apply Hk.
    split; [by rewrite E, copied_all|]. cbn. by rewrite app_nil_r.
  - erewrite run_bind.
    2: { erewrite run_bind by reflexivity. run_step. rewrite decide_True by done. reflexivity. }
    apply wp_throw_if; [intros _|done]. split; [by eexists|]. exists []. cbn. by rewrite app_nil_r.
Qed.

(** C25: the test program does what it is for, on every network and whatever the
    calls answer: the hook logs connections to 127.0.0.1 only, although the
    program also connects to 127.0.0.2; if it ends with status 0, the filter is
    127.0.0.1 and the connection to it has been logged; otherwise it ends with a
    runtime error. *)
Theorem client_filters s t :
  wp main K s t (ends t).
Proof.
  unfold main, PacketDriver. rewrite wp_x_assoc, wp_lift_bind.
  assert (Eo : sys_open PATH O_RDONLY K s t = Done fd s t) by by rewrite open_runs.
  rewrite (wp_eq _ _ _ _ _ _ _ _ Eo), wp_x_assoc.
  apply wp_throw_if; [intros Hf%Z.ltb_lt; pose proof (fd_valid (path := PATH)); lia|intros _].
  apply filter_rule. intros s1 t1 Hs1.
  apply (socket_rule t [] s1 t1); [done|]. intros k1 Hk1.
  apply (connect_rule t [] _ A1); [done..|]. intros l2 t2 Hs2 Hin. cbn [app] in Hs2.
  apply (send_rule t l2); [done|]. intros t3 Hs3.
  apply (socket_rule t l2); [done|]. intros k2 Hk2.
  apply (connect_rule t l2 _ A2); [done..|]. intros l4 t4 Hs4 _.
  apply (send_rule t (l2 ++ l4)); [done|]. intros t5 Hs5.
  apply (delete_rule t (l2 ++ l4)); [done..|]. intros t6 Hs6.
  apply (delete_rule t (l2 ++ l4)); [done..|]. intros t7 Hs7.
  rewrite wp_lift_bind. unfold PacketDriver_delete, close_fd.
  rewrite decide_True by (pose proof (fd_valid (path := PATH)); lia).
  assert (Ec : sys_close fd K s1 t7 = Done 0 s1 t7) by by rewrite (close_runs (path := PATH)).
  rewrite wp_bind, (wp_eq _ _ _ _ _ _ _ _ Ec), wp_ret, wp_x_ret.
  split; [done|]. exists (l2 ++ l4). split; [done|]. apply elem_of_app. left. by apply Hin.
Qed.

End claims.

(** ** Witness *)

Module SampleSystem.
Export Packet.Packet.Sample.

#[export] Instance frame : Frame := Build_Frame 0x7ff0.

(** The device has descriptor 3, every socket 4. *)
#[export] Instance sys : Sys state := {|
  sys_open path _ := if decide (path = PATH)
    then r ← dev_open; mret (sys_result 3 r) else mret (-1);
  sys_ioctl fd cmd arg := if decide (fd = 3)
    then r ← dev_ioctl cmd arg; mret (sys_result r r) else mret (-1);
  sys_close fd := if decide (fd = 3) then r ← dev_release; mret (sys_result 0 r) else
    if decide (fd = -1) then mret (-1) else mret 0
|}.

#[export] Instance device : CharDevice PATH 3 dev_open dev_ioctl dev_release.
Proof. by split. Qed.

(** The three packets of a handshake on the loopback interface. *)
Definition handshake (a port : Z) : list sk_buff :=
  [SkBuff (IpHdr IPPROTO_TCP a a) (TcpHdr true false 40000);
   SkBuff (IpHdr IPPROTO_TCP a a) (TcpHdr true true port);
   SkBuff (IpHdr IPPROTO_TCP a a) (TcpHdr false true 40000)].

#[export] Instance net : Net state := {|
  sys_socket _ _ _ := mret 4;
  sys_connect _ a port := output (handshake a port) ;; mret 0;
  sys_send _ msg := mret (Z.of_nat (length msg));
  inet_pton ip := if decide (ip = "127.0.0.1"%string) then Some 0x0100007f
    else if decide (ip = "127.0.0.2"%string) then Some 0x0200007f else None
|}.

#[export] Instance network : Network 3.
Proof.
  split.
  - intros. by exists 4.
  - intros fd a port K s t. exists 0, (handshake a port). split; [done|].
    assert (Hs : new_connection_to a (SkBuff (IpHdr IPPROTO_TCP a a) (TcpHdr true false 40000)) = true).
    { unfold new_connection_to. apply andb_true_iff. split; [done|by apply bool_decide_eq_true]. }
    split; [|intros _; by left].
    apply Forall_cons. split; [by left|]. apply Forall_cons. split; [by right|].
    apply Forall_cons. split; [by right|done].
  - intros fd msg K s t. exists (Z.of_nat (length msg)), []. by split.
  - intros fd K s t Hfd. exists (if decide (fd = -1) then -1 else 0), []. split; [|done].
    cbn [sys_close sys]. rewrite decide_False by done. by case_decide.
Qed.

End SampleSystem.
Import SampleSystem.

Lemma client_filters_witness :
  wp main kernel (State 0) [] (ends 0x0100007f []).
Proof. by apply (client_filters 3 kernel 0x0100007f 0x0200007f). Defined.

End PacketClient.
