(* ===== verification/MemoryClient.v ===== *)
(** * The client of the mmap driver (Drivers/memory/user/main.cpp)

    The program maps the first page of the device and prints one word of it;
    then the program together with the driver of [Memory]. *)

From S2P Require Import Prelude Kernel Monad Memory User Devices.

Module MemoryClient.
Import Memory.Memory.

Definition filepath := "/dev/memory_driver"%string.
Definition MAP_FAILED := -1.

(** [mmap(NULL, len, PROT_READ | PROT_WRITE, MAP_SHARED, fd, 0)], and a load of
    32 bits from an address of the process. *)
Class Mmap (S : Type) := { sys_mmap : Z -> Z -> M S Z; user_load32 : Z -> M S Z }.

Section code.
Context {S : Type} `{Sy : Sys S} `{Mm : Mmap S}.
Abbreviation MS := (M S).

Definition log (msg : string) : MS unit := tell (cout [KStr "[log] "; KStr msg; KStr "\n"]).

(** [reg[i]] for [uint32_t* reg]. *)
Definition reg_load (reg i : Z) : MS Z := user_load32 (reg + 4 * i).

Definition main : MS Z :=
  fd ← sys_open filepath O_RDWR;
  (if decide (fd = -1) then log "failed to open memory driver" else mret ()) ;;
  mapped ← sys_mmap 4096 fd;
  if decide (mapped = MAP_FAILED) then log "failed to get map" ;; mret 1 else
  val ← reg_load mapped 8;
  tell (cout [KInt val; KStr "\n"]) ;;
  mret 0.

End code.

(** ** The client and the driver *)

Section device.
Context `{Cfg : Config} `{PA : !PageAlign} `{Lay : Layout}.

(** The device of the first minor number, through [dev_fops], which has an open
    and a mmap handler, but no ioctl and no release. *)
Definition dev_open : M state Z := r ← Devices.vfs_open Devices.dev_fops (cdev_of 0); mret r.1.
Definition dev_ioctl : Z -> ioctl_arg -> M state Z := Devices.vfs_ioctl Devices.dev_fops NULL.
Definition dev_release : M state Z := Devices.vfs_release Devices.dev_fops NULL.
Definition dev_mmap : vm_area -> M state Z := Devices.vfs_mmap Devices.dev_fops.

(** The byte of kernel memory at [a]; it is arbitrary if it was never stored. *)
Definition ram_byte (a : Z) : M state Z :=
  b ← gets (fun s => ram s !! a);
  match b with Some b => mret b | None => r ← ask (uninitialised a "byte"); mret (u8 r) end.

Definition le32 (b0 b1 b2 b3 : Z) : Z := b0 + 2 ^ 8 * b1 + 2 ^ 16 * b2 + 2 ^ 24 * b3.

Definition ram_word (a : Z) : M state Z :=
  b0 ← ram_byte a; b1 ← ram_byte (a + 1); b2 ← ram_byte (a + 2); b3 ← ram_byte (a + 3);
  mret (le32 b0 b1 b2 b3).

(** Memory mapping, in an address space with room for it: mmap runs the handler
    of the driver on an area of whole pages; where [remap_pfn_range] has just
    mapped frames into it, the process reads those frames. *)
Class Mapping `{Sy : Sys state} `{Mm : Mmap state} (fd page_offset : Z) : Prop := {
  mmap_runs len K s t : 0 <= len < 2 ^ 62 -> exists vma,
    vm_end vma = vm_start vma + PAGE_ALIGN len /\ 0 <= vm_start vma /\ vm_end vma < 2 ^ 64 /\
    sys_mmap len fd K s t =
      (r ← dev_mmap vma; mret (if r =? 0 then vm_start vma else MAP_FAILED)) K s t;
  load_runs vma pfn size prot ret k K s t :
    head t = Some (remap_pfn_range (vma_addr vma) (vm_start vma) pfn size prot, ret) ->
    s32 ret = 0 -> 0 <= k -> k + 4 <= size ->
    user_load32 (vm_start vma + k) K s t = ram_word (pfn * PAGE_SIZE + page_offset + k) K s t
}.

End device.

Section claims.
Context `{Cfg : Config} `{PA : !PageAlign} `{PAL : !PageAlignLaws} `{Lay : Layout}.
Context `{Sy : !Sys state} `{Mm : !Mmap state}.
Context (K : oracle) (page_offset : Z) (page_of : Z -> Z) `{LM : !LinearMap K page_offset page_of}.
Context (fd : Z) `{CD : !CharDevice filepath fd dev_open dev_ioctl dev_release}.
Context `{MP : !Mapping fd page_offset}.
Context (Hshift : 12 <= PAGE_SHIFT) (Hsize : 3 * PAGE_SIZE < 2 ^ 64).
Implicit Types (s : state) (t : trace).

Lemma page_size_4096 : 4096 <= PAGE_SIZE.
Proof. unfold PAGE_SIZE. change 4096 with (2 ^ 12). apply Z.pow_le_mono_r; lia. Qed.

(** A mapping of 4096 bytes is a mapping of one page. *)
Lemma align_4096 : PAGE_ALIGN 4096 = PAGE_SIZE.
Proof.
  pose proof (page_align_bounds 4096). pose proof page_size_4096.
  destruct (page_align_divide 4096) as [k Hk]. rewrite Hk in *.
  assert (k = 1) by nia. lia.
Qed.

(** The frame of the area, as an address. *)
Lemma area_frame a : (PAGE_SIZE | a) -> frame page_offset a * PAGE_SIZE + page_offset = a.
Proof.
  intros Ha. destruct (phys_aligned (K := K) (page_of := page_of)) as [m Hm]. destruct Ha as [k ->].
  unfold frame. rewrite Z.shiftr_div_pow2 by lia. fold PAGE_SIZE. rewrite Hm.
  pose proof page_size_4096. replace (k * PAGE_SIZE - m * PAGE_SIZE) with ((k - m) * PAGE_SIZE) by lia.
  rewrite Z.div_mul by lia. lia.
Qed.

(** What the load of the program finds when the mapping succeeds. *)
Lemma client_run p s t :
  loaded p s -> (forall t v a f z q, s32 (K t (remap_pfn_range v a f z q)) = 0) ->
  exists t1, main K s t =
    (val ← ram_word (PAGE_ALIGN p + 32); tell (cout [KInt val; KStr "\n"]) ;; mret 0) K s t1.
Proof.
  intros (_ & Ea & _) Hr. pose proof page_size_4096 as H4. unfold main.
  assert (Eo : sys_open filepath O_RDWR K s t =
    Done fd s ((printk "[LOG]: %s\n" [KStr "memory_open called"], 0) :: t)).
  { rewrite open_runs. unfold dev_open, Devices.vfs_open. cbn [Devices.fo_open Devices.dev_fops].
    unfold memory_open, logg.
    erewrite run_bind; [|erewrite run_bind by (run_all; reflexivity); reflexivity]. done. }
  rewrite (run_bind _ _ _ _ _ _ _ _ Eo). set (t1 := _ :: t).
  pose proof (fd_valid (path := filepath)) as Hfd. rewrite decide_False by lia.
  erewrite run_bind by reflexivity.
  destruct (mmap_runs 4096 K s t1 ltac:(lia)) as (vma & Hend & H0 & Hmax & Em).
  rewrite align_4096 in Hend.
  assert (Es : u64 (vm_end vma - vm_start vma) = PAGE_SIZE).
  { rewrite Hend. replace (vm_start vma + PAGE_SIZE - vm_start vma) with PAGE_SIZE by lia.
    apply wrap_small. lia. }
  set (area := PAGE_ALIGN p) in *. set (t2 := (virt_to_phys area, area - page_offset) :: t1).
  set (c := remap_pfn_range (vma_addr vma) (vm_start vma) (frame page_offset area) PAGE_SIZE
    (vm_page_prot vma)). set (t3 := (c, K t2 c) :: t2).
  assert (Hc : s32 (K t2 c) = 0) by apply Hr.
  assert (E : memory_mmap vma K s t1 = Done 0 s t3).
  { unfold memory_mmap. rewrite Es.
    rewrite decide_False by (rewrite (wrap_small 64) by (unfold NPAGES; lia); unfold NPAGES; lia).
    run_step. rewrite Ea. run_step. rewrite phys_linear. run_step.
    fold (frame page_offset area). fold c t2. by rewrite Hc. }
  rewrite (run_bind _ _ _ _ _ _ _ _ E) in Em. cbn in Em.
  rewrite (run_bind _ _ _ _ _ _ _ _ Em). exists t3.
  rewrite decide_False by (unfold MAP_FAILED; lia).
  unfold mbind at 1, M_bind at 1, reg_load. change (4 * 8) with 32.
  rewrite (load_runs vma (frame page_offset area) PAGE_SIZE (vm_page_prot vma) (K t2 c) 32);
    [|done|done|lia|lia].
  rewrite area_frame by apply page_align_divide. reflexivity.
Qed.

Lemma ram_byte_some a b s t : ram s !! a = Some b -> ram_byte a K s t = Done b s t.
Proof. intros E. unfold ram_byte. erewrite run_bind by reflexivity. by rewrite E. Qed.

Lemma ram_byte_none a s t :
  ram s !! a = None -> let r := K t (uninitialised a "byte") in
  ram_byte a K s t = Done (u8 r) s ((uninitialised a "byte", r) :: t).
Proof. intros E. unfold ram_byte. erewrite run_bind by reflexivity. by rewrite E. Qed.

(** A freshly loaded driver has stored only the magic bytes. *)
Lemma after_load_magic p s k b :
  [0xaa; 0xbb; 0xcc; 0xdd] !! k = Some b ->
  ram (after_load p s) !! (PAGE_ALIGN p + Z.of_nat k) = Some b.
Proof.
  intros E. pose proof page_size_4096. cbn [ram after_load]. unfold magic.
  do 4 (destruct k as [|k]; [injection E as <-; repeat (rewrite lookup_insert_ne by lia);
    rewrite lookup_insert; by rewrite decide_True by lia|]). discriminate E.
Qed.

Lemma after_load_rest p s k :
  ram s = ∅ -> 4 <= k < 4096 -> ram (after_load p s) !! (PAGE_ALIGN p + k) = None.
Proof.
  intros Es Hk. pose proof page_size_4096. cbn [ram after_load]. unfold magic. rewrite Es.
  repeat rewrite lookup_insert_ne by lia. apply lookup_empty.
Qed.

(** C27: the program does not print what the driver wrote for it.  After a load
    on memory that was never written, the word at the start of the area holds
    the magic bytes; the program prints the ninth word, each byte of which is
    whatever an earlier owner of the memory has left there. *)
Theorem client_prints_stale s t :
  registers K -> allocated K t <> NULL -> preemptible t = true -> ram s = ∅ ->
  (forall t v a f z q, s32 (K t (remap_pfn_range v a f z q)) = 0) ->
  exists s1 t1 t2, mydriver_init K s t = Done 0 s1 t1 /\ main K s1 t1 = Done 0 s1 t2 /\
    (forall t, ram_word (kmalloc_area s1) K s1 t = Done 0xddccbbaa s1 t) /\
    exists b0 b1 b2 b3 t3, let a := kmalloc_area s1 + 32 in
      t2 = [(cout [KInt (le32 (u8 b0) (u8 b1) (u8 b2) (u8 b3)); KStr "\n"], 0);
            (uninitialised (a + 3) "byte", b3); (uninitialised (a + 2) "byte", b2);
            (uninitialised (a + 1) "byte", b1); (uninitialised a "byte", b0)] ++ t3.
Proof.
  intros Hr Hp Hpre Hram Hmap.
  assert (H2 : 2 <= PAGE_SHIFT) by lia.
  destruct (driver_init_eq K page_offset page_of H2 s t (registers_grants K t Hr) Hp Hpre) as (t1 & E & _).
  set (p := allocated K t) in *. set (s1 := after_load p s) in *.
  assert (Hl : loaded p s1) by (split_and!; [done..|by left]).
  destruct (client_run p s1 t1 Hl Hmap) as (t2 & Em). eexists s1, t1, _. split; [done|].
  assert (Hn : forall k, 4 <= k < 4096 -> ram s1 !! (PAGE_ALIGN p + k) = None)
    by (intros; by apply after_load_rest).
  split; [|split].
  - rewrite Em. unfold ram_word.
    erewrite run_bind; [|do 4 (erewrite run_bind by
      (apply ram_byte_none; rewrite <- ?Z.add_assoc; apply Hn; lia)); reflexivity]. reflexivity.
  - intros t'. change (kmalloc_area s1) with (PAGE_ALIGN p). unfold ram_word.
    rewrite <- (Z.add_0_r (PAGE_ALIGN p)) at 1.
    rewrite (run_bind _ _ _ _ _ _ _ _ (ram_byte_some _ _ _ _ (after_load_magic p s 0 _ eq_refl))).
    rewrite (run_bind _ _ _ _ _ _ _ _ (ram_byte_some _ _ _ _ (after_load_magic p s 1 _ eq_refl))).
    rewrite (run_bind _ _ _ _ _ _ _ _ (ram_byte_some _ _ _ _ (after_load_magic p s 2 _ eq_refl))).
    by rewrite (run_bind _ _ _ _ _ _ _ _ (ram_byte_some _ _ _ _ (after_load_magic p s 3 _ eq_refl))).
  - eexists _, _, _, _, t2. reflexivity.
Qed.

End claims.

(** ** Witness *)

Module SampleSystem.
Export Sample.

(** The device has descriptor 3 and is mapped at 0x10000. *)
#[export] Instance sys : Sys state := {|
  sys_open path _ := if decide (path = filepath)
    then r ← dev_open; mret (sys_result 3 r) else mret (-1);
  sys_ioctl fd cmd arg := if decide (fd = 3)
    then r ← dev_ioctl cmd arg; mret (sys_result r r) else mret (-1);
  sys_close fd := if decide (fd = 3) then r ← dev_release; mret (sys_result 0 r) else mret (-1)
|}.

#[export] Instance device : CharDevice filepath 3 dev_open dev_ioctl dev_release.
Proof. by split. Qed.

Definition start := 0x10000.

#[export] Instance mmap : Mmap state := {|
  sys_mmap len fd :=
    r ← dev_mmap (VmArea 1 start (start + PAGE_ALIGN len) 0);
    mret (if r =? 0 then start else MAP_FAILED);
  user_load32 u := fun K s t =>
    match t with
    | (remap_pfn_range _ a pfn size _, _) :: _ => ram_word (pfn * PAGE_SIZE + offset + (u - a)) K s t
    | _ => Done 0 s t
    end
|}.

#[export] Instance mapping : Mapping 3 offset.
Proof.
  split.
  - intros len K s t Hlen. exists (VmArea 1 start (start + PAGE_ALIGN len) 0).
    split; [done|]. split; [done|]. split; [|done]. cbn [vm_end].
    pose proof (page_align_bounds len). change PAGE_SIZE with 4096 in *. unfold start. lia.
  - intros vma pfn size prot ret k K s t Hh _ _ _. destruct t as [|e t]; [done|].
    injection Hh as ->. cbn [user_load32 mmap]. by replace (vm_start vma + k - vm_start vma) with k by lia.
Qed.

End SampleSystem.
Import SampleSystem.

Lemma client_prints_stale_witness :
  exists s1 t1 t2, mydriver_init kernel unloaded [] = Done 0 s1 t1 /\
    main kernel s1 t1 = Done 0 s1 t2.
Proof.
  assert (H1 : 12 <= PAGE_SHIFT) by (cbn; lia).
  assert (H2 : 3 * PAGE_SIZE < 2 ^ 64) by (change PAGE_SIZE with 4096; lia).
  destruct (client_prints_stale kernel offset struct_page 3 H1 H2
    unloaded []) as (s1 & t1 & t2 & E1 & E2 & _); [exact registers_ok|by vm_compute|done|done|done|].
  exists s1, t1, t2. exact (conj E1 E2).
Defined.

End MemoryClient.
